(* ===== verification/_CoqProject ===== *)
-Q . S2P
Prelude.v
Sha256.v
GoLib.v
Json.v
Types.v
Decide.v
Reducer.v
Lifecycle.v
Replay.v
ReplayTheorems.v
Cycle.v
CycleTheorems.v
Receipt.v
Effect.v
Store.v
Samples.v
MemoryStore.v
Database.v
Artifact.v
PostgresStore.v
PostgresFacts.v
PostgresTheorems.v
Lease.v
System.v
SystemTheorems.v
ManagedWitnesses.v
Reasoner.v
ReasonerTheorems.v
Controller.v
Managed.v
Operations.v
ManagedTheorems.v
ControllerWitnesses.v
Regexp.v
Url.v
Credentials.v
Float64.v
Contract.v
ContractTheorems.v
AuditLog.v
Policy.v
PathFacts.v
PolicyTheorems.v
ToolService.v
JsonPrint.v
ServiceTheorems.v
WireTheorems.v
Decode.v
Host.v
HostFacts.v
Helper.v
HelperTheorems.v
HelperPaths.v
Agent.v
AgentTheorems.v
Cassette.v
CassetteTheorems.v
Eino.v
EinoFacts.v
EinoTheorems.v
Worker.v
WorkerTheorems.v
WorkerSystem.v
WorkerWitnesses.v
Docker.v
DockerProvider.v
Worktree.v
DockerFacts.v
DockerTracking.v
DockerTheorems.v
DockerWitnesses.v
ProviderTheorems.v
WorktreeFacts.v
WorktreeTree.v
WorktreeTheorems.v
Cli.v
CliTheorems.v
WorkerMain.v
Integration.v
Demos.v
