(* ===== verification/Prelude.v ===== *)
(** * AgentDock Verify: a verification development

    AgentDock drives coding Runs to their end: a controller decides the next action of a Run
    from its event log, workers carry actions out under a lease, a model proposes changes
    through tools that a policy checks and a docker sandbox executes.  This development models
    the Go code of that system and proves what makes it correct.

    ** The parts and how they interact

    A Run is a log of events.  The reducer folds a log into a state or rejects it; the decision
    function maps a state to the next action.  A store appends an event at an expected version,
    and the reducer validates what it appends.  The controller loops over them: read the state,
    decide, record the plan, execute, record the result.  On PostgreSQL an append also needs
    the current lease of the Run (a fencing token), and the result of an external action needs
    a receipt recorded under that lease.  A worker acquires the lease, renews it in one
    goroutine, reports itself alive in another, and reconciles in the main one.

    The actor inside an action is the coding agent: turns of a model, read as a normalised
    stream (from the Eino adapter, or from a cassette), and calls of tools.  The tool service
    checks each call - scope, contract, command, paths, policy -, records it in the audit and
    hands it to a sandbox.  The docker sandbox runs one container per command on a disposable
    Git worktree; in the container the helper program works below the workspace only.

    ** Files, and the code they model (paths are below src/)

    - Common: [Prelude] (errors as values that errors.Is sees, results, record update, lists),
      [Sha256], [GoLib] (strings, UTF-8, the JSON encoder, RFC 3339, filepath), [Json] and
      [JsonPrint] (encoding/json's parser, and that printing is undone by parsing), [Decode]
      (JSON into structs), [Regexp], [Url], [Float64], [Effect] (the monad of methods with a
      result and an error on a shared object).
    - internal/domain: [Types] (types.go), [Decide] (decide.go), [Reducer] (reducer.go),
      [Receipt] (receipt.go and the JSON of types.go).  [Lifecycle] is the invariant of reduced
      states, [Replay] and [ReplayTheorems] are about whole logs, [Cycle] and [CycleTheorems]
      about decide-plan-complete iterated, [Samples] holds concrete Runs for the witnesses.
    - internal/store: [Store] (store.go, the validation of appends, and [appendSpec], the
      abstract append), [Credentials] (the scanner of validation.go), [MemoryStore]
      (memory.go), [Database] (tables and transactions, migrations/*.up.sql read as
      constraints), [Artifact] (artifact.go), [PostgresStore] (postgres.go), with
      [PostgresFacts] and [PostgresTheorems].
    - internal/lease: [Lease] (lease.go, postgres.go).  [System] is the step relation of
      everything that writes the database and the abstract fencing protocol;
      [SystemTheorems] quantify over its histories; [ManagedWitnesses] holds a concrete one.
    - internal/controller: [Controller] (controller.go), [Managed] (managed.go), [Operations]
      (their operations as histories of [System]), [ManagedTheorems], [ControllerWitnesses].
    - internal/reasoner: [Reasoner] and [ReasonerTheorems] (reasoner.go, stream.go, fake.go),
      [Agent] and [AgentTheorems] (coding_agent.go), [Cassette] and [CassetteTheorems]
      (replay.go, provider_error.go), [Eino], [EinoFacts] and [EinoTheorems] (eino/eino.go).
    - internal/tools: [Contract] and [ContractTheorems] (contract.go), [ToolService],
      [ServiceTheorems] and [WireTheorems] (service.go).
    - internal/policy: [AuditLog] (audit.go), [Policy] (policy.go, path.go), [PathFacts],
      [PolicyTheorems].
    - internal/sandbox: [Host] (sandbox.go and the system below it), [Docker] (docker.go, one
      sandbox), [DockerProvider] (docker.go, the provider), [Worktree] (worktree.go).  Facts:
      [HostFacts], [DockerFacts] (what a sandbox may ask of docker), [DockerTracking] (which
      containers it must remember), [WorktreeFacts] (what the provider may ask of the system),
      [WorktreeTree] (ls-tree and its reading).  Theorems: [DockerTheorems],
      [DockerWitnesses], [ProviderTheorems], [WorktreeTheorems].
    - cmd/sandbox-helper: [Helper], [HelperTheorems], [HelperPaths].
    - internal/worker: [Worker] (one process, every schedule of its goroutines),
      [WorkerTheorems], [WorkerSystem] (many processes on one database), [WorkerWitnesses];
      cmd/worker: [WorkerMain].
    - internal/cli and cmd/agentdock: [Cli] and [CliTheorems].
    - [Integration]: the agent with the tool service, the docker sandbox and Git worktrees.
    - cmd/sandbox-demo, cmd/eino-recorded-demo, cmd/migrate, internal/migration and
      scripts/configcheck: [Demos].

    An operation has the name of its Go function; a method that exists twice carries the name
    of its Module.  Enumerations of strings stay strings; int and uint64 are [Z] with the wrap
    ([i64], [u64]) where the code computes; maps are [gmap]s; a map that is ranged over takes
    the order of the range as a parameter.  A method under a mutex, and a transaction, is one
    step; the goroutines of a worker interleave at every access to what they share.

    ** What is shown

    - The lifecycle: every accepted log is well formed and its state satisfies the invariant,
      success has its evidence, a checkpoint may replace its prefix, and the cycle of
      decisions converges ([reduce_accepted_log], [success_has_evidence],
      [checkpoint_replay], [drive_converges]).
    - The stores refine one abstract append ([memory_store_refines],
      [postgres_store_refines]), and an append needs authority, evidence and no credentials
      ([append_needs_authority], [completion_needs_receipt], [nested_credentials_are_found]).
    - The managed protocol, over all histories: one writer per grant, consistent tables,
      exclusive leases, no second execution behind a receipt, nothing recorded after a lost
      lease; the controllers and any number of workers are such histories
      ([single_writer], [reachable_consistent], [acquire_is_exclusive],
      [receipt_prevents_reexecution], [lost_lease_records_nothing], [operates_history],
      [workers_exclude_each_other], [stale_probe_is_refused]).
    - A worker stops when it is cancelled, under every schedule, and reports what its calls
      answered ([cancellation_stops_worker], [worker_reports_truth]).
    - The model's side: a turn is one well-formed sequence, fragments become whole calls, the
      agent ends within its budget with every call answered ([collect_reads_one_turn],
      [eino_turn_assembled], [model_reads_one_system_message], [agent_conversation]).
    - Tools and policy: nothing runs that was not cleared by a rule, a contract and a path
      check, and each decision is in the audit ([execution_is_authorised],
      [policy_denies_by_default], [no_symlink_escape], [valid_contract_is_typed],
      [audit_log_roundtrip], [helper_acts_on_checked_paths], [patch_applies_once]).
    - The sandbox: containers are isolated, owned, bounded and never forgotten; destruction
      is complete; worktrees stay below their root and hold their commit
      ([containers_are_isolated], [only_owned_containers_are_touched],
      [containers_are_never_lost], [sandboxes_are_never_lost], [destroy_is_complete],
      [output_is_bounded], [worktree_effects_are_confined], [worktrees_are_never_lost],
      [worktree_holds_the_commit]); and all of it at once under the agent
      ([agent_works_in_isolation]).  The demonstration programs compose the same parts, stay
      in their directory and leave no sandbox behind ([scenario_is_scoped],
      [scenario_leaves_no_sandbox], [sandbox_demo_leaves_no_sandbox]).
    - A session runs its lines, however they arrive ([session_runs_its_lines]).

    ** Bounds and fuel

    Limits of the code are its constants: 64 retries of a changed intent, 32 levels of text in
    text for credentials, 10000 levels of JSON, 1 MiB lines and 4 MiB patches of the helper,
    64 KiB lines of a session, 4 MiB cassettes, 5 inspections of a container, 8 names for a
    worktree.  Fuel stands where Go loops or recurses on something that is not a part of its
    argument: the JSON parser takes the length of the text, and more changes nothing
    ([parse_value] reads all that is printed); [validateSchemaDefinition_fuel] and
    [scanString_fuel] show the same of schemas and of the credential scanner; [collectFuel]
    and [answersFuel] are computed from the stream and its theorems show that the turn is
    collected; the ancestors of a path are at most its length; directories nest to
    4096 ([walkDepth], [cleanupDepth]), the longest name the system accepts; a session needs
    no more than its bytes and reads ([session_runs_its_lines] states it for any larger
    fuel); [demoFuel] is shown to be enough by [demonstration_succeeds].

    ** Parameters

    What is not under src/ is an argument.  Systems: [Postgres] (the clock, JSONB) with
    [PostgresLaws]; [Host] (processes, files, clock, randomness) and [WorktreeHost] with
    [Traced], [Logged], [SystemLaws] and [GitLaws] - the log of commands grows by what was
    called -; [FileSystem] with [FileSystemLaws]; [Root] (os.Root) with [RootLaws], [ProbeHost] and
    [ProgramHost] (the rest of what the helper's probes and the demonstrations use);
    [WallClock]; a context that obeys its deadline ([ObeysContext]).  Libraries: [YAML],
    [Cobra], [Migrate], [YAMLNodes], the chat model of Eino, [AddressParser] (net/netip), [ErrorText].
    Interfaces of the program are classes that a client's theorems assume and an
    implementation's discharge: [EventStore], [Manager], [ManagedRunInspector],
    [CredentialScanner], [ReasonerPort], [ToolContract], [Worktrees], the audit recorders.
    The theorems with such hypotheses are applied at concrete instances by their witnesses.

    ** Not modelled

    - The texts of messages, beyond what a caller compares; printing to a terminal is kept as
      values where a program's output is its result ([Helper], [Cli]) and left out elsewhere.
    - Failures of the database driver and of the network; connecting, flags and signals.
    - The points where the tests inject faults.
    - What the kernel and docker do: isolation is shown of the commands the sandbox issues. *)
From stdpp Require Export base tactics numbers list strings gmap sets pretty.

(** ** Errors

    Go errors are values compared with [errors.Is].  The development keeps what
    [errors.Is] and [errors.As] can observe: the package sentinels, the typed
    errors with their fields, and the wrapping structure.  The text of a message
    is not modelled. *)

Inductive sentinel : Type :=
  (* internal/domain/reducer.go *)
  | ErrInvalidSequence | ErrDuplicateIdempotencyKey | ErrInvalidTransition
  | ErrTerminalState | ErrUnsupportedEvent | ErrInvalidEvent
  (* internal/store/store.go *)
  | ErrRunNotFound | ErrInvalidAppend | ErrVersionConflict | ErrIdempotencyConflict
  | ErrSensitivePayload | ErrStaleFencingToken | ErrMissingActionReceipt
  | ErrActionReceiptMismatch | ErrManagedRunLegacyEvent | ErrArtifactNotFound
  | ErrArtifactIntegrity
  (* internal/lease/lease.go *)
  | ErrInvalidLease | ErrWorkerNotFound | ErrWorkerRegistered | ErrLeaseNotFound
  | ErrLeaseHeld | ErrLegacyExecutionInProgress | ErrLeaseExpired | ErrStaleLease
  | ErrReceiptNotFound | ErrReceiptConflict | ErrReceiptWithoutPlan
  (* internal/controller *)
  | ErrInvalidRequest | ErrRunExists | ErrManagedRunRequiresLease | ErrInjectedCrash
  (* internal/reasoner *)
  | ErrIllegalToolCall | ErrInvalidResult | ErrTurnBudgetExceeded
  (* internal/tools *)
  | ErrInvalidContract | ErrSchemaValidation | ErrUnknownTool | ErrScopeMismatch
  (* internal/policy *)
  | ErrDenied | ErrUnsafePath
  (* internal/sandbox *)
  | ErrDestroyed | ErrTimeout | ErrCommandNotAllowed | ErrContainerOwnership
  | ErrContainerOutcomeUnknown
  (* context, io/fs *)
  | ContextCanceled | DeadlineExceeded | FileExists | FileNotExist.

#[export] Instance sentinel_eq_dec : EqDecision sentinel.
Proof. solve_decision. Defined.

(** [Sentinel s] is [s] itself or [fmt.Errorf("%w: ...", s, ...)]; [Wrap e]
    and [Wrap2 e1 e2] are [fmt.Errorf] with one and two further [%w] operands; [ExitError] is
    that of internal/sandbox and [ProcessExit] that of os/exec; [Plain what] is an
    error without a sentinel ([errors.New] at the point of use, a driver or an
    operating-system error). *)
Inductive error : Type :=
  | Sentinel (s : sentinel)
  | Wrap (e : error)
  | Wrap2 (e1 e2 : error)
  | Plain (what : string)
  | VersionConflictError (RunID : string) (Expected Actual : Z)
  | FencingTokenError (RunID WorkerID : string) (FencingToken : Z)
      (CurrentWorker : string) (CurrentToken : Z) (Expired : bool)
  | LeaseError (RunID WorkerID : string) (FencingToken : Z)
      (CurrentWorker : string) (CurrentToken : Z) (Cause : sentinel)
  | ExitError (Code : Z)
  | ProcessExit (Code : Z).

(** [errors.Is]: the [Unwrap] methods of the typed errors are those of
    store.go and lease.go; [ErrLegacyExecutionInProgress] wraps [ErrLeaseHeld]. *)
Definition sentinel_is (s target : sentinel) : bool :=
  bool_decide (s = target) ||
  match s with
  | ErrLegacyExecutionInProgress => bool_decide (ErrLeaseHeld = target)
  | _ => false
  end.

Fixpoint errors_Is (err : error) (target : sentinel) : bool :=
  match err with
  | Sentinel s => sentinel_is s target
  | Wrap e => errors_Is e target
  | Wrap2 e1 e2 => errors_Is e1 target || errors_Is e2 target
  | Plain _ => false
  | VersionConflictError _ _ _ => sentinel_is ErrVersionConflict target
  | FencingTokenError _ _ _ _ _ _ => sentinel_is ErrStaleFencingToken target
  | LeaseError _ _ _ _ _ cause => sentinel_is cause target
  | ExitError _ | ProcessExit _ => false
  end.

(** [errors.Join]: what is nil is left out, and nil is the join of nothing. *)
Fixpoint errors_Join (errs : list (option error)) : option error :=
  match errs with
  | [] => None
  | None :: rest => errors_Join rest
  | Some e :: rest => Some (match errors_Join rest with Some e' => Wrap2 e e' | None => Wrap e end)
  end.

(** ** The error monad: Go's [(T, error)] results *)

Inductive result (A : Type) : Type :=
  | Ok (a : A)
  | Err (e : error).
Arguments Ok {A} a.
Arguments Err {A} e.

#[export] Instance result_ret : MRet result := @Ok.
#[export] Instance result_bind : MBind result :=
  fun A B f m => match m with Ok a => f a | Err e => Err e end.
#[export] Instance result_fmap : FMap result :=
  fun A B f m => match m with Ok a => Ok (f a) | Err e => Err e end.

(** [if cond { return err }] followed by the rest of the body. *)
Definition guard_err (cond : bool) (e : error) : result unit :=
  if cond then Err e else Ok tt.

(** [fmt.Errorf("context: %w", err)] *)
Definition wrap {A} (m : result A) : result A :=
  match m with Ok a => Ok a | Err e => Err (Wrap e) end.

Definition is_ok {A} (m : result A) : bool :=
  match m with Ok _ => true | Err _ => false end.

(** ** Record update

    [r <| f := v |>] updates one field; each record of the development declares
    the [Setter] instances of the fields its operations assign. *)
Class Setter {R E : Type} (proj : R -> E) := set_field : E -> R -> R.

Declare Scope record_scope.
Notation "r <| f := v |>" := (set_field (proj := f) v r)
  (at level 1, left associativity, format "r <|  f  :=  v  |>") : record_scope.
Open Scope record_scope.

(** ** Machine integers *)

(** Go's [uint64] and [int] (64-bit) arithmetic wraps. *)
Definition u64 (z : Z) : Z := z mod 2 ^ 64.
Definition i64 (z : Z) : Z := (z + 2 ^ 63) mod 2 ^ 64 - 2 ^ 63.

Lemma u64_small z : (0 <= z < 2 ^ 64)%Z -> u64 z = z.
Proof. intros; unfold u64; apply Z.mod_small; lia. Qed.

Lemma i64_small z : (- 2 ^ 63 <= z < 2 ^ 63)%Z -> i64 z = z.
Proof. intros; unfold i64; rewrite Z.mod_small; lia. Qed.

Lemma u64_bounds z : (0 <= u64 z < 2 ^ 64)%Z.
Proof. apply Z.mod_pos_bound. lia. Qed.

Lemma u64_i64 z : (0 <= z < 2 ^ 64)%Z -> u64 (i64 z) = z.
Proof.
  intros Hz. unfold u64, i64. rewrite Zminus_mod, Zmod_mod, <- Zminus_mod.
  replace (z + 2 ^ 63 - 2 ^ 63)%Z with z by lia. by apply Z.mod_small.
Qed.

(** ** Inversion of successful runs

    [ok_inv] decomposes every hypothesis of the form [body = Ok v]: binds become
    the intermediate results, failed guards disappear, [if]s are split. *)

Lemma bind_Ok {A B} (f : A -> result B) (m : result A) (b : B) :
  m ≫= f = Ok b <-> exists a, m = Ok a /\ f a = Ok b.
Proof.
  destruct m; simpl; split; intros H; try done; [by eauto | by destruct H as (? & [= ->] & ?) |
    by destruct H as (? & ? & ?)].
Qed.

Lemma bind_Err {A B} (f : A -> result B) (m : result A) (e : error) :
  m ≫= f = Err e <-> m = Err e \/ exists a, m = Ok a /\ f a = Err e.
Proof.
  destruct m; simpl; split; intros H; eauto;
    [by destruct H as [|(? & [= ->] & ?)] | injection H as ->; by left |
     destruct H as [[= ->]|(? & ? & ?)]; done].
Qed.

Lemma guard_err_Ok cond e u : guard_err cond e = Ok u <-> cond = false.
Proof. by destruct cond, u. Qed.

Lemma wrap_Ok {A} (m : result A) (a : A) : wrap m = Ok a -> m = Ok a.
Proof. by destruct m. Qed.

Lemma is_ok_true {A} (m : result A) : is_ok m = true <-> exists a, m = Ok a.
Proof. destruct m; simpl; split; [by eauto | done | done | by intros []]. Qed.

Ltac ok_step :=
  match goal with
  | H : Ok _ = Ok _ |- _ => injection H as H; subst
  | H : Err _ = Err _ |- _ => injection H as H; subst
  | H : Err _ = Ok _ |- _ => discriminate H
  | H : Ok _ = Err _ |- _ => discriminate H
  | H : mbind _ _ = Ok _ |- _ =>
      let v := fresh "v" in let E := fresh "E" in
      apply bind_Ok in H as (v & E & H); cbn beta in H
  | H : wrap _ = Ok _ |- _ => apply wrap_Ok in H
  | H : guard_err _ _ = Ok _ |- _ => apply guard_err_Ok in H
  | H : negb _ = false |- _ => apply negb_false_iff in H
  | H : negb _ = true |- _ => apply negb_true_iff in H
  | H : _ || _ = false |- _ => apply orb_false_iff in H as [? H]
  | H : bool_decide _ = false |- _ => apply bool_decide_eq_false in H
  | H : bool_decide _ = true |- _ => apply bool_decide_eq_true in H
  | H : (if decide ?P then _ else _) = Ok _ |- _ => destruct (decide P)
  | H : (if ?b then _ else _) = Ok _ |- _ => let E := fresh "E" in destruct b eqn:E
  | u : unit |- _ => destruct u
  end.

Ltac ok_inv := repeat (ok_step; try done).

(** [simp_not] turns the negated guards of early returns into positive facts. *)
Lemma not_or_split (P Q : Prop) : ~ (P \/ Q) -> ~ P /\ ~ Q.
Proof. tauto. Qed.

Ltac simp_not :=
  repeat match goal with
  | H : ~ (_ \/ _) |- _ => apply not_or_split in H as [? H]
  | H : ~ (?x <> ?y) |- _ => apply dec_stable in H
  | H : _ /\ _ |- _ => destruct H
  end.

(** Closed decidable facts (membership in a constant list, inequality of
    constants) by evaluation. *)
Ltac by_computation := apply (bool_decide_unpack _); vm_compute; exact I.

(** Preservation lemmas, by component. *)
Create HintDb lifecycle.

(** ** Lists *)
Lemma elem_of_snoc {A} (x : A) l : x ∈ l ++ [x].
Proof. apply elem_of_app. right. by apply list_elem_of_singleton. Qed.

Lemma elem_of_app_l {A} (x : A) l k : x ∈ l -> x ∈ l ++ k.
Proof. intros. apply elem_of_app. by left. Qed.

(** ** Strings *)
Lemma str_app_assoc (a b c : string) : (a +:+ b) +:+ c = a +:+ (b +:+ c).
Proof. induction a as [|x a IH]; [done|]. exact (f_equal (String x) IH). Qed.

Lemma str_app_nil (a : string) : a +:+ "" = a.
Proof. induction a as [|x a IH]; [done|]. exact (f_equal (String x) IH). Qed.
