(* ===== verification/Sha256.v ===== *)
(** * SHA-256 (FIPS 180-4), the [crypto/sha256] function the program uses for
    action identifiers, output digests, checkpoint digests and artifact digests.

    Words are 32-bit values in [Z]; the message schedule is kept as a sliding
    window of sixteen words, so one block takes 64 constant-time steps and the
    whole function evaluates under [vm_compute]. *)
From S2P Require Import Prelude.

Local Open Scope Z_scope.

Definition w32 (x : Z) : Z := Z.land x 0xFFFFFFFF.
Definition rotr (n x : Z) : Z := Z.lor (Z.shiftr x n) (w32 (Z.shiftl x (32 - n))).

Definition xor3 (x y z : Z) : Z := Z.lxor (Z.lxor x y) z.
Definition choose (e f g : Z) : Z :=
  Z.lxor (Z.land e f) (Z.land (Z.lxor e 0xFFFFFFFF) g).
Definition majority (a b c : Z) : Z :=
  xor3 (Z.land a b) (Z.land a c) (Z.land b c).

(** The constants are the first 32 bits of the fractional parts of the cube roots
    of the first 64 primes, the initial words those of the square roots of the
    first eight; both are computed from that definition. *)
Fixpoint cube_root (bits : nat) (root n : Z) : Z :=
  match bits with
  | O => root
  | S bits' =>
      let root' := root + 2 ^ Z.of_nat bits' in
      cube_root bits' (if root' * root' * root' <=? n then root' else root) n
  end.

Definition has_divisor (ps : list Z) (n : Z) : bool :=
  existsb (fun p => n mod p =? 0) ps.

Fixpoint primes_from (count fuel : nat) (ps : list Z) (n : Z) : list Z :=
  match fuel with
  | O => ps
  | S fuel' =>
      if (count <=? length ps)%nat then ps
      else primes_from count fuel' (if has_divisor ps n then ps else ps ++ [n]) (n + 1)
  end.

Definition primes : list Z := Eval vm_compute in primes_from 64 400 [] 2.

Definition round_constants : list Z :=
  Eval vm_compute in ((fun p => w32 (cube_root 36 0 (p * 2 ^ 96))) <$> primes).

(** The eight working variables. *)
Record words : Type := Words { wa : Z; wb : Z; wc : Z; wd : Z; we : Z; wf : Z; wg : Z; wh : Z }.

Definition initial_words : words :=
  Eval vm_compute in
    match (fun p => w32 (Z.sqrt (p * 2 ^ 64))) <$> take 8 primes with
    | [a; b; c; d; e; f; g; h] => Words a b c d e f g h
    | _ => Words 0 0 0 0 0 0 0 0
    end.

Definition compress_round (k w : Z) (s : words) : words :=
  let sum1 := xor3 (rotr 6 (we s)) (rotr 11 (we s)) (rotr 25 (we s)) in
  let sum0 := xor3 (rotr 2 (wa s)) (rotr 13 (wa s)) (rotr 22 (wa s)) in
  let t1 := wh s + sum1 + choose (we s) (wf s) (wg s) + k + w in
  let t2 := sum0 + majority (wa s) (wb s) (wc s) in
  Words (w32 (t1 + t2)) (wa s) (wb s) (wc s) (w32 (wd s + t1)) (we s) (wf s) (wg s).

(** The next schedule word from the sixteen previous ones. *)
Definition next_word (window : list Z) : Z :=
  match window with
  | [w0; w1; _; _; _; _; _; _; _; w9; _; _; _; _; w14; _] =>
      let s0 := xor3 (rotr 7 w1) (rotr 18 w1) (Z.shiftr w1 3) in
      let s1 := xor3 (rotr 17 w14) (rotr 19 w14) (Z.shiftr w14 10) in
      w32 (s1 + w9 + s0 + w0)
  | _ => 0
  end.

Fixpoint rounds (ks window : list Z) (s : words) : words :=
  match ks with
  | [] => s
  | k :: ks' =>
      let w := default 0 (head window) in
      rounds ks' (tail window ++ [next_word window]) (compress_round k w s)
  end.

Definition add_words (x y : words) : words :=
  Words (w32 (wa x + wa y)) (w32 (wb x + wb y)) (w32 (wc x + wc y)) (w32 (wd x + wd y))
        (w32 (we x + we y)) (w32 (wf x + wf y)) (w32 (wg x + wg y)) (w32 (wh x + wh y)).

Definition compress_block (s : words) (block : list Z) : words :=
  add_words s (rounds round_constants block s).

(** Bytes of a Go string, big-endian grouping and padding. *)
Definition bytes_of (s : string) : list Z :=
  (fun c => Z.of_N (Ascii.N_of_ascii c)) <$> String.list_ascii_of_string s.

Definition big_endian (n : nat) (x : Z) : list Z :=
  (fun i => Z.land (Z.shiftr x (8 * Z.of_nat i)) 255) <$> reverse (seq 0 n).

Definition pad (msg : list Z) : list Z :=
  let len := Z.of_nat (length msg) in
  let zeros := Z.to_nat ((55 - len) mod 64) in
  msg ++ [128] ++ replicate zeros 0 ++ big_endian 8 (8 * len).

Fixpoint group4 (bs : list Z) : list Z :=
  match bs with
  | b0 :: b1 :: b2 :: b3 :: rest =>
      Z.lor (Z.lor (Z.shiftl b0 24) (Z.shiftl b1 16)) (Z.lor (Z.shiftl b2 8) b3) :: group4 rest
  | _ => []
  end.

Fixpoint digest_blocks (n : nat) (ws : list Z) (s : words) : words :=
  match n with
  | O => s
  | S n' => digest_blocks n' (drop 16 ws) (compress_block s (take 16 ws))
  end.

(** [sha256.Sum256]: the 32 digest bytes. *)
Definition sum256 (msg : list Z) : list Z :=
  let ws := group4 (pad msg) in
  let s := digest_blocks (length ws / 16) ws initial_words in
  [wa s; wb s; wc s; wd s; we s; wf s; wg s; wh s] ≫= big_endian 4.

(** [fmt.Sprintf("%x", bytes)] *)
Definition hex_digit (d : Z) : Ascii.ascii :=
  Ascii.ascii_of_N (Z.to_N (if d <? 10 then 48 + d else 87 + d)).

Fixpoint hex (bs : list Z) : string :=
  match bs with
  | [] => EmptyString
  | b :: bs' => String (hex_digit (Z.shiftr b 4)) (String (hex_digit (Z.land b 15)) (hex bs'))
  end.

Definition sha256_hex (s : string) : string := hex (sum256 (bytes_of s)).

(** ** Test vectors *)

Example sha256_empty :
  sha256_hex EmptyString = "e3b0c44298fc1c149afbf4c8996fb92427ae41e4649b934ca495991b7852b855".
Proof. vm_compute. reflexivity. Qed.

Example sha256_abc :
  sha256_hex "abc" = "ba7816bf8f01cfea414140de5dae2223b00361a396177a9cb410ff61f20015ad".
Proof. vm_compute. reflexivity. Qed.

Example sha256_two_blocks :
  sha256_hex "abcdbcdecdefdefgefghfghighijhijkijkljklmklmnlmnomnopnopq"
  = "248d6a61d20638b8e5c026930c3e6039a33ce45964ff2167f6ecedd419db06c1".
Proof. vm_compute. reflexivity. Qed.

(** ** Shape of the output *)

Lemma length_big_endian n x : length (big_endian n x) = n.
Proof. unfold big_endian. by rewrite length_fmap, length_reverse, length_seq. Qed.

Lemma length_sum256 msg : length (sum256 msg) = 32%nat.
Proof.
  unfold sum256. cbv zeta. generalize (digest_blocks (length (group4 (pad msg)) / 16)
    (group4 (pad msg)) initial_words) as s; intros s.
  cbn [mbind list_bind]. by rewrite !length_app, !length_big_endian.
Qed.

Lemma length_hex bs : String.length (hex bs) = (2 * length bs)%nat.
Proof. induction bs; simpl; lia. Qed.

Lemma length_sha256_hex s : String.length (sha256_hex s) = 64%nat.
Proof. unfold sha256_hex. by rewrite length_hex, length_sum256. Qed.



Lemma big_endian_bytes n x : Forall (fun b => 0 <= b < 256) (big_endian n x).
Proof.
  unfold big_endian. apply Forall_fmap, Forall_forall. intros i _. cbn.
  change 255 with (Z.ones 8). rewrite Z.land_ones by lia. apply Z.mod_pos_bound. lia.
Qed.

Lemma sum256_bytes msg : Forall (fun b => 0 <= b < 256) (sum256 msg).
Proof.
  unfold sum256. cbv zeta. generalize (digest_blocks (length (group4 (pad msg)) / 16)
    (group4 (pad msg)) initial_words) as s; intros s.
  cbn [mbind list_bind]. rewrite !Forall_app. repeat split; try apply big_endian_bytes. constructor.
Qed.

#[global] Opaque sum256.
