(* ===== verification/GoLib.v ===== *)
(** * The parts of Go's standard library the sources use

    Strings as bytes, UTF-8, the string encoder of encoding/json, RFC 3339
    timestamps and lexical path operations. *)
From stdpp Require Import sorting.
From S2P Require Import Prelude Sha256.

(** ** Bytes *)

Definition ascii_of_Z (b : Z) : Ascii.ascii := Ascii.ascii_of_N (Z.to_N b).

Fixpoint string_of_bytes (bs : list Z) : string :=
  match bs with
  | [] => EmptyString
  | b :: rest => String (ascii_of_Z b) (string_of_bytes rest)
  end.

(** The double quote, which string literals here avoid. *)
Definition quote : string := String (ascii_of_Z 34) EmptyString.

(** ** UTF-8: the acceptance table of unicode/utf8 *)

Definition in_range (lo hi b : Z) : bool := (lo <=? b)%Z && (b <=? hi)%Z.
Definition continuation (b : Z) : bool := in_range 128 191 b.

Definition utf8_2 (b1 b2 : Z) : bool := in_range 194 223 b1 && continuation b2.

Definition utf8_3 (b1 b2 b3 : Z) : bool :=
  ((b1 =? 224)%Z && in_range 160 191 b2 || (b1 =? 237)%Z && in_range 128 159 b2 ||
   (in_range 225 236 b1 || in_range 238 239 b1) && continuation b2) && continuation b3.

Definition utf8_4 (b1 b2 b3 b4 : Z) : bool :=
  ((b1 =? 240)%Z && in_range 144 191 b2 || (b1 =? 244)%Z && in_range 128 143 b2 ||
   in_range 241 243 b1 && continuation b2) && continuation b3 && continuation b4.

(** [utf8.ValidString] *)
Fixpoint utf8_valid (bs : list Z) : bool :=
  match bs with
  | [] => true
  | b1 :: r1 =>
      if (b1 <? 128)%Z then utf8_valid r1
      else match r1 with
      | [] => false
      | b2 :: r2 =>
          if utf8_2 b1 b2 then utf8_valid r2
          else match r2 with
          | [] => false
          | b3 :: r3 =>
              if utf8_3 b1 b2 b3 then utf8_valid r3
              else match r3 with
              | [] => false
              | b4 :: r4 => utf8_4 b1 b2 b3 b4 && utf8_valid r4
              end
          end
      end
  end.

Definition ValidString (s : string) : bool := utf8_valid (bytes_of s).

(** ** encoding/json: strings

    [json.Marshal] escapes quote, backslash, control characters, the HTML
    characters and the two line separators, and writes [\ufffd] for each byte
    that does not start a valid encoding. *)

Definition bytes_lit (s : string) : list Z := bytes_of s.

Definition hex_byte (b : Z) : list Z := bytes_of (hex [b]).

Definition escape_ascii (b : Z) : list Z :=
  if ((b =? 34) || (b =? 92))%Z then [92; b]%Z
  else if (b =? 8)%Z then bytes_of "\b"
  else if (b =? 12)%Z then bytes_of "\f"
  else if (b =? 10)%Z then bytes_of "\n"
  else if (b =? 13)%Z then bytes_of "\r"
  else if (b =? 9)%Z then bytes_of "\t"
  else if ((b <? 32) || (b =? 60) || (b =? 62) || (b =? 38))%Z then bytes_of "\u00" ++ hex_byte b
  else [b].

Definition replacement : list Z := bytes_of "\ufffd".

(** U+2028 and U+2029. *)
Definition escape_3 (b1 b2 b3 : Z) : list Z :=
  if ((b1 =? 226) && (b2 =? 128) && ((b3 =? 168) || (b3 =? 169)))%Z
  then bytes_of "\u202" ++ [(b3 - 168 + 56)%Z]
  else [b1; b2; b3].

Fixpoint escape (bs : list Z) : list Z :=
  match bs with
  | [] => []
  | b1 :: r1 =>
      if (b1 <? 128)%Z then escape_ascii b1 ++ escape r1
      else match r1 with
      | [] => replacement
      | b2 :: r2 =>
          if utf8_2 b1 b2 then [b1; b2] ++ escape r2
          else match r2 with
          | [] => replacement ++ escape r1
          | b3 :: r3 =>
              if utf8_3 b1 b2 b3 then escape_3 b1 b2 b3 ++ escape r3
              else match r3 with
              | [] => replacement ++ escape r1
              | b4 :: r4 =>
                  if utf8_4 b1 b2 b3 b4 then [b1; b2; b3; b4] ++ escape r4
                  else replacement ++ escape r1
              end
          end
      end
  end.

Definition json_string (s : string) : string :=
  quote +:+ string_of_bytes (escape (bytes_of s)) +:+ quote.

Example json_plain : json_string "a<b" = quote +:+ "a\u003cb" +:+ quote.
Proof. reflexivity. Qed.

(** ** encoding/json: objects

    A struct is written in field order; a field tagged [omitempty] is left out
    when it holds its zero value. *)
Definition json_member (name value : string) : string := json_string name +:+ ":" +:+ value.

Definition json_object (members : list string) : string :=
  "{" +:+ String.concat "," members +:+ "}".

Definition json_array (values : list string) : string :=
  "[" +:+ String.concat "," values +:+ "]".

(** [json:"name,omitempty"] on a string field. *)
Definition omitempty (name value : string) : list string :=
  if decide (value = "") then [] else [json_member name (json_string value)].

Definition json_bool (b : bool) : string := if b then "true" else "false".

(** ** time: RFC3339Nano in UTC

    An instant is a number of microseconds since the Unix epoch, the resolution
    of PostgreSQL's timestamptz. *)
Definition pad_left (width : nat) (s : string) : string :=
  Nat.iter (width - String.length s) (fun t => "0" +:+ t) s.

Definition decimal (width : nat) (n : Z) : string := pad_left width (pretty n).

(** The proleptic Gregorian date of a day number. *)
Definition civil_of_days (days : Z) : Z * Z * Z := (
  let z := days + 719468 in
  let era := z / 146097 in
  let doe := z mod 146097 in
  let yoe := (doe - doe / 1460 + doe / 36524 - doe / 146096) / 365 in
  let doy := doe - (365 * yoe + yoe / 4 - yoe / 100) in
  let mp := (5 * doy + 2) / 153 in
  let d := doy - (153 * mp + 2) / 5 + 1 in
  let m := if mp <? 10 then mp + 3 else mp - 9 in
  (yoe + era * 400 + (if m <=? 2 then 1 else 0), m, d))%Z.

(** [.999999999]: the fraction without its trailing zeros. *)
Fixpoint fraction (digits : nat) (f : Z) : string :=
  match digits with
  | O => ""
  | S n =>
      if (f =? 0)%Z then ""
      else if (f mod 10 =? 0)%Z then fraction n (f / 10) else "." +:+ decimal (S n) f
  end.

Definition RFC3339Nano (micros : Z) : string :=
  let seconds := (micros / 1000000)%Z in
  let '(y, m, d) := civil_of_days (seconds / 86400) in
  let s := (seconds mod 86400)%Z in
  decimal 4 y +:+ "-" +:+ decimal 2 m +:+ "-" +:+ decimal 2 d +:+ "T" +:+
  decimal 2 (s / 3600) +:+ ":" +:+ decimal 2 (s / 60 mod 60) +:+ ":" +:+ decimal 2 (s mod 60) +:+
  fraction 6 (micros mod 1000000) +:+ "Z".

Example rfc3339_epoch : RFC3339Nano 0 = "1970-01-01T00:00:00Z".
Proof. vm_compute. reflexivity. Qed.

Example rfc3339_leap : RFC3339Nano 1709210096120500 = "2024-02-29T12:34:56.1205Z".
Proof. vm_compute. reflexivity. Qed.

(** ** path/filepath on a slash-separated system *)

Definition slash : Ascii.ascii := ascii_of_Z 47.

Fixpoint split_slash (s : string) : string * list string :=
  match s with
  | EmptyString => ("", [])
  | String c rest =>
      let '(w, ws) := split_slash rest in
      if decide (c = slash) then ("", w :: ws) else (String c w, ws)
  end.

Definition components (s : string) : list string := let '(w, ws) := split_slash s in w :: ws.

Definition rooted (s : string) : bool :=
  match s with String c _ => bool_decide (c = slash) | EmptyString => false end.

(** The stack discipline of [filepath.Clean]; [stack] is reversed. *)
Fixpoint clean_stack (root : bool) (stack parts : list string) : list string :=
  match parts with
  | [] => reverse stack
  | part :: rest =>
      if decide (part = "" \/ part = ".") then clean_stack root stack rest
      else if decide (part = "..") then
        match stack with
        | top :: below =>
            if decide (top = "..") then clean_stack root (part :: stack) rest
            else clean_stack root below rest
        | [] => if root then clean_stack root [] rest else clean_stack root [part] rest
        end
      else clean_stack root (part :: stack) rest
  end.

Definition clean_components (path : string) : list string :=
  clean_stack (rooted path) [] (components path).

Definition filepath_Clean (path : string) : string :=
  let body := String.concat "/" (clean_components path) in
  if rooted path then "/" +:+ body else if decide (body = "") then "." else body.

(** [filepath.Join]: the elements from the first non-empty one on. *)
Fixpoint filepath_Join (elements : list string) : string :=
  match elements with
  | [] => ""
  | e :: rest =>
      if decide (e <> "") then filepath_Clean (String.concat "/" elements) else filepath_Join rest
  end.

Fixpoint strip_common (base target : list string) : list string * list string :=
  match base, target with
  | b :: base', t :: target' =>
      if decide (b = t) then strip_common base' target' else (base, target)
  | _, _ => (base, target)
  end.

(** [filepath.Rel]: [None] is its error. *)
Definition filepath_Rel (base target : string) : option string :=
  if decide (filepath_Clean base = filepath_Clean target) then Some "."
  else if bool_decide (rooted base <> rooted target) then None
  else
    let '(b, t) := strip_common (clean_components base) (clean_components target) in
    match b with
    | ".." :: _ => None
    | _ => Some (String.concat "/" (replicate (length b) ".." ++ t))
    end.

(** [strings.HasPrefix], [strings.Contains] *)
Definition HasPrefix (s prefix : string) : bool := String.prefix prefix s.

Fixpoint Contains (s sub : string) : bool :=
  String.prefix sub s ||
  match s with EmptyString => false | String _ rest => Contains rest sub end.

Example rel_inside : filepath_Rel "/a/b" "/a/b/c-1" = Some "c-1".
Proof. reflexivity. Qed.
Example rel_outside : filepath_Rel "/a/b" "/a/c" = Some "../c".
Proof. reflexivity. Qed.

(** JSON texts are written with a quotation mark for each double quote. *)
Definition double_quoted (s : string) : string :=
  string_of_bytes (map (fun b => if (b =? 39)%Z then 34%Z else b) (bytes_of s)).

(** ** sort.Strings: bytewise order *)
Definition string_le (a b : string) : Prop := String.leb a b = true.
#[export] Instance string_le_dec : RelDecision string_le := fun a b => decide (String.leb a b = true).

Definition sort_Strings (l : list string) : list string := merge_sort string_le l.

(** The keys of a map, sorted. *)
Definition sorted_keys {A} (m : gmap string A) : list string := sort_Strings (map fst (map_to_list m)).
