(* ===== verification/Json.v ===== *)
(** * Parsing JSON as encoding/json does

    [json.Unmarshal] into an [any] and [json.Valid], over bytes: the grammar of
    RFC 8259, Go's replacement of what is not valid text, the nesting limit of its
    scanner and the range check of its numbers. *)
From S2P Require Import Prelude Sha256 GoLib.
Open Scope Z_scope.

(** Object members are kept in source order; numbers are kept as written. *)
Inductive json : Type :=
  | JNull
  | JBool (b : bool)
  | JNumber (text : list Z)
  | JString (s : list Z)
  | JArray (items : list json)
  | JObject (members : list (list Z * json)).

(** Induction through the items and the members. *)
Section nested_induction.
Context (P : json -> Prop) (HNull : P JNull) (HBool : forall b, P (JBool b))
  (HNumber : forall t, P (JNumber t)) (HString : forall s, P (JString s))
  (HArray : forall items, Forall P items -> P (JArray items))
  (HObject : forall members, Forall (fun m => P (snd m)) members -> P (JObject members)).

Fixpoint json_nested_ind (v : json) : P v :=
  match v with
  | JNull => HNull
  | JBool b => HBool b
  | JNumber t => HNumber t
  | JString s => HString s
  | JArray items => HArray items
      ((fix all items : Forall P items :=
          match items with
          | [] => Forall_nil_2 P
          | v :: rest => Forall_cons_2 P v rest (json_nested_ind v) (all rest)
          end) items)
  | JObject members => HObject members
      ((fix all members : Forall (fun m => P (snd m)) members :=
          match members with
          | [] => Forall_nil_2 _
          | m :: rest => Forall_cons_2 (fun m => P (snd m)) m rest (json_nested_ind (snd m)) (all rest)
          end) members)
  end.
End nested_induction.

(** The nesting of a value. *)
Fixpoint json_depth (v : json) : nat :=
  match v with
  | JArray items => S (foldr (fun v d => Nat.max (json_depth v) d) 0%nat items)
  | JObject members => S (foldr (fun m d => Nat.max (json_depth (snd m)) d) 0%nat members)
  | _ => 0%nat
  end.

Definition white (b : Z) : bool := bool_decide (b = 32 \/ b = 9 \/ b = 10 \/ b = 13).

Fixpoint skip_white (bs : list Z) : list Z :=
  match bs with
  | b :: rest => if white b then skip_white rest else bs
  | [] => []
  end.

Definition digit (b : Z) : bool := in_range 48 57 b.

Fixpoint span_digits (bs : list Z) : list Z * list Z :=
  match bs with
  | b :: rest => if digit b then let '(ds, r) := span_digits rest in (b :: ds, r) else ([], bs)
  | [] => ([], [])
  end.

(** ** Numbers: sign, integer part, fraction, exponent *)

Definition number_integer (bs : list Z) : option (list Z * list Z) :=
  match span_digits bs with
  | ([], _) => None
  | (48 :: _ :: _, _) => None
  | (ds, r) => Some (ds, r)
  end.

Definition number_fraction (bs : list Z) : option (list Z * list Z) :=
  match bs with
  | 46 :: r => match span_digits r with ([], _) => None | (ds, r') => Some (46 :: ds, r') end
  | _ => Some ([], bs)
  end.

Definition number_exponent (bs : list Z) : option (list Z * list Z) :=
  match bs with
  | b :: r =>
      if bool_decide (b = 101 \/ b = 69) then
        let '(sign, r1) :=
          match r with
          | s :: r1 => if bool_decide (s = 43 \/ s = 45) then ([s], r1) else ([], r)
          | [] => ([], r)
          end in
        match span_digits r1 with ([], _) => None | (ds, r2) => Some (b :: sign ++ ds, r2) end
      else Some ([], bs)
  | [] => Some ([], [])
  end.

Definition number_unsigned (bs : list Z) : option (list Z * list Z) :=
  '(i, r1) ← number_integer bs;
  '(f, r2) ← number_fraction r1;
  '(e, r3) ← number_exponent r2;
  Some (i ++ f ++ e, r3).

Definition parse_number (bs : list Z) : option (list Z * list Z) :=
  match bs with
  | 45 :: r => '(n, r') ← number_unsigned r; Some (45 :: n, r')
  | _ => number_unsigned bs
  end.

(** ** Strings *)

Definition hex_value (b : Z) : option Z :=
  if digit b then Some (b - 48)
  else if in_range 97 102 b then Some (b - 87)
  else if in_range 65 70 b then Some (b - 55)
  else None.

Definition hex4 (a b c d : Z) : option Z :=
  a ← hex_value a; b ← hex_value b; c ← hex_value c; d ← hex_value d;
  Some (4096 * a + 256 * b + 16 * c + d).

(** [utf8.AppendRune] *)
Definition utf8_encode (r : Z) : list Z :=
  if r <? 128 then [r]
  else if r <? 2048 then [192 + r / 64; 128 + r mod 64]
  else if r <? 65536 then [224 + r / 4096; 128 + r / 64 mod 64; 128 + r mod 64]
  else [240 + r / 262144; 128 + r / 4096 mod 64; 128 + r / 64 mod 64; 128 + r mod 64].

Definition RuneError : list Z := utf8_encode 65533.

Definition simple_escape (c : Z) : option Z :=
  if bool_decide (c = 34 \/ c = 92 \/ c = 47) then Some c
  else if bool_decide (c = 98) then Some 8
  else if bool_decide (c = 102) then Some 12
  else if bool_decide (c = 110) then Some 10
  else if bool_decide (c = 114) then Some 13
  else if bool_decide (c = 116) then Some 9
  else None.

(** The bytes of a string after its opening quote, escapes resolved; the result is
    code points for escapes and raw bytes otherwise. *)
Inductive piece : Type := Raw (b : Z) | Escaped (r : Z).

Fixpoint string_pieces (bs : list Z) : option (list piece * list Z) :=
  match bs with
  | [] => None
  | 34 :: rest => Some ([], rest)
  | 92 :: 117 :: a :: b :: c :: d :: rest =>
      r ← hex4 a b c d; '(ps, k) ← string_pieces rest; Some (Escaped r :: ps, k)
  | 92 :: e :: rest =>
      r ← simple_escape e; '(ps, k) ← string_pieces rest; Some (Raw r :: ps, k)
  | b :: rest =>
      if b <? 32 then None else '(ps, k) ← string_pieces rest; Some (Raw b :: ps, k)
  end.

Definition surrogate (r : Z) : bool := in_range 55296 57343 r.

(** Surrogate pairs are joined, lone surrogates and invalid bytes replaced. *)
Fixpoint unquote (ps : list piece) : list Z :=
  match ps with
  | [] => []
  | Escaped r :: rest =>
      if negb (surrogate r) then utf8_encode r ++ unquote rest
      else match rest with
      | Escaped r2 :: rest2 =>
          if in_range 55296 56319 r && in_range 56320 57343 r2
          then utf8_encode ((r - 55296) * 1024 + (r2 - 56320) + 65536) ++ unquote rest2
          else RuneError ++ unquote rest
      | _ => RuneError ++ unquote rest
      end
  | Raw b1 :: r1 =>
      if b1 <? 128 then b1 :: unquote r1
      else match r1 with
      | Raw b2 :: r2 =>
          if utf8_2 b1 b2 then b1 :: b2 :: unquote r2
          else match r2 with
          | Raw b3 :: r3 =>
              if utf8_3 b1 b2 b3 then b1 :: b2 :: b3 :: unquote r3
              else match r3 with
              | Raw b4 :: r4 =>
                  if utf8_4 b1 b2 b3 b4 then b1 :: b2 :: b3 :: b4 :: unquote r4
                  else RuneError ++ unquote r1
              | _ => RuneError ++ unquote r1
              end
          | _ => RuneError ++ unquote r1
          end
      | _ => RuneError ++ unquote r1
      end
  end.

Definition parse_string (bs : list Z) : option (list Z * list Z) :=
  '(ps, rest) ← string_pieces bs; Some (unquote ps, rest).

(** ** Values

    [fuel] bounds the length of the text still to be read; [depth] is the nesting
    that is still allowed. *)
Definition literal (word : string) (value : json) (bs : list Z) : option (json * list Z) :=
  let w := bytes_of word in
  if decide (take (length w) bs = w) then Some (value, drop (length w) bs) else None.

Section lists.
Context (value : list Z -> option (json * list Z)).

(** The items of an array after the first bracket or comma. *)
Fixpoint parse_items (fuel : nat) (bs : list Z) : option (list json * list Z) :=
  match fuel with
  | O => None
  | S n =>
      '(v, r) ← value bs;
      match skip_white r with
      | 44 :: r' => '(vs, k) ← parse_items n r'; Some (v :: vs, k)
      | 93 :: r' => Some ([v], r')
      | _ => None
      end
  end.

Definition parse_key (bs : list Z) : option (list Z * list Z) :=
  match skip_white bs with
  | 34 :: r =>
      '(k, r1) ← parse_string r;
      match skip_white r1 with 58 :: r2 => Some (k, r2) | _ => None end
  | _ => None
  end.

Fixpoint parse_members (fuel : nat) (bs : list Z) : option (list (list Z * json) * list Z) :=
  match fuel with
  | O => None
  | S n =>
      '(k, r0) ← parse_key bs;
      '(v, r) ← value r0;
      match skip_white r with
      | 44 :: r' => '(ms, rest) ← parse_members n r'; Some ((k, v) :: ms, rest)
      | 125 :: r' => Some ([(k, v)], r')
      | _ => None
      end
  end.
End lists.

Fixpoint parse_value (fuel depth : nat) (bs : list Z) : option (json * list Z) :=
  match fuel with
  | O => None
  | S n =>
      match skip_white bs with
      | 34 :: r => '(s, k) ← parse_string r; Some (JString s, k)
      | 123 :: r =>
          match depth with
          | O => None
          | S d =>
              match skip_white r with
              | 125 :: k => Some (JObject [], k)
              | _ => '(ms, k) ← parse_members (parse_value n d) n r; Some (JObject ms, k)
              end
          end
      | 91 :: r =>
          match depth with
          | O => None
          | S d =>
              match skip_white r with
              | 93 :: k => Some (JArray [], k)
              | _ => '(vs, k) ← parse_items (parse_value n d) n r; Some (JArray vs, k)
              end
          end
      | (116 :: _) as bs' => literal "true" (JBool true) bs'
      | (102 :: _) as bs' => literal "false" (JBool false) bs'
      | (110 :: _) as bs' => literal "null" JNull bs'
      | bs' => '(t, k) ← parse_number bs'; Some (JNumber t, k)
      end
  end.

(** [maxNestingDepth] of the scanner. *)
Definition maxNestingDepth : nat := Z.to_nat 10000.

Definition parse_bytes (bs : list Z) : option json :=
  match parse_value (S (length bs)) maxNestingDepth bs with
  | Some (v, rest) => if decide (skip_white rest = []) then Some v else None
  | None => None
  end.

(** [json.Valid] *)
Definition json_Valid (s : string) : bool :=
  match parse_bytes (bytes_of s) with Some _ => true | None => false end.

(** ** Number range

    Unmarshalling into an [any] converts every number to a float64 and fails
    when it overflows, that is when its magnitude is at least 2^1024 - 2^970. *)
Definition digits_value (ds : list Z) : Z := fold_left (fun acc d => 10 * acc + (d - 48)) ds 0.

(** Integer digits, fraction digits and exponent of a number text. *)
Definition number_parts (text : list Z) : list Z * list Z * Z :=
  let unsigned := match text with 45 :: r => r | _ => text end in
  let '(i, r1) := span_digits unsigned in
  let '(f, r2) := match r1 with 46 :: r => span_digits r | _ => ([], r1) end in
  let e := match r2 with
           | _ :: 45 :: ds => - digits_value ds
           | _ :: 43 :: ds => digits_value ds
           | _ :: ds => digits_value ds
           | [] => 0
           end in
  (i, f, e).

Definition float_limit : Z := 2 ^ 1024 - 2 ^ 970.

(** [m * 10^e >= float_limit]; a mantissa of [n] digits is below [10^n], so only a
    bounded range of exponents needs the exact comparison. *)
Definition float_overflows (text : list Z) : bool :=
  let '(i, f, e) := number_parts text in
  let m := digits_value (i ++ f) in
  let e := e - Z.of_nat (length f) in
  let n := Z.of_nat (length (i ++ f)) in
  if m =? 0 then false
  else if 309 <=? e then true
  else if n + e <? 309 then false
  else if 0 <=? e then float_limit <=? m * 10 ^ e
  else float_limit * 10 ^ (- e) <=? m.

Fixpoint numbers_in_range (v : json) : bool :=
  match v with
  | JNumber t => negb (float_overflows t)
  | JArray vs => forallb numbers_in_range vs
  | JObject ms => forallb (fun m => numbers_in_range (snd m)) ms
  | _ => true
  end.

(** [json.Unmarshal] into an [any]. *)
Definition json_Unmarshal (s : string) : option json :=
  match parse_bytes (bytes_of s) with
  | Some v => if numbers_in_range v then Some v else None
  | None => None
  end.

(** ** Objects as maps

    Unmarshalling into a map keeps of the members with one name the last. *)
Definition overwritten (m : list Z * json) (later : list (list Z * json)) : bool :=
  bool_decide (fst m ∈ map fst later).

Fixpoint live_members (members : list (list Z * json)) : list (list Z * json) :=
  match members with
  | [] => []
  | m :: later => if overwritten m later then live_members later else m :: live_members later
  end.

(** [object[name]] *)
Fixpoint member (name : list Z) (members : list (list Z * json)) : option json :=
  match members with
  | [] => None
  | (k, v) :: later =>
      match member name later with
      | Some v' => Some v'
      | None => if decide (k = name) then Some v else None
      end
  end.

(** A member that is not overwritten by a later one. *)
Definition live (m : list Z * json) (members : list (list Z * json)) : Prop :=
  exists earlier later, members = earlier ++ m :: later /\ fst m ∉ map fst later.

Lemma live_cons m x later :
  live m (x :: later) <-> overwritten x later = false /\ m = x \/ live m later.
Proof.
  unfold overwritten. rewrite bool_decide_eq_false. split.
  - intros ([|y e] & l & [= -> ->] & Hn); [by left|right]. by exists e, l.
  - intros [[Hn ->]|(e & l & -> & Hn)]; [by exists [], later|by exists (x :: e), l].
Qed.

Lemma live_members_spec m members : m ∈ live_members members <-> live m members.
Proof.
  induction members as [|x later IH]; cbn [live_members].
  - split; [by intros ?%elem_of_nil|]. by intros ([|] & ? & ? & _).
  - rewrite live_cons, <- IH. destruct (overwritten x later).
    + split; [by right|by intros [[]|]].
    + rewrite elem_of_cons. split; [intros [->|]; [by left|by right]|intros [[_ ->]|]; [by left|by right]].
Qed.

Lemma member_None name members : member name members = None <-> name ∉ map fst members.
Proof.
  induction members as [|[k v] later IH]; cbn [member map].
  - split; [intros _; apply not_elem_of_nil|done].
  - rewrite not_elem_of_cons. cbn [fst]. destruct (member name later); [split; [done|]|].
    + intros [_ Hn]. apply IH in Hn. done.
    + destruct (decide (k = name)) as [->|Hk]; [split; [done|by intros []]|]. split; [|done].
      intros _. split; [congruence|by apply IH].
Qed.

Lemma member_live name v members : member name members = Some v <-> live (name, v) members.
Proof.
  induction members as [|[k w] later IH]; cbn [member].
  - split; [done|]. by intros ([|] & ? & ? & _).
  - rewrite live_cons, <- IH. unfold overwritten. rewrite bool_decide_eq_false. cbn [fst].
    destruct (member name later) as [u|] eqn:Hm.
    + split; [by right|]. intros [[Hn [= -> ->]]|]; [|done]. exfalso. apply Hn.
      destruct (decide (k ∈ map fst later)) as [|Hk]; [done|]. apply member_None in Hk. congruence.
    + apply member_None in Hm. destruct (decide (k = name)) as [->|Hk].
      * split; [intros [= ->]; by left|]. by intros [[_ [= ->]]|].
      * split; [done|]. by intros [[_ [= -> ->]]|].
Qed.

(** [json.Unmarshal] into a [map[string]any]; null is the nil map. *)
Definition unmarshal_map (s : string) : option (list (list Z * json)) :=
  match json_Unmarshal s with
  | Some (JObject members) => Some members
  | Some JNull => Some []
  | _ => None
  end.

Close Scope Z_scope.

Example json_valid_object : json_Valid ("{" +:+ quote +:+ "patch" +:+ quote +:+ ": [1, -2.5e3, null]}") = true.
Proof. vm_compute. reflexivity. Qed.
Example json_invalid_trailing : json_Valid "1 2" = false.
Proof. vm_compute. reflexivity. Qed.
Example json_unmarshal_overflow : json_Unmarshal "1e400" = None.
Proof. vm_compute. reflexivity. Qed.
