(* ===== verification/Types.v ===== *)
(** * Domain types: internal/domain/types.go

    String enumerations of the Go code ([type Status string], ...) are strings
    here as there: an event log may carry any text, and the reducer's default
    branches deal with it.  Timestamps are strings; [int] and [uint64] fields are
    [Z] with the wrap-around written where the code computes. *)
From S2P Require Import Prelude.

(** ** Enumerations *)

Abbreviation DesiredState := string (only parsing).
Abbreviation Status := string (only parsing).
Abbreviation EventType := string (only parsing).
Abbreviation CommandType := string (only parsing).
Abbreviation IdempotencyScope := string (only parsing).
Abbreviation ActionOutcome := string (only parsing).

Definition DesiredRunning : DesiredState := "Running".
Definition DesiredPaused : DesiredState := "Paused".
Definition DesiredCancelled : DesiredState := "Cancelled".

(** [DesiredState.Valid] *)
Definition DesiredState_Valid (state : DesiredState) : bool :=
  bool_decide (state = DesiredRunning ∨ state = DesiredPaused ∨ state = DesiredCancelled).

Definition StatusQueued : Status := "Queued".
Definition StatusProvisioning : Status := "Provisioning".
Definition StatusReasoning : Status := "Reasoning".
Definition StatusActing : Status := "Acting".
Definition StatusVerifying : Status := "Verifying".
Definition StatusRepairing : Status := "Repairing".
Definition StatusWaitingApproval : Status := "WaitingApproval".
Definition StatusPaused : Status := "Paused".
Definition StatusSucceeded : Status := "Succeeded".
Definition StatusFailed : Status := "Failed".
Definition StatusCancelled : Status := "Cancelled".

(** [Status.Terminal] *)
Definition Terminal (status : Status) : bool :=
  bool_decide (status = StatusSucceeded ∨ status = StatusFailed ∨ status = StatusCancelled).

Definition CurrentEventPayloadVersion : Z := 1.

Definition EventRunCreated : EventType := "RunCreated".
Definition EventDesiredStateChanged : EventType := "RunDesiredStateChanged".
Definition EventLeaseAcquired : EventType := "LeaseAcquired".
Definition EventLeaseRenewed : EventType := "LeaseRenewed".
Definition EventLeaseExpired : EventType := "LeaseExpired".
Definition EventAttemptStarted : EventType := "AttemptStarted".
Definition EventWorkspaceProvisionPlanned : EventType := "WorkspaceProvisionPlanned".
Definition EventWorkspaceProvisioned : EventType := "WorkspaceProvisioned".
Definition EventReasoningPlanned : EventType := "ReasoningPlanned".
Definition EventReasoningCompleted : EventType := "ReasoningCompleted".
Definition EventToolCallPlanned : EventType := "ToolCallPlanned".
Definition EventToolCallCompleted : EventType := "ToolCallCompleted".
Definition EventToolCallFailed : EventType := "ToolCallFailed".
Definition EventPatchProduced : EventType := "PatchProduced".
Definition EventVerificationPlanned : EventType := "VerificationPlanned".
Definition EventVerificationPassed : EventType := "VerificationPassed".
Definition EventVerificationFailed : EventType := "VerificationFailed".
Definition EventRepairScheduled : EventType := "RepairScheduled".
Definition EventApprovalRequested : EventType := "ApprovalRequested".
Definition EventApprovalResolved : EventType := "ApprovalResolved".
Definition EventCheckpointSaved : EventType := "CheckpointSaved".
Definition EventActionPlanned : EventType := "ActionPlanned".
Definition EventActionCompleted : EventType := "ActionCompleted".
Definition EventActionFailed : EventType := "ActionFailed".
Definition EventRunSucceeded : EventType := "RunSucceeded".
Definition EventRunFailed : EventType := "RunFailed".
Definition EventRunCancelled : EventType := "RunCancelled".

Definition CommandNoop : CommandType := "Noop".
Definition CommandStartAttempt : CommandType := "StartAttempt".
Definition CommandProvisionWorkspace : CommandType := "ProvisionWorkspace".
Definition CommandRunReasoner : CommandType := "RunReasoner".
Definition CommandApplyPatch : CommandType := "ApplyPatch".
Definition CommandVerify : CommandType := "Verify".
Definition CommandSucceedRun : CommandType := "SucceedRun".
Definition CommandFailRun : CommandType := "FailRun".
Definition CommandCancelRun : CommandType := "CancelRun".

Definition IdempotencyScoped : IdempotencyScope := "scoped-idempotent".
Definition IdempotencyUnsafe : IdempotencyScope := "unsafe".

(** [IdempotencyScope.Valid] *)
Definition IdempotencyScope_Valid (scope : IdempotencyScope) : bool :=
  bool_decide (scope = IdempotencyScoped ∨ scope = IdempotencyUnsafe).

Definition ActionOutcomeFailed : ActionOutcome := "failed".
Definition ActionOutcomeAmbiguous : ActionOutcome := "ambiguous".

(** ** Records *)

(** Durable metadata and lifecycle dimensions of a Run. *)
Record Run : Type := MkRun {
  run_ID : string;
  run_ScenarioID : string;
  run_SpecHash : string;
  run_DesiredState : DesiredState;
  run_ObservedState : Status;
  run_CurrentAttempt : Z;
  run_Version : Z;
  run_CreatedAt : string;
  run_UpdatedAt : string
}.

#[export] Instance Run_eq_dec : EqDecision Run.
Proof. solve_decision. Defined.

#[export] Instance set_run_DesiredState : Setter run_DesiredState := fun v r =>
  MkRun (run_ID r) (run_ScenarioID r) (run_SpecHash r) v (run_ObservedState r) (run_CurrentAttempt r) (run_Version r) (run_CreatedAt r) (run_UpdatedAt r).
#[export] Instance set_run_ObservedState : Setter run_ObservedState := fun v r =>
  MkRun (run_ID r) (run_ScenarioID r) (run_SpecHash r) (run_DesiredState r) v (run_CurrentAttempt r) (run_Version r) (run_CreatedAt r) (run_UpdatedAt r).
#[export] Instance set_run_CurrentAttempt : Setter run_CurrentAttempt := fun v r =>
  MkRun (run_ID r) (run_ScenarioID r) (run_SpecHash r) (run_DesiredState r) (run_ObservedState r) v (run_Version r) (run_CreatedAt r) (run_UpdatedAt r).
#[export] Instance set_run_Version : Setter run_Version := fun v r =>
  MkRun (run_ID r) (run_ScenarioID r) (run_SpecHash r) (run_DesiredState r) (run_ObservedState r) (run_CurrentAttempt r) v (run_CreatedAt r) (run_UpdatedAt r).
#[export] Instance set_run_UpdatedAt : Setter run_UpdatedAt := fun v r =>
  MkRun (run_ID r) (run_ScenarioID r) (run_SpecHash r) (run_DesiredState r) (run_ObservedState r) (run_CurrentAttempt r) (run_Version r) (run_CreatedAt r) v.

(** One execution attempt. *)
Record Attempt : Type := MkAttempt {
  att_ID : string;
  att_RunID : string;
  att_Number : Z;
  att_WorkspaceDigest : string;
  att_Reason : string;
  att_StartedAt : string;
  att_FinishedAt : string
}.

#[export] Instance Attempt_eq_dec : EqDecision Attempt.
Proof. solve_decision. Defined.


(** The deterministic projection of an event log. *)
Record State : Type := MkState {
  st_Exists : bool;
  st_Run : Run;
  st_AttemptID : string;
  st_ResumeState : Status;
  st_PendingActionID : string;
  st_PendingActionType : CommandType;
  st_PendingAttemptID : string;
  st_PendingActionScope : IdempotencyScope;
  st_LastCompletedActionID : string;
  st_LastReceiptID : string;
  st_ReasoningOutput : string;
  st_ToolName : string;
  st_ToolArguments : string;
  st_PatchProduced : bool;
  st_VerificationPassed : bool;
  st_FailureReason : string;
  st_LastEventType : EventType
}.

#[export] Instance State_eq_dec : EqDecision State.
Proof. solve_decision. Defined.

#[export] Instance set_st_Run : Setter st_Run := fun v r =>
  MkState (st_Exists r) v (st_AttemptID r) (st_ResumeState r) (st_PendingActionID r) (st_PendingActionType r) (st_PendingAttemptID r) (st_PendingActionScope r) (st_LastCompletedActionID r) (st_LastReceiptID r) (st_ReasoningOutput r) (st_ToolName r) (st_ToolArguments r) (st_PatchProduced r) (st_VerificationPassed r) (st_FailureReason r) (st_LastEventType r).
#[export] Instance set_st_AttemptID : Setter st_AttemptID := fun v r =>
  MkState (st_Exists r) (st_Run r) v (st_ResumeState r) (st_PendingActionID r) (st_PendingActionType r) (st_PendingAttemptID r) (st_PendingActionScope r) (st_LastCompletedActionID r) (st_LastReceiptID r) (st_ReasoningOutput r) (st_ToolName r) (st_ToolArguments r) (st_PatchProduced r) (st_VerificationPassed r) (st_FailureReason r) (st_LastEventType r).
#[export] Instance set_st_ResumeState : Setter st_ResumeState := fun v r =>
  MkState (st_Exists r) (st_Run r) (st_AttemptID r) v (st_PendingActionID r) (st_PendingActionType r) (st_PendingAttemptID r) (st_PendingActionScope r) (st_LastCompletedActionID r) (st_LastReceiptID r) (st_ReasoningOutput r) (st_ToolName r) (st_ToolArguments r) (st_PatchProduced r) (st_VerificationPassed r) (st_FailureReason r) (st_LastEventType r).
#[export] Instance set_st_PendingActionID : Setter st_PendingActionID := fun v r =>
  MkState (st_Exists r) (st_Run r) (st_AttemptID r) (st_ResumeState r) v (st_PendingActionType r) (st_PendingAttemptID r) (st_PendingActionScope r) (st_LastCompletedActionID r) (st_LastReceiptID r) (st_ReasoningOutput r) (st_ToolName r) (st_ToolArguments r) (st_PatchProduced r) (st_VerificationPassed r) (st_FailureReason r) (st_LastEventType r).
#[export] Instance set_st_PendingActionType : Setter st_PendingActionType := fun v r =>
  MkState (st_Exists r) (st_Run r) (st_AttemptID r) (st_ResumeState r) (st_PendingActionID r) v (st_PendingAttemptID r) (st_PendingActionScope r) (st_LastCompletedActionID r) (st_LastReceiptID r) (st_ReasoningOutput r) (st_ToolName r) (st_ToolArguments r) (st_PatchProduced r) (st_VerificationPassed r) (st_FailureReason r) (st_LastEventType r).
#[export] Instance set_st_PendingAttemptID : Setter st_PendingAttemptID := fun v r =>
  MkState (st_Exists r) (st_Run r) (st_AttemptID r) (st_ResumeState r) (st_PendingActionID r) (st_PendingActionType r) v (st_PendingActionScope r) (st_LastCompletedActionID r) (st_LastReceiptID r) (st_ReasoningOutput r) (st_ToolName r) (st_ToolArguments r) (st_PatchProduced r) (st_VerificationPassed r) (st_FailureReason r) (st_LastEventType r).
#[export] Instance set_st_PendingActionScope : Setter st_PendingActionScope := fun v r =>
  MkState (st_Exists r) (st_Run r) (st_AttemptID r) (st_ResumeState r) (st_PendingActionID r) (st_PendingActionType r) (st_PendingAttemptID r) v (st_LastCompletedActionID r) (st_LastReceiptID r) (st_ReasoningOutput r) (st_ToolName r) (st_ToolArguments r) (st_PatchProduced r) (st_VerificationPassed r) (st_FailureReason r) (st_LastEventType r).
#[export] Instance set_st_LastCompletedActionID : Setter st_LastCompletedActionID := fun v r =>
  MkState (st_Exists r) (st_Run r) (st_AttemptID r) (st_ResumeState r) (st_PendingActionID r) (st_PendingActionType r) (st_PendingAttemptID r) (st_PendingActionScope r) v (st_LastReceiptID r) (st_ReasoningOutput r) (st_ToolName r) (st_ToolArguments r) (st_PatchProduced r) (st_VerificationPassed r) (st_FailureReason r) (st_LastEventType r).
#[export] Instance set_st_LastReceiptID : Setter st_LastReceiptID := fun v r =>
  MkState (st_Exists r) (st_Run r) (st_AttemptID r) (st_ResumeState r) (st_PendingActionID r) (st_PendingActionType r) (st_PendingAttemptID r) (st_PendingActionScope r) (st_LastCompletedActionID r) v (st_ReasoningOutput r) (st_ToolName r) (st_ToolArguments r) (st_PatchProduced r) (st_VerificationPassed r) (st_FailureReason r) (st_LastEventType r).
#[export] Instance set_st_ReasoningOutput : Setter st_ReasoningOutput := fun v r =>
  MkState (st_Exists r) (st_Run r) (st_AttemptID r) (st_ResumeState r) (st_PendingActionID r) (st_PendingActionType r) (st_PendingAttemptID r) (st_PendingActionScope r) (st_LastCompletedActionID r) (st_LastReceiptID r) v (st_ToolName r) (st_ToolArguments r) (st_PatchProduced r) (st_VerificationPassed r) (st_FailureReason r) (st_LastEventType r).
#[export] Instance set_st_ToolName : Setter st_ToolName := fun v r =>
  MkState (st_Exists r) (st_Run r) (st_AttemptID r) (st_ResumeState r) (st_PendingActionID r) (st_PendingActionType r) (st_PendingAttemptID r) (st_PendingActionScope r) (st_LastCompletedActionID r) (st_LastReceiptID r) (st_ReasoningOutput r) v (st_ToolArguments r) (st_PatchProduced r) (st_VerificationPassed r) (st_FailureReason r) (st_LastEventType r).
#[export] Instance set_st_ToolArguments : Setter st_ToolArguments := fun v r =>
  MkState (st_Exists r) (st_Run r) (st_AttemptID r) (st_ResumeState r) (st_PendingActionID r) (st_PendingActionType r) (st_PendingAttemptID r) (st_PendingActionScope r) (st_LastCompletedActionID r) (st_LastReceiptID r) (st_ReasoningOutput r) (st_ToolName r) v (st_PatchProduced r) (st_VerificationPassed r) (st_FailureReason r) (st_LastEventType r).
#[export] Instance set_st_PatchProduced : Setter st_PatchProduced := fun v r =>
  MkState (st_Exists r) (st_Run r) (st_AttemptID r) (st_ResumeState r) (st_PendingActionID r) (st_PendingActionType r) (st_PendingAttemptID r) (st_PendingActionScope r) (st_LastCompletedActionID r) (st_LastReceiptID r) (st_ReasoningOutput r) (st_ToolName r) (st_ToolArguments r) v (st_VerificationPassed r) (st_FailureReason r) (st_LastEventType r).
#[export] Instance set_st_VerificationPassed : Setter st_VerificationPassed := fun v r =>
  MkState (st_Exists r) (st_Run r) (st_AttemptID r) (st_ResumeState r) (st_PendingActionID r) (st_PendingActionType r) (st_PendingAttemptID r) (st_PendingActionScope r) (st_LastCompletedActionID r) (st_LastReceiptID r) (st_ReasoningOutput r) (st_ToolName r) (st_ToolArguments r) (st_PatchProduced r) v (st_FailureReason r) (st_LastEventType r).
#[export] Instance set_st_FailureReason : Setter st_FailureReason := fun v r =>
  MkState (st_Exists r) (st_Run r) (st_AttemptID r) (st_ResumeState r) (st_PendingActionID r) (st_PendingActionType r) (st_PendingAttemptID r) (st_PendingActionScope r) (st_LastCompletedActionID r) (st_LastReceiptID r) (st_ReasoningOutput r) (st_ToolName r) (st_ToolArguments r) (st_PatchProduced r) (st_VerificationPassed r) v (st_LastEventType r).
#[export] Instance set_st_LastEventType : Setter st_LastEventType := fun v r =>
  MkState (st_Exists r) (st_Run r) (st_AttemptID r) (st_ResumeState r) (st_PendingActionID r) (st_PendingActionType r) (st_PendingAttemptID r) (st_PendingActionScope r) (st_LastCompletedActionID r) (st_LastReceiptID r) (st_ReasoningOutput r) (st_ToolName r) (st_ToolArguments r) (st_PatchProduced r) (st_VerificationPassed r) (st_FailureReason r) v.

(** [InitialState]: the Go zero value [State{}]. *)
Definition zeroRun : Run := MkRun "" "" "" "" "" 0 0 "" "".
Definition InitialState : State :=
  MkState false zeroRun "" "" "" "" "" "" "" "" "" "" "" false false "" "".

(** Assignments through [state.Run]. *)
Definition st_ObservedState (s : State) : Status := run_ObservedState (st_Run s).
Definition st_DesiredState (s : State) : DesiredState := run_DesiredState (st_Run s).
Definition st_CurrentAttempt (s : State) : Z := run_CurrentAttempt (st_Run s).
Definition st_Version (s : State) : Z := run_Version (st_Run s).
Arguments st_ObservedState s /.
Arguments st_DesiredState s /.
Arguments st_CurrentAttempt s /.
Arguments st_Version s /.

#[export] Instance set_st_ObservedState : Setter st_ObservedState := fun v s =>
  s <| st_Run := (st_Run s) <| run_ObservedState := v |> |>.
#[export] Instance set_st_DesiredState : Setter st_DesiredState := fun v s =>
  s <| st_Run := (st_Run s) <| run_DesiredState := v |> |>.
#[export] Instance set_st_CurrentAttempt : Setter st_CurrentAttempt := fun v s =>
  s <| st_Run := (st_Run s) <| run_CurrentAttempt := v |> |>.
#[export] Instance set_st_Version : Setter st_Version := fun v s =>
  s <| st_Run := (st_Run s) <| run_Version := v |> |>.

(** The event payload. *)
Record EventData : Type := MkEventData {
  ed_ScenarioID : string;
  ed_SpecHash : string;
  ed_DesiredState : DesiredState;
  ed_AttemptID : string;
  ed_ActionID : string;
  ed_ActionType : CommandType;
  ed_IdempotencyScope : IdempotencyScope;
  ed_ReceiptID : string;
  ed_Outcome : ActionOutcome;
  ed_Output : string;
  ed_OutputDigest : string;
  ed_ArtifactID : string;
  ed_ArtifactDigest : string;
  ed_ToolName : string;
  ed_ToolArguments : string;
  ed_Reason : string
}.

#[export] Instance EventData_eq_dec : EqDecision EventData.
Proof. solve_decision. Defined.

#[export] Instance set_ed_ScenarioID : Setter ed_ScenarioID := fun v r =>
  MkEventData v (ed_SpecHash r) (ed_DesiredState r) (ed_AttemptID r) (ed_ActionID r) (ed_ActionType r) (ed_IdempotencyScope r) (ed_ReceiptID r) (ed_Outcome r) (ed_Output r) (ed_OutputDigest r) (ed_ArtifactID r) (ed_ArtifactDigest r) (ed_ToolName r) (ed_ToolArguments r) (ed_Reason r).
#[export] Instance set_ed_SpecHash : Setter ed_SpecHash := fun v r =>
  MkEventData (ed_ScenarioID r) v (ed_DesiredState r) (ed_AttemptID r) (ed_ActionID r) (ed_ActionType r) (ed_IdempotencyScope r) (ed_ReceiptID r) (ed_Outcome r) (ed_Output r) (ed_OutputDigest r) (ed_ArtifactID r) (ed_ArtifactDigest r) (ed_ToolName r) (ed_ToolArguments r) (ed_Reason r).
#[export] Instance set_ed_DesiredState : Setter ed_DesiredState := fun v r =>
  MkEventData (ed_ScenarioID r) (ed_SpecHash r) v (ed_AttemptID r) (ed_ActionID r) (ed_ActionType r) (ed_IdempotencyScope r) (ed_ReceiptID r) (ed_Outcome r) (ed_Output r) (ed_OutputDigest r) (ed_ArtifactID r) (ed_ArtifactDigest r) (ed_ToolName r) (ed_ToolArguments r) (ed_Reason r).
#[export] Instance set_ed_AttemptID : Setter ed_AttemptID := fun v r =>
  MkEventData (ed_ScenarioID r) (ed_SpecHash r) (ed_DesiredState r) v (ed_ActionID r) (ed_ActionType r) (ed_IdempotencyScope r) (ed_ReceiptID r) (ed_Outcome r) (ed_Output r) (ed_OutputDigest r) (ed_ArtifactID r) (ed_ArtifactDigest r) (ed_ToolName r) (ed_ToolArguments r) (ed_Reason r).
#[export] Instance set_ed_ActionID : Setter ed_ActionID := fun v r =>
  MkEventData (ed_ScenarioID r) (ed_SpecHash r) (ed_DesiredState r) (ed_AttemptID r) v (ed_ActionType r) (ed_IdempotencyScope r) (ed_ReceiptID r) (ed_Outcome r) (ed_Output r) (ed_OutputDigest r) (ed_ArtifactID r) (ed_ArtifactDigest r) (ed_ToolName r) (ed_ToolArguments r) (ed_Reason r).
#[export] Instance set_ed_ActionType : Setter ed_ActionType := fun v r =>
  MkEventData (ed_ScenarioID r) (ed_SpecHash r) (ed_DesiredState r) (ed_AttemptID r) (ed_ActionID r) v (ed_IdempotencyScope r) (ed_ReceiptID r) (ed_Outcome r) (ed_Output r) (ed_OutputDigest r) (ed_ArtifactID r) (ed_ArtifactDigest r) (ed_ToolName r) (ed_ToolArguments r) (ed_Reason r).
#[export] Instance set_ed_IdempotencyScope : Setter ed_IdempotencyScope := fun v r =>
  MkEventData (ed_ScenarioID r) (ed_SpecHash r) (ed_DesiredState r) (ed_AttemptID r) (ed_ActionID r) (ed_ActionType r) v (ed_ReceiptID r) (ed_Outcome r) (ed_Output r) (ed_OutputDigest r) (ed_ArtifactID r) (ed_ArtifactDigest r) (ed_ToolName r) (ed_ToolArguments r) (ed_Reason r).
#[export] Instance set_ed_ReceiptID : Setter ed_ReceiptID := fun v r =>
  MkEventData (ed_ScenarioID r) (ed_SpecHash r) (ed_DesiredState r) (ed_AttemptID r) (ed_ActionID r) (ed_ActionType r) (ed_IdempotencyScope r) v (ed_Outcome r) (ed_Output r) (ed_OutputDigest r) (ed_ArtifactID r) (ed_ArtifactDigest r) (ed_ToolName r) (ed_ToolArguments r) (ed_Reason r).
#[export] Instance set_ed_Outcome : Setter ed_Outcome := fun v r =>
  MkEventData (ed_ScenarioID r) (ed_SpecHash r) (ed_DesiredState r) (ed_AttemptID r) (ed_ActionID r) (ed_ActionType r) (ed_IdempotencyScope r) (ed_ReceiptID r) v (ed_Output r) (ed_OutputDigest r) (ed_ArtifactID r) (ed_ArtifactDigest r) (ed_ToolName r) (ed_ToolArguments r) (ed_Reason r).
#[export] Instance set_ed_Output : Setter ed_Output := fun v r =>
  MkEventData (ed_ScenarioID r) (ed_SpecHash r) (ed_DesiredState r) (ed_AttemptID r) (ed_ActionID r) (ed_ActionType r) (ed_IdempotencyScope r) (ed_ReceiptID r) (ed_Outcome r) v (ed_OutputDigest r) (ed_ArtifactID r) (ed_ArtifactDigest r) (ed_ToolName r) (ed_ToolArguments r) (ed_Reason r).
#[export] Instance set_ed_OutputDigest : Setter ed_OutputDigest := fun v r =>
  MkEventData (ed_ScenarioID r) (ed_SpecHash r) (ed_DesiredState r) (ed_AttemptID r) (ed_ActionID r) (ed_ActionType r) (ed_IdempotencyScope r) (ed_ReceiptID r) (ed_Outcome r) (ed_Output r) v (ed_ArtifactID r) (ed_ArtifactDigest r) (ed_ToolName r) (ed_ToolArguments r) (ed_Reason r).
#[export] Instance set_ed_ArtifactID : Setter ed_ArtifactID := fun v r =>
  MkEventData (ed_ScenarioID r) (ed_SpecHash r) (ed_DesiredState r) (ed_AttemptID r) (ed_ActionID r) (ed_ActionType r) (ed_IdempotencyScope r) (ed_ReceiptID r) (ed_Outcome r) (ed_Output r) (ed_OutputDigest r) v (ed_ArtifactDigest r) (ed_ToolName r) (ed_ToolArguments r) (ed_Reason r).
#[export] Instance set_ed_ArtifactDigest : Setter ed_ArtifactDigest := fun v r =>
  MkEventData (ed_ScenarioID r) (ed_SpecHash r) (ed_DesiredState r) (ed_AttemptID r) (ed_ActionID r) (ed_ActionType r) (ed_IdempotencyScope r) (ed_ReceiptID r) (ed_Outcome r) (ed_Output r) (ed_OutputDigest r) (ed_ArtifactID r) v (ed_ToolName r) (ed_ToolArguments r) (ed_Reason r).
#[export] Instance set_ed_ToolName : Setter ed_ToolName := fun v r =>
  MkEventData (ed_ScenarioID r) (ed_SpecHash r) (ed_DesiredState r) (ed_AttemptID r) (ed_ActionID r) (ed_ActionType r) (ed_IdempotencyScope r) (ed_ReceiptID r) (ed_Outcome r) (ed_Output r) (ed_OutputDigest r) (ed_ArtifactID r) (ed_ArtifactDigest r) v (ed_ToolArguments r) (ed_Reason r).
#[export] Instance set_ed_ToolArguments : Setter ed_ToolArguments := fun v r =>
  MkEventData (ed_ScenarioID r) (ed_SpecHash r) (ed_DesiredState r) (ed_AttemptID r) (ed_ActionID r) (ed_ActionType r) (ed_IdempotencyScope r) (ed_ReceiptID r) (ed_Outcome r) (ed_Output r) (ed_OutputDigest r) (ed_ArtifactID r) (ed_ArtifactDigest r) (ed_ToolName r) v (ed_Reason r).
#[export] Instance set_ed_Reason : Setter ed_Reason := fun v r =>
  MkEventData (ed_ScenarioID r) (ed_SpecHash r) (ed_DesiredState r) (ed_AttemptID r) (ed_ActionID r) (ed_ActionType r) (ed_IdempotencyScope r) (ed_ReceiptID r) (ed_Outcome r) (ed_Output r) (ed_OutputDigest r) (ed_ArtifactID r) (ed_ArtifactDigest r) (ed_ToolName r) (ed_ToolArguments r) v.

(** The Go zero value [EventData{}]; composite literals start from it. *)
Definition emptyEventData : EventData :=
  MkEventData "" "" "" "" "" "" "" "" "" "" "" "" "" "" "" "".

(** The ordered envelope consumed by [Reduce]. *)
Record Event : Type := MkEvent {
  ev_RunID : string;
  ev_Seq : Z;
  ev_Type : EventType;
  ev_PayloadVersion : Z;
  ev_Data : EventData;
  ev_IdempotencyKey : string;
  ev_CausationID : string;
  ev_CorrelationID : string;
  ev_WorkerID : string;
  ev_FencingToken : Z;
  ev_CreatedAt : string
}.

#[export] Instance Event_eq_dec : EqDecision Event.
Proof. solve_decision. Defined.

#[export] Instance set_ev_RunID : Setter ev_RunID := fun v r =>
  MkEvent v (ev_Seq r) (ev_Type r) (ev_PayloadVersion r) (ev_Data r) (ev_IdempotencyKey r) (ev_CausationID r) (ev_CorrelationID r) (ev_WorkerID r) (ev_FencingToken r) (ev_CreatedAt r).
#[export] Instance set_ev_Seq : Setter ev_Seq := fun v r =>
  MkEvent (ev_RunID r) v (ev_Type r) (ev_PayloadVersion r) (ev_Data r) (ev_IdempotencyKey r) (ev_CausationID r) (ev_CorrelationID r) (ev_WorkerID r) (ev_FencingToken r) (ev_CreatedAt r).
#[export] Instance set_ev_Type : Setter ev_Type := fun v r =>
  MkEvent (ev_RunID r) (ev_Seq r) v (ev_PayloadVersion r) (ev_Data r) (ev_IdempotencyKey r) (ev_CausationID r) (ev_CorrelationID r) (ev_WorkerID r) (ev_FencingToken r) (ev_CreatedAt r).
#[export] Instance set_ev_PayloadVersion : Setter ev_PayloadVersion := fun v r =>
  MkEvent (ev_RunID r) (ev_Seq r) (ev_Type r) v (ev_Data r) (ev_IdempotencyKey r) (ev_CausationID r) (ev_CorrelationID r) (ev_WorkerID r) (ev_FencingToken r) (ev_CreatedAt r).
#[export] Instance set_ev_Data : Setter ev_Data := fun v r =>
  MkEvent (ev_RunID r) (ev_Seq r) (ev_Type r) (ev_PayloadVersion r) v (ev_IdempotencyKey r) (ev_CausationID r) (ev_CorrelationID r) (ev_WorkerID r) (ev_FencingToken r) (ev_CreatedAt r).
#[export] Instance set_ev_IdempotencyKey : Setter ev_IdempotencyKey := fun v r =>
  MkEvent (ev_RunID r) (ev_Seq r) (ev_Type r) (ev_PayloadVersion r) (ev_Data r) v (ev_CausationID r) (ev_CorrelationID r) (ev_WorkerID r) (ev_FencingToken r) (ev_CreatedAt r).
#[export] Instance set_ev_CausationID : Setter ev_CausationID := fun v r =>
  MkEvent (ev_RunID r) (ev_Seq r) (ev_Type r) (ev_PayloadVersion r) (ev_Data r) (ev_IdempotencyKey r) v (ev_CorrelationID r) (ev_WorkerID r) (ev_FencingToken r) (ev_CreatedAt r).
#[export] Instance set_ev_CorrelationID : Setter ev_CorrelationID := fun v r =>
  MkEvent (ev_RunID r) (ev_Seq r) (ev_Type r) (ev_PayloadVersion r) (ev_Data r) (ev_IdempotencyKey r) (ev_CausationID r) v (ev_WorkerID r) (ev_FencingToken r) (ev_CreatedAt r).
#[export] Instance set_ev_WorkerID : Setter ev_WorkerID := fun v r =>
  MkEvent (ev_RunID r) (ev_Seq r) (ev_Type r) (ev_PayloadVersion r) (ev_Data r) (ev_IdempotencyKey r) (ev_CausationID r) (ev_CorrelationID r) v (ev_FencingToken r) (ev_CreatedAt r).
#[export] Instance set_ev_FencingToken : Setter ev_FencingToken := fun v r =>
  MkEvent (ev_RunID r) (ev_Seq r) (ev_Type r) (ev_PayloadVersion r) (ev_Data r) (ev_IdempotencyKey r) (ev_CausationID r) (ev_CorrelationID r) (ev_WorkerID r) v (ev_CreatedAt r).
#[export] Instance set_ev_CreatedAt : Setter ev_CreatedAt := fun v r =>
  MkEvent (ev_RunID r) (ev_Seq r) (ev_Type r) (ev_PayloadVersion r) (ev_Data r) (ev_IdempotencyKey r) (ev_CausationID r) (ev_CorrelationID r) (ev_WorkerID r) (ev_FencingToken r) v.

(** [Event{Type: t, Data: d, IdempotencyKey: k}] with every other field zero. *)
Definition newEvent (t : EventType) (d : EventData) (k : string) : Event :=
  MkEvent "" 0 t 0 d k "" "" "" 0 "".

(** At most one reconcile action. *)
Record Command : Type := MkCommand {
  cmd_Type : CommandType;
  cmd_RunID : string;
  cmd_ActionID : string;
  cmd_AttemptID : string
}.

#[export] Instance Command_eq_dec : EqDecision Command.
Proof. solve_decision. Defined.

#[export] Instance set_cmd_ActionID : Setter cmd_ActionID := fun v r =>
  MkCommand (cmd_Type r) (cmd_RunID r) v (cmd_AttemptID r).
#[export] Instance set_cmd_AttemptID : Setter cmd_AttemptID := fun v r =>
  MkCommand (cmd_Type r) (cmd_RunID r) (cmd_ActionID r) v.

Definition NoopCommand : Command := MkCommand CommandNoop "" "" "".
