(* ===== verification/Decide.v ===== *)
(** * The decision function: internal/domain/decide.go *)
From S2P Require Import Prelude Sha256 Types.

(** [commandFor]: the action identifier is the first 16 digest bytes, in hex, of
    ["run|type|attempt number|attempt id"]. *)
Definition commandMaterial (state : State) (commandType : CommandType) : string :=
  run_ID (st_Run state) +:+ "|" +:+ commandType +:+ "|" +:+
  pretty (st_CurrentAttempt state) +:+ "|" +:+ st_AttemptID state.

Definition actionDigest (material : string) : string :=
  hex (take 16 (sum256 (bytes_of material))).

Definition commandFor (state : State) (commandType : CommandType) : Command :=
  MkCommand commandType (run_ID (st_Run state))
    (actionDigest (commandMaterial state commandType)) (st_AttemptID state).

(** [if state.PendingActionID != "" { command.ActionID = state.PendingActionID }] *)
Definition reusePending (state : State) (command : Command) : Command :=
  if decide (st_PendingActionID state <> "")
  then command <| cmd_ActionID := st_PendingActionID state |> else command.

Definition nextAttemptID (state : State) : string :=
  run_ID (st_Run state) +:+ ":attempt:" +:+ pretty (i64 (st_CurrentAttempt state + 1)).

(** [Decide] *)
Definition Decide (state : State) : Command :=
  let observed := st_ObservedState state in
  if negb (st_Exists state) || Terminal observed then NoopCommand
  else if decide (st_DesiredState state = DesiredCancelled)
  then commandFor state CommandCancelRun
  else if decide (st_DesiredState state = DesiredPaused \/ observed = StatusPaused)
  then NoopCommand
  else if decide (observed = StatusWaitingApproval) then NoopCommand
  else if decide (st_FailureReason state <> "") then commandFor state CommandFailRun
  else if decide (observed = StatusQueued)
  then (commandFor state CommandStartAttempt) <| cmd_AttemptID := nextAttemptID state |>
  else if decide (observed = StatusProvisioning)
  then commandFor state CommandProvisionWorkspace
  else if decide (observed = StatusReasoning)
  then reusePending state (commandFor state CommandRunReasoner)
  else if decide (observed = StatusActing) then commandFor state CommandApplyPatch
  else if decide (observed = StatusVerifying)
  then
    if st_VerificationPassed state then commandFor state CommandSucceedRun
    else reusePending state (commandFor state CommandVerify)
  else NoopCommand.
