(* ===== verification/Reducer.v ===== *)
(** * The reducer: internal/domain/reducer.go

    [applyEvent] and its helpers take the state by value and return the new one;
    the Go code assigns through [*State], but every caller discards the state of
    a failed call ([Reduce] returns [State{}], [ValidateActionCompletion] works
    on a copy). *)
From S2P Require Import Prelude Types Decide.

(** ** The transition guard *)

(** The [allowed] table of [ValidateTransition]; the empty string is the state
    before [RunCreated]. *)
Definition allowed : list (Status * list Status) :=
  [ ("", [StatusQueued])
  ; (StatusQueued,
      [StatusProvisioning; StatusPaused; StatusWaitingApproval; StatusFailed; StatusCancelled])
  ; (StatusProvisioning,
      [StatusReasoning; StatusPaused; StatusWaitingApproval; StatusFailed; StatusCancelled])
  ; (StatusReasoning,
      [StatusActing; StatusPaused; StatusWaitingApproval; StatusFailed; StatusCancelled])
  ; (StatusActing,
      [StatusVerifying; StatusPaused; StatusWaitingApproval; StatusFailed; StatusCancelled])
  ; (StatusVerifying,
      [StatusSucceeded; StatusRepairing; StatusPaused; StatusWaitingApproval; StatusFailed;
       StatusCancelled])
  ; (StatusRepairing,
      [StatusReasoning; StatusWaitingApproval; StatusPaused; StatusFailed; StatusCancelled])
  ; (StatusWaitingApproval, [StatusReasoning; StatusPaused; StatusFailed; StatusCancelled])
  ; (StatusPaused,
      [StatusQueued; StatusProvisioning; StatusReasoning; StatusActing; StatusVerifying;
       StatusRepairing; StatusWaitingApproval; StatusSucceeded; StatusFailed; StatusCancelled]) ].

(** A Go map lookup: the zero value (no successor) for an absent key. *)
Fixpoint assoc (table : list (Status * list Status)) (from : Status) : list Status :=
  match table with
  | [] => []
  | (key, row) :: rest => if decide (key = from) then row else assoc rest from
  end.

Definition ValidateTransition (from to : Status) : result unit :=
  if Terminal from then Err (Wrap2 (Sentinel ErrTerminalState) (Sentinel ErrInvalidTransition))
  else if decide (to ∈ assoc allowed from) then Ok tt
  else Err (Sentinel ErrInvalidTransition).

Definition transition (state : State) (next : Status) : result State :=
  _ ← ValidateTransition (st_ObservedState state) next;
  Ok (state <| st_ObservedState := next |>).

(** ** Guards *)

Definition requireActiveState (state : State) (expected : Status) : result unit :=
  if negb (st_Exists state) then Err (Sentinel ErrInvalidTransition)
  else guard_err
    (bool_decide (st_DesiredState state <> DesiredRunning \/ st_ObservedState state <> expected))
    (Sentinel ErrInvalidTransition).

(** The boolean result says whether the Run is paused with resume target [expected]. *)
Definition requirePlannedResultState (state : State) (expected : Status) : result bool :=
  if negb (st_Exists state) then Err (Sentinel ErrInvalidTransition)
  else if decide (st_DesiredState state = DesiredRunning /\ st_ObservedState state = expected)
  then Ok false
  else if decide (st_DesiredState state = DesiredPaused /\
                  st_ObservedState state = StatusPaused /\ st_ResumeState state = expected)
  then Ok true
  else Err (Sentinel ErrInvalidTransition).

Definition advancePlannedResult (state : State) (paused : bool) (next : Status) : result State :=
  if negb paused then transition state next
  else
    _ ← ValidateTransition (st_ResumeState state) next;
    Ok (state <| st_ResumeState := next |>).

Definition requirePendingAction (state : State) (actionID : string) : result unit :=
  guard_err
    (bool_decide (actionID = "" \/ st_PendingActionID state = "" \/
                  actionID <> st_PendingActionID state))
    (Sentinel ErrInvalidTransition).

Definition requireManagedPendingAction (state : State) (actionID : string)
    (actionType : CommandType) : result unit :=
  guard_err
    (bool_decide (actionID = "" \/ actionID <> st_PendingActionID state \/
                  actionType = "" \/ actionType <> st_PendingActionType state))
    (Sentinel ErrInvalidTransition).

(** [observed], or the resume target of a paused Run. *)
Definition logicalState (state : State) : Status :=
  if decide (st_ObservedState state = StatusPaused) then st_ResumeState state
  else st_ObservedState state.

Definition requireManagedLogicalState (state : State) (expected : Status) : result unit :=
  guard_err (bool_decide (logicalState state <> expected)) (Sentinel ErrInvalidTransition).

Definition advanceManagedState (state : State) (next : Status) : result State :=
  if decide (st_ObservedState state = StatusPaused) then
    _ ← ValidateTransition (st_ResumeState state) next;
    Ok (state <| st_ResumeState := next |>)
  else transition state next.

(** ** Desired state *)

Definition applyDesiredState (state : State) (desired : DesiredState) : result State :=
  if negb (DesiredState_Valid desired) then Err (Sentinel ErrInvalidEvent)
  else if Terminal (st_ObservedState state) then Err (Sentinel ErrTerminalState)
  else if decide (desired = DesiredPaused) then
    if decide (st_DesiredState state = DesiredPaused \/ st_ObservedState state = StatusPaused)
    then Err (Sentinel ErrInvalidTransition)
    else if decide (st_DesiredState state = DesiredCancelled)
    then Err (Sentinel ErrInvalidTransition)
    else
      state' ← transition (state <| st_ResumeState := st_ObservedState state |>) StatusPaused;
      Ok (state' <| st_DesiredState := DesiredPaused |>)
  else if decide (desired = DesiredRunning) then
    if decide (st_DesiredState state <> DesiredPaused \/
               st_ObservedState state <> StatusPaused \/ st_ResumeState state = "")
    then Err (Sentinel ErrInvalidTransition)
    else
      state' ← transition state (st_ResumeState state);
      Ok (state' <| st_ResumeState := "" |> <| st_DesiredState := DesiredRunning |>)
  else if decide (desired = DesiredCancelled) then
    if decide (st_DesiredState state = DesiredCancelled)
    then Err (Sentinel ErrInvalidTransition)
    else Ok (state <| st_DesiredState := DesiredCancelled |>)
  else Err (Sentinel ErrInvalidEvent).

(** ** Managed actions *)

Definition clearPending (state : State) : State :=
  state <| st_PendingActionID := "" |> <| st_PendingActionType := "" |>
        <| st_PendingAttemptID := "" |> <| st_PendingActionScope := "" |>.

Definition applyActionPlanned (state : State) (event : Event) : result State :=
  let data := ev_Data event in
  if negb (st_Exists state) then Err (Sentinel ErrInvalidTransition)
  else if bool_decide (ed_ActionID data = "" \/ ed_ActionType data = "") ||
          negb (IdempotencyScope_Valid (ed_IdempotencyScope data))
  then Err (Sentinel ErrInvalidEvent)
  else if decide (st_PendingActionID state <> "") then Err (Sentinel ErrInvalidTransition)
  else
    let command := Decide state in
    if decide (cmd_Type command = CommandNoop \/ cmd_Type command <> ed_ActionType data \/
               cmd_ActionID command <> ed_ActionID data)
    then Err (Sentinel ErrInvalidTransition)
    else if decide (cmd_Type command = CommandStartAttempt /\
                    ed_AttemptID data <> cmd_AttemptID command)
    then Err (Sentinel ErrInvalidTransition)
    else Ok (state <| st_PendingActionID := ed_ActionID data |>
                   <| st_PendingActionType := ed_ActionType data |>
                   <| st_PendingAttemptID := ed_AttemptID data |>
                   <| st_PendingActionScope := ed_IdempotencyScope data |>).

Definition applyCompletedActionResult (state : State) (data : EventData) : result State :=
  let actionType := ed_ActionType data in
  if decide (actionType = CommandStartAttempt) then
    if decide (ed_AttemptID data = "") then Err (Sentinel ErrInvalidEvent)
    else
      _ ← requireManagedLogicalState state StatusQueued;
      state' ← advanceManagedState state StatusProvisioning;
      Ok (state' <| st_CurrentAttempt := i64 (st_CurrentAttempt state' + 1) |>
                 <| st_AttemptID := ed_AttemptID data |>)
  else if decide (actionType = CommandProvisionWorkspace) then
    _ ← requireManagedLogicalState state StatusProvisioning;
    advanceManagedState state StatusReasoning
  else if decide (actionType = CommandRunReasoner) then
    _ ← requireManagedLogicalState state StatusReasoning;
    if decide (ed_ToolName data = "") then Err (Sentinel ErrInvalidEvent)
    else
      state' ← advanceManagedState state StatusActing;
      Ok (state' <| st_ReasoningOutput := ed_Output data |>
                 <| st_ToolName := ed_ToolName data |>
                 <| st_ToolArguments := ed_ToolArguments data |>)
  else if decide (actionType = CommandApplyPatch) then
    _ ← requireManagedLogicalState state StatusActing;
    state' ← advanceManagedState state StatusVerifying;
    Ok (state' <| st_PatchProduced := true |>)
  else if decide (actionType = CommandVerify) then
    _ ← requireManagedLogicalState state StatusVerifying;
    Ok (state <| st_VerificationPassed := true |>)
  else if decide (actionType = CommandSucceedRun) then
    _ ← requireManagedLogicalState state StatusVerifying;
    if negb (st_VerificationPassed state) then Err (Sentinel ErrInvalidTransition)
    else advanceManagedState state StatusSucceeded
  else if decide (actionType = CommandFailRun) then
    if decide (st_FailureReason state = "" /\ ed_Reason data = "")
    then Err (Sentinel ErrInvalidEvent)
    else
      let state' := if decide (ed_Reason data <> "")
                    then state <| st_FailureReason := ed_Reason data |> else state in
      advanceManagedState state' StatusFailed
  else if decide (actionType = CommandCancelRun) then
    if decide (st_DesiredState state <> DesiredCancelled)
    then Err (Sentinel ErrInvalidTransition)
    else advanceManagedState state StatusCancelled
  else Err (Sentinel ErrInvalidEvent).

(** A cancelled intent makes the completion of any other action clear the
    pending action only. *)
Definition cancelWins (state : State) (data : EventData) : bool :=
  bool_decide (st_DesiredState state = DesiredCancelled /\
               ed_ActionType data <> CommandCancelRun).

Definition applyActionCompleted (state : State) (event : Event) : result State :=
  let data := ev_Data event in
  if decide (ed_ReceiptID data = "") then Err (Sentinel ErrInvalidEvent)
  else
    _ ← requireManagedPendingAction state (ed_ActionID data) (ed_ActionType data);
    state' ← (if cancelWins state data then Ok state
              else applyCompletedActionResult state data);
    Ok ((clearPending state') <| st_LastCompletedActionID := ed_ActionID data |>
                              <| st_LastReceiptID := ed_ReceiptID data |>).

(** [ValidateActionCompletion]: only the error is returned. *)
Definition ValidateActionCompletion (state : State) (data : EventData) : result unit :=
  _ ← applyActionCompleted state (newEvent "" data ""); Ok tt.

Definition ValidateManagedActionOutput (actionType : CommandType) (plannedAttemptID : string)
    (output : EventData) : result unit :=
  if decide (actionType = CommandStartAttempt) then
    guard_err (bool_decide (ed_AttemptID output = "" \/ ed_AttemptID output <> plannedAttemptID))
      (Sentinel ErrInvalidEvent)
  else if decide (actionType = CommandRunReasoner) then
    guard_err (bool_decide (ed_ToolName output = "")) (Sentinel ErrInvalidEvent)
  else if decide (actionType = CommandFailRun) then
    guard_err (bool_decide (ed_Reason output = "")) (Sentinel ErrInvalidEvent)
  else Ok tt.

Definition applyActionFailed (state : State) (event : Event) : result State :=
  let data := ev_Data event in
  _ ← requireManagedPendingAction state (ed_ActionID data) (ed_ActionType data);
  if decide (ed_Reason data = "") then Err (Sentinel ErrInvalidEvent)
  else if decide (ed_Outcome data <> ActionOutcomeFailed /\
                  ed_Outcome data <> ActionOutcomeAmbiguous)
  then Err (Sentinel ErrInvalidEvent)
  else
    let state' := (clearPending state) <| st_FailureReason := ed_Reason data |> in
    if decide (ed_Outcome data = ActionOutcomeAmbiguous /\
               st_DesiredState state' <> DesiredCancelled)
    then advanceManagedState state' StatusWaitingApproval
    else Ok state'.

(** ** One event *)

Definition legacyLifecycleEvents : list EventType :=
  [ EventAttemptStarted; EventWorkspaceProvisionPlanned; EventWorkspaceProvisioned;
    EventReasoningPlanned; EventReasoningCompleted; EventToolCallPlanned;
    EventToolCallCompleted; EventToolCallFailed; EventPatchProduced;
    EventVerificationPlanned; EventVerificationPassed; EventVerificationFailed;
    EventRepairScheduled; EventApprovalRequested; EventApprovalResolved;
    EventCheckpointSaved; EventRunSucceeded; EventRunFailed; EventRunCancelled ].

Definition legacyLifecycleResultEvent (eventType : EventType) : bool :=
  bool_decide (eventType ∈ legacyLifecycleEvents).

(** The cases of [applyEvent], one definition per [case]. *)

Definition applyRunCreated (state : State) (event : Event) : result State :=
  if st_Exists state then Err (Sentinel ErrInvalidTransition)
  else
    _ ← ValidateTransition "" StatusQueued;
    Ok (MkState true
          (MkRun (ev_RunID event) (ed_ScenarioID (ev_Data event)) (ed_SpecHash (ev_Data event))
             DesiredRunning StatusQueued 0 0 (ev_CreatedAt event) "")
          "" "" "" "" "" "" "" "" "" "" "" false false "" "").

Definition applyLeaseEvent (state : State) (event : Event) : result State :=
  if negb (st_Exists state) then Err (Sentinel ErrInvalidTransition)
  else if decide (ev_WorkerID event = "" \/ ev_FencingToken event = 0%Z)
  then Err (Sentinel ErrInvalidEvent)
  else Ok state.

Definition applyAttemptStarted (state : State) (event : Event) : result State :=
  _ ← requireActiveState state StatusQueued;
  if decide (ed_AttemptID (ev_Data event) = "") then Err (Sentinel ErrInvalidEvent)
  else
    state' ← transition state StatusProvisioning;
    Ok (state' <| st_CurrentAttempt := i64 (st_CurrentAttempt state' + 1) |>
               <| st_AttemptID := ed_AttemptID (ev_Data event) |>).

Definition applyWorkspaceProvisioned (state : State) (event : Event) : result State :=
  _ ← requireActiveState state StatusProvisioning;
  transition state StatusReasoning.

Definition applyReasoningPlanned (state : State) (event : Event) : result State :=
  _ ← requireActiveState state StatusReasoning;
  if decide (ed_ActionID (ev_Data event) = "") then Err (Sentinel ErrInvalidEvent)
  else if decide (st_PendingActionID state <> "") then Err (Sentinel ErrInvalidTransition)
  else Ok (state <| st_PendingActionID := ed_ActionID (ev_Data event) |>).

Definition applyReasoningCompleted (state : State) (event : Event) : result State :=
  let data := ev_Data event in
  paused ← requirePlannedResultState state StatusReasoning;
  _ ← requirePendingAction state (ed_ActionID data);
  if decide (ed_ToolName data = "") then Err (Sentinel ErrInvalidEvent)
  else
    state' ← advancePlannedResult state paused StatusActing;
    Ok (state' <| st_PendingActionID := "" |>
               <| st_ReasoningOutput := ed_Output data |>
               <| st_ToolName := ed_ToolName data |>
               <| st_ToolArguments := ed_ToolArguments data |>).

Definition applyToolCallFailed (state : State) (event : Event) : result State :=
  _ ← requirePlannedResultState state StatusReasoning;
  _ ← requirePendingAction state (ed_ActionID (ev_Data event));
  if decide (ed_Reason (ev_Data event) = "") then Err (Sentinel ErrInvalidEvent)
  else Ok (state <| st_PendingActionID := "" |>
                 <| st_FailureReason := ed_Reason (ev_Data event) |>).

Definition applyPatchProduced (state : State) (event : Event) : result State :=
  _ ← requireActiveState state StatusActing;
  if decide (ed_ActionID (ev_Data event) = "") then Err (Sentinel ErrInvalidEvent)
  else
    state' ← transition state StatusVerifying;
    Ok (state' <| st_PatchProduced := true |>).

Definition applyVerificationPlanned (state : State) (event : Event) : result State :=
  _ ← requireActiveState state StatusVerifying;
  if st_VerificationPassed state then Err (Sentinel ErrInvalidTransition)
  else if decide (ed_ActionID (ev_Data event) = "") then Err (Sentinel ErrInvalidEvent)
  else if decide (st_PendingActionID state <> "") then Err (Sentinel ErrInvalidTransition)
  else Ok (state <| st_PendingActionID := ed_ActionID (ev_Data event) |>).

Definition applyVerificationPassed (state : State) (event : Event) : result State :=
  _ ← requirePlannedResultState state StatusVerifying;
  _ ← requirePendingAction state (ed_ActionID (ev_Data event));
  Ok (state <| st_PendingActionID := "" |> <| st_VerificationPassed := true |>).

Definition applyRunSucceeded (state : State) (event : Event) : result State :=
  _ ← requireActiveState state StatusVerifying;
  if negb (st_VerificationPassed state) || bool_decide (st_PendingActionID state <> "")
  then Err (Sentinel ErrInvalidTransition)
  else transition state StatusSucceeded.

Definition applyRunFailed (state : State) (event : Event) : result State :=
  if negb (st_Exists state) then Err (Sentinel ErrInvalidTransition)
  else if decide (st_DesiredState state <> DesiredRunning) then Err (Sentinel ErrInvalidTransition)
  else
    let state' := if decide (ed_Reason (ev_Data event) <> "")
                  then state <| st_FailureReason := ed_Reason (ev_Data event) |> else state in
    if decide (st_FailureReason state' = "") then Err (Sentinel ErrInvalidEvent)
    else transition (state' <| st_PendingActionID := "" |>) StatusFailed.

Definition applyRunCancelled (state : State) (event : Event) : result State :=
  if negb (st_Exists state) || bool_decide (st_DesiredState state <> DesiredCancelled)
  then Err (Sentinel ErrInvalidTransition)
  else transition (state <| st_PendingActionID := "" |>) StatusCancelled.

Definition applyEvent (state : State) (event : Event) : result State :=
  let eventType := ev_Type event in
  if decide (st_PendingActionType state <> "" /\ legacyLifecycleResultEvent eventType = true)
  then Err (Sentinel ErrInvalidTransition)
  else if decide (eventType = EventRunCreated) then applyRunCreated state event
  else if decide (eventType = EventDesiredStateChanged) then
    if negb (st_Exists state) then Err (Sentinel ErrInvalidTransition)
    else applyDesiredState state (ed_DesiredState (ev_Data event))
  else if decide (eventType = EventLeaseAcquired \/ eventType = EventLeaseRenewed \/
                  eventType = EventLeaseExpired) then applyLeaseEvent state event
  else if decide (eventType = EventActionPlanned) then applyActionPlanned state event
  else if decide (eventType = EventActionCompleted) then applyActionCompleted state event
  else if decide (eventType = EventActionFailed) then applyActionFailed state event
  else if decide (eventType = EventAttemptStarted) then applyAttemptStarted state event
  else if decide (eventType = EventWorkspaceProvisioned)
  then applyWorkspaceProvisioned state event
  else if decide (eventType = EventReasoningPlanned) then applyReasoningPlanned state event
  else if decide (eventType = EventReasoningCompleted) then applyReasoningCompleted state event
  else if decide (eventType = EventToolCallFailed) then applyToolCallFailed state event
  else if decide (eventType = EventPatchProduced) then applyPatchProduced state event
  else if decide (eventType = EventVerificationPlanned) then applyVerificationPlanned state event
  else if decide (eventType = EventVerificationPassed) then applyVerificationPassed state event
  else if decide (eventType = EventRunSucceeded) then applyRunSucceeded state event
  else if decide (eventType = EventRunFailed) then applyRunFailed state event
  else if decide (eventType = EventRunCancelled) then applyRunCancelled state event
  else Err (Sentinel ErrUnsupportedEvent).

(** ** Whole logs *)

(** The assignments after a successful [applyEvent]. *)
Definition stampEvent (state : State) (event : Event) : State :=
  let state1 := state <| st_Version := ev_Seq event |> in
  let state2 :=
    if decide (ev_CreatedAt event <> "")
    then state1 <| st_Run := (st_Run state1) <| run_UpdatedAt := ev_CreatedAt event |> |>
    else state1 in
  state2 <| st_LastEventType := ev_Type event |>.

(** The body of the loop of [Reduce] for the event at [index]; [keys] is the
    [idempotencyKeys] map. *)
Definition reduceStep (index : nat) (state : State) (keys : gset string) (event : Event)
    : result State :=
  if decide (ev_Seq event <> u64 (Z.of_nat index + 1)) then Err (Sentinel ErrInvalidSequence)
  else if decide (ev_RunID event = "") then Err (Sentinel ErrInvalidEvent)
  else if decide (ev_IdempotencyKey event = "") then Err (Sentinel ErrInvalidEvent)
  else if decide (ev_PayloadVersion event <> CurrentEventPayloadVersion)
  then Err (Sentinel ErrInvalidEvent)
  else if decide (ev_IdempotencyKey event ∈ keys) then Err (Sentinel ErrDuplicateIdempotencyKey)
  else if decide (st_Exists state = true /\ ev_RunID event <> run_ID (st_Run state))
  then Err (Sentinel ErrInvalidEvent)
  else if st_Exists state && Terminal (st_ObservedState state) then Err (Sentinel ErrTerminalState)
  else
    state' ← wrap (applyEvent state event);
    Ok (stampEvent state' event).

Fixpoint reduceLoop (index : nat) (state : State) (keys : gset string) (events : list Event)
    : result State :=
  match events with
  | [] => Ok state
  | event :: rest =>
      state' ← reduceStep index state keys event;
      reduceLoop (S index) state' ({[ev_IdempotencyKey event]} ∪ keys) rest
  end.

Definition Reduce (events : list Event) : result State := reduceLoop 0 InitialState ∅ events.

(** [ReduceFromCheckpoint]: the loop body over the suffix. *)
Definition suffixStep (base : Z) (index : nat) (state : State) (keys : gset string)
    (event : Event) : result State :=
  if decide (ev_Seq event <> u64 (base + Z.of_nat index + 1)) then Err (Sentinel ErrInvalidSequence)
  else if decide (ev_RunID event <> run_ID (st_Run state)) then Err (Sentinel ErrInvalidEvent)
  else if decide (ev_IdempotencyKey event = "") then Err (Sentinel ErrInvalidEvent)
  else if decide (ev_PayloadVersion event <> CurrentEventPayloadVersion)
  then Err (Sentinel ErrInvalidEvent)
  else if decide (ev_IdempotencyKey event ∈ keys) then Err (Sentinel ErrDuplicateIdempotencyKey)
  else if Terminal (st_ObservedState state) then Err (Sentinel ErrTerminalState)
  else
    state' ← wrap (applyEvent state event);
    Ok (stampEvent state' event).

Fixpoint suffixLoop (base : Z) (index : nat) (state : State) (keys : gset string)
    (events : list Event) : result State :=
  match events with
  | [] => Ok state
  | event :: rest =>
      state' ← suffixStep base index state keys event;
      suffixLoop base (S index) state' ({[ev_IdempotencyKey event]} ∪ keys) rest
  end.

Definition ReduceFromCheckpoint (checkpoint : State) (events : list Event) : result State :=
  if negb (st_Exists checkpoint) ||
     bool_decide (run_ID (st_Run checkpoint) = "" \/ st_Version checkpoint = 0%Z)
  then Err (Sentinel ErrInvalidEvent)
  else suffixLoop (st_Version checkpoint) 0 checkpoint ∅ events.
