(* ===== verification/Lifecycle.v ===== *)
(** * The lifecycle invariant of reduced states

    [WF s] is what every state produced by [Reduce] satisfies: the status is one
    of the known ones, the pause bookkeeping is coherent, the attempt, patch,
    tool and verification facts agree with the phase the Run has reached, and
    the pending action (if any) is one the decision function would have planned
    in that phase. *)
From S2P Require Import Prelude Sha256 Types Decide Reducer.

(** ** The phase of a Run

    [Progress s l]: the facts the projection [s] must carry when its logical
    state is [l]. *)
Definition attempted (s : State) : Prop := st_CurrentAttempt s = 1%Z /\ st_AttemptID s <> "".

Inductive Progress (s : State) : Status -> Prop :=
  | ProgressQueued :
      st_CurrentAttempt s = 0%Z -> st_AttemptID s = "" -> st_PatchProduced s = false ->
      st_VerificationPassed s = false -> Progress s StatusQueued
  | ProgressProvisioning :
      attempted s -> st_PatchProduced s = false -> st_VerificationPassed s = false ->
      Progress s StatusProvisioning
  | ProgressReasoning :
      attempted s -> st_PatchProduced s = false -> st_VerificationPassed s = false ->
      Progress s StatusReasoning
  | ProgressActing :
      attempted s -> st_ToolName s <> "" -> st_PatchProduced s = false ->
      st_VerificationPassed s = false -> Progress s StatusActing
  | ProgressVerifying :
      attempted s -> st_ToolName s <> "" -> st_PatchProduced s = true ->
      Progress s StatusVerifying
  | ProgressSucceeded :
      attempted s -> st_ToolName s <> "" -> st_PatchProduced s = true ->
      st_VerificationPassed s = true -> Progress s StatusSucceeded
  | ProgressWaitingApproval : st_FailureReason s <> "" -> Progress s StatusWaitingApproval
  | ProgressFailed : st_FailureReason s <> "" -> Progress s StatusFailed
  | ProgressCancelled : st_DesiredState s = DesiredCancelled -> Progress s StatusCancelled.

(** ** The pending action

    [Planned s t]: the projection is one in which a managed action of type [t]
    may be pending. *)
Inductive Planned (s : State) : CommandType -> Prop :=
  | PlannedStartAttempt : logicalState s = StatusQueued -> Planned s CommandStartAttempt
  | PlannedProvision : logicalState s = StatusProvisioning -> Planned s CommandProvisionWorkspace
  | PlannedReasoner : logicalState s = StatusReasoning -> Planned s CommandRunReasoner
  | PlannedPatch : logicalState s = StatusActing -> Planned s CommandApplyPatch
  | PlannedVerify :
      logicalState s = StatusVerifying -> st_VerificationPassed s = false -> Planned s CommandVerify
  | PlannedSucceed :
      logicalState s = StatusVerifying -> st_VerificationPassed s = true ->
      Planned s CommandSucceedRun
  | PlannedFail :
      st_FailureReason s <> "" ->
      logicalState s ∈ [StatusQueued; StatusProvisioning; StatusReasoning; StatusActing;
                        StatusVerifying] -> Planned s CommandFailRun
  | PlannedCancel : st_DesiredState s = DesiredCancelled -> Planned s CommandCancelRun.

Inductive PendingOk (s : State) : Prop :=
  | NoPending :
      st_PendingActionID s = "" -> st_PendingActionType s = "" ->
      st_PendingAttemptID s = "" -> st_PendingActionScope s = "" -> PendingOk s
  | LegacyPending :
      st_PendingActionID s <> "" -> st_PendingActionType s = "" ->
      st_PendingAttemptID s = "" -> st_PendingActionScope s = "" ->
      logicalState s = StatusReasoning \/
        logicalState s = StatusVerifying /\ st_VerificationPassed s = false ->
      PendingOk s
  | ManagedPending :
      st_PendingActionID s <> "" -> IdempotencyScope_Valid (st_PendingActionScope s) = true ->
      Planned s (st_PendingActionType s) -> Terminal (st_ObservedState s) = false -> PendingOk s.

(** The invariant without the pending action. *)
Record Core (s : State) : Prop := MkCore {
  core_exists : st_Exists s = true;
  core_desired : st_DesiredState s ∈ [DesiredRunning; DesiredPaused; DesiredCancelled];
  core_paused : st_ObservedState s = StatusPaused ->
    st_DesiredState s = DesiredPaused \/ st_DesiredState s = DesiredCancelled;
  core_desired_paused : st_DesiredState s = DesiredPaused -> st_ObservedState s = StatusPaused;
  core_resume : st_ObservedState s <> StatusPaused -> st_ObservedState s <> StatusCancelled ->
    st_ResumeState s = "";
  core_progress : Progress s (logicalState s)
}.

Definition WF (s : State) : Prop := Core s /\ PendingOk s.

(** ** Advancing the logical state *)

Lemma ValidateTransition_Ok from to :
  ValidateTransition from to = Ok tt <-> Terminal from = false /\ to ∈ assoc allowed from.
Proof.
  unfold ValidateTransition. destruct (Terminal from); [split; intros; ok_inv; by destruct_and?|].
  case_decide; split; intros; ok_inv; by destruct_and?.
Qed.

Lemma transition_Ok s next s' :
  transition s next = Ok s' <->
  ValidateTransition (st_ObservedState s) next = Ok tt /\ s' = s <| st_ObservedState := next |>.
Proof.
  unfold transition. rewrite bind_Ok. split.
  - intros ([] & ? & [= <-]); done.
  - intros [? ->]; eauto.
Qed.

(** The two shapes of a successful managed advance. *)
Lemma advanceManagedState_Ok s next s' :
  advanceManagedState s next = Ok s' <->
  ValidateTransition (logicalState s) next = Ok tt /\
  s' = if decide (st_ObservedState s = StatusPaused) then s <| st_ResumeState := next |>
       else s <| st_ObservedState := next |>.
Proof.
  unfold advanceManagedState, logicalState. case_decide.
  - rewrite bind_Ok. split; [by intros ([] & ? & [= <-])|intros [? ->]; eauto].
  - apply transition_Ok.
Qed.

Lemma logical_active s : st_ObservedState s <> StatusPaused -> logicalState s = st_ObservedState s.
Proof. intros. unfold logicalState. by rewrite decide_False. Qed.

Lemma transition_managed s next :
  st_ObservedState s <> StatusPaused -> transition s next = advanceManagedState s next.
Proof. intros. unfold advanceManagedState. by rewrite decide_False. Qed.

(** The fields the control part of [Core] reads. *)
Definition same_control (s s' : State) : Prop :=
  st_Exists s' = st_Exists s /\ st_DesiredState s' = st_DesiredState s /\
  st_ObservedState s' = st_ObservedState s /\ st_ResumeState s' = st_ResumeState s.

Lemma same_control_logical s s' : same_control s s' -> logicalState s' = logicalState s.
Proof. intros (_ & _ & Ho & Hr). unfold logicalState. by rewrite Ho, Hr. Qed.

Lemma Core_ext s s' :
  Core s -> same_control s s' -> Progress s' (logicalState s) -> Core s'.
Proof.
  intros [He Hd Hp Hdp Hr Hprog] Hc HP. pose proof (same_control_logical _ _ Hc) as HL.
  destruct Hc as (E1 & E2 & E3 & E4).
  constructor; rewrite ?E1, ?E2, ?E3, ?E4, ?HL; assumption.
Qed.

(** One managed advance followed by assignments to the data fields. *)
Lemma Core_step s s1 s2 next :
  Core s -> advanceManagedState s next = Ok s1 -> next <> StatusPaused ->
  same_control s1 s2 -> Progress s2 next -> Core s2.
Proof.
  intros [He Hd Hp Hdp Hr Hprog] Hadv Hn Hc HP.
  apply advanceManagedState_Ok in Hadv as [[Hterm Hin]%ValidateTransition_Ok ->].
  pose proof (same_control_logical _ _ Hc) as HL. destruct Hc as (E1 & E2 & E3 & E4).
  revert E1 E2 E3 E4 HL. unfold logicalState in *. case_decide as Hcase; cbn in *; intros.
  - constructor; unfold logicalState; cbn; rewrite ?E1, ?E2, ?E3, ?E4, ?decide_True by done;
      auto; congruence.
  - assert (st_ResumeState s = "") as Hempty.
    { apply Hr; [done|]. intros Hx. by rewrite Hx in Hterm. }
    constructor; unfold logicalState; cbn; rewrite ?E1, ?E2, ?E3, ?E4, ?decide_False by done; auto.
    + intros ?; done.
    + intros Hx. by destruct Hcase; apply Hdp.
Qed.

(** ** Pending-action bookkeeping *)

Lemma Planned_nonempty s t : Planned s t -> t <> "" /\ t <> CommandNoop.
Proof. by inversion 1. Qed.

Lemma Planned_active s t :
  Planned s t -> st_DesiredState s <> DesiredCancelled -> Terminal (logicalState s) = false.
Proof.
  inversion 1 as [E|E|E|E|E|E|? E|E]; intros Hd; try (by rewrite E); [|done].
  by repeat (apply elem_of_cons in E as [-> | E]; [done|]); apply elem_of_nil in E.
Qed.

(** A pending action without a type was planned by a legacy event. *)
Lemma PendingOk_untyped s :
  PendingOk s -> st_PendingActionType s = "" ->
  st_PendingAttemptID s = "" /\ st_PendingActionScope s = "" /\
  (st_PendingActionID s <> "" -> logicalState s = StatusReasoning \/
     logicalState s = StatusVerifying /\ st_VerificationPassed s = false).
Proof.
  intros [| |? ? [? ?]%Planned_nonempty ?]; done.
Qed.

Lemma PendingOk_cleared s :
  st_PendingActionID s = "" -> st_PendingActionType s = "" ->
  st_PendingAttemptID s = "" -> st_PendingActionScope s = "" -> PendingOk s.
Proof. apply NoPending. Qed.

(** [PendingOk] reads the pending fields, the logical state, the verification
    flag, the failure reason and the desired state only. *)
Lemma PendingOk_ext s s' :
  PendingOk s ->
  st_PendingActionID s' = st_PendingActionID s ->
  st_PendingActionType s' = st_PendingActionType s ->
  st_PendingAttemptID s' = st_PendingAttemptID s ->
  st_PendingActionScope s' = st_PendingActionScope s ->
  logicalState s' = logicalState s -> st_VerificationPassed s' = st_VerificationPassed s ->
  (st_FailureReason s <> "" -> st_FailureReason s' <> "") ->
  (st_DesiredState s = DesiredCancelled -> st_DesiredState s' = DesiredCancelled) ->
  (Terminal (st_ObservedState s) = false -> Planned s (st_PendingActionType s) ->
   Terminal (st_ObservedState s') = false) ->
  PendingOk s'.
Proof.
  intros Hp E1 E2 E3 E4 EL EV EF ED ET. destruct Hp as [? ? ? ?|? ? ? ? ?|? ? Hpl ?].
  - apply NoPending; congruence.
  - apply LegacyPending; rewrite ?EL, ?EV; congruence.
  - apply ManagedPending; rewrite ?E1, ?E2, ?E4; auto.
    inversion Hpl; constructor; rewrite ?EL, ?EV; auto.
Qed.

(** ** Each event preserves the invariant *)

(** What an advance leaves alone. *)
Definition same_data (s s' : State) : Prop :=
  st_CurrentAttempt s' = st_CurrentAttempt s /\ st_AttemptID s' = st_AttemptID s /\
  st_ToolName s' = st_ToolName s /\ st_PatchProduced s' = st_PatchProduced s /\
  st_VerificationPassed s' = st_VerificationPassed s /\
  st_FailureReason s' = st_FailureReason s /\ st_DesiredState s' = st_DesiredState s /\
  run_ID (st_Run s') = run_ID (st_Run s).

Lemma advance_same_data s next s' : advanceManagedState s next = Ok s' -> same_data s s'.
Proof. intros [_ ->]%advanceManagedState_Ok. by case_decide. Qed.

(** [core_step next]: the goal [Core _] follows one advance to [next].
    [phase]: rebuild [Progress] at the new phase from the one at the old phase. *)
Ltac core_step next :=
  match goal with
  | H : advanceManagedState ?s next = Ok _ |- Core _ =>
      pose proof (advance_same_data _ _ _ H) as (?&?&?&?&?&?&?&?);
      apply (Core_step s _ _ next) with (2 := H); [assumption|discriminate|done|]
  end.

Ltac phase :=
  match goal with
  | HP : Progress ?s (logicalState ?s), E : logicalState ?s = _ |- _ =>
      rewrite E in HP; inversion HP; clear HP
  end;
  unfold attempted in *; destruct_and?;
  constructor; unfold attempted; repeat split; cbn in *; first [done | congruence | idtac].

(** The first attempt is number 1. *)
Lemma first_attempt n : n = 0%Z -> i64 (n + 1) = 1%Z.
Proof. by intros ->. Qed.

Lemma completed_Core s d s' :
  Core s -> applyCompletedActionResult s d = Ok s' -> Core s'.
Proof.
  intros HC H. pose proof (core_progress _ HC) as HP.
  unfold applyCompletedActionResult, requireManagedLogicalState in H. ok_inv; simp_not.
  - core_step StatusProvisioning. phase. apply first_attempt. congruence.
  - core_step StatusReasoning. phase.
  - core_step StatusActing. phase.
  - core_step StatusVerifying. phase.
  - apply (Core_ext s); [done..|]. rewrite E. phase.
  - core_step StatusSucceeded. phase.
  - case_decide.
    + assert (Core (s <| st_FailureReason := ed_Reason d |>)) as HC'.
      { apply (Core_ext s); [done..|]. inversion HP; by constructor. }
      core_step StatusFailed. constructor. cbn in *. congruence.
    + core_step StatusFailed. constructor. cbn in *. destruct (decide (st_FailureReason s = "")).
      * destruct n. tauto. * congruence.
  - core_step StatusCancelled. constructor. cbn in *. congruence.
Qed.

(** [Progress] reads these fields only. *)
Lemma Progress_ext s s' l :
  Progress s l ->
  st_CurrentAttempt s' = st_CurrentAttempt s -> st_AttemptID s' = st_AttemptID s ->
  st_ToolName s' = st_ToolName s -> st_PatchProduced s' = st_PatchProduced s ->
  st_VerificationPassed s' = st_VerificationPassed s ->
  (st_FailureReason s <> "" -> st_FailureReason s' <> "") ->
  (st_DesiredState s = DesiredCancelled -> st_DesiredState s' = DesiredCancelled) ->
  Progress s' l.
Proof.
  intros HP E1 E2 E3 E4 E5 E6 E7. destruct HP; unfold attempted in *; destruct_and?;
    constructor; unfold attempted; rewrite ?E1, ?E2, ?E3, ?E4, ?E5; auto.
Qed.

Lemma Progress_logical_known s l : Progress s l -> l <> "" /\ l <> StatusPaused /\ l <> StatusRepairing.
Proof. by inversion 1. Qed.

(** Changing only data fields that [Core] does not read. *)
Lemma Core_frame s s' :
  Core s -> same_control s s' -> same_data s s' -> Core s'.
Proof.
  intros HC Hc (E1 & E2 & E3 & E4 & E5 & E6 & E7 & _). apply (Core_ext s); [done..|].
  apply (Progress_ext s); rewrite ?E6, ?E7; auto. apply HC.
Qed.

Lemma clearPending_control s : same_control s (clearPending s).
Proof. done. Qed.

Lemma clearPending_data s : same_data s (clearPending s).
Proof. done. Qed.

Lemma applyRunCreated_WF s e s' : applyRunCreated s e = Ok s' -> WF s'.
Proof.
  unfold applyRunCreated. intros H. ok_inv. split; [|by apply NoPending].
  constructor; cbn; try done; [by apply list_elem_of_here|]. by constructor.
Qed.

Lemma applyLeaseEvent_same s e s' : applyLeaseEvent s e = Ok s' -> s' = s.
Proof. unfold applyLeaseEvent. intros H. by ok_inv. Qed.

Lemma applyActionCompleted_WF s e s' : WF s -> applyActionCompleted s e = Ok s' -> WF s'.
Proof.
  intros [HC _] H. unfold applyActionCompleted in H. ok_inv; (split; [|by apply NoPending]).
  - by apply (Core_frame v0).
  - apply (Core_frame v0); [|done..]. by eapply completed_Core.
Qed.

Lemma applyActionFailed_WF s e s' : WF s -> applyActionFailed s e = Ok s' -> WF s'.
Proof.
  intros [HC _] H. unfold applyActionFailed in H.
  set (s1 := (clearPending s) <| st_FailureReason := ed_Reason (ev_Data e) |>) in H.
  ok_inv; cycle 1.
  - split; [|by apply NoPending]. apply (Core_ext s); [done..|].
    apply (Progress_ext s); try done. apply HC.
  - assert (Core s1) as HC1.
    { apply (Core_ext s); [done..|]. apply (Progress_ext s); try done. apply HC. }
    split.
    + core_step StatusWaitingApproval. constructor. cbn in *. congruence.
    + apply advanceManagedState_Ok in H as [_ ->]. by case_decide; apply NoPending.
Qed.

(** The decision function plans only what the phase allows. *)
Lemma reusePending_Type s c : cmd_Type (reusePending s c) = cmd_Type c.
Proof. unfold reusePending. by case_decide. Qed.

Lemma Decide_Planned s :
  Core s -> cmd_Type (Decide s) <> CommandNoop ->
  Planned s (cmd_Type (Decide s)) /\ Terminal (st_ObservedState s) = false.
Proof.
  intros HC. pose proof (core_progress _ HC) as HP. unfold Decide.
  destruct (negb (st_Exists s) || Terminal (st_ObservedState s)) eqn:Hend; [done|].
  apply orb_false_iff in Hend as [_ Hterm].
  case_decide; [split; [by apply PlannedCancel|done]|].
  case_decide as Hpause; [done|]. apply not_or_split in Hpause as [_ Hpause].
  rewrite logical_active in HP by done.
  case_decide; [done|]. case_decide.
  { split; [|done]. apply PlannedFail; [done|]. rewrite logical_active by done. cbn in *.
    inversion HP as [? ? ? ? E|? ? ? E|? ? ? E|? ? ? ? E|? ? ? E|? ? ? ? E|? E|? E|? E];
      first [by_computation | by rewrite <- E in Hterm | congruence]. }
  repeat (case_decide; [rewrite ?reusePending_Type; split; [|done];
    constructor; by rewrite logical_active|]).
  case_decide; [|done]. destruct (st_VerificationPassed s) eqn:Hv;
    rewrite ?reusePending_Type; (split; [|done]); constructor; by rewrite ?logical_active.
Qed.

Lemma applyActionPlanned_WF s e s' : WF s -> applyActionPlanned s e = Ok s' -> WF s'.
Proof.
  intros [HC _] H. unfold applyActionPlanned in H. ok_inv; simp_not.
  split; [by apply (Core_frame s)|].
  destruct (Decide_Planned s HC) as [HPl Hterm]; [done|].
  apply ManagedPending; cbn in *; [done|done| |done].
  replace (ed_ActionType (ev_Data e)) with (cmd_Type (Decide s)) by congruence.
  inversion HPl; constructor; done.
Qed.

Lemma applyDesiredState_WF s d s' : WF s -> applyDesiredState s d = Ok s' -> WF s'.
Proof.
  intros [HC HPd] H. pose proof (core_progress _ HC) as HP.
  unfold applyDesiredState in H. ok_inv; simp_not.
  - apply transition_Ok in E1 as [_ ->].
    assert (logicalState s = run_ObservedState (st_Run s)) as EL by by apply logical_active.
    split.
    + constructor; unfold logicalState; cbn; try done; [apply HC|set_solver|by left|].
      rewrite <- EL. apply (Progress_ext s); done.
    + by apply (PendingOk_ext s).
  - apply transition_Ok in E1 as [_ ->].
    assert (logicalState s = st_ResumeState s) as EL.
    { unfold logicalState. by rewrite decide_True. }
    rewrite EL in HP. destruct (Progress_logical_known _ _ HP) as (? & ? & ?).
    split.
    + constructor; unfold logicalState; cbn; try done; [apply HC|set_solver|].
      rewrite decide_False by done. apply (Progress_ext s); try done. cbn in *. by rewrite H.
    + apply (PendingOk_ext s); try done; unfold logicalState; cbn in *.
      * by rewrite decide_False, decide_True.
      * by rewrite H.
      * intros _ Hpl. rewrite <- EL. apply (Planned_active _ _ Hpl). cbn. by rewrite H.
  - split.
    + constructor; cbn; try apply HC; [set_solver|by right|done|].
      apply (Progress_ext s); [exact HP|done..].
    + apply (PendingOk_ext s); done.
Qed.

(** Legacy lifecycle events, which [applyEvent] accepts only while no managed
    action is pending. *)
Lemma requireActiveState_Ok s expected u :
  requireActiveState s expected = Ok u ->
  st_Exists s = true /\ st_DesiredState s = DesiredRunning /\ st_ObservedState s = expected.
Proof. unfold requireActiveState. intros H. ok_inv; simp_not. done. Qed.

Lemma requireActiveState_logical s expected u :
  requireActiveState s expected = Ok u -> expected <> StatusPaused ->
  logicalState s = expected /\ forall next, transition s next = advanceManagedState s next.
Proof.
  intros (_ & _ & HO)%requireActiveState_Ok ?. split.
  - by rewrite logical_active; rewrite HO.
  - intros next. apply transition_managed. by rewrite HO.
Qed.

(** [advancePlannedResult] is the managed advance in both of its modes. *)
Lemma requirePlannedResultState_logical s expected paused :
  requirePlannedResultState s expected = Ok paused -> expected <> StatusPaused ->
  logicalState s = expected /\
  forall next, advancePlannedResult s paused next = advanceManagedState s next.
Proof.
  unfold requirePlannedResultState. intros H ?. ok_inv; simp_not; cbn in *.
  - split; [rewrite logical_active; cbn; congruence|]. intros next.
    unfold advancePlannedResult. cbn. apply transition_managed. cbn. congruence.
  - unfold logicalState, advancePlannedResult, advanceManagedState. cbn.
    split; intros; by rewrite decide_True.
Qed.

Ltac legacy_guards :=
  repeat match goal with
  | H : requireActiveState _ _ = Ok _ |- _ =>
      apply requireActiveState_logical in H as [? ?]; [|discriminate]
  | H : requirePlannedResultState _ _ = Ok _ |- _ =>
      apply requirePlannedResultState_logical in H as [? ?]; [|discriminate]
  | E : (forall next, transition ?s next = advanceManagedState ?s next), H : transition ?s _ = Ok _ |- _ => rewrite E in H
  | E : (forall next, advancePlannedResult ?s ?p next = advanceManagedState ?s next),
    H : advancePlannedResult ?s ?p _ = Ok _ |- _ => rewrite E in H
  end.

(** After an advance the pending fields are those before it. *)
Definition same_pending (s s' : State) : Prop :=
  st_PendingActionID s' = st_PendingActionID s /\ st_PendingActionType s' = st_PendingActionType s /\
  st_PendingAttemptID s' = st_PendingAttemptID s /\
  st_PendingActionScope s' = st_PendingActionScope s.

Lemma advance_same_pending s next s' : advanceManagedState s next = Ok s' -> same_pending s s'.
Proof. intros [_ ->]%advanceManagedState_Ok. by case_decide. Qed.

Section legacy.
Context (s : State) (e : Event) (s' : State).
Context (HC : Core s) (HPd : PendingOk s) (Huntyped : st_PendingActionType s = "").

(** No action is pending outside Reasoning and Verifying. *)
Lemma legacy_idle s1 :
  logicalState s <> StatusReasoning -> logicalState s <> StatusVerifying ->
  same_pending s s1 -> PendingOk s1.
Proof using HPd Huntyped.
  intros ? ? (E1 & E2 & E3 & E4).
  destruct (PendingOk_untyped s HPd Huntyped) as (? & ? & Hid).
  assert (st_PendingActionID s = "").
  { destruct (decide (st_PendingActionID s = "")) as [|Hx]; [done|]. by destruct (Hid Hx) as [|[]]. }
  apply NoPending; congruence.
Qed.

(** Clearing the identifier leaves nothing pending. *)
Lemma legacy_cleared s1 :
  same_pending s s1 -> PendingOk (s1 <| st_PendingActionID := "" |>).
Proof using HPd Huntyped.
  intros (E1 & E2 & E3 & E4). destruct (PendingOk_untyped s HPd Huntyped) as (? & ? & _).
  apply NoPending; cbn; congruence.
Qed.

Ltac idle :=
  match goal with H : advanceManagedState _ _ = Ok _, E : logicalState s = _ |- PendingOk _ =>
    apply advance_same_pending in H; apply legacy_idle; [by rewrite E..|exact H] end.

Lemma applyAttemptStarted_WF : applyAttemptStarted s e = Ok s' -> WF s'.
Proof using All.
  intros H. pose proof (core_progress _ HC) as HP. unfold applyAttemptStarted in H.
  ok_inv. legacy_guards. split; [|idle].
  core_step StatusProvisioning. phase. apply first_attempt. congruence.
Qed.

Lemma applyWorkspaceProvisioned_WF : applyWorkspaceProvisioned s e = Ok s' -> WF s'.
Proof using All.
  intros H. pose proof (core_progress _ HC) as HP. unfold applyWorkspaceProvisioned in H.
  ok_inv. legacy_guards. split; [|idle]. core_step StatusReasoning. phase.
Qed.

Lemma applyPatchProduced_WF : applyPatchProduced s e = Ok s' -> WF s'.
Proof using All.
  intros H. pose proof (core_progress _ HC) as HP. unfold applyPatchProduced in H.
  ok_inv. legacy_guards. split; [|idle]. core_step StatusVerifying. phase.
Qed.

(** Planning: only the pending identifier changes. *)
Lemma legacy_planned id :
  id <> "" ->
  logicalState s = StatusReasoning \/
    logicalState s = StatusVerifying /\ st_VerificationPassed s = false ->
  WF (s <| st_PendingActionID := id |>).
Proof using HC HPd Huntyped.
  intros ? HL. destruct (PendingOk_untyped s HPd Huntyped) as (? & ? & _).
  split; [by apply (Core_frame s)|]. by apply LegacyPending.
Qed.

Lemma applyReasoningPlanned_WF : applyReasoningPlanned s e = Ok s' -> WF s'.
Proof using All.
  unfold applyReasoningPlanned. intros H. ok_inv. legacy_guards. apply legacy_planned; auto.
Qed.

Lemma applyVerificationPlanned_WF : applyVerificationPlanned s e = Ok s' -> WF s'.
Proof using All.
  unfold applyVerificationPlanned. intros H. ok_inv. legacy_guards. apply legacy_planned; auto.
Qed.

Lemma applyReasoningCompleted_WF : applyReasoningCompleted s e = Ok s' -> WF s'.
Proof using All.
  intros H. pose proof (core_progress _ HC) as HP. unfold applyReasoningCompleted in H.
  ok_inv. legacy_guards. split.
  - core_step StatusActing. phase.
  - match goal with H : advanceManagedState _ _ = Ok _ |- _ =>
      apply advance_same_pending in H end.
    by apply (PendingOk_ext (v1 <| st_PendingActionID := "" |>)); try apply legacy_cleared.
Qed.

Lemma applyToolCallFailed_WF : applyToolCallFailed s e = Ok s' -> WF s'.
Proof using All.
  intros H. unfold applyToolCallFailed in H. ok_inv. split.
  - apply (Core_ext s); [done..|]. apply (Progress_ext s); try done. apply HC.
  - apply (PendingOk_ext (s <| st_PendingActionID := "" |>)); try done. by apply legacy_cleared.
Qed.

Lemma applyVerificationPassed_WF : applyVerificationPassed s e = Ok s' -> WF s'.
Proof using All.
  intros H. pose proof (core_progress _ HC) as HP. unfold applyVerificationPassed in H.
  ok_inv. legacy_guards. destruct (PendingOk_untyped s HPd Huntyped) as (? & ? & _).
  split; [|by apply NoPending]. apply (Core_ext s); [done..|].
  match goal with E : logicalState s = _ |- _ => rewrite E end. phase.
Qed.

Lemma applyRunSucceeded_WF : applyRunSucceeded s e = Ok s' -> WF s'.
Proof using All.
  intros H. pose proof (core_progress _ HC) as HP. unfold applyRunSucceeded in H.
  ok_inv. simp_not. legacy_guards. destruct (PendingOk_untyped s HPd Huntyped) as (? & ? & _).
  split; [core_step StatusSucceeded; phase|].
  apply advance_same_pending in H as (? & ? & ? & ?). apply NoPending; congruence.
Qed.
Lemma applyRunFailed_WF : applyRunFailed s e = Ok s' -> WF s'.
Proof using All.
  intros H. unfold applyRunFailed in H.
  set (s1 := if decide (ed_Reason (ev_Data e) <> "") then _ else s) in H.
  assert (same_control s s1 /\ same_pending s s1 /\ Core s1) as (Hc & Hp & HC1).
  { clear H. subst s1. case_decide; [|done]. repeat apply conj; [done..|].
    apply (Core_ext s); [done..|]. apply (Progress_ext s); try done. apply HC. }
  clearbody s1. ok_inv; simp_not.
  set (s2 := s1 <| st_PendingActionID := "" |>) in H.
  assert (Core s2) as HC2 by by apply (Core_frame s1).
  rewrite transition_managed in H.
  - split; [core_step StatusFailed; constructor; cbn in *; congruence|].
    apply advance_same_pending in H as (? & ? & ? & ?).
    destruct Hp as (? & ? & ? & ?). destruct (PendingOk_untyped s HPd Huntyped) as (? & ? & _).
    apply NoPending; cbn in *; congruence.
  - intros Hx. destruct Hc as (_ & Hd & _). apply (core_paused _ HC2) in Hx.
    destruct Hx as [Hx|Hx]; cbn in *; rewrite Hd in Hx; by rewrite Hx in *.
Qed.

Lemma applyRunCancelled_WF : applyRunCancelled s e = Ok s' -> WF s'.
Proof using All.
  intros H. unfold applyRunCancelled in H. ok_inv; simp_not.
  apply transition_Ok in H as [_ ->]. destruct (PendingOk_untyped s HPd Huntyped) as (? & ? & _).
  split; [|by apply NoPending].
  constructor; [apply HC|apply HC|done| |done|by constructor].
  cbn in *. by rewrite E.
Qed.
End legacy.

(** ** The invariant of [applyEvent] and of [Reduce] *)

(** Only [RunCreated] is accepted before the Run exists. *)
Lemma fresh_event s e s' :
  st_Exists s = false -> st_PendingActionID s = "" -> applyEvent s e = Ok s' ->
  ev_Type e = EventRunCreated /\ applyRunCreated s e = Ok s'.
Proof.
  intros Hx Hid H. unfold applyEvent in H.
  repeat match type of H with (if decide ?P then _ else _) = _ => destruct (decide P) end;
    try done; exfalso; revert H;
  unfold applyLeaseEvent, applyActionPlanned, applyActionCompleted, applyActionFailed,
    requireManagedPendingAction, applyAttemptStarted, applyWorkspaceProvisioned,
    applyReasoningPlanned, applyReasoningCompleted, applyToolCallFailed, applyPatchProduced,
    applyVerificationPlanned, applyVerificationPassed, applyRunSucceeded, applyRunFailed,
    applyRunCancelled, requireActiveState, requirePlannedResultState;
    rewrite ?Hx; cbn; intros H; ok_inv; simp_not; congruence.
Qed.

(** A legacy lifecycle event is accepted only while no managed action is pending. *)
Lemma legacy_untyped s t :
  ~ (st_PendingActionType s <> "" /\ legacyLifecycleResultEvent t = true) ->
  legacyLifecycleResultEvent t = true -> st_PendingActionType s = "".
Proof. intros Hn Ht. apply dec_stable. tauto. Qed.

Ltac legacy_case :=
  match goal with
  | E : ev_Type ?e = _, Hn : ~ (_ /\ legacyLifecycleResultEvent (ev_Type ?e) = true) |- _ =>
      apply legacy_untyped in Hn; [|by rewrite E]
  end.

#[export] Hint Resolve applyActionPlanned_WF applyActionCompleted_WF applyActionFailed_WF
  applyDesiredState_WF applyRunCreated_WF applyAttemptStarted_WF applyWorkspaceProvisioned_WF
  applyReasoningPlanned_WF applyReasoningCompleted_WF applyToolCallFailed_WF
  applyPatchProduced_WF applyVerificationPlanned_WF applyVerificationPassed_WF
  applyRunSucceeded_WF applyRunFailed_WF applyRunCancelled_WF : lifecycle.

Lemma applyEvent_WF s e s' :
  s = InitialState \/ WF s -> applyEvent s e = Ok s' -> WF s'.
Proof.
  intros [->|Hwf] H; [apply fresh_event in H as [_ H]; [by eapply applyRunCreated_WF|done..]|].
  assert (Hwf2 := Hwf). destruct Hwf2 as [HC HPd]. unfold applyEvent in H.
  destruct (decide (st_PendingActionType s <> "" /\ _)) as [?|Hn] in H; [done|].
  repeat match type of H with (if decide ?P then _ else _) = _ => destruct (decide P) end;
    try done; try legacy_case; try solve [eauto with lifecycle].
  - destruct (negb (st_Exists s)); [done|]. eauto with lifecycle.
  - by apply applyLeaseEvent_same in H as ->.
Qed.
