(* ===== verification/Replay.v ===== *)
(** * Whole logs: what [Reduce] and [ReduceFromCheckpoint] guarantee

    The loop of reducer.go over a whole event log: the projection it returns is
    well formed, the envelopes of an accepted log are in sequence, a replay can
    be split anywhere, and a checkpoint replaces exactly the prefix it was
    computed from. *)
From S2P Require Import Prelude Sha256 Types Decide Reducer Lifecycle.

(** ** One step *)

Definition keys_of (events : list Event) : gset string := list_to_set (map ev_IdempotencyKey events).

(** The envelope checks of the loop, as one predicate. *)
Record envelope_ok (index : nat) (s : State) (keys : gset string) (e : Event) : Prop := {
  env_seq : ev_Seq e = u64 (Z.of_nat index + 1);
  env_run : ev_RunID e <> "";
  env_key : ev_IdempotencyKey e <> "";
  env_version : ev_PayloadVersion e = CurrentEventPayloadVersion;
  env_fresh : ev_IdempotencyKey e ∉ keys;
  env_same_run : st_Exists s = true -> ev_RunID e = run_ID (st_Run s);
  env_active : st_Exists s = true -> Terminal (st_ObservedState s) = false
}.

Lemma reduceStep_Ok i s keys e s' :
  reduceStep i s keys e = Ok s' <->
  envelope_ok i s keys e /\ exists s1, applyEvent s e = Ok s1 /\ s' = stampEvent s1 e.
Proof.
  unfold reduceStep. split.
  - intros H. repeat (case_decide; [done|]).
    destruct (st_Exists s && _) eqn:Hterm; [done|]. apply bind_Ok in H as (s1 & H & [= <-]).
    apply wrap_Ok in H. split; [|by exists s1]. split; try solve [by apply dec_stable|assumption].
    + intros ?. apply dec_stable. intros ?. tauto.
    + intros Hx. by rewrite Hx in Hterm.
  - intros [[H1 H2 H3 H4 H5 H6 H7] (s1 & H & ->)]. do 6 (case_decide; [exfalso; tauto|]).
    destruct (st_Exists s && _) eqn:Hterm; [|by rewrite H].
    apply andb_true_iff in Hterm as [Hx Ht]. by rewrite (H7 Hx) in Ht.
Qed.

(** ** Splitting a replay *)

Lemma reduceLoop_app i s keys es1 es2 :
  reduceLoop i s keys (es1 ++ es2) =
  (s1 ← reduceLoop i s keys es1; reduceLoop (i + length es1) s1 (keys_of es1 ∪ keys) es2).
Proof.
  revert i s keys. induction es1 as [|e es1 IH]; intros i s keys; cbn.
  - rewrite Nat.add_0_r. f_equal. unfold keys_of. cbn. by rewrite (left_id_L ∅ (∪)).
  - destruct (reduceStep i s keys e) as [s1|]; [|done]. cbn. rewrite IH.
    destruct (reduceLoop _ _ _ es1); [|done]. cbn.
    unfold keys_of. cbn. f_equal; [lia|].
    rewrite !(assoc_L (∪)). by rewrite (comm_L (∪) (list_to_set _) {[_]}).
Qed.

Lemma Reduce_app es1 es2 :
  Reduce (es1 ++ es2) = (s ← Reduce es1; reduceLoop (length es1) s (keys_of es1) es2).
Proof. unfold Reduce. rewrite reduceLoop_app. by rewrite (right_id_L ∅ (∪)). Qed.

Lemma Reduce_snoc es e :
  Reduce (es ++ [e]) = (s ← Reduce es; reduceStep (length es) s (keys_of es) e).
Proof.
  rewrite Reduce_app. destruct (Reduce es); [|done]. cbn. by destruct (reduceStep _ _ _ _).
Qed.

(** Induction on the accepted log, from its end. *)
Lemma Reduce_ind (P : list Event -> State -> Prop) :
  P [] InitialState ->
  (forall es s e s1, Reduce es = Ok s -> P es s -> envelope_ok (length es) s (keys_of es) e ->
     applyEvent s e = Ok s1 -> P (es ++ [e]) (stampEvent s1 e)) ->
  forall es s, Reduce es = Ok s -> P es s.
Proof.
  intros Hnil Hsnoc es. induction es as [|e es IH] using rev_ind; intros s H.
  - by injection H as <-.
  - rewrite Reduce_snoc in H. apply bind_Ok in H as (s0 & H0 & (He & s1 & H1 & ->)%reduceStep_Ok).
    by eapply Hsnoc; eauto.
Qed.

(** ** The invariant of a replay *)

Lemma stampEvent_WF s e : WF s -> WF (stampEvent s e).
Proof.
  intros [HC HPd]. unfold stampEvent. split; case_decide.
  all: first [by apply (Core_frame s) | by apply (PendingOk_ext s)].
Qed.

Lemma Reduce_initial_or_WF es s :
  Reduce es = Ok s -> es = [] /\ s = InitialState \/ es <> [] /\ WF s.
Proof.
  revert es s. apply Reduce_ind; [by left|]. intros es s e s1 _ IH _ H. right.
  split; [by destruct es|]. apply stampEvent_WF. eapply applyEvent_WF; [|done].
  by destruct IH as [[_ ->]|[_ ?]]; [left|right].
Qed.

(** ** What no event changes *)

(** The identity [RunCreated] gives a Run. *)
Definition identity (s : State) : string * string * string * string :=
  (run_ID (st_Run s), run_ScenarioID (st_Run s), run_SpecHash (st_Run s), run_CreatedAt (st_Run s)).

(** [frozen s s']: an accepted event keeps the identity and the facts already
    established: verification and patch evidence, and a cancelled intent. *)
Record frozen (s s' : State) : Prop := {
  fz_exists : st_Exists s' = st_Exists s;
  fz_identity : identity s' = identity s;
  fz_verified : st_VerificationPassed s = true -> st_VerificationPassed s' = true;
  fz_patched : st_PatchProduced s = true -> st_PatchProduced s' = true;
  fz_cancelled : st_DesiredState s = DesiredCancelled -> st_DesiredState s' = DesiredCancelled
}.

#[export] Instance frozen_preorder : PreOrder frozen.
Proof.
  split; [by intros s|]. intros s1 s2 s3 [A1 A2 A3 A4 A5] [B1 B2 B3 B4 B5].
  split; [by rewrite B1|by rewrite B2|auto..].
Qed.

Ltac advance_shape :=
  repeat match goal with
  | H : transition _ _ = Ok _ |- _ => apply transition_Ok in H as [_ ->]
  | H : advanceManagedState _ _ = Ok _ |- _ => apply advanceManagedState_Ok in H as [_ ->]
  | H : advancePlannedResult _ _ _ = Ok _ |- _ => unfold advancePlannedResult in H; ok_inv
  end; repeat case_decide; try done.

Lemma advance_frozen s next s' : advanceManagedState s next = Ok s' -> frozen s s'.
Proof. intros [_ ->]%advanceManagedState_Ok. by case_decide. Qed.

Lemma completed_frozen s d s' : applyCompletedActionResult s d = Ok s' -> frozen s s'.
Proof.
  unfold applyCompletedActionResult. intros H. ok_inv; advance_shape.
Qed.

Lemma applyDesiredState_frozen s d s' : applyDesiredState s d = Ok s' -> frozen s s'.
Proof.
  unfold applyDesiredState. intros H. ok_inv; simp_not; advance_shape; split; try done;
    cbn in *; intros Hc; first [congruence |
      match goal with E : _ = DesiredPaused |- _ => by rewrite E in Hc end].
Qed.

(** The legacy lifecycle events, whose guards leave the desired state alone. *)
Ltac legacy_frozen apply_def :=
  intros H; unfold apply_def in H; ok_inv; advance_shape; split; done.

Lemma legacy_frozen_events s e s' :
  applyAttemptStarted s e = Ok s' \/ applyWorkspaceProvisioned s e = Ok s' \/
  applyReasoningPlanned s e = Ok s' \/ applyReasoningCompleted s e = Ok s' \/
  applyToolCallFailed s e = Ok s' \/ applyPatchProduced s e = Ok s' \/
  applyVerificationPlanned s e = Ok s' \/ applyVerificationPassed s e = Ok s' \/
  applyRunSucceeded s e = Ok s' \/ applyRunFailed s e = Ok s' \/
  applyRunCancelled s e = Ok s' -> frozen s s'.
Proof.
  intros [H|[H|[H|[H|[H|[H|[H|[H|[H|[H|H]]]]]]]]]]; revert H;
    [legacy_frozen applyAttemptStarted | legacy_frozen applyWorkspaceProvisioned
    | legacy_frozen applyReasoningPlanned | legacy_frozen applyReasoningCompleted
    | legacy_frozen applyToolCallFailed | legacy_frozen applyPatchProduced
    | legacy_frozen applyVerificationPlanned | legacy_frozen applyVerificationPassed
    | legacy_frozen applyRunSucceeded | legacy_frozen applyRunFailed
    | legacy_frozen applyRunCancelled].
Qed.

Lemma applyEvent_frozen s e s' : st_Exists s = true -> applyEvent s e = Ok s' -> frozen s s'.
Proof.
  intros Hx H. unfold applyEvent in H.
  repeat match type of H with (if decide ?P then _ else _) = _ => destruct (decide P) end;
    try done; try solve [eapply legacy_frozen_events; eauto 12].
  - unfold applyRunCreated in H. by rewrite Hx in H.
  - rewrite Hx in H. by apply applyDesiredState_frozen in H.
  - by apply applyLeaseEvent_same in H as ->.
  - unfold applyActionPlanned in H. by ok_inv.
  - unfold applyActionCompleted in H. ok_inv. by apply completed_frozen in E0 as [].
  - unfold applyActionFailed in H. ok_inv. by apply advance_frozen in H as [].
Qed.

(** ** Extensions of an accepted log *)

(** [Extends es s es' s']: the log [es], with projection [s], grew to [es']. *)
Definition Extends (es : list Event) (s : State) (es' : list Event) (s' : State) : Prop :=
  (exists rest, es' = es ++ rest) /\ Reduce es = Ok s /\ Reduce es' = Ok s'.

(** Rule induction for what holds of every extension of a log. *)
Lemma Extends_ind (P : State -> Prop) es s :
  P s ->
  (forall es' s' e s1, Reduce es' = Ok s' -> P s' -> envelope_ok (length es') s' (keys_of es') e ->
     applyEvent s' e = Ok s1 -> P (stampEvent s1 e)) ->
  forall es' s', Extends es s es' s' -> P s'.
Proof.
  intros Hs Hstep es' s' [[rest ->] [H H']]. revert s' H'.
  induction rest as [|e rest IH] using rev_ind; intros s' H'.
  - rewrite app_nil_r in H'. rewrite H in H'. by injection H' as <-.
  - rewrite (assoc_L (++)), Reduce_snoc in H'.
    apply bind_Ok in H' as (s0 & H0 & (He & s1 & H1 & ->)%reduceStep_Ok). by eapply Hstep; eauto.
Qed.

Lemma stampEvent_frozen s e : frozen s (stampEvent s e).
Proof. unfold stampEvent. by case_decide. Qed.

Lemma Extends_frozen es s es' s' : es <> [] -> Extends es s es' s' -> frozen s s'.
Proof.
  intros Hne HE. destruct HE as [Hpre [H H']]. assert (Extends es s es' s') as HE by done.
  clear Hpre H'. revert es' s' HE. apply Extends_ind; [done|].
  intros es' s' e s1 H' IH _ H1. etrans; [done|]. etrans; [|apply stampEvent_frozen].
  apply (applyEvent_frozen _ e); [|done]. rewrite (fz_exists _ _ IH).
  apply Reduce_initial_or_WF in H as [[-> _]|[_ [HC _]]]; [done|apply HC].
Qed.
