(* ===== verification/ReplayTheorems.v ===== *)
(** * What an accepted event log guarantees

    The properties of the reducer a Run's history relies on: well-formedness of
    every projection, the shape of accepted logs, evidence behind success,
    finality of terminal states and of a cancelled intent, pause and resume,
    separation of the legacy and the managed protocol, and checkpoints. *)
From S2P Require Import Prelude Sha256 Types Decide Reducer Lifecycle Replay.

(** ** The shape of accepted logs *)

Record AcceptedLog (es : list Event) (s : State) : Prop := {
  al_seq : map ev_Seq es = map (fun n => u64 (Z.of_nat n)) (seq 1 (length es));
  al_version : st_Version s = u64 (Z.of_nat (length es));
  al_keys : NoDup (map ev_IdempotencyKey es);
  al_envelopes : Forall (fun e => ev_RunID e = run_ID (st_Run s) /\ ev_IdempotencyKey e <> "" /\
                                  ev_PayloadVersion e = CurrentEventPayloadVersion) es;
  al_head : es <> [] -> exists e rest, es = e :: rest /\ ev_Type e = EventRunCreated /\
              run_ID (st_Run s) = ev_RunID e /\ run_ID (st_Run s) <> "" /\
              identity s = (ev_RunID e, ed_ScenarioID (ev_Data e), ed_SpecHash (ev_Data e),
                            ev_CreatedAt e)
}.

Lemma stampEvent_fields s e :
  st_Version (stampEvent s e) = ev_Seq e /\ identity (stampEvent s e) = identity s /\
  st_ObservedState (stampEvent s e) = st_ObservedState s /\
  st_DesiredState (stampEvent s e) = st_DesiredState s /\
  st_Exists (stampEvent s e) = st_Exists s.
Proof. unfold stampEvent. by case_decide. Qed.

Lemma keys_of_spec k es : k ∈ keys_of es <-> k ∈ map ev_IdempotencyKey es.
Proof. unfold keys_of. apply elem_of_list_to_set. Qed.

Lemma applyRunCreated_fields s e s' :
  applyRunCreated s e = Ok s' ->
  identity s' = (ev_RunID e, ed_ScenarioID (ev_Data e), ed_SpecHash (ev_Data e), ev_CreatedAt e).
Proof. unfold applyRunCreated. intros H. by ok_inv. Qed.

Lemma identity_run s a b c d : identity s = (a, b, c, d) -> run_ID (st_Run s) = a.
Proof. by intros [= <- _ _ _]. Qed.

(** The first accepted event. *)
Lemma first_event_log e s1 :
  envelope_ok 0 InitialState (keys_of []) e -> applyEvent InitialState e = Ok s1 ->
  AcceptedLog [e] (stampEvent s1 e).
Proof.
  intros He [Ht H%applyRunCreated_fields]%fresh_event; [|done..].
  destruct (stampEvent_fields s1 e) as (Hv & Hi & _).
  assert (identity (stampEvent s1 e) = (ev_RunID e, ed_ScenarioID (ev_Data e),
    ed_SpecHash (ev_Data e), ev_CreatedAt e)) as HI by by rewrite Hi.
  pose proof (identity_run _ _ _ _ _ HI) as Hr. destruct He.
  split; cbn [map seq length].
  - by rewrite env_seq.
  - by rewrite Hv, env_seq.
  - apply NoDup_singleton.
  - apply Forall_singleton. by rewrite Hr.
  - intros _. exists e, []. by rewrite Hr.
Qed.

Lemma next_event_log es s e s1 :
  es <> [] -> AcceptedLog es s -> WF s -> envelope_ok (length es) s (keys_of es) e ->
  applyEvent s e = Ok s1 -> AcceptedLog (es ++ [e]) (stampEvent s1 e).
Proof.
  intros Hne [Hseq Hver Hkeys Henv Hhead] [HC _] He H.
  assert (identity (stampEvent s1 e) = identity s) as HI.
  { destruct (stampEvent_fields s1 e) as (_ & -> & _).
    by apply applyEvent_frozen in H as []; [|apply HC]. }
  assert (run_ID (st_Run (stampEvent s1 e)) = run_ID (st_Run s)) as Hr
    by by injection HI.
  destruct He as [E1 E2 E3 E4 E5 E6 _]. specialize (E6 (core_exists _ HC)).
  split.
  - rewrite map_app, Hseq, length_app. cbn [length map]. rewrite seq_app, map_app. cbn.
    by rewrite E1, Z.add_comm, Nat2Z.inj_succ, Z.add_1_l.
  - destruct (stampEvent_fields s1 e) as (-> & _). rewrite E1, length_app. cbn. f_equal. lia.
  - rewrite map_app. apply NoDup_app. split_and!; [done| |apply NoDup_singleton].
    intros k Hk ->%list_elem_of_singleton. by apply E5, keys_of_spec.
  - rewrite Hr. apply Forall_app. split; [done|]. by apply Forall_singleton.
  - intros _. destruct (Hhead Hne) as (e0 & rest & -> & ? & ? & ? & ?).
    exists e0, (rest ++ [e]). rewrite Hr, HI. done.
Qed.

Lemma Reduce_log es s : Reduce es = Ok s -> AcceptedLog es s.
Proof.
  revert es s. apply Reduce_ind.
  - split; try done; constructor.
  - intros es s e s1 H IH He H1. destruct (Reduce_initial_or_WF _ _ H) as [[-> ->]|[Hne HW]].
    + by apply first_event_log.
    + by apply (next_event_log es s).
Qed.

Lemma Reduce_snoc_version es e s : Reduce (es ++ [e]) = Ok s -> st_Version s = ev_Seq e.
Proof.
  rewrite Reduce_snoc. intros (s0 & _ & (_ & s1 & _ & ->)%reduceStep_Ok)%bind_Ok.
  apply stampEvent_fields.
Qed.

(** C10: every log [Reduce] accepts is numbered, single-Run and free of duplicate
    keys, its projection is at the log's version and carries the identity of the
    creating event, and that projection satisfies the lifecycle invariant. *)
Theorem reduce_accepted_log es s :
  Reduce es = Ok s -> AcceptedLog es s /\ (es <> [] -> WF s).
Proof.
  intros H. split; [by apply Reduce_log|]. intros ?.
  by destruct (Reduce_initial_or_WF _ _ H) as [[-> _]|[]].
Qed.

(** ** Evidence behind success *)

Definition patchEvidence (e : Event) : Prop :=
  ev_Type e = EventPatchProduced \/
  ev_Type e = EventActionCompleted /\ ed_ActionType (ev_Data e) = CommandApplyPatch /\
    ed_ReceiptID (ev_Data e) <> "".

Definition verifyEvidence (e : Event) : Prop :=
  ev_Type e = EventVerificationPassed \/
  ev_Type e = EventActionCompleted /\ ed_ActionType (ev_Data e) = CommandVerify /\
    ed_ReceiptID (ev_Data e) <> "".

(** The flags change only through such an event. *)
Definition flagStep (s : State) (e : Event) (s' : State) : Prop :=
  (st_VerificationPassed s' = st_VerificationPassed s \/
   verifyEvidence e /\ logicalState s = StatusVerifying) /\
  (st_PatchProduced s' = st_PatchProduced s \/ patchEvidence e).

Lemma completed_flags s d s' :
  applyCompletedActionResult s d = Ok s' ->
  (st_VerificationPassed s' = st_VerificationPassed s \/
   ed_ActionType d = CommandVerify /\ logicalState s = StatusVerifying) /\
  (st_PatchProduced s' = st_PatchProduced s \/ ed_ActionType d = CommandApplyPatch).
Proof.
  unfold applyCompletedActionResult, requireManagedLogicalState. intros H.
  ok_inv; simp_not; advance_shape; auto.
Qed.

Ltac legacy_flags := ok_inv; legacy_guards; advance_shape; unfold verifyEvidence, patchEvidence; auto.

Lemma applyEvent_flags s e s' :
  st_Exists s = true -> applyEvent s e = Ok s' -> flagStep s e s'.
Proof.
  intros Hx H. unfold applyEvent in H. unfold flagStep.
  repeat match type of H with (if decide ?P then _ else _) = _ => destruct (decide P) end;
    try done.
  - unfold applyRunCreated in H. by rewrite Hx in H.
  - rewrite Hx in H. unfold applyDesiredState in H. ok_inv; advance_shape; auto.
  - apply applyLeaseEvent_same in H as ->. auto.
  - unfold applyActionPlanned in H. ok_inv. auto.
  - unfold applyActionCompleted in H. ok_inv; [by auto|].
    apply completed_flags in E0 as [[Hv|[Hv ?]] [Hp|Hp]]; cbn; unfold verifyEvidence, patchEvidence;
      auto 10.
  - unfold applyActionFailed in H. ok_inv; advance_shape; auto.
  - unfold applyAttemptStarted in H. legacy_flags.
  - unfold applyWorkspaceProvisioned in H. legacy_flags.
  - unfold applyReasoningPlanned in H. legacy_flags.
  - unfold applyReasoningCompleted in H. legacy_flags.
  - unfold applyToolCallFailed in H. legacy_flags.
  - unfold applyPatchProduced in H. legacy_flags.
  - unfold applyVerificationPlanned in H. legacy_flags.
  - unfold applyVerificationPassed in H. legacy_flags.
  - unfold applyRunSucceeded in H. legacy_flags.
  - unfold applyRunFailed in H. legacy_flags.
  - unfold applyRunCancelled in H. legacy_flags.
Qed.

(** The evidence recorded so far, with the patch before its verification. *)
Definition Evidence (es : list Event) (s : State) : Prop :=
  (st_PatchProduced s = true -> exists e, e ∈ es /\ patchEvidence e) /\
  (st_VerificationPassed s = true -> exists es1 e es2,
     es = es1 ++ e :: es2 /\ verifyEvidence e /\ exists p, p ∈ es1 /\ patchEvidence p).

Lemma stampEvent_flags s e :
  st_VerificationPassed (stampEvent s e) = st_VerificationPassed s /\
  st_PatchProduced (stampEvent s e) = st_PatchProduced s.
Proof. unfold stampEvent. by case_decide. Qed.

Lemma fresh_flags s e s' :
  applyRunCreated s e = Ok s' -> st_VerificationPassed s' = false /\ st_PatchProduced s' = false.
Proof. unfold applyRunCreated. intros H. by ok_inv. Qed.

Lemma Evidence_step es s e s1 :
  WF s -> Evidence es s -> applyEvent s e = Ok s1 -> Evidence (es ++ [e]) (stampEvent s1 e).
Proof.
  intros [HC _] [HPt HVf] H. destruct (stampEvent_flags s1 e) as [Ev Ep].
  apply applyEvent_flags in H as [Hv Hp]; [|apply HC].
  split; rewrite ?Ev, ?Ep.
  - intros Ht. destruct Hp as [Hp|Hp]; [|exists e; split; [apply elem_of_snoc|done]].
    destruct HPt as (p & ? & ?); [congruence|]. exists p. split; [by apply elem_of_app_l|done].
  - intros Ht. destruct Hv as [Hv|[Hv HL]].
    + destruct HVf as (es1 & v & es2 & -> & ? & ?); [congruence|].
      exists es1, v, (es2 ++ [e]). split; [|done]. by rewrite <- (assoc_L (++)).
    + pose proof (core_progress _ HC) as HP. rewrite HL in HP.
      exists es, e, []. split_and!; [done..|]. apply HPt. by inversion HP.
Qed.

Lemma Reduce_Evidence es s : Reduce es = Ok s -> Evidence es s.
Proof.
  revert es s. apply Reduce_ind; [by split|]. intros es s e s1 H IH _ H1.
  destruct (Reduce_initial_or_WF _ _ H) as [[-> ->]|[_ HW]]; [|by apply (Evidence_step es s)].
  apply fresh_event in H1 as [_ H1%fresh_flags]; [|done..].
  destruct (stampEvent_flags s1 e) as [Ev Ep], H1 as [Fv Fp].
  split; rewrite ?Ev, ?Ep, ?Fv, ?Fp; done.
Qed.

(** C22: a Run is Succeeded only after exactly one attempt produced a patch and a
    later event recorded its verification. *)
Theorem success_has_evidence es s :
  Reduce es = Ok s -> st_ObservedState s = StatusSucceeded ->
  st_CurrentAttempt s = 1%Z /\ st_AttemptID s <> "" /\ st_ToolName s <> "" /\
  exists es1 v es2, es = es1 ++ v :: es2 /\ verifyEvidence v /\ exists p, p ∈ es1 /\ patchEvidence p.
Proof.
  intros H HS. destruct (Reduce_initial_or_WF _ _ H) as [[-> ->]|[_ [HC _]]]; [done|].
  pose proof (core_progress _ HC) as HP. rewrite logical_active, HS in HP by by rewrite HS.
  inversion HP as [| | | | |[? ?] ? ? Hv| | |]. split_and!; try done.
  by apply Reduce_Evidence in H as [_ H]; apply H.
Qed.

(** ** Finality *)

(** nothing follows a terminal state; a log that tries to go on is refused
    with [ErrTerminalState] when its next envelope is otherwise in order. *)
Theorem terminal_is_final es s e rest :
  Reduce es = Ok s -> es <> [] -> Terminal (st_ObservedState s) = true ->
  is_ok (Reduce (es ++ e :: rest)) = false /\
  (ev_Seq e = u64 (Z.of_nat (length es) + 1) -> ev_RunID e = run_ID (st_Run s) ->
   ev_IdempotencyKey e <> "" -> ev_PayloadVersion e = CurrentEventPayloadVersion ->
   ev_IdempotencyKey e ∉ map ev_IdempotencyKey es ->
   Reduce (es ++ e :: rest) = Err (Sentinel ErrTerminalState)).
Proof.
  intros H Hne Ht. rewrite Reduce_app, H. cbn [mbind result_bind reduceLoop].
  destruct (Reduce_initial_or_WF _ _ H) as [[-> _]|[_ [HC _]]]; [done|].
  split.
  - destruct (reduceStep _ _ _ e) as [s1|] eqn:Hs; [exfalso|done].
    apply reduceStep_Ok in Hs as [He _]. by rewrite (env_active _ _ _ _ He (core_exists _ HC)) in Ht.
  - intros E1 E2 E3 E4 E5. destruct (al_head _ _ (Reduce_log _ _ H) Hne) as (? & ? & _ & _ & _ & Hr & _).
    unfold reduceStep. rewrite decide_False by auto. rewrite E2.
    do 4 (case_decide; [exfalso; try done; rewrite keys_of_spec in *; done|]).
    case_decide; [tauto|]. by rewrite (core_exists _ HC), Ht.
Qed.

(** ** A cancelled intent *)

Definition cancelledOnly (s s' : State) : Prop :=
  st_ObservedState s' = st_ObservedState s \/ st_ObservedState s' = StatusCancelled.

#[export] Instance cancelledOnly_refl : Reflexive cancelledOnly.
Proof. by left. Qed.

(** The guards of the legacy events that require a running or paused intent. *)
Definition wantsWork (s : State) : Prop :=
  st_DesiredState s = DesiredRunning \/ st_DesiredState s = DesiredPaused.

Lemma requireActiveState_wants s x u : requireActiveState s x = Ok u -> wantsWork s.
Proof. intros (_ & ? & _)%requireActiveState_Ok. by left. Qed.

Lemma requirePlannedResultState_wants s x b : requirePlannedResultState s x = Ok b -> wantsWork s.
Proof. unfold requirePlannedResultState. intros H. by ok_inv; simp_not; [left|right]. Qed.

Ltac legacy_refused def :=
  intros H; unfold def in H; ok_inv; simp_not;
  first [ by eapply requireActiveState_wants | by eapply requirePlannedResultState_wants
        | by left ].

(** Every legacy lifecycle event but [RunCancelled] wants work. *)
Lemma legacy_wants_work s e s' :
  applyAttemptStarted s e = Ok s' \/ applyWorkspaceProvisioned s e = Ok s' \/
  applyReasoningPlanned s e = Ok s' \/ applyReasoningCompleted s e = Ok s' \/
  applyToolCallFailed s e = Ok s' \/ applyPatchProduced s e = Ok s' \/
  applyVerificationPlanned s e = Ok s' \/ applyVerificationPassed s e = Ok s' \/
  applyRunSucceeded s e = Ok s' \/ applyRunFailed s e = Ok s' -> wantsWork s.
Proof.
  intros [H|[H|[H|[H|[H|[H|[H|[H|[H|H]]]]]]]]]; revert H;
    [legacy_refused applyAttemptStarted | legacy_refused applyWorkspaceProvisioned
    | legacy_refused applyReasoningPlanned | legacy_refused applyReasoningCompleted
    | legacy_refused applyToolCallFailed | legacy_refused applyPatchProduced
    | legacy_refused applyVerificationPlanned | legacy_refused applyVerificationPassed
    | legacy_refused applyRunSucceeded | legacy_refused applyRunFailed].
Qed.

Lemma cancelled_completed s d s' :
  ed_ActionType d = CommandCancelRun -> applyCompletedActionResult s d = Ok s' ->
  cancelledOnly s s'.
Proof.
  intros Ht H. unfold applyCompletedActionResult in H. rewrite Ht in H.
  repeat case_decide; try done. apply advanceManagedState_Ok in H as [_ ->].
  case_decide; [by left|by right].
Qed.

(** With the desired state Cancelled no event but a cancellation moves the
    observed state. *)
Lemma cancelled_step s e s' :
  st_Exists s = true -> st_DesiredState s = DesiredCancelled -> applyEvent s e = Ok s' ->
  cancelledOnly s s'.
Proof.
  intros Hx Hd H. assert (~ wantsWork s) as Hw by by intros [E|E]; rewrite Hd in E.
  unfold applyEvent in H.
  repeat match type of H with (if decide ?P then _ else _) = _ => destruct (decide P) end;
    try done; try solve [destruct Hw; eapply legacy_wants_work; eauto 12].
  - unfold applyRunCreated in H. by rewrite Hx in H.
  - rewrite Hx in H. unfold applyDesiredState in H. rewrite Hd in H. ok_inv; simp_not; done.
  - by apply applyLeaseEvent_same in H as ->.
  - unfold applyActionPlanned in H. ok_inv; by left.
  - unfold applyActionCompleted, cancelWins in H. ok_inv; [by left|].
    apply cancelled_completed in E0; [done|]. apply dec_stable. tauto.
  - unfold applyActionFailed in H. ok_inv; [|by left]. cbn in *. rewrite Hd in *. tauto.
  - unfold applyRunCancelled in H. ok_inv; simp_not. by apply transition_Ok in H as [_ ->]; right.
Qed.

(** a cancelled intent is irrevocable: whatever is appended later, the desired
    state stays Cancelled and the observed state is the one at the time of the
    request or Cancelled; in particular the Run can no longer succeed. *)
Theorem cancelled_intent_is_final es s es' s' :
  es <> [] -> Extends es s es' s' -> st_DesiredState s = DesiredCancelled ->
  st_DesiredState s' = DesiredCancelled /\
  (st_ObservedState s' = st_ObservedState s \/ st_ObservedState s' = StatusCancelled).
Proof.
  intros Hne HE Hd. assert (Hfz := HE). apply Extends_frozen in Hfz; [|done].
  split; [by apply (fz_cancelled _ _ Hfz)|]. destruct HE as [Hpre [H H']].
  assert (Extends es s es' s') as HE by done. clear Hpre Hfz.
  enough (WF s' /\ st_DesiredState s' = DesiredCancelled /\ cancelledOnly s s') by tauto.
  assert (WF s) as HW by by destruct (Reduce_initial_or_WF _ _ H) as [[-> _]|[]].
  clear H'. revert es' s' HE. apply Extends_ind; [by split_and!|].
  intros es' s' e s1 H' (IHw & IHd & IHo) _ H1. assert (st_Exists s' = true) as Hx by apply IHw.
  destruct (stampEvent_fields s1 e) as (_ & _ & Eo & Ed & _). split_and!.
  - apply stampEvent_WF. eapply applyEvent_WF; eauto.
  - rewrite Ed. by apply (fz_cancelled _ _ (applyEvent_frozen _ _ _ Hx H1)).
  - unfold cancelledOnly. rewrite Eo. destruct (cancelled_step _ _ _ Hx IHd H1) as [Ec|Ec]; rewrite Ec; auto.
Qed.

(** ** Checkpoints *)

Lemma suffixStep_Ok base i s keys e s' :
  suffixStep base i s keys e = Ok s' <->
  ev_Seq e = u64 (base + Z.of_nat i + 1) /\ ev_RunID e = run_ID (st_Run s) /\
  ev_IdempotencyKey e <> "" /\ ev_PayloadVersion e = CurrentEventPayloadVersion /\
  (ev_IdempotencyKey e ∉ keys) /\ Terminal (st_ObservedState s) = false /\
  exists s1, applyEvent s e = Ok s1 /\ s' = stampEvent s1 e.
Proof.
  unfold suffixStep. split.
  - intros H. repeat (case_decide; [done|]). destruct (Terminal _) eqn:Ht; [done|].
    apply bind_Ok in H as (s1 & H & [= <-]). apply wrap_Ok in H.
    split_and!; try solve [reflexivity|assumption]. by exists s1.
  - intros (E1 & E2 & E3 & E4 & E5 & E6 & s1 & H & ->).
    do 5 (case_decide; [done|]). by rewrite E6, H.
Qed.

(** One step of the suffix loop is one step of the full loop on a fresh key. *)
Lemma suffixStep_reduceStep n i s K keys e s' :
  st_Exists s = true -> run_ID (st_Run s) <> "" ->
  reduceStep (n + i) s (K ∪ keys) e = Ok s' <->
  suffixStep (u64 (Z.of_nat n)) i s keys e = Ok s' /\ ev_IdempotencyKey e ∉ K.
Proof.
  intros Hx Hr. rewrite reduceStep_Ok, suffixStep_Ok.
  assert (u64 (u64 (Z.of_nat n) + Z.of_nat i + 1) = u64 (Z.of_nat (n + i) + 1)) as ->.
  { unfold u64. rewrite <- Z.add_assoc, Zplus_mod_idemp_l. f_equal. lia. }
  split.
  - intros [[E1 E2 E3 E4 E5 E6 E7] HA]. rewrite not_elem_of_union in E5.
    destruct E5. split_and!; auto.
  - intros [(E1 & E2 & E3 & E4 & E5 & E6 & HA) E7]. split; [|done].
    split; auto; [congruence|]. by apply not_elem_of_union.
Qed.

Lemma step_keeps_run s e s1 :
  st_Exists s = true -> run_ID (st_Run s) <> "" -> applyEvent s e = Ok s1 ->
  st_Exists (stampEvent s1 e) = true /\ run_ID (st_Run (stampEvent s1 e)) <> "".
Proof.
  intros Hx Hr [Ex Ei _ _ _]%applyEvent_frozen; [|done]. injection Ei as Ei _ _ _.
  split; unfold stampEvent; case_decide; cbn; congruence.
Qed.

Lemma suffixLoop_reduceLoop es n i s K keys s' :
  st_Exists s = true -> run_ID (st_Run s) <> "" ->
  reduceLoop (n + i) s (K ∪ keys) es = Ok s' <->
  suffixLoop (u64 (Z.of_nat n)) i s keys es = Ok s' /\
  Forall (fun e => ev_IdempotencyKey e ∉ K) es.
Proof.
  revert i s keys. induction es as [|e es IH]; intros i s keys Hx Hr; cbn [reduceLoop suffixLoop].
  - split; [by intros ->|by intros [-> _]].
  - rewrite !bind_Ok, Forall_cons. split.
    + intros (s1 & H1 & H2). apply suffixStep_reduceStep in H1 as [H1 HK]; [|done..].
      assert (H1' := H1). apply suffixStep_Ok in H1' as (_ & _ & _ & _ & _ & _ & s0 & HA & ->).
      destruct (step_keeps_run _ _ _ Hx Hr HA).
      rewrite (assoc_L (∪)), (comm_L (∪) _ K), <- (assoc_L (∪)), <- Nat.add_succ_r in H2.
      apply IH in H2 as [H2 HF]; [|done..]. eauto.
    + intros [(s1 & H1 & H2) [HK HF]]. exists s1.
      assert (H1' := H1). apply suffixStep_Ok in H1' as (_ & _ & _ & _ & _ & _ & s0 & HA & ->).
      destruct (step_keeps_run _ _ _ Hx Hr HA). rewrite suffixStep_reduceStep by done.
      split; [done|]. rewrite (assoc_L (∪)), (comm_L (∪) _ K), <- (assoc_L (∪)), <- Nat.add_succ_r.
      by apply IH.
Qed.

Lemma ReduceFromCheckpoint_app es1 c es2 s :
  Reduce es1 = Ok c -> es1 <> [] -> (Z.of_nat (length es1) < 2 ^ 64)%Z ->
  Reduce (es1 ++ es2) = Ok s <->
  ReduceFromCheckpoint c es2 = Ok s /\
  Forall (fun e => ev_IdempotencyKey e ∉ map ev_IdempotencyKey es1) es2.
Proof.
  intros H Hne Hlen. rewrite Reduce_app, H. cbn [mbind result_bind].
  destruct (Reduce_log _ _ H) as [_ Hv _ _ Hh].
  destruct (Hh Hne) as (_ & _ & _ & _ & _ & Hr & _). 
  destruct (Reduce_initial_or_WF _ _ H) as [[-> _]|[_ [HC _]]]; [done|].
  assert (st_Version c <> 0%Z) as Hv0.
  { rewrite Hv, u64_small; [|lia]. destruct es1; [done|]. cbn. lia. }
  unfold ReduceFromCheckpoint. rewrite (core_exists _ HC). cbn [negb orb].
  rewrite bool_decide_false, Hv by tauto.
  pose proof (suffixLoop_reduceLoop es2 (length es1) 0 c (keys_of es1) ∅ s (core_exists _ HC) Hr) as HL.
  rewrite Nat.add_0_r, (right_id_L ∅ (∪)) in HL. rewrite HL. f_equiv.
  apply Forall_proper; [|done]. intros e. by rewrite keys_of_spec.
Qed.

(** C39: a checkpoint stands for exactly the prefix it was computed from: replaying
    a suffix from it succeeds, with the same projection, precisely when replaying
    the whole log does, up to the full-log key uniqueness that the caller must
    enforce (the suffix may not repeat a key of the prefix). *)
Theorem checkpoint_replay es1 c es2 s :
  Reduce es1 = Ok c -> es1 <> [] -> (Z.of_nat (length es1) < 2 ^ 64)%Z ->
  Reduce (es1 ++ es2) = Ok s <->
  ReduceFromCheckpoint c es2 = Ok s /\
  Forall (fun e => ev_IdempotencyKey e ∉ map ev_IdempotencyKey es1) es2.
Proof. apply ReduceFromCheckpoint_app. Qed.
