(* ===== verification/Cycle.v ===== *)
(** * The planning cycle: Decide, ActionPlanned, ActionCompleted

    How decide.go and reducer.go fit together: what [Decide] proposes the
    reducer accepts, re-deciding after a crash proposes the same action, the
    completion of a planned action is accepted, and iterating the cycle takes
    every active Run to the terminal state its intent asks for. *)
From S2P Require Import Prelude Sha256 Types Decide Reducer Lifecycle.

(** ** Events of one cycle *)

(** The payload with which a planned command is recorded. *)
Definition plannedData (command : Command) (scope : IdempotencyScope) : EventData :=
  emptyEventData <| ed_ActionID := cmd_ActionID command |>
                 <| ed_ActionType := cmd_Type command |>
                 <| ed_AttemptID := cmd_AttemptID command |>
                 <| ed_IdempotencyScope := scope |>.

(** A completion payload for the pending action: the executor's output under the
    identity of the action and of a receipt. *)
Definition completedData (command : Command) (receiptID : string) (output : EventData) : EventData :=
  output <| ed_ActionID := cmd_ActionID command |> <| ed_ActionType := cmd_Type command |>
         <| ed_ReceiptID := receiptID |>.

Definition planEvent (command : Command) (scope : IdempotencyScope) : Event :=
  newEvent EventActionPlanned (plannedData command scope) (cmd_ActionID command +:+ ":action-planned").

Definition completeEvent (command : Command) (receiptID : string) (output : EventData) : Event :=
  newEvent EventActionCompleted (completedData command receiptID output)
    (cmd_ActionID command +:+ ":action-completed").

Definition desiredEvent (desired : DesiredState) (key : string) : Event :=
  newEvent EventDesiredStateChanged (emptyEventData <| ed_DesiredState := desired |>) key.

(** ** Planning *)

Lemma actionDigest_nonempty m : actionDigest m <> "".
Proof.
  unfold actionDigest. intros H. apply (f_equal String.length) in H.
  rewrite length_hex, length_take, length_sum256 in H. done.
Qed.

Lemma reusePending_idle s c : st_PendingActionID s = "" -> reusePending s c = c.
Proof. intros H. unfold reusePending. by rewrite H. Qed.

Lemma Decide_ActionID s :
  st_PendingActionID s = "" -> cmd_Type (Decide s) <> CommandNoop -> cmd_ActionID (Decide s) <> "".
Proof.
  intros Hid. unfold Decide. destruct (_ || _); [done|].
  repeat case_decide; try done; try destruct (st_VerificationPassed s);
    rewrite ?reusePending_idle by done; intros _; apply actionDigest_nonempty.
Qed.

(** The state after the plan: the four pending fields. *)
Definition withPending (s : State) (c : Command) (scope : IdempotencyScope) : State :=
  s <| st_PendingActionID := cmd_ActionID c |> <| st_PendingActionType := cmd_Type c |>
    <| st_PendingAttemptID := cmd_AttemptID c |> <| st_PendingActionScope := scope |>.

Lemma reusePending_planned s c scope :
  cmd_ActionID c <> "" -> reusePending (withPending s c scope) c = c.
Proof. unfold reusePending, withPending. cbn. by destruct c, (decide _). Qed.

(** Deciding again with the plan recorded gives the same command. *)
Lemma Decide_withPending s scope :
  st_PendingActionID s = "" -> Decide (withPending s (Decide s) scope) = Decide s.
Proof.
  intros Hid. pose proof (Decide_ActionID s Hid) as Hne.
  remember (Decide s) as c eqn:Ec. unfold Decide in *. cbn.
  destruct (_ || _); [done|].
  repeat (case_decide; [try (by subst c)|]); try done;
    [|destruct (st_VerificationPassed s); [by subst c|]];
    rewrite reusePending_idle in Ec by done;
    (rewrite <- (reusePending_planned s c scope) at 3; [|apply Hne; by subst c]);
    f_equal; by subst c.
Qed.

(** ** Completion *)

(** The phases in which the decision function acts. *)
Definition activePhases : list Status :=
  [StatusQueued; StatusProvisioning; StatusReasoning; StatusActing; StatusVerifying].

Definition active (s : State) : Prop := st_ObservedState s ∈ activePhases.

Lemma active_inv s :
  active s -> st_ObservedState s <> StatusPaused /\ st_ObservedState s <> StatusWaitingApproval /\
  Terminal (st_ObservedState s) = false /\ logicalState s = st_ObservedState s.
Proof.
  unfold active, logicalState. intros Ha.
  repeat (apply elem_of_cons in Ha as [Ha | Ha]; [by rewrite Ha|]). by apply elem_of_nil in Ha.
Qed.

Lemma advance_active s (next : Status) :
  active s -> next ∈ assoc allowed (st_ObservedState s) ->
  advanceManagedState s next = Ok (s <| st_ObservedState := next |>).
Proof.
  intros (Hp & _ & Ht & HL)%active_inv Hn. apply advanceManagedState_Ok.
  rewrite HL, decide_False by done. split; [|done]. by apply ValidateTransition_Ok.
Qed.

(** Every active phase can end in failure or cancellation. *)
Lemma active_allows s (next : Status) :
  active s -> next ∈ [StatusFailed; StatusCancelled] -> next ∈ assoc allowed (st_ObservedState s).
Proof.
  unfold active. intros Ha Hn.
  repeat (apply elem_of_cons in Hn as [-> | Hn];
    [repeat (apply elem_of_cons in Ha as [Ha | Ha]; [rewrite Ha; by_computation|]);
     by apply elem_of_nil in Ha|]).
  by apply elem_of_nil in Hn.
Qed.

(** What an output must carry for its action ([ValidateManagedActionOutput]). *)
Definition validOutput (s : State) (c : Command) (output : EventData) : Prop :=
  ValidateManagedActionOutput (cmd_Type c) (cmd_AttemptID c) output = Ok tt.

(** The state the completion of [c] with [output] leads to. *)
Definition afterCompletion (s : State) (c : Command) (receiptID : string) (output : EventData)
    : result State :=
  applyEvent s (completeEvent c receiptID output).

(** [Rounds s n]: how many more actions the Run needs. *)
Definition roundsLeft (s : State) : nat :=
  let o := st_ObservedState s in
  if Terminal o then 0
  else if decide (st_DesiredState s = DesiredCancelled \/ st_FailureReason s <> "") then 1
  else if decide (o = StatusQueued) then 6
  else if decide (o = StatusProvisioning) then 5
  else if decide (o = StatusReasoning) then 4
  else if decide (o = StatusActing) then 3
  else if st_VerificationPassed s then 1 else 2.

(** Where the intent of the Run leads. *)
Definition destination (s : State) : Status :=
  if decide (st_DesiredState s = DesiredCancelled) then StatusCancelled
  else if decide (st_FailureReason s <> "") then StatusFailed
  else StatusSucceeded.

(** Dispatch of the managed events. *)
Lemma applyEvent_planned s d k :
  applyEvent s (newEvent EventActionPlanned d k) =
  applyActionPlanned s (newEvent EventActionPlanned d k).
Proof.
  unfold applyEvent. cbn [ev_Type newEvent]. rewrite decide_False by by intros [].
  reflexivity.
Qed.

Lemma applyEvent_completed s d k :
  applyEvent s (newEvent EventActionCompleted d k) =
  applyActionCompleted s (newEvent EventActionCompleted d k).
Proof.
  unfold applyEvent. cbn [ev_Type newEvent]. rewrite decide_False by by intros [].
  reflexivity.
Qed.

Lemma applyEvent_desired s d k :
  st_Exists s = true -> applyEvent s (desiredEvent d k) = applyDesiredState s d.
Proof.
  intros Hx. unfold applyEvent, desiredEvent. cbn [ev_Type newEvent].
  rewrite decide_False by by intros []. cbn -[applyDesiredState]. by rewrite Hx.
Qed.

Lemma plan_step s scope :
  st_Exists s = true -> st_PendingActionID s = "" -> cmd_Type (Decide s) <> CommandNoop ->
  IdempotencyScope_Valid scope = true ->
  applyEvent s (planEvent (Decide s) scope) = Ok (withPending s (Decide s) scope).
Proof.
  intros Hx Hid Hn Hscope. unfold planEvent. rewrite applyEvent_planned.
  pose proof (Decide_ActionID s Hid Hn) as Hne.
  assert (cmd_Type (Decide s) <> "") as Ht.
  { unfold Decide in *. destruct (_ || _); [done|]. repeat case_decide; try done.
    - by rewrite reusePending_Type.
    - destruct (st_VerificationPassed s); by rewrite ?reusePending_Type. }
  unfold applyActionPlanned, plannedData. cbn -[Decide decide]. 
  rewrite Hx, Hscope, bool_decide_false by by intros []. cbn -[Decide].
  rewrite Hid. repeat (case_decide; [exfalso; intuition congruence|]). done.
Qed.

(** What the decision function proposes in an active Run. *)
Variant decided (s : State) : Command -> Prop :=
  | DecidedCancel : st_DesiredState s = DesiredCancelled ->
      decided s (commandFor s CommandCancelRun)
  | DecidedFail : st_DesiredState s = DesiredRunning -> st_FailureReason s <> "" ->
      decided s (commandFor s CommandFailRun)
  | DecidedWork t : st_DesiredState s = DesiredRunning -> st_FailureReason s = "" ->
      (st_ObservedState s, t) ∈
        [(StatusProvisioning, CommandProvisionWorkspace); (StatusReasoning, CommandRunReasoner);
         (StatusActing, CommandApplyPatch);
         (StatusVerifying, if st_VerificationPassed s then CommandSucceedRun else CommandVerify)] ->
      decided s (commandFor s t)
  | DecidedStart : st_DesiredState s = DesiredRunning -> st_FailureReason s = "" ->
      st_ObservedState s = StatusQueued ->
      decided s ((commandFor s CommandStartAttempt) <| cmd_AttemptID := nextAttemptID s |>).

Lemma Decide_active s :
  Core s -> active s -> st_PendingActionID s = "" -> decided s (Decide s).
Proof.
  intros HC Ha Hid. destruct (active_inv s Ha) as (Hp & Hw & Ht & HL).
  assert (st_DesiredState s <> DesiredCancelled -> st_DesiredState s = DesiredRunning) as Hrun.
  { intros Hd. pose proof (core_desired _ HC) as HD.
    apply elem_of_cons in HD as [|HD]; [done|].
    apply elem_of_cons in HD as [HD|HD]; [by destruct Hp; apply (core_desired_paused _ HC)|].
    by apply list_elem_of_singleton in HD. }
  unfold Decide. rewrite (core_exists _ HC), Ht. cbn [negb orb].
  case_decide; [by constructor|]. specialize (Hrun H).
  rewrite decide_False by (rewrite Hrun; by intros []). rewrite decide_False by done.
  case_decide as HF; [by constructor|].
  rewrite !reusePending_idle by done. clear Hp Hw Ht HL H. unfold active in Ha.
  repeat (apply elem_of_cons in Ha as [Ha | Ha]; [rewrite Ha; cbn|]).
  all: try by apply elem_of_nil in Ha.
  all: try destruct (st_VerificationPassed s) eqn:Hv.
  all: constructor; try done; rewrite Ha, ?Hv; by_computation.
Qed.

(** The bookkeeping after a completion. *)
Definition finish (s : State) (c : Command) (receiptID : string) : State :=
  (clearPending s) <| st_LastCompletedActionID := cmd_ActionID c |> <| st_LastReceiptID := receiptID |>.

Lemma complete_dispatch s c scope r out :
  cmd_ActionID c <> "" -> cmd_Type c <> "" -> r <> "" ->
  applyEvent (withPending s c scope) (completeEvent c r out) =
  (s' ← (if cancelWins s (completedData c r out) then Ok (withPending s c scope)
         else applyCompletedActionResult (withPending s c scope) (completedData c r out));
   Ok (finish s' c r)).
Proof.
  intros Hid Ht Hr. unfold completeEvent. rewrite applyEvent_completed.
  unfold applyActionCompleted. cbn [ev_Data newEvent].
  rewrite decide_False by done. unfold requireManagedPendingAction.
  rewrite bool_decide_false; [done|]. cbn. tauto.
Qed.

Ltac pick_type :=
  unfold applyCompletedActionResult; cbn [ed_ActionType completedData set_field set_ed_ReceiptID
    set_ed_ActionType set_ed_ActionID cmd_Type commandFor set_cmd_AttemptID];
  repeat first [rewrite decide_False by done | rewrite decide_True by done].

(** The progress of one cycle. *)
Definition CycleResult (s s2 : State) : Prop :=
  st_PendingActionID s2 = "" /\ destination s2 = destination s /\
  S (roundsLeft s2) = roundsLeft s /\
  (active s2 \/ st_ObservedState s2 = destination s2).

Lemma CycleResult_end s s2 :
  st_PendingActionID s2 = "" -> destination s2 = destination s ->
  st_ObservedState s2 = destination s -> Terminal (destination s) = true -> roundsLeft s = 1 ->
  CycleResult s s2.
Proof.
  intros H1 H2 H3 H4 H5. unfold CycleResult. rewrite H2, H5. split_and!; try done; [|by right].
  unfold roundsLeft. by rewrite H3, H4.
Qed.

Lemma complete_cancel s scope r out :
  active s -> st_DesiredState s = DesiredCancelled -> r <> "" ->
  exists s2, applyEvent (withPending s (commandFor s CommandCancelRun) scope)
      (completeEvent (commandFor s CommandCancelRun) r out) = Ok s2 /\ CycleResult s s2.
Proof.
  intros Ha Hd Hr. rewrite complete_dispatch by first [apply actionDigest_nonempty|done].
  unfold cancelWins. rewrite bool_decide_false by (intros [_ []]; done). pick_type.
  rewrite decide_False by (intros Hx; by apply Hx).
  rewrite advance_active; [|done|]; cycle 1.
  { apply active_allows; [done|by_computation]. }
  destruct (active_inv s Ha) as (_ & _ & Ht & _).
  assert (destination s = StatusCancelled) as Hdest by (unfold destination; by rewrite decide_True).
  eexists. split; [reflexivity|].
  apply CycleResult_end; rewrite ?Hdest; try done.
  unfold roundsLeft. rewrite Ht. by rewrite decide_True by by left.
Qed.

(** Without a cancelled intent the completion takes effect. *)
Lemma cancelWins_running s d : st_DesiredState s = DesiredRunning -> cancelWins s d = false.
Proof. intros Hd. unfold cancelWins. rewrite bool_decide_false; [done|]. by rewrite Hd; intros []. Qed.

Lemma complete_fail s scope r out :
  active s -> st_DesiredState s = DesiredRunning -> st_FailureReason s <> "" -> r <> "" ->
  exists s2, applyEvent (withPending s (commandFor s CommandFailRun) scope)
      (completeEvent (commandFor s CommandFailRun) r out) = Ok s2 /\ CycleResult s s2.
Proof.
  intros Ha Hd HF Hr. rewrite complete_dispatch by first [apply actionDigest_nonempty|done].
  rewrite cancelWins_running by done. pick_type.
  rewrite decide_False by (intros [? _]; done).
  set (s1 := if decide (_ <> "") then _ else _).
  assert (st_Run s1 = st_Run s /\ st_FailureReason s1 <> "") as [Hrun HF1].
  { subst s1. by case_decide. }
  rewrite advance_active; [|unfold active; cbn; by rewrite Hrun|].
  2:{ cbn. rewrite Hrun. by apply active_allows; [|by_computation]. }
  clearbody s1. destruct (active_inv s Ha) as (_ & _ & Ht & _).
  assert (st_DesiredState s <> DesiredCancelled) as Hnc by by rewrite Hd.
  assert (destination s = StatusFailed) as Hdest.
  { unfold destination. by rewrite decide_False, decide_True. }
  eexists. split; [reflexivity|]. apply CycleResult_end; rewrite ?Hdest; try done.
  - unfold destination. rewrite decide_False, decide_True; [done|done|].
    cbn in *. by rewrite Hrun.
  - unfold roundsLeft. rewrite Ht. by rewrite decide_True by by right.
Qed.

(** A cycle of ordinary work. *)
Lemma CycleResult_work s s2 n :
  st_DesiredState s = DesiredRunning -> st_FailureReason s = "" ->
  st_PendingActionID s2 = "" -> st_DesiredState s2 = DesiredRunning -> st_FailureReason s2 = "" ->
  roundsLeft s = S n -> roundsLeft s2 = n ->
  active s2 \/ st_ObservedState s2 = StatusSucceeded -> CycleResult s s2.
Proof.
  intros Hd HF H1 Hd2 HF2 HR HR2 HA. unfold CycleResult, destination.
  rewrite Hd, HF, Hd2, HF2, HR, HR2. done.
Qed.

(** Finishing a round of work from the phase [o] to the phase [next]. *)
Lemma work_round s s1 c r (o next : Status) :
  st_DesiredState s = DesiredRunning -> st_FailureReason s = "" -> st_ObservedState s = o ->
  st_DesiredState s1 = DesiredRunning -> st_FailureReason s1 = "" -> st_ObservedState s1 = next ->
  roundsLeft s = S (roundsLeft (finish s1 c r)) ->
  next ∈ StatusSucceeded :: activePhases -> CycleResult s (finish s1 c r).
Proof.
  intros Hd HF HO Hd1 HF1 HO1 HR Hn. eapply CycleResult_work; try done.
  unfold active. change (st_ObservedState (finish s1 c r)) with (st_ObservedState s1).
  rewrite HO1. apply elem_of_cons in Hn. tauto.
Qed.

Lemma rounds_work s :
  st_DesiredState s = DesiredRunning -> st_FailureReason s = "" ->
  roundsLeft s =
    if Terminal (st_ObservedState s) then 0
    else if decide (st_ObservedState s = StatusQueued) then 6
    else if decide (st_ObservedState s = StatusProvisioning) then 5
    else if decide (st_ObservedState s = StatusReasoning) then 4
    else if decide (st_ObservedState s = StatusActing) then 3
    else if st_VerificationPassed s then 1 else 2.
Proof. intros Hd HF. unfold roundsLeft. by rewrite Hd, HF. Qed.

(** The guard and the advance of a completion in its own phase. *)
Lemma managed_from s (o next : Status) :
  st_ObservedState s = o -> o ∈ activePhases -> next ∈ assoc allowed o ->
  requireManagedLogicalState s o = Ok tt /\
  advanceManagedState s next = Ok (s <| st_ObservedState := next |>).
Proof.
  intros HO Ha Hn. assert (active s) as Hs by (unfold active; by rewrite HO).
  destruct (active_inv s Hs) as (_ & _ & _ & HL). split.
  - unfold requireManagedLogicalState. rewrite HL, HO. by rewrite bool_decide_false by auto.
  - apply advance_active; [done|]. by rewrite HO.
Qed.

Lemma complete_start s scope r out :
  st_DesiredState s = DesiredRunning -> st_FailureReason s = "" ->
  st_ObservedState s = StatusQueued -> r <> "" ->
  let c := (commandFor s CommandStartAttempt) <| cmd_AttemptID := nextAttemptID s |> in
  validOutput s c out ->
  exists s2, applyEvent (withPending s c scope) (completeEvent c r out) = Ok s2 /\ CycleResult s s2.
Proof.
  intros Hd HF HO Hr c Hval. rewrite complete_dispatch by first [apply actionDigest_nonempty|done].
  rewrite cancelWins_running by done.
  assert (ed_AttemptID out <> "") as Hatt.
  { apply guard_err_Ok, bool_decide_eq_false in Hval. tauto. }
  unfold applyCompletedActionResult. rewrite decide_True by done. rewrite decide_False by done.
  destruct (managed_from (withPending s c scope) StatusQueued StatusProvisioning) as [Hreq Hadv];
    [done|by_computation..|]. rewrite Hreq. cbn [mbind result_bind]. rewrite Hadv.
  eexists. split; [reflexivity|]. eapply (work_round _ _ _ _ StatusQueued StatusProvisioning); try done.
  - rewrite !rounds_work by done. rewrite HO. done.
  - by_computation.
Qed.

Ltac work_case o next :=
  match goal with |- context [withPending ?s ?c ?scope] =>
    destruct (managed_from (withPending s c scope) o next) as [Hreq Hadv];
      [done|by_computation..|]; rewrite Hreq; cbn [mbind result_bind]; rewrite ?Hadv;
    eexists; split; [reflexivity|]; eapply (work_round _ _ _ _ o next); try done;
      [rewrite !rounds_work by done | by_computation]
  end.

Lemma complete_work s t scope r out :
  st_DesiredState s = DesiredRunning -> st_FailureReason s = "" ->
  (st_ObservedState s, t) ∈
    [(StatusProvisioning, CommandProvisionWorkspace); (StatusReasoning, CommandRunReasoner);
     (StatusActing, CommandApplyPatch);
     (StatusVerifying, if st_VerificationPassed s then CommandSucceedRun else CommandVerify)] ->
  r <> "" -> (st_ObservedState s = StatusActing -> st_VerificationPassed s = false) ->
  validOutput s (commandFor s t) out ->
  exists s2, applyEvent (withPending s (commandFor s t) scope)
    (completeEvent (commandFor s t) r out) = Ok s2 /\ CycleResult s s2.
Proof.
  intros Hd HF Hin Hr Hrv Hval. set (c := commandFor s t) in *.
  assert (cmd_ActionID c <> "") as Hid by apply actionDigest_nonempty.
  assert (t <> "") as Ht.
  { intros ->. repeat (apply elem_of_cons in Hin as [Hin | Hin];
      [injection Hin as _ Hin; try done; by destruct (st_VerificationPassed s)|]).
    by apply elem_of_nil in Hin. }
  rewrite complete_dispatch by done. rewrite cancelWins_running by done.
  repeat (apply elem_of_cons in Hin as [Hin | Hin]; [injection Hin as HO ->|]);
    [| | | |by apply elem_of_nil in Hin]; change (run_ObservedState (st_Run s)) with (st_ObservedState s) in HO.
  - subst c. pick_type. work_case StatusProvisioning StatusReasoning. by rewrite HO.
  - assert (ed_ToolName out <> "") by by apply guard_err_Ok, bool_decide_eq_false in Hval.
    subst c. pick_type. work_case StatusReasoning StatusActing. by rewrite HO.
  - subst c. pick_type. work_case StatusActing StatusVerifying. rewrite HO.
    cbn. by rewrite (Hrv HO).
  - destruct (st_VerificationPassed s) eqn:Hv; subst c; pick_type.
    + destruct (managed_from (withPending s (commandFor s CommandSucceedRun) scope)
        StatusVerifying StatusSucceeded) as [-> Hadv]; [done|by_computation..|].
      cbn [mbind result_bind]. rewrite Hadv.
      change (st_VerificationPassed (withPending _ _ _)) with (st_VerificationPassed s).
      rewrite Hv. cbn [negb]. eexists. split; [reflexivity|].
      eapply (work_round _ _ _ _ StatusVerifying StatusSucceeded); try done; [|by_computation].
      rewrite !rounds_work by done. by rewrite HO, Hv.
    + destruct (managed_from (withPending s (commandFor s CommandVerify) scope)
        StatusVerifying StatusSucceeded) as [-> _]; [done|by_computation..|].
      cbn [mbind result_bind]. eexists. split; [reflexivity|].
      eapply (work_round _ _ _ _ StatusVerifying StatusVerifying); try done; [|by_computation].
      rewrite !rounds_work by done.
      set (o2 := st_ObservedState (finish _ _ _)). assert (o2 = StatusVerifying) as -> by done.
      by rewrite HO, Hv.
Qed.

Lemma decided_not_noop s c : decided s c -> cmd_Type c <> CommandNoop.
Proof.
  intros [| |t ? ? Hin|]; try done. cbn. intros ->.
  repeat (apply elem_of_cons in Hin as [Hin | Hin];
    [injection Hin as _ Hin; try done; by destruct (st_VerificationPassed s)|]).
  by apply elem_of_nil in Hin.
Qed.

(** One cycle of an active, idle Run: the plan of [Decide] is accepted, deciding
    again gives the same command, and a valid completion is accepted and brings the
    Run one round closer to its destination. *)
Lemma cycle_step s scope r out :
  WF s -> active s -> st_PendingActionID s = "" -> IdempotencyScope_Valid scope = true ->
  r <> "" -> validOutput s (Decide s) out ->
  let s1 := withPending s (Decide s) scope in
  applyEvent s (planEvent (Decide s) scope) = Ok s1 /\ Decide s1 = Decide s /\
  exists s2, applyEvent s1 (completeEvent (Decide s) r out) = Ok s2 /\ CycleResult s s2.
Proof.
  intros [HC _] Ha Hid Hscope Hr Hval s1. pose proof (Decide_active s HC Ha Hid) as HD.
  pose proof (decided_not_noop _ _ HD) as Hn.
  split_and!; [by apply plan_step; [apply HC|..] | by apply Decide_withPending |].
  pose proof (core_progress _ HC) as HP. destruct (active_inv s Ha) as (_ & _ & _ & HL).
  subst s1. clear Hn. inversion HD as [Hd E|Hd HF E|t Hd HF Hin E|Hd HF HO E]; rewrite <- E in Hval.
  - by apply complete_cancel.
  - by apply complete_fail.
  - apply complete_work; try done. intros HO. rewrite HL, HO in HP. by inversion HP.
  - by apply complete_start.
Qed.
