(* ===== verification/CycleTheorems.v ===== *)
(** * Convergence, recovery, pause and separation of the two protocols *)
From S2P Require Import Prelude Sha256 Types Decide Reducer Lifecycle Cycle.

(** ** Convergence *)

(** An executor returns a receipt identifier and an output that
    [ValidateManagedActionOutput] accepts for the command (an attempt can only
    be started under an identifier). *)
Definition Executor : Type := State -> Command -> string * EventData.

Definition runnable (c : Command) : Prop :=
  cmd_Type c = CommandStartAttempt -> cmd_AttemptID c <> "".

Definition executor_ok (exec : Executor) : Prop :=
  forall s c, runnable c -> fst (exec s c) <> "" /\ validOutput s c (snd (exec s c)).

Lemma decided_runnable s c : decided s c -> runnable c.
Proof.
  intros [| |t _ _ Hin|]; unfold runnable; try done.
  - intros [= ->]. repeat (apply elem_of_cons in Hin as [Hin | Hin];
      [injection Hin as _ Hin; try done; by destruct (st_VerificationPassed s)|]).
    by apply elem_of_nil in Hin.
  - intros _. cbn. unfold nextAttemptID. by destruct (run_ID (st_Run s)).
Qed.

(** The reconcile loop at the level of the projection: decide, plan, execute,
    complete, until there is nothing to do. *)
Fixpoint drive (fuel : nat) (exec : Executor) (scope : IdempotencyScope) (s : State) : result State :=
  match fuel with
  | O => Ok s
  | S n =>
      let c := Decide s in
      if decide (cmd_Type c = CommandNoop) then Ok s
      else
        s1 ← applyEvent s (planEvent c scope);
        s2 ← applyEvent s1 (completeEvent c (fst (exec s1 c)) (snd (exec s1 c)));
        drive n exec scope s2
  end.

Lemma drive_done n exec scope s :
  Terminal (st_ObservedState s) = true -> drive n exec scope s = Ok s.
Proof.
  intros Ht. destruct n; cbn [drive]; [done|]. rewrite decide_True; [done|].
  unfold Decide. by rewrite Ht, orb_true_r.
Qed.

Lemma destination_terminal s : Terminal (destination s) = true.
Proof. unfold destination. by repeat case_decide. Qed.

Lemma drive_active n exec scope s :
  executor_ok exec -> IdempotencyScope_Valid scope = true ->
  WF s -> active s -> st_PendingActionID s = "" -> roundsLeft s <= n ->
  exists s', drive n exec scope s = Ok s' /\ st_ObservedState s' = destination s.
Proof.
  intros Hexec Hscope. revert s. induction n as [|n IH]; intros s HW Ha Hid Hn;
    set (s1 := withPending s (Decide s) scope);
    destruct (Hexec s1 (Decide s) (decided_runnable _ _ (Decide_active s (proj1 HW) Ha Hid)))
      as [Hr Hout];
    destruct (cycle_step s scope (fst (exec s1 (Decide s))) (snd (exec s1 (Decide s))))
      as (Hplan & _ & s2 & Hdone & Hid2 & Hdest & HR & HA); try done; [lia|].
  pose proof (decided_not_noop _ _ (Decide_active s (proj1 HW) Ha Hid)) as Hnoop.
  cbn [drive]. rewrite decide_False by done. rewrite Hplan. cbn [mbind result_bind].
  fold s1 in Hdone |- *. rewrite Hdone. cbn [mbind result_bind]. rewrite <- Hdest.
  destruct HA as [HA|HA]; [|exists s2; split; [|done]; apply drive_done;
    rewrite HA; apply destination_terminal].
  apply IH; try done; [|lia].
  eapply applyEvent_WF; [right|exact Hdone]. eapply applyEvent_WF; [right|exact Hplan]. done.
Qed.

Lemma roundsLeft_bound s : roundsLeft s <= 6.
Proof. unfold roundsLeft. repeat (case_match; try lia). Qed.

(** C38: from any well-formed, idle Run in an active phase, six rounds of
    decide, plan, execute, complete reach the terminal state its intent asks for:
    Cancelled when cancellation was requested, Failed when a failure was recorded,
    Succeeded otherwise. *)
Theorem drive_converges exec scope s :
  executor_ok exec -> IdempotencyScope_Valid scope = true ->
  WF s -> active s -> st_PendingActionID s = "" ->
  exists s', drive 6 exec scope s = Ok s' /\ st_ObservedState s' = destination s.
Proof. intros. apply drive_active; try done. apply roundsLeft_bound. Qed.

(** ** Recovery *)

(** The command [recoverPendingAction] rebuilds from the projection. *)
Definition pendingCommand (s : State) : Command :=
  MkCommand (st_PendingActionType s) (run_ID (st_Run s)) (st_PendingActionID s)
    (st_PendingAttemptID s).

Lemma Decide_run_ID s : cmd_Type (Decide s) <> CommandNoop -> cmd_RunID (Decide s) = run_ID (st_Run s).
Proof.
  unfold Decide. destruct (_ || _); [done|]. unfold reusePending. repeat case_match; done.
Qed.

(** planning is crash-safe: in any existing, idle Run the plan of a proposed
    action is accepted, and the command rebuilt afterwards from the pending fields is
    both the one that was planned and the one [Decide] proposes again. *)
Theorem plan_then_crash s scope :
  st_Exists s = true -> st_PendingActionID s = "" -> cmd_Type (Decide s) <> CommandNoop ->
  IdempotencyScope_Valid scope = true ->
  exists s1, applyEvent s (planEvent (Decide s) scope) = Ok s1 /\
    pendingCommand s1 = Decide s /\ Decide s1 = Decide s /\ st_PendingActionScope s1 = scope /\
    is_ok (applyEvent s1 (planEvent (Decide s1) scope)) = false.
Proof.
  intros Hx Hid Hn Hscope. exists (withPending s (Decide s) scope).
  pose proof (Decide_ActionID s Hid Hn) as Hne.
  split_and!; [by apply plan_step| | by apply Decide_withPending | done |].
  - unfold pendingCommand, withPending. cbn -[Decide]. rewrite <- Decide_run_ID by done.
    by destruct (Decide s).
  - unfold planEvent. rewrite applyEvent_planned. unfold applyActionPlanned.
    change (st_Exists (withPending s (Decide s) scope)) with (st_Exists s). rewrite Hx. cbn [negb].
    destruct (_ || _); [done|].
    change (st_PendingActionID (withPending s (Decide s) scope)) with (cmd_ActionID (Decide s)).
    by rewrite decide_True.
Qed.

(** ** Pause and resume *)

Definition pausedOf (s : State) : State :=
  s <| st_ResumeState := st_ObservedState s |> <| st_ObservedState := StatusPaused |>
    <| st_DesiredState := DesiredPaused |>.

Lemma pause_step s :
  active s -> st_DesiredState s = DesiredRunning ->
  applyDesiredState s DesiredPaused = Ok (pausedOf s).
Proof.
  intros Ha Hd. destruct (active_inv s Ha) as (Hp & _ & Ht & _).
  unfold applyDesiredState. rewrite Ht, Hd. change (negb (DesiredState_Valid _)) with false.
  cbn iota. rewrite decide_True by done. rewrite decide_False by by intros [].
  rewrite decide_False by done. unfold transition.
  replace (ValidateTransition _ StatusPaused) with (Ok tt : result unit); [done|].
  symmetry. apply ValidateTransition_Ok. split; [done|]. cbn. unfold active in Ha. cbn in Ha.
  repeat (apply elem_of_cons in Ha as [Ha | Ha]; [rewrite Ha; by_computation|]).
  by apply elem_of_nil in Ha.
Qed.

(** Any status a paused Run can resume to. *)
Definition resumable : list Status :=
  [StatusQueued; StatusProvisioning; StatusReasoning; StatusActing; StatusVerifying;
   StatusSucceeded; StatusFailed; StatusCancelled].

Lemma resume_step s :
  st_DesiredState s = DesiredPaused -> st_ObservedState s = StatusPaused ->
  st_ResumeState s ∈ resumable ->
  applyDesiredState s DesiredRunning =
  Ok (s <| st_ObservedState := st_ResumeState s |> <| st_ResumeState := "" |>
        <| st_DesiredState := DesiredRunning |>).
Proof.
  intros Hd Ho Hr. unfold applyDesiredState. rewrite Hd, Ho.
  change (negb (DesiredState_Valid _)) with false. change (Terminal StatusPaused) with false.
  cbn iota. rewrite decide_False by done. rewrite decide_True by done.
  assert (st_ResumeState s <> "") as Hne by (intros Hx; rewrite Hx in Hr; revert Hr; by_computation).
  rewrite decide_False by (intros [|[|]]; done). unfold transition. rewrite Ho.
  replace (ValidateTransition _ _) with (Ok tt : result unit); [done|].
  symmetry. apply ValidateTransition_Ok. split; [done|].
  repeat (apply elem_of_cons in Hr as [-> | Hr]; [by_computation|]). by apply elem_of_nil in Hr.
Qed.

(** An in-flight completion commutes with a pause. *)
Lemma advance_paused s next s' :
  active s -> advanceManagedState s next = Ok s' ->
  advanceManagedState (pausedOf s) next = Ok (pausedOf s').
Proof.
  intros Ha. destruct (active_inv s Ha) as (Hp & _ & Ht & HL).
  intros [HV ->]%advanceManagedState_Ok. rewrite decide_False by done.
  apply advanceManagedState_Ok. rewrite HL in HV.
  assert (logicalState (pausedOf s) = st_ObservedState s) as ->.
  { unfold logicalState. by rewrite decide_True. }
  split; [done|]. by rewrite decide_True.
Qed.

Lemma completed_paused s d s' :
  active s -> st_DesiredState s = DesiredRunning -> applyCompletedActionResult s d = Ok s' ->
  applyCompletedActionResult (pausedOf s) d = Ok (pausedOf s').
Proof.
  intros Ha Hd H. destruct (active_inv s Ha) as (_ & _ & _ & HL).
  assert (forall x, requireManagedLogicalState (pausedOf s) x = requireManagedLogicalState s x) as HR.
  { intros x. unfold requireManagedLogicalState. rewrite HL. unfold logicalState.
    by rewrite decide_True. }
  unfold applyCompletedActionResult in H |- *. rewrite !HR.
  ok_inv; simp_not; repeat (rewrite decide_False by done);
    repeat (rewrite decide_True by done); repeat (rewrite decide_False by done);
    repeat match goal with
    | E : requireManagedLogicalState _ _ = Ok _ |- _ => rewrite E; clear E; cbn [mbind result_bind]
    | E : advanceManagedState s _ = Ok _ |- _ =>
        apply (advance_paused _ _ _ Ha) in E; rewrite E; clear E; cbn [mbind result_bind]
    end; try done.
  - by rewrite (E0 : st_VerificationPassed (pausedOf s) = true).
  - set (f := fun t => if decide (ed_Reason d <> "") then t <| st_FailureReason := ed_Reason d |> else t).
    change (advanceManagedState (f (pausedOf s)) StatusFailed = Ok (pausedOf s')).
    replace (f (pausedOf s)) with (pausedOf (f s)) by (unfold f; by case_decide).
    apply advance_paused; [|done]. unfold f. by case_decide.
  - exfalso. by rewrite Hd in *.
Qed.

Lemma active_resumable s : active s -> st_ObservedState s ∈ resumable.
Proof.
  unfold active. generalize (st_ObservedState s). intros o Ha.
  repeat (apply elem_of_cons in Ha as [-> | Ha]; [by_computation|]). by apply elem_of_nil in Ha.
Qed.

Lemma plan_refused s e :
  cmd_Type (Decide s) = CommandNoop -> is_ok (applyActionPlanned s e) = false.
Proof.
  intros Hn. unfold applyActionPlanned. destruct (negb _); [done|]. destruct (_ || _); [done|].
  case_decide; [done|]. by rewrite decide_True by by left.
Qed.

Lemma completed_control s d s' :
  active s -> applyCompletedActionResult s d = Ok s' ->
  st_DesiredState s' = st_DesiredState s /\ st_ResumeState s' = st_ResumeState s /\
  st_ObservedState s' ∈ resumable /\ st_Exists s' = st_Exists s.
Proof.
  intros Ha H. pose proof (active_resumable s Ha) as Hs.
  destruct (active_inv s Ha) as (Hp & _).
  unfold applyCompletedActionResult in H. ok_inv; simp_not;
    repeat match goal with
    | H : advanceManagedState _ _ = Ok _ |- _ =>
        apply advanceManagedState_Ok in H as [_ ->]
    end; repeat (rewrite decide_False by (try case_decide; done));
    split_and!; try by_computation; try done; by case_decide.
Qed.

Lemma resume_undoes_pause s :
  st_DesiredState s = DesiredRunning -> st_ResumeState s = "" -> st_ObservedState s ∈ resumable ->
  applyDesiredState (pausedOf s) DesiredRunning = Ok s.
Proof.
  intros Hd Hr Ho. rewrite resume_step; [|done..]. f_equal.
  destruct s as [? []]. cbn in *. by subst.
Qed.

(** pausing is transparent. From a running Run the pause is accepted, nothing
    can be planned while it lasts, and resuming restores the state exactly; the
    completion of an action that was in flight is accepted during the pause, and
    resuming afterwards gives the state the completion would have given without it. *)
Theorem pause_is_transparent s k1 k2 :
  WF s -> active s -> st_DesiredState s = DesiredRunning ->
  exists p, applyEvent s (desiredEvent DesiredPaused k1) = Ok p /\
    cmd_Type (Decide p) = CommandNoop /\
    (forall d k, is_ok (applyEvent p (newEvent EventActionPlanned d k)) = false) /\
    applyEvent p (desiredEvent DesiredRunning k2) = Ok s /\
    forall d k s', applyEvent s (newEvent EventActionCompleted d k) = Ok s' ->
      exists p', applyEvent p (newEvent EventActionCompleted d k) = Ok p' /\
                 applyEvent p' (desiredEvent DesiredRunning k2) = Ok s'.
Proof.
  intros [HC HPd] Ha Hd. destruct (active_inv s Ha) as (Hp & _ & Ht & _).
  assert (st_ResumeState s = "") as Hr.
  { apply (core_resume _ HC); [done|]. intros Hx. by rewrite Hx in Ht. }
  assert (cmd_Type (Decide (pausedOf s)) = CommandNoop) as HN.
  { unfold Decide. destruct (_ || _); [done|]. rewrite decide_False by done.
    by rewrite decide_True by by left. }
  exists (pausedOf s). rewrite !applyEvent_desired by apply HC. split_and!.
  - by apply pause_step.
  - done.
  - intros d k. rewrite applyEvent_planned. by apply plan_refused.
  - apply resume_undoes_pause; [done..|]. by apply active_resumable.
  - intros d k s' H. rewrite applyEvent_completed in H |- *. unfold applyActionCompleted in H |- *.
    cbn [ev_Data newEvent] in *. rewrite cancelWins_running in H by done. ok_inv.
    destruct (completed_control _ _ _ Ha E0) as (Hd' & Hr' & Ho' & Hx').
    apply completed_paused in E0; [|done..].
    change (requireManagedPendingAction (pausedOf s)) with (requireManagedPendingAction s).
    rewrite E. cbn [mbind result_bind].
    replace (cancelWins (pausedOf s) d) with false by (unfold cancelWins; by rewrite bool_decide_false by by intros []).
    rewrite E0. cbn [mbind result_bind].
    eexists. split; [reflexivity|]. rewrite applyEvent_desired; cycle 1.
    { cbn. rewrite Hx'. apply HC. }
    set (v1 := (clearPending v0) <| st_LastCompletedActionID := ed_ActionID d |>
      <| st_LastReceiptID := ed_ReceiptID d |>).
    trans (applyDesiredState (pausedOf v1) DesiredRunning); [reflexivity|].
    apply resume_undoes_pause; subst v1; cbn in *; congruence.
Qed.

(** ** A pending managed action *)

Definition cleared_pending (s : State) : Prop :=
  st_PendingActionID s = "" /\ st_PendingActionType s = "" /\
  st_PendingAttemptID s = "" /\ st_PendingActionScope s = "".

Lemma completed_pending s d s' : applyCompletedActionResult s d = Ok s' -> same_pending s s'.
Proof.
  unfold applyCompletedActionResult. intros H. ok_inv;
    repeat match goal with
    | H : advanceManagedState _ _ = Ok _ |- _ => apply advance_same_pending in H
    end; try done. by case_decide.
Qed.

Lemma desired_pending s d s' : applyDesiredState s d = Ok s' -> same_pending s s'.
Proof.
  unfold applyDesiredState. intros H. ok_inv;
    repeat match goal with H : transition _ _ = Ok _ |- _ => apply transition_Ok in H as [_ ->] end;
    done.
Qed.

Lemma requireManagedPendingAction_Ok s id t u :
  requireManagedPendingAction s id t = Ok u ->
  id <> "" /\ t <> "" /\ id = st_PendingActionID s /\ t = st_PendingActionType s.
Proof. unfold requireManagedPendingAction. intros H. ok_inv. simp_not. done. Qed.

(** while a managed action is pending the reducer accepts only events that leave
    it pending (a change of intent, a lease event) or that resolve exactly this
    action, by identifier and type; resolving clears all four pending fields. Every
    legacy lifecycle event is refused. *)
Theorem pending_until_resolved s e s' :
  st_Exists s = true -> st_PendingActionType s <> "" -> st_PendingActionID s <> "" ->
  applyEvent s e = Ok s' ->
  (ev_Type e ∈ [EventActionCompleted; EventActionFailed] /\
   ed_ActionID (ev_Data e) = st_PendingActionID s /\
   ed_ActionType (ev_Data e) = st_PendingActionType s /\ cleared_pending s') \/
  (ev_Type e ∈ [EventDesiredStateChanged; EventLeaseAcquired; EventLeaseRenewed; EventLeaseExpired]
   /\ same_pending s s').
Proof.
  intros Hx Ht Hid H. unfold applyEvent in H.
  destruct (decide (st_PendingActionType s <> "" /\ _)) as [?|Hn] in H; [done|].
  repeat match type of H with (if decide ?P then _ else _) = _ => destruct (decide P) end;
    try done; try (by apply legacy_untyped in Hn; [|by match goal with E : ev_Type e = _ |- _ => rewrite E end]).
  - unfold applyRunCreated in H. by rewrite Hx in H.
  - right. rewrite e0. split; [by_computation|]. rewrite Hx in H. exact (desired_pending _ _ _ H).
  - right. split; [|by apply applyLeaseEvent_same in H as ->].
    destruct o as [-> | [-> | ->]]; by_computation.
  - unfold applyActionPlanned in H. by ok_inv.
  - left. rewrite e0. split; [by_computation|]. unfold applyActionCompleted in H. ok_inv;
      by match goal with E : requireManagedPendingAction _ _ _ = _ |- _ =>
        apply requireManagedPendingAction_Ok in E as (_ & _ & -> & ->) end.
  - left. rewrite e0. split; [by_computation|]. unfold applyActionFailed in H. ok_inv;
      match goal with E : requireManagedPendingAction _ _ _ = _ |- _ =>
        apply requireManagedPendingAction_Ok in E as (_ & _ & -> & ->) end; [|done].
    apply advance_same_pending in H as (? & ? & ? & ?). done.
Qed.

(** ** Cancelling a paused Run *)

(** Completing CancelRun in a paused Run moves the resume target only. *)
Lemma completed_cancel s d :
  ed_ActionType d = CommandCancelRun -> st_DesiredState s = DesiredCancelled ->
  applyCompletedActionResult s d = advanceManagedState s StatusCancelled.
Proof.
  intros Ht Hd. unfold applyCompletedActionResult. rewrite Ht, Hd.
  repeat (rewrite decide_False by done). rewrite decide_True by done.
  by rewrite decide_False by (intros Hx; by apply Hx).
Qed.

Lemma completed_cancel_paused s d (o : Status) :
  ed_ActionType d = CommandCancelRun -> st_DesiredState s = DesiredCancelled ->
  st_ObservedState s = StatusPaused -> st_ResumeState s = o -> o ∈ activePhases ->
  applyCompletedActionResult s d = Ok (s <| st_ResumeState := StatusCancelled |>).
Proof.
  intros Ht Hd Ho Hr Ha. rewrite completed_cancel by done. unfold advanceManagedState.
  rewrite decide_True by done. rewrite Hr.
  repeat (apply elem_of_cons in Ha as [-> | Ha]; [done|]). by apply elem_of_nil in Ha.
Qed.

Lemma completed_cancel_resumed s d :
  ed_ActionType d = CommandCancelRun -> st_DesiredState s = DesiredCancelled ->
  st_ObservedState s = StatusPaused -> st_ResumeState s = StatusCancelled ->
  is_ok (applyCompletedActionResult s d) = false.
Proof.
  intros Ht Hd Ho Hr. rewrite completed_cancel by done. unfold advanceManagedState.
  rewrite decide_True by done. by rewrite Hr.
Qed.

(** in a paused Run whose desired state became Cancelled, the planned CancelRun
    is accepted and completed, but the Run is not Cancelled: it stays Paused, [Decide]
    proposes the same action (with the same identifier) again, and no completion of
    that action is ever accepted afterwards. *)
Theorem cancel_while_paused_is_stuck s scope r out :
  st_Exists s = true -> st_ObservedState s = StatusPaused -> st_DesiredState s = DesiredCancelled ->
  st_ResumeState s ∈ activePhases -> st_PendingActionID s = "" ->
  IdempotencyScope_Valid scope = true -> r <> "" ->
  let c := Decide s in
  cmd_Type c = CommandCancelRun /\
  exists s1 s2 s3,
    applyEvent s (planEvent c scope) = Ok s1 /\ applyEvent s1 (completeEvent c r out) = Ok s2 /\
    st_ObservedState s2 = StatusPaused /\ Decide s2 = c /\
    applyEvent s2 (planEvent c scope) = Ok s3 /\
    forall d k, is_ok (applyEvent s3 (newEvent EventActionCompleted d k)) = false.
Proof.
  intros Hx Ho Hd Hr Hid Hscope Hrne c.
  assert (Hdec : forall t, st_Exists t = true -> st_ObservedState t = StatusPaused ->
    st_DesiredState t = DesiredCancelled -> Decide t = commandFor t CommandCancelRun).
  { intros t E1 E2 E3. unfold Decide. rewrite E1, E2, E3. done. }
  assert (c = commandFor s CommandCancelRun) as Hc by by apply Hdec.
  assert (cmd_Type (Decide s) <> CommandNoop) as Hn by (unfold c in Hc; by rewrite Hc).
  assert (applyEvent s (planEvent c scope) = Ok (withPending s c scope)) as Hplan by by apply plan_step.
  clearbody c. split; [by rewrite Hc|].
  set (s2 := finish ((withPending s c scope) <| st_ResumeState := StatusCancelled |>) c r).
  assert (Decide s2 = c) as Hd2.
  { trans (commandFor s2 CommandCancelRun); [by apply Hdec|by rewrite Hc]. }
  assert (cmd_Type c <> "" /\ cmd_ActionID c <> "") as [Hct Hcid].
  { rewrite Hc. split; [done|apply actionDigest_nonempty]. }
  exists (withPending s c scope), s2, (withPending s2 c scope).
  split; [done|]. split; [|split; [done|split; [done|split]]].
  - rewrite complete_dispatch by done.
    replace (cancelWins s _) with false; [|symmetry; unfold cancelWins; apply bool_decide_false].
    2:{ intros [_ Hx2]. apply Hx2. by rewrite Hc. }
    rewrite (completed_cancel_paused _ _ (st_ResumeState s)); try done. by rewrite Hc.
  - rewrite <- Hd2 at 1. rewrite plan_step; [by rewrite Hd2|done|done|by rewrite Hd2, Hc|done].
  - intros d k. rewrite applyEvent_completed. unfold applyActionCompleted. case_decide; [done|].
    destruct (requireManagedPendingAction _ _ _) eqn:Hreq; [|done].
    apply requireManagedPendingAction_Ok in Hreq as (_ & _ & _ & Ht). cbn [mbind result_bind].
    change (ed_ActionType d = cmd_Type c) in Ht.
    replace (cancelWins _ _) with false; [|symmetry; unfold cancelWins; apply bool_decide_false].
    2:{ intros [_ Hx2]. apply Hx2. by rewrite Hc in Ht. }
    pose proof (completed_cancel_resumed (withPending s2 c scope) d) as Hno.
    change (ev_Data _) with d. destruct (applyCompletedActionResult _ d); [|done].
    discriminate Hno; try done. by rewrite Ht, Hc.
Qed.
