(* ===== verification/Receipt.v ===== *)
(** * Canonical JSON and receipt evidence: internal/domain/types.go, receipt.go

    The JSON of the durable records follows the struct tags of types.go; the
    digest of an action's output is taken over that JSON. *)
From S2P Require Import Prelude Sha256 GoLib Types Decide Reducer.

(** ** The JSON of the domain records *)

Definition eventDataMembers (d : EventData) : list (string * string) :=
  [ ("scenario_id", ed_ScenarioID d); ("spec_hash", ed_SpecHash d);
    ("desired_state", ed_DesiredState d); ("attempt_id", ed_AttemptID d);
    ("action_id", ed_ActionID d); ("action_type", ed_ActionType d);
    ("idempotency_scope", ed_IdempotencyScope d); ("receipt_id", ed_ReceiptID d);
    ("outcome", ed_Outcome d); ("output", ed_Output d); ("output_digest", ed_OutputDigest d);
    ("artifact_id", ed_ArtifactID d); ("artifact_digest", ed_ArtifactDigest d);
    ("tool_name", ed_ToolName d); ("tool_arguments", ed_ToolArguments d);
    ("reason", ed_Reason d) ].

Definition marshalEventData (d : EventData) : string :=
  json_object ('(name, value) ← eventDataMembers d; omitempty name value).

Definition text_member (name value : string) : string := json_member name (json_string value).

Definition marshalEvent (e : Event) : string :=
  json_object
    ([ text_member "run_id" (ev_RunID e); json_member "seq" (pretty (ev_Seq e));
       text_member "event_type" (ev_Type e);
       json_member "payload_version" (pretty (ev_PayloadVersion e));
       json_member "payload" (marshalEventData (ev_Data e));
       text_member "idempotency_key" (ev_IdempotencyKey e) ] ++
     omitempty "causation_id" (ev_CausationID e) ++
     omitempty "correlation_id" (ev_CorrelationID e) ++
     omitempty "worker_id" (ev_WorkerID e) ++
     (if decide (ev_FencingToken e = 0%Z) then []
      else [json_member "fencing_token" (pretty (ev_FencingToken e))]) ++
     omitempty "created_at" (ev_CreatedAt e)).

Definition marshalEvents (events : list Event) : string := json_array (map marshalEvent events).

Definition marshalRun (r : Run) : string :=
  json_object
    ([ text_member "run_id" (run_ID r); text_member "scenario_id" (run_ScenarioID r);
       text_member "spec_hash" (run_SpecHash r); text_member "desired_state" (run_DesiredState r);
       text_member "observed_state" (run_ObservedState r);
       json_member "current_attempt" (pretty (run_CurrentAttempt r));
       json_member "version" (pretty (run_Version r)) ] ++
     omitempty "created_at" (run_CreatedAt r) ++ omitempty "updated_at" (run_UpdatedAt r)).

Definition marshalState (s : State) : string :=
  json_object
    ([ json_member "exists" (json_bool (st_Exists s)); json_member "run" (marshalRun (st_Run s)) ] ++
     omitempty "attempt_id" (st_AttemptID s) ++ omitempty "resume_state" (st_ResumeState s) ++
     omitempty "pending_action_id" (st_PendingActionID s) ++
     omitempty "pending_action_type" (st_PendingActionType s) ++
     omitempty "pending_attempt_id" (st_PendingAttemptID s) ++
     omitempty "pending_action_scope" (st_PendingActionScope s) ++
     omitempty "last_completed_action_id" (st_LastCompletedActionID s) ++
     omitempty "last_receipt_id" (st_LastReceiptID s) ++
     omitempty "reasoning_output" (st_ReasoningOutput s) ++
     omitempty "tool_name" (st_ToolName s) ++ omitempty "tool_arguments" (st_ToolArguments s) ++
     [ json_member "patch_produced" (json_bool (st_PatchProduced s));
       json_member "verification_passed" (json_bool (st_VerificationPassed s)) ] ++
     omitempty "failure_reason" (st_FailureReason s) ++
     omitempty "last_event_type" (st_LastEventType s)).

(** ** Digests *)

(** [fmt.Sprintf("sha256:%x", sha256.Sum256(content))] *)
Definition digestBytes (content : string) : string := "sha256:" +:+ sha256_hex content.

Definition digestEventSequence (events : list Event) : string := digestBytes (marshalEvents events).

(** [json.Marshal] of a struct of strings does not fail. *)
Definition DigestEventData (data : EventData) : string := digestBytes (marshalEventData data).

(** ** Receipt evidence *)

Definition Phase3ReceiptArtifactType : string := "phase-3-action-receipt".

Definition ExpectedActionArtifactID (actionID : string) : string := "action-" +:+ actionID.

(** [^sha256:[0-9a-f]{64}$] *)
Definition lower_hex (c : Ascii.ascii) : bool :=
  let b := Z.of_N (Ascii.N_of_ascii c) in in_range 48 57 b || in_range 97 102 b.

Fixpoint lower_hex_count (n : nat) (s : string) : bool :=
  match n, s with
  | O, EmptyString => true
  | S n', String c rest => lower_hex c && lower_hex_count n' rest
  | _, _ => false
  end.

Fixpoint strip_prefix (prefix s : string) : option string :=
  match prefix, s with
  | EmptyString, _ => Some s
  | String p prefix', String c s' => if decide (p = c) then strip_prefix prefix' s' else None
  | _, _ => None
  end.

Definition sha256DigestPattern (s : string) : bool :=
  match strip_prefix "sha256:" s with Some rest => lower_hex_count 64 rest | None => false end.

Definition ValidateManagedReceiptEvidence (actionType : CommandType) (actionID plannedAttemptID : string)
    (output : EventData) (outputDigest artifactID artifactDigest : string) : result unit :=
  _ ← ValidateManagedActionOutput actionType plannedAttemptID output;
  if decide (outputDigest = "" \/ outputDigest <> DigestEventData output)
  then Err (Sentinel ErrInvalidEvent)
  else if decide (actionType = CommandApplyPatch) then
    if decide (artifactID = "" \/ artifactID <> ExpectedActionArtifactID actionID)
    then Err (Sentinel ErrInvalidEvent)
    else if negb (sha256DigestPattern artifactDigest) then Err (Sentinel ErrInvalidEvent)
    else Ok tt
  else if decide (artifactID <> "" \/ artifactDigest <> "") then Err (Sentinel ErrInvalidEvent)
  else Ok tt.

(** ** The digests have the shape the schema and the evidence contract demand *)

Lemma hex_digit_lower d : (0 <= d < 16)%Z -> lower_hex (hex_digit d) = true.
Proof.
  intros Hd. assert (d ∈ seqZ 0 16) as Hin by by apply elem_of_seqZ. clear Hd.
  revert d Hin. apply Forall_forall. by_computation.
Qed.

Lemma byte_nibbles b :
  (0 <= b < 256)%Z -> (0 <= Z.shiftr b 4 < 16)%Z /\ (0 <= Z.land b 15 < 16)%Z.
Proof.
  intros Hb. rewrite Z.shiftr_div_pow2 by lia. change 15%Z with (Z.ones 4).
  rewrite Z.land_ones by lia. split; [|apply Z.mod_pos_bound; lia].
  change (2 ^ 4)%Z with 16%Z. split; [apply Z.div_pos; lia|apply Z.div_lt_upper_bound; lia].
Qed.

Lemma hex_lower bs :
  Forall (fun b => (0 <= b < 256)%Z) bs -> lower_hex_count (2 * length bs) (hex bs) = true.
Proof.
  induction 1 as [|b bs Hb Hbs IH]; [done|]. destruct (byte_nibbles b Hb).
  cbn [length hex]. replace (2 * S (length bs)) with (S (S (2 * length bs))) by lia.
  cbn [lower_hex_count]. by rewrite !hex_digit_lower, IH.
Qed.

Lemma sha256DigestPattern_digestBytes content : sha256DigestPattern (digestBytes content) = true.
Proof.
  unfold sha256DigestPattern, digestBytes. cbn [strip_prefix String.append].
  repeat (rewrite decide_True by done). unfold sha256_hex.
  exact (eq_ind _ (fun n => lower_hex_count (2 * n) _ = true)
    (hex_lower _ (sum256_bytes (bytes_of content))) _ (length_sum256 _)).
Qed.
