(* ===== verification/Effect.v ===== *)
(** * Stateful operations

    A Go method with an [(T, error)] result on a shared object is a function of
    the world to a result and the new world.  Unlike in [result], the effects
    done before an error remain; a database transaction undoes its own
    ([Database.transaction]). *)
From S2P Require Import Prelude.

Definition M (W A : Type) : Type := W -> result A * W.

#[export] Instance M_ret W : MRet (M W) := fun A a w => (Ok a, w).
#[export] Instance M_bind W : MBind (M W) := fun A B f m w =>
  match m w with (Ok a, w') => f a w' | (Err e, w') => (Err e, w') end.

Definition throw {W A} (e : error) : M W A := fun w => (Err e, w).
Definition lift {W A} (r : result A) : M W A := fun w => (r, w).
Definition gets {W A} (f : W -> A) : M W A := fun w => (Ok (f w), w).
Definition put {W} (w : W) : M W unit := fun _ => (Ok tt, w).
Definition modify {W} (f : W -> W) : M W unit := fun w => (Ok tt, f w).

(** [result, err := call(...)]: the error becomes a value the code inspects. *)
Definition try {W A} (m : M W A) : M W (result A) := fun w => let '(r, w') := m w in (Ok r, w').

(** [if err != nil { return fmt.Errorf("...: %w", err) }] *)
Definition wrapM {W A} (m : M W A) : M W A := fun w => let '(r, w') := m w in (wrap r, w').

(** [ctx.Err()] *)
Record Context : Type := MkContext { ctx_Err : option error }.

Definition checkContext {W} (ctx : Context) : M W unit :=
  match ctx_Err ctx with Some e => throw e | None => mret tt end.

Definition background : Context := MkContext None.

(** ** Laws and inversion *)

Lemma M_bind_Ok {W A B} (f : A -> M W B) (m : M W A) w b w' :
  (m ≫= f) w = (Ok b, w') <-> exists a w1, m w = (Ok a, w1) /\ f a w1 = (Ok b, w').
Proof.
  unfold mbind, M_bind. destruct (m w) as [[a|e] w1]; split.
  - intros. by exists a, w1.
  - by intros (? & ? & [= <- <-] & ?).
  - done.
  - by intros (? & ? & ? & ?).
Qed.

Lemma M_bind_ret {W A B} (f : A -> M W B) (m : M W A) w a w1 :
  m w = (Ok a, w1) -> (m ≫= f) w = f a w1.
Proof. intros H. unfold mbind, M_bind. by rewrite H. Qed.

Lemma M_bind_err {W A B} (f : A -> M W B) (m : M W A) w e w1 :
  m w = (Err e, w1) -> (m ≫= f) w = (Err e, w1).
Proof. intros H. unfold mbind, M_bind. by rewrite H. Qed.

Lemma lift_Ok {W A} (r : result A) (w w' : W) a : lift r w = (Ok a, w') -> r = Ok a /\ w' = w.
Proof. by intros [= -> ->]. Qed.

Lemma mret_Ok {W A} (a b : A) (w w' : W) : (mret a : M W A) w = (Ok b, w') -> b = a /\ w' = w.
Proof. by intros [= <- <-]. Qed.

Lemma gets_Ok {W A} (f : W -> A) (w w' : W) a : gets f w = (Ok a, w') -> a = f w /\ w' = w.
Proof. by intros [= <- <-]. Qed.

Lemma try_Ok {W A} (m : M W A) w r w' : try m w = (Ok r, w') -> m w = (r, w').
Proof. unfold try. destruct (m w) as [? ?]. by intros [= -> ->]. Qed.

Lemma wrapM_Ok {W A} (m : M W A) w a w' : wrapM m w = (Ok a, w') -> m w = (Ok a, w').
Proof. unfold wrapM. destruct (m w) as [[?|?] ?]; by intros [= -> ->]. Qed.

Lemma checkContext_Ok {W} ctx (w w' : W) u :
  checkContext ctx w = (Ok u, w') -> ctx_Err ctx = None /\ w' = w.
Proof. unfold checkContext. destruct (ctx_Err ctx); by intros [= _ ->]. Qed.

(** [eff_inv] decomposes every successful stateful call in the context. *)
Ltac eff_step :=
  match goal with
  | H : mbind _ _ _ = (Ok _, _) |- _ =>
      let v := fresh "v" in let w := fresh "w" in let E := fresh "E" in
      apply M_bind_Ok in H as (v & w & E & H); cbn beta in H
  | H : lift _ _ = (Ok _, _) |- _ => apply lift_Ok in H as [H ?]; subst
  | H : try _ _ = (Ok _, _) |- _ => apply try_Ok in H
  | H : wrapM _ _ = (Ok _, _) |- _ => apply wrapM_Ok in H
  | H : checkContext _ _ = (Ok _, _) |- _ => apply checkContext_Ok in H as [? ?]; subst
  | H : throw _ _ = (Ok _, _) |- _ => discriminate H
  | H : gets _ _ = (Ok _, _) |- _ => apply gets_Ok in H as [? ?]; subst
  | H : mret _ _ = (Ok _, _) |- _ => apply mret_Ok in H as [? ?]; subst
  | H : (if decide ?P then _ else _) _ = (Ok _, _) |- _ => destruct (decide P)
  | H : (if ?b then _ else _) _ = (Ok _, _) |- _ => let E := fresh "E" in destruct b eqn:E
  end.

Ltac eff_inv := repeat (eff_step; try done).
