(* ===== verification/Store.v ===== *)
(** * The event store contract: internal/store/store.go, validation.go *)
From S2P Require Import Prelude Types Decide Reducer Effect.

(** [AppendResult] distinguishes an idempotent replay from a physical append. *)
Record AppendResult : Type := MkAppendResult {
  ar_Event : Event;
  ar_Appended : bool
}.

(** ** The interface *)

(** [EventStore]: [W] is the world the implementation keeps its events in. *)
Class EventStore (W : Type) : Type := {
  Load : Context -> string -> M W (list Event);
  Rebuild : Context -> string -> M W State;
  Append : Context -> Z -> Event -> M W AppendResult
}.

(** [ManagedRunInspector]: [None] when the store does not implement it. *)
Class ManagedRunInspector (W : Type) : Type :=
  IsManagedRun : option (Context -> string -> M W bool).

(** ** Append-time validation *)

(** The credential scanner for one string, [hasSensitiveString(value, 0)] of
    validation.go; its regular expressions and its URL and JSON parsers are a
    parameter here. *)
Class CredentialScanner : Type := hasSensitiveString : string -> bool.

(** The loop of [containsCredentialMaterial] over the string fields. *)
Definition eventDataStrings (d : EventData) : list string :=
  [ ed_ScenarioID d; ed_SpecHash d; ed_DesiredState d; ed_AttemptID d; ed_ActionID d;
    ed_ActionType d; ed_IdempotencyScope d; ed_ReceiptID d; ed_Outcome d; ed_Output d;
    ed_OutputDigest d; ed_ArtifactID d; ed_ArtifactDigest d; ed_ToolName d;
    ed_ToolArguments d; ed_Reason d ].

Section validation.
Context `{CredentialScanner}.

Definition containsCredentialMaterial (data : EventData) : bool :=
  existsb hasSensitiveString (eventDataStrings data).

Definition ValidateEventData (data : EventData) : result unit :=
  if containsCredentialMaterial data then Err (Sentinel ErrSensitivePayload) else Ok tt.

Definition validateAppendInput (event : Event) : result unit :=
  if decide (ev_RunID event = "" \/ ev_IdempotencyKey event = "" \/ ev_Seq event <> 0%Z)
  then Err (Sentinel ErrInvalidAppend)
  else match ValidateEventData (ev_Data event) with
       | Ok _ => Ok tt
       | Err _ => Err (Sentinel ErrSensitivePayload)
       end.

Lemma validateAppendInput_Ok event u :
  validateAppendInput event = Ok u ->
  ev_RunID event <> "" /\ ev_IdempotencyKey event <> "" /\ ev_Seq event = 0%Z /\
  containsCredentialMaterial (ev_Data event) = false.
Proof.
  unfold validateAppendInput, ValidateEventData. case_decide; [done|].
  destruct (containsCredentialMaterial _); [done|]. intros _. simp_not. done.
Qed.
End validation.

(** [if event.PayloadVersion == 0 { ... }] *)
Definition defaultPayloadVersion (event : Event) : Event :=
  if decide (ev_PayloadVersion event = 0%Z)
  then event <| ev_PayloadVersion := CurrentEventPayloadVersion |> else event.

(** Equality up to the store-assigned sequence number and time. *)
Definition sameIdempotentEvent (existing replay : Event) : bool :=
  let existing' := existing <| ev_Seq := 0%Z |> <| ev_CreatedAt := "" |> in
  let replay' := defaultPayloadVersion (replay <| ev_Seq := 0%Z |> <| ev_CreatedAt := "" |>) in
  bool_decide (existing' = replay').

Lemma sameIdempotentEvent_Data e r :
  sameIdempotentEvent e r = true -> ev_Data e = ev_Data r /\ ev_Type e = ev_Type r /\
    ev_RunID e = ev_RunID r /\ ev_IdempotencyKey e = ev_IdempotencyKey r.
Proof.
  unfold sameIdempotentEvent, defaultPayloadVersion. intros H%bool_decide_eq_true.
  case_decide; injection H; intros; done.
Qed.

(** * The abstract event store

    What store.go promises of any implementation, as a function on event logs:
    an append with a known idempotency key is a replay or a conflict, an append
    at the wrong version is refused, and any other append extends the log by one
    event that the reducer accepts. *)

(** The event recorded under a key. *)
Definition lookupKey (key : string) (log : list Event) : option Event :=
  find (fun e => bool_decide (ev_IdempotencyKey e = key)) log.

(** The abstract append of an admissible event (validated, payload version set) to
    the log of its Run; [stamp] is what the store adds to a new event. *)
Definition appendSpec (stamp : Event -> Event) (log : list Event) (expectedVersion : Z) (event : Event)
    : result AppendResult * list Event :=
  match lookupKey (ev_IdempotencyKey event) log with
  | Some existing =>
      if sameIdempotentEvent existing event then (Ok (MkAppendResult existing false), log)
      else (Err (Sentinel ErrIdempotencyConflict), log)
  | None =>
      let version := u64 (Z.of_nat (length log)) in
      if decide (version <> expectedVersion)
      then (Err (VersionConflictError (ev_RunID event) expectedVersion version), log)
      else
        let new := stamp event <| ev_Seq := u64 (Z.of_nat (length log) + 1) |> in
        match Reduce (log ++ [new]) with
        | Err e => (Err e, log)
        | Ok _ => (Ok (MkAppendResult new true), log ++ [new])
        end
  end.

Lemma lookupKey_Some key log e :
  lookupKey key log = Some e -> e ∈ log /\ ev_IdempotencyKey e = key.
Proof.
  intros H. apply find_some in H as [Hin Hk]. split; [by apply list_elem_of_In|].
  by apply bool_decide_eq_true in Hk.
Qed.

Lemma lookupKey_None key log :
  lookupKey key log = None <-> key ∉ map ev_IdempotencyKey log.
Proof.
  unfold lookupKey. induction log as [|e log IH]; cbn; [by split; [intros _; apply not_elem_of_nil|]|].
  rewrite not_elem_of_cons. case_bool_decide as Hk; [split; [done|intros []; congruence]|].
  rewrite IH. split; [intros; split; congruence || done|by intros []].
Qed.

Lemma lookupKey_app_l key log e log' :
  lookupKey key log = Some e -> lookupKey key (log ++ log') = Some e.
Proof.
  unfold lookupKey. induction log as [|x log IH]; cbn; [done|]. by case_bool_decide.
Qed.

Lemma lookupKey_snoc log e :
  ev_IdempotencyKey e ∉ map ev_IdempotencyKey log ->
  lookupKey (ev_IdempotencyKey e) (log ++ [e]) = Some e.
Proof.
  unfold lookupKey. induction log as [|x log IH]; cbn; intros Hn.
  - by rewrite bool_decide_true.
  - apply not_elem_of_cons in Hn as [Hx Hn]. rewrite bool_decide_false by congruence. auto.
Qed.

(** An event is the same as itself, whatever number and time the store gave it. *)
Lemma sameIdempotentEvent_stamped e seq time :
  ev_PayloadVersion e <> 0%Z ->
  sameIdempotentEvent (e <| ev_CreatedAt := time |> <| ev_Seq := seq |>) e = true.
Proof.
  intros Hv. unfold sameIdempotentEvent, defaultPayloadVersion. apply bool_decide_eq_true.
  by case_decide.
Qed.

(** The abstract append only ever extends the log. *)
Lemma appendSpec_prefix stamp log v e : log `prefix_of` snd (appendSpec stamp log v e).
Proof.
  unfold appendSpec. repeat case_match; cbn; try done. by apply prefix_app_r.
Qed.
