(* ===== verification/Samples.v ===== *)
(** * Concrete Runs

    Event logs of both protocols and the states they lead to; the witnesses of
    the theorems instantiate them here. *)
From S2P Require Import Prelude Sha256 Types Decide Reducer Lifecycle Replay GoLib Store ReplayTheorems Cycle.
From S2P Require Import CycleTheorems.

(** An event of the sample Run, as a store would stamp it. *)
Definition sampleEvent (seq : Z) (t : EventType) (d : EventData) (key : string) : Event :=
  MkEvent "run-1" seq t 1 d key "" "" "" 0 "2026-07-21T09:00:00Z".

Definition createdEvent : Event :=
  sampleEvent 1 EventRunCreated
    (emptyEventData <| ed_ScenarioID := "refund-rounding" |> <| ed_SpecHash := "sha256:spec" |>)
    "create:run-1".

Definition desiredChange (seq : Z) (d : DesiredState) : Event :=
  sampleEvent seq EventDesiredStateChanged (emptyEventData <| ed_DesiredState := d |>)
    ("desired:" +:+ pretty seq).

Definition onAction (actionID : string) : EventData :=
  emptyEventData <| ed_ActionID := actionID |>.

(** The legacy protocol, from creation to success. *)
Definition legacyPrefix : list Event :=
  [ createdEvent
  ; sampleEvent 2 EventAttemptStarted (emptyEventData <| ed_AttemptID := "run-1:attempt:1" |>) "attempt"
  ; sampleEvent 3 EventWorkspaceProvisioned emptyEventData "workspace"
  ; sampleEvent 4 EventReasoningPlanned (onAction "a1") "reason" ].

Definition legacySuffix : list Event :=
  [ sampleEvent 5 EventReasoningCompleted ((onAction "a1") <| ed_ToolName := "apply_patch" |>) "reasoned"
  ; sampleEvent 6 EventPatchProduced (onAction "a2") "patch"
  ; sampleEvent 7 EventVerificationPlanned (onAction "a3") "verify"
  ; sampleEvent 8 EventVerificationPassed (onAction "a3") "verified"
  ; sampleEvent 9 EventRunSucceeded emptyEventData "succeeded" ].

Definition legacyLog : list Event := legacyPrefix ++ legacySuffix.

(** A Run cancelled while it is queued, and one cancelled while it is paused. *)
Definition cancelledLog : list Event := [createdEvent; desiredChange 2 DesiredCancelled].
Definition cancelledMore : list Event := [sampleEvent 3 EventRunCancelled emptyEventData "cancelled"].
Definition pausedCancelledLog : list Event :=
  [createdEvent; desiredChange 2 DesiredPaused; desiredChange 3 DesiredCancelled].

(** The projection of an accepted log. *)
Definition projection (es : list Event) : State :=
  match Reduce es with Ok s => s | Err _ => InitialState end.

Lemma projection_Ok es : is_ok (Reduce es) = true -> Reduce es = Ok (projection es).
Proof. unfold projection. by destruct (Reduce es). Qed.

Lemma projection_WF es : is_ok (Reduce es) = true -> es <> [] -> WF (projection es).
Proof. intros H%projection_Ok ?. by destruct (Reduce_initial_or_WF _ _ H) as [[]|[]]. Qed.

(** The Run just created. *)
Definition created : State := projection [createdEvent].

(** The request that creates it, before a store stamps it. *)
Definition createRequest : Event := createdEvent <| ev_Seq := 0%Z |>.

(** A scanner that knows one kind of token. *)
Definition sampleScanner : CredentialScanner := fun value => HasPrefix value "ghp_".

(** * The theorems on the reducer and the planning cycle, at concrete Runs *)

Lemma reduce_accepted_log_witness :
  Reduce legacyLog = Ok (projection legacyLog) /\
  AcceptedLog legacyLog (projection legacyLog) /\ (legacyLog <> [] -> WF (projection legacyLog)).
Proof.
  pose proof (projection_Ok legacyLog eq_refl) as H.
  split; [exact H|]. exact (reduce_accepted_log _ _ H).
Defined.

Lemma success_has_evidence_witness :
  st_ObservedState (projection legacyLog) = StatusSucceeded /\
  st_CurrentAttempt (projection legacyLog) = 1%Z /\
  exists es1 v es2, legacyLog = es1 ++ v :: es2 /\ verifyEvidence v /\
    exists p, p ∈ es1 /\ patchEvidence p.
Proof.
  assert (st_ObservedState (projection legacyLog) = StatusSucceeded) as HS by reflexivity.
  destruct (success_has_evidence legacyLog (projection legacyLog)) as (Ha & _ & _ & He);
    [exact (projection_Ok legacyLog eq_refl)|exact HS|]. split; [exact HS|]. split; [exact Ha|exact He].
Defined.

Lemma terminal_is_final_witness :
  Reduce (legacyLog ++ [desiredChange 10 DesiredPaused]) = Err (Sentinel ErrTerminalState).
Proof.
  destruct (terminal_is_final legacyLog (projection legacyLog) (desiredChange 10 DesiredPaused) [])
    as [_ H]; [exact (projection_Ok legacyLog eq_refl)|discriminate|reflexivity|].
  apply H; [reflexivity|reflexivity|discriminate|reflexivity|].
  apply (bool_decide_unpack _). vm_compute. exact I.
Defined.

Lemma cancelled_intent_is_final_witness :
  let s := projection cancelledLog in
  let s' := projection (cancelledLog ++ cancelledMore) in
  st_DesiredState s' = DesiredCancelled /\
  (st_ObservedState s' = st_ObservedState s \/ st_ObservedState s' = StatusCancelled).
Proof.
  apply (cancelled_intent_is_final cancelledLog _ (cancelledLog ++ cancelledMore)).
  - discriminate.
  - split; [exists cancelledMore; reflexivity|]. split; [exact (projection_Ok cancelledLog eq_refl)|].
    exact (projection_Ok (cancelledLog ++ cancelledMore) eq_refl).
  - reflexivity.
Defined.

Lemma checkpoint_replay_witness :
  ReduceFromCheckpoint (projection legacyPrefix) legacySuffix = Ok (projection legacyLog).
Proof.
  assert (legacyPrefix <> []) as Hne by discriminate.
  assert (Z.of_nat (length legacyPrefix) < 2 ^ 64)%Z as Hlen by reflexivity.
  exact (proj1 (proj1 (checkpoint_replay legacyPrefix (projection legacyPrefix) legacySuffix
    (projection legacyLog) (projection_Ok legacyPrefix eq_refl) Hne Hlen)
    (projection_Ok legacyLog eq_refl))).
Defined.

(** An executor that always succeeds. *)
Definition obedient : Executor := fun _ c =>
  ("receipt", emptyEventData <| ed_AttemptID := cmd_AttemptID c |> <| ed_ToolName := "apply_patch" |>
                             <| ed_Reason := "recorded failure" |>).

Lemma obedient_ok : executor_ok obedient.
Proof.
  intros s c Hc. split; [done|]. unfold validOutput, ValidateManagedActionOutput.
  case_decide as Ht; [|by repeat case_decide]. apply guard_err_Ok, bool_decide_false. cbn.
  intros [Ha|Ha]; [by apply (Hc Ht)|done].
Qed.

Lemma created_WF : WF created.
Proof. by apply projection_WF. Qed.

Lemma created_active : active created.
Proof. unfold active. by_computation. Qed.

Lemma drive_converges_witness :
  exists s', drive 6 obedient IdempotencyScoped created = Ok s' /\
             st_ObservedState s' = StatusSucceeded.
Proof.
  apply (drive_converges obedient IdempotencyScoped created);
    [exact obedient_ok|reflexivity|exact created_WF|exact created_active|reflexivity].
Defined.

Lemma plan_then_crash_witness :
  exists s1, applyEvent created (planEvent (Decide created) IdempotencyScoped) = Ok s1 /\
    pendingCommand s1 = Decide created /\ Decide s1 = Decide created.
Proof.
  destruct (plan_then_crash created IdempotencyScoped) as (s1 & H1 & H2 & H3 & _);
    [reflexivity|reflexivity|discriminate|reflexivity|].
  exists s1. split; [exact H1|]. split; [exact H2|exact H3].
Defined.

Lemma pause_is_transparent_witness :
  exists p, applyEvent created (desiredEvent DesiredPaused "p") = Ok p /\
    cmd_Type (Decide p) = CommandNoop /\
    applyEvent p (desiredEvent DesiredRunning "r") = Ok created.
Proof.
  destruct (pause_is_transparent created "p" "r") as (p & H1 & H2 & _ & H3 & _);
    [exact created_WF|exact created_active|reflexivity|].
  exists p. split; [exact H1|]. split; [exact H2|exact H3].
Defined.

(** A Run whose StartAttempt is planned, pending under a given identifier. *)
Definition pendingRun : State :=
  withPending created (MkCommand CommandStartAttempt "run-1" "action-1" "run-1:attempt:1")
    IdempotencyScoped.

Definition failedEvent : Event :=
  newEvent EventActionFailed
    ((onAction "action-1") <| ed_ActionType := CommandStartAttempt |> <| ed_Reason := "no worker" |>
       <| ed_Outcome := ActionOutcomeFailed |>) "failed".

Definition failedRun : State :=
  match applyEvent pendingRun failedEvent with Ok s => s | Err _ => InitialState end.

Lemma pending_until_resolved_witness :
  applyEvent pendingRun failedEvent = Ok failedRun /\
  ((ev_Type failedEvent ∈ [EventActionCompleted; EventActionFailed] /\
    ed_ActionID (ev_Data failedEvent) = "action-1" /\
    ed_ActionType (ev_Data failedEvent) = CommandStartAttempt /\ cleared_pending failedRun) \/
   (ev_Type failedEvent ∈ [EventDesiredStateChanged; EventLeaseAcquired; EventLeaseRenewed;
      EventLeaseExpired] /\ same_pending pendingRun failedRun)).
Proof.
  assert (applyEvent pendingRun failedEvent = Ok failedRun) as H by reflexivity.
  split; [exact H|].
  exact (pending_until_resolved pendingRun failedEvent failedRun eq_refl
    ltac:(discriminate) ltac:(discriminate) H).
Defined.

Lemma cancel_while_paused_is_stuck_witness :
  let s := projection pausedCancelledLog in
  cmd_Type (Decide s) = CommandCancelRun /\
  exists s2, st_ObservedState s2 = StatusPaused /\ Decide s2 = Decide s.
Proof.
  destruct (cancel_while_paused_is_stuck (projection pausedCancelledLog) IdempotencyScoped "receipt"
    emptyEventData) as (Ht & s1 & s2 & s3 & _ & _ & Ho & Hd & _);
    [reflexivity|reflexivity|reflexivity| |reflexivity|reflexivity|discriminate|].
  - apply (bool_decide_unpack _). vm_compute. exact I.
  - split; [exact Ht|]. exists s2. split; [exact Ho|exact Hd].
Defined.
