(* ===== verification/MemoryStore.v ===== *)
(** * The in-memory event store: internal/store/memory.go *)
From S2P Require Import Prelude Sha256 Types Decide Reducer Lifecycle Replay ReplayTheorems Effect Store Samples.

(** [MemoryEventStore]: the event logs and, per Run, the position of each
    idempotency key.  Every method runs under the store's mutex, so it is one
    atomic step. *)
Record MemoryEventStore : Type := MkMemoryEventStore {
  ms_events : gmap string (list Event);
  ms_idempotencyKeys : gmap string (gmap string nat)
}.

Definition NewMemoryEventStore : MemoryEventStore := MkMemoryEventStore ∅ ∅.

(** Reading an absent key of a Go map gives the zero value. *)
Definition ms_log (s : MemoryEventStore) (runID : string) : list Event :=
  default [] (ms_events s !! runID).

Definition ms_keys (s : MemoryEventStore) (runID : string) : gmap string nat :=
  default ∅ (ms_idempotencyKeys s !! runID).

Definition loadMemory (ctx : Context) (runID : string) : M MemoryEventStore (list Event) :=
  _ ← checkContext ctx;
  stored ← gets (fun s => ms_events s !! runID);
  match stored with
  | None => throw (Sentinel ErrRunNotFound)
  | Some events => mret events
  end.

Definition rebuildMemory (ctx : Context) (runID : string) : M MemoryEventStore State :=
  events ← loadMemory ctx runID;
  lift (Reduce events).

(** The critical section of [Append]. *)
Definition insertMemory (expectedVersion : Z) (event : Event) : M MemoryEventStore AppendResult :=
  current ← gets (fun s => ms_log s (ev_RunID event));
  if decide (u64 (Z.of_nat (length current)) <> expectedVersion)
  then throw (VersionConflictError (ev_RunID event) expectedVersion (u64 (Z.of_nat (length current))))
  else
    let event := event <| ev_Seq := u64 (Z.of_nat (length current) + 1) |> in
    let candidate := current ++ [event] in
    _ ← lift (Reduce candidate);
    _ ← modify (fun s => MkMemoryEventStore
          (<[ev_RunID event := candidate]> (ms_events s))
          (<[ev_RunID event := <[ev_IdempotencyKey event := length candidate - 1]>
                                 (ms_keys s (ev_RunID event))]> (ms_idempotencyKeys s)));
    mret (MkAppendResult event true).

Section append.
Context `{CredentialScanner}.

Definition appendMemory (ctx : Context) (expectedVersion : Z) (event : Event)
    : M MemoryEventStore AppendResult :=
  _ ← checkContext ctx;
  _ ← lift (validateAppendInput event);
  let event := defaultPayloadVersion event in
  duplicate ← gets (fun s => ms_keys s (ev_RunID event) !! ev_IdempotencyKey event);
  match duplicate with
  | Some index =>
      existing ← gets (fun s => ms_log s (ev_RunID event) !! index);
      match existing with
      | None => throw (Plain "index out of range")
      | Some existing =>
          if negb (sameIdempotentEvent existing event)
          then throw (Sentinel ErrIdempotencyConflict)
          else mret (MkAppendResult existing false)
      end
  | None => insertMemory expectedVersion event
  end.

#[export] Instance memory_store : EventStore MemoryEventStore := {
  Load := loadMemory; Rebuild := rebuildMemory; Append := appendMemory
}.
End append.

(** The in-memory store does not implement [ManagedRunInspector]. *)
#[export] Instance memory_inspector : ManagedRunInspector MemoryEventStore := None.

(** * The in-memory store keeps its promises *)

(** ** The representation invariant *)

Record MemoryInv (s : MemoryEventStore) : Prop := {
  (** every stored log is one the reducer accepts, and belongs to its Run *)
  mi_log : forall runID log, ms_events s !! runID = Some log ->
    log <> [] /\ is_ok (Reduce log) = true /\ Forall (fun e => ev_RunID e = runID) log;
  (** the key index is the inverse of the key of each position *)
  mi_index : forall runID key i,
    ms_keys s runID !! key = Some i <->
    exists e, ms_log s runID !! i = Some e /\ ev_IdempotencyKey e = key
}.

Lemma NewMemoryEventStore_inv : MemoryInv NewMemoryEventStore.
Proof.
  split.
  - intros runID log H. cbn in H. by rewrite lookup_empty in H.
  - intros runID key i. unfold ms_keys, ms_log. cbn. rewrite !lookup_empty. cbn.
    rewrite lookup_empty. split; [done|]. by intros (e & H & _).
Qed.

(** The index agrees with a search of the log. *)
Lemma index_lookupKey s runID key :
  MemoryInv s ->
  match ms_keys s runID !! key with
  | Some i => exists e, ms_log s runID !! i = Some e /\ lookupKey key (ms_log s runID) = Some e
  | None => lookupKey key (ms_log s runID) = None
  end.
Proof.
  intros [Hlog Hidx]. destruct (ms_keys s runID !! key) as [i|] eqn:Hk.
  - apply Hidx in Hk as (e & Hi & Hke). exists e. split; [done|].
    assert (NoDup (map ev_IdempotencyKey (ms_log s runID))) as Hnd.
    { unfold ms_log in *. destruct (ms_events s !! runID) as [log|] eqn:Hl; cbn in *; [|constructor].
      destruct (Hlog _ _ Hl) as (_ & Hok & _). apply is_ok_true in Hok as [st Hok].
      apply (al_keys _ _ (Reduce_log _ _ Hok)). }
    clear Hlog Hidx. generalize dependent (ms_log s runID). intros log Hi Hnd. revert i Hi Hnd.
    induction log as [|x log IH]; intros i Hi Hnd; [done|]. cbn in *.
    apply NoDup_cons in Hnd as [Hx Hnd]. unfold lookupKey. cbn. destruct i as [|i].
    + injection Hi as ->. by rewrite bool_decide_true.
    + rewrite bool_decide_false; [by apply (IH i)|]. intros Heq. apply Hx.
      rewrite Heq, <- Hke. apply list_elem_of_fmap_2. by eapply list_elem_of_lookup_2.
  - apply lookupKey_None. intros (e & -> & He)%list_elem_of_fmap.
    apply list_elem_of_lookup in He as [i Hi]. 
    assert (ms_keys s runID !! ev_IdempotencyKey e = Some i) as Hk2 by (apply Hidx; eauto).
    congruence.
Qed.

(** The store after a successful insertion. *)
Definition inserted (s : MemoryEventStore) (event : Event) : MemoryEventStore :=
  MkMemoryEventStore
    (<[ev_RunID event := ms_log s (ev_RunID event) ++ [event]]> (ms_events s))
    (<[ev_RunID event := <[ev_IdempotencyKey event := length (ms_log s (ev_RunID event))]>
                           (ms_keys s (ev_RunID event))]> (ms_idempotencyKeys s)).

Lemma ms_log_inserted s event runID :
  ms_log (inserted s event) runID =
  if decide (runID = ev_RunID event) then ms_log s runID ++ [event] else ms_log s runID.
Proof.
  unfold ms_log at 1. cbn. case_decide as Heq; [subst; by rewrite lookup_insert_eq|].
  by rewrite lookup_insert_ne.
Qed.

Lemma ms_keys_inserted s event runID :
  ms_keys (inserted s event) runID =
  if decide (runID = ev_RunID event)
  then <[ev_IdempotencyKey event := length (ms_log s runID)]> (ms_keys s runID)
  else ms_keys s runID.
Proof.
  unfold ms_keys at 1. cbn. case_decide as Heq; [subst; by rewrite lookup_insert_eq|].
  by rewrite lookup_insert_ne.
Qed.

Lemma inserted_inv s event :
  MemoryInv s -> is_ok (Reduce (ms_log s (ev_RunID event) ++ [event])) = true ->
  lookupKey (ev_IdempotencyKey event) (ms_log s (ev_RunID event)) = None ->
  MemoryInv (inserted s event).
Proof.
  intros Hinv Hok Hfresh. assert (Hinv' := Hinv). destruct Hinv' as [Hlog Hidx].
  split.
  - intros runID log. cbn. rewrite lookup_insert. case_decide as Heq; [|apply Hlog].
    intros [= <-]. subst. split_and!; [by destruct (ms_log s (ev_RunID event))|done|].
    apply Forall_app. split; [|by apply Forall_singleton].
    unfold ms_log. destruct (ms_events s !! ev_RunID event) eqn:Hl; [|constructor].
    by apply Hlog in Hl as (_ & _ & ?).
  - intros runID key i. rewrite ms_log_inserted, ms_keys_inserted.
    case_decide as Heq; [|apply Hidx]. subst. rewrite lookup_insert. case_decide as Hk.
    + subst. split.
      * intros [= <-]. exists event. by rewrite lookup_app_r, Nat.sub_diag by done.
      * intros (e & Hi & Hke). apply lookup_snoc_Some in Hi as [[_ Hi]|[-> _]]; [|done].
        apply lookupKey_None in Hfresh as []. rewrite <- Hke.
        apply list_elem_of_fmap_2. by eapply list_elem_of_lookup_2.
    + rewrite Hidx. split; intros (e & Hi & Hke); exists e; split; try done.
      * apply lookup_app_l_Some with (l2 := [event]) in Hi. done.
      * apply lookup_snoc_Some in Hi as [[_ Hi]|[-> <-]]; done.
Qed.

(** ** Refinement of the abstract append *)

(** [Implements s out e spec]: the outcome [out] of an append of [e] to [s] is the
    abstract one, on the log of the event's Run and nowhere else. *)
Definition Implements (s : MemoryEventStore) (out : result AppendResult * MemoryEventStore)
    (e : Event) (spec : result AppendResult * list Event) : Prop :=
  fst out = fst spec /\ MemoryInv (snd out) /\ ms_log (snd out) (ev_RunID e) = snd spec /\
  (forall runID, runID <> ev_RunID e -> ms_log (snd out) runID = ms_log s runID) /\
  (snd spec = ms_log s (ev_RunID e) -> snd out = s).

Lemma Implements_same s e r :
  MemoryInv s -> Implements s (r, s) e (r, ms_log s (ev_RunID e)).
Proof. intros. unfold Implements. by split_and!. Qed.

Lemma insertMemory_refines s v e :
  MemoryInv s -> lookupKey (ev_IdempotencyKey e) (ms_log s (ev_RunID e)) = None ->
  Implements s (insertMemory v e s) e (appendSpec id (ms_log s (ev_RunID e)) v e).
Proof.
  intros Hinv Hfresh. unfold insertMemory, appendSpec. rewrite Hfresh.
  unfold mbind, M_bind at 1. cbn [gets]. case_decide; [by apply Implements_same|].
  cbv zeta. unfold id. set (new := e <| ev_Seq := _ |>).
  unfold M_bind, lift. destruct (Reduce _) as [st|err] eqn:Hr; [|by apply Implements_same].
  cbn [modify]. rewrite length_app, Nat.add_sub. unfold mret, M_ret.
  change (MkMemoryEventStore _ _) with (inserted s new).
  assert (MemoryInv (inserted s new)) as Hnew.
  { apply inserted_inv; [done| |done]. apply is_ok_true. by exists st. }
  unfold Implements. cbn [fst snd]. split_and!; [done|done| | |].
  - rewrite ms_log_inserted. by rewrite decide_True.
  - intros runID Hne. rewrite ms_log_inserted. by rewrite decide_False.
  - intros Hsame. apply (f_equal length) in Hsame. rewrite length_app in Hsame. cbn in Hsame. lia.
Qed.

Section theorems.
Context `{CredentialScanner}.

Definition admissible (event : Event) : Prop := is_ok (validateAppendInput event) = true.

Lemma admissible_Ok event : admissible event <-> validateAppendInput event = Ok tt.
Proof. unfold admissible. by destruct (validateAppendInput event) as [[]|]. Qed.

(** What [appendMemory] does with an admissible event. *)
Lemma appendMemory_refines s ctx v event :
  MemoryInv s -> ctx_Err ctx = None -> admissible event ->
  let e := defaultPayloadVersion event in
  Implements s (appendMemory ctx v event s) e (appendSpec id (ms_log s (ev_RunID e)) v e).
Proof.
  intros Hinv Hctx Hadm. unfold appendMemory, checkContext. rewrite Hctx.
  rewrite (proj1 (admissible_Ok event) Hadm).
  set (e := defaultPayloadVersion event). cbv zeta.
  unfold mbind, M_bind at 1 2 3 4. cbn [mret M_ret lift gets].
  pose proof (index_lookupKey s (ev_RunID e) (ev_IdempotencyKey e) Hinv) as HI.
  destruct (ms_keys s (ev_RunID e) !! ev_IdempotencyKey e) as [i|].
  - destruct HI as (existing & Hi & Hk). unfold M_bind, gets. rewrite Hi.
    unfold appendSpec. rewrite Hk.
    destruct (sameIdempotentEvent existing e); by apply Implements_same.
  - by apply insertMemory_refines.
Qed.
Lemma appendMemory_rejects s ctx v event :
  ctx_Err ctx <> None \/ ~ admissible event ->
  exists err, appendMemory ctx v event s = (Err err, s).
Proof.
  intros Hbad. unfold appendMemory, checkContext, admissible in *. unfold mbind, M_bind.
  destruct (ctx_Err ctx) as [err|]; [by exists err|]. cbn [mret M_ret lift].
  destruct (validateAppendInput event) as [[]|err]; [|by exists err]. by destruct Hbad as [[]|[]].
Qed.

Lemma appendMemory_Ok s ctx v event r s' :
  appendMemory ctx v event s = (Ok r, s') -> ctx_Err ctx = None /\ admissible event.
Proof.
  intros Ha. split; apply dec_stable; intros Hn;
    (destruct (appendMemory_rejects s ctx v event) as [err He]; [by auto|by rewrite He in Ha]).
Qed.

(** C25: the in-memory store implements the abstract store: from a consistent store
    every append leaves a consistent store; a cancelled context or an inadmissible
    event changes nothing; an admissible event has exactly the abstract outcome on
    its own log (replay, conflict, version conflict, rejection by the reducer, or
    extension by one event) and touches no other Run. *)
Theorem memory_store_refines s ctx v event :
  MemoryInv s ->
  let e := defaultPayloadVersion event in
  let out := appendMemory ctx v event s in
  MemoryInv (snd out) /\
  (ctx_Err ctx <> None \/ ~ admissible event -> is_ok (fst out) = false /\ snd out = s) /\
  (ctx_Err ctx = None -> admissible event ->
     Implements s out e (appendSpec id (ms_log s (ev_RunID e)) v e)).
Proof.
  intros Hinv e out. subst e out.
  destruct (decide (ctx_Err ctx = None /\ admissible event)) as [[Hc Ha]|Hn].
  - pose proof (appendMemory_refines s ctx v event Hinv Hc Ha) as HI.
    split_and!; [apply HI|by intros [[]|[]]|done].
  - assert (ctx_Err ctx <> None \/ ~ admissible event) as Hbad
      by (destruct (decide (ctx_Err ctx = None)); [right|left]; tauto).
    destruct (appendMemory_rejects s ctx v event Hbad) as [err ->].
    split_and!; [done|done|]. intros ? ?. tauto.
Qed.

(** The payload version is never zero after defaulting. *)
Lemma defaultPayloadVersion_nonzero e : ev_PayloadVersion (defaultPayloadVersion e) <> 0%Z.
Proof. unfold defaultPayloadVersion. by case_decide. Qed.

Lemma defaultPayloadVersion_RunID e : ev_RunID (defaultPayloadVersion e) = ev_RunID e.
Proof. unfold defaultPayloadVersion. by case_decide. Qed.

Lemma appendSpec_replay log v v2 e r log' :
  ev_PayloadVersion e <> 0%Z -> appendSpec id log v e = (Ok r, log') ->
  appendSpec id log' v2 e = (Ok (MkAppendResult (ar_Event r) false), log').
Proof.
  intros Hp. unfold appendSpec at 1. destruct (lookupKey _ log) as [existing|] eqn:Hk.
  - destruct (sameIdempotentEvent existing e) eqn:Hs; [|done]. intros [= <- <-].
    unfold appendSpec. by rewrite Hk, Hs.
  - case_decide; [done|]. cbv zeta. unfold id.
    destruct (Reduce _) eqn:Hr; [|done]. intros [= <- <-]. unfold appendSpec.
    set (new := e <| ev_Seq := _ |>) in *. apply lookupKey_None in Hk.
    rewrite (lookupKey_snoc log new Hk : lookupKey (ev_IdempotencyKey e) _ = _).
    pose proof (sameIdempotentEvent_stamped e (ev_Seq new) (ev_CreatedAt e) Hp) as Hsame.
    replace (e <| ev_CreatedAt := ev_CreatedAt e |> <| ev_Seq := ev_Seq new |>) with new in Hsame
      by by destruct e.
    by rewrite Hsame.
Qed.

(** appending is idempotent: repeating a successful append, at any expected
    version, returns the recorded event as a replay and changes nothing. *)
Theorem memory_append_idempotent s ctx v v2 event r s' :
  MemoryInv s -> appendMemory ctx v event s = (Ok r, s') ->
  appendMemory ctx v2 event s' = (Ok (MkAppendResult (ar_Event r) false), s').
Proof.
  intros Hinv Ha. destruct (appendMemory_Ok _ _ _ _ _ _ Ha) as [Hctx Hadm].
  pose proof (appendMemory_refines s ctx v event Hinv Hctx Hadm) as (Hr & Hinv' & Hlog & _ & _).
  rewrite Ha in *. cbn [fst snd] in *. set (e := defaultPayloadVersion event) in *.
  destruct (appendSpec id (ms_log s (ev_RunID e)) v e) as [r0 log'] eqn:Hspec.
  cbn in Hr, Hlog. subst r0 log'.
  apply (appendSpec_replay _ _ v2) in Hspec; [|apply defaultPayloadVersion_nonzero].
  pose proof (appendMemory_refines s' ctx v2 event Hinv' Hctx Hadm) as HI.
  cbv zeta in HI. fold e in HI. rewrite Hspec in HI. unfold Implements in HI.
  destruct (appendMemory ctx v2 event s') as [r2 s2] eqn:Ha2. cbn [fst snd] in HI.
  destruct HI as (-> & _ & _ & _ & Hsame). by rewrite Hsame.
Qed.

Lemma rebuildMemory_spec s ctx runID :
  MemoryInv s -> ctx_Err ctx = None ->
  rebuildMemory ctx runID s =
    (if decide (ms_log s runID = []) then Err (Sentinel ErrRunNotFound)
     else Reduce (ms_log s runID), s).
Proof.
  intros [Hlog _] Hctx. unfold rebuildMemory, loadMemory, checkContext. rewrite Hctx.
  unfold mbind, M_bind, gets, throw, lift, ms_log. cbn.
  destruct (ms_events s !! runID) as [log|] eqn:Hl; cbn; [|done].
  destruct (Hlog _ _ Hl) as (Hne & _ & _). by rewrite decide_False.
Qed.

(** reads see every accepted write: after a successful append the Run exists,
    Rebuild succeeds, returns a well-formed projection whose version is the length of
    the log, and a new event is the one at that version. *)
Theorem memory_read_your_writes s ctx v event r s' :
  MemoryInv s -> appendMemory ctx v event s = (Ok r, s') ->
  exists st, rebuildMemory ctx (ev_RunID event) s' = (Ok st, s') /\ WF st /\
    st_Version st = u64 (Z.of_nat (length (ms_log s' (ev_RunID event)))) /\
    ar_Event r ∈ ms_log s' (ev_RunID event) /\
    (ar_Appended r = true -> v = u64 (Z.of_nat (length (ms_log s (ev_RunID event)))) /\
       ms_log s' (ev_RunID event) = ms_log s (ev_RunID event) ++ [ar_Event r] /\
       st_Version st = ev_Seq (ar_Event r)).
Proof.
  intros Hinv Ha. destruct (appendMemory_Ok _ _ _ _ _ _ Ha) as [Hctx Hadm].
  pose proof (appendMemory_refines s ctx v event Hinv Hctx Hadm) as (Hr & Hinv' & Hlog & _ & _).
  rewrite Ha in *. cbn [fst snd] in *. rewrite defaultPayloadVersion_RunID in Hlog.
  assert (ar_Event r ∈ ms_log s' (ev_RunID event) /\
    (ar_Appended r = true -> v = u64 (Z.of_nat (length (ms_log s (ev_RunID event)))) /\
     ms_log s' (ev_RunID event) = ms_log s (ev_RunID event) ++ [ar_Event r])) as [Hin Happ].
  { rewrite Hlog. revert Hr. rewrite defaultPayloadVersion_RunID. unfold appendSpec.
    destruct (lookupKey _ _) as [existing|] eqn:Hk; [apply lookupKey_Some in Hk as [Hk _]|].
    - destruct (sameIdempotentEvent _ _); cbn; [|done]. by intros [= ->].
    - case_decide as Hv; [done|]. cbv zeta. destruct (Reduce _); cbn; [|done]. intros [= ->].
      split; [apply elem_of_snoc|]. done. }
  assert (ms_log s' (ev_RunID event) <> []) as Hne by (intros Hn; rewrite Hn in Hin; by apply elem_of_nil in Hin).
  assert (exists st, Reduce (ms_log s' (ev_RunID event)) = Ok st) as [st Hst].
  { apply is_ok_true. unfold ms_log in *. destruct (ms_events s' !! _) eqn:Hl; [|done].
    by apply (mi_log _ Hinv') in Hl as (_ & ? & _). }
  exists st. rewrite rebuildMemory_spec by done. rewrite decide_False by done. rewrite Hst.
  pose proof (Reduce_log _ _ Hst) as Hal.
  split_and!; [done| | apply Hal | done |].
  - by destruct (Reduce_initial_or_WF _ _ Hst) as [[]|[]].
  - intros Hap. destruct (Happ Hap) as [-> Heq]. split_and!; [done|done|].
    rewrite Heq in Hst. by apply Reduce_snoc_version in Hst.
Qed.
End theorems.

(** ** Witnesses *)

Lemma memory_store_refines_witness :
  let e := defaultPayloadVersion createRequest in
  Implements NewMemoryEventStore
    (appendMemory (H := sampleScanner) background 0 createRequest NewMemoryEventStore) e
    (appendSpec id (ms_log NewMemoryEventStore (ev_RunID e)) 0 e).
Proof.
  destruct (memory_store_refines (H := sampleScanner) NewMemoryEventStore background 0 createRequest
    NewMemoryEventStore_inv) as (_ & _ & HI).
  apply HI; reflexivity.
Defined.

(** The store after the sample Run was created. *)
Definition createdStore : MemoryEventStore :=
  snd (appendMemory (H := sampleScanner) background 0 createRequest NewMemoryEventStore).

Lemma memory_append_idempotent_witness :
  appendMemory (H := sampleScanner) background 7 createRequest createdStore =
  (Ok (MkAppendResult createdEvent false), createdStore).
Proof.
  apply (memory_append_idempotent (H := sampleScanner) NewMemoryEventStore background 0 7
    createRequest (MkAppendResult createdEvent true) createdStore NewMemoryEventStore_inv).
  reflexivity.
Defined.

Lemma memory_read_your_writes_witness :
  exists st, rebuildMemory background "run-1" createdStore = (Ok st, createdStore) /\ WF st /\
    createdEvent ∈ ms_log createdStore "run-1".
Proof.
  destruct (memory_read_your_writes (H := sampleScanner) NewMemoryEventStore background 0
    createRequest (MkAppendResult createdEvent true) createdStore NewMemoryEventStore_inv)
    as (st & H1 & H2 & _ & H3 & _); [reflexivity|].
  exists st. split; [exact H1|]. split; [exact H2|exact H3].
Defined.
