(* ===== verification/Database.v ===== *)
(** * The database and the file system

    The PostgreSQL tables of migrations/*.up.sql as finite maps, with the constraints
    their inserts check, the server clock, and transactions; and the artifact files.

    Transactions are atomic steps.  The sources serialise the transactions of one
    Run with an advisory lock and row locks (lease before run, both held until
    commit); what can still happen between two statements of a transaction is the
    passing of time, which every clock read makes visible.  Failures of the driver or
    of the network are not modelled. *)
From S2P Require Import Prelude Types Effect.

(** ** PostgreSQL *)

(** What the code uses of the server:
    [clock n] is the instant, in microseconds, of the [n]-th reading of
    [clock_timestamp()]; [jsonb] is the way of a payload through [json.Marshal], a
    jsonb column and [json.Unmarshal] (an error when the server rejects the text),
    and [jsonb_state] the same for a projection; [make_interval] turns a duration in
    nanoseconds into microseconds. *)
Class Postgres : Type := {
  clock : nat -> Z;
  jsonb : EventData -> result EventData;
  jsonb_state : State -> result State;
  make_interval : Z -> Z
}.

(** Documented behaviour: the clock does not run backwards, a positive duration is
    not turned into a negative one, and text that PostgreSQL accepts comes back as
    it was written. *)
Class PostgresLaws `{Postgres} (storable : string -> Prop) : Prop := {
  clock_mono : forall n m, n <= m -> (clock n <= clock m)%Z;
  make_interval_nonneg : forall ttl, (0 < ttl)%Z -> (0 <= make_interval ttl)%Z;
  jsonb_faithful : forall d, Forall storable
    [ ed_ScenarioID d; ed_SpecHash d; ed_DesiredState d; ed_AttemptID d; ed_ActionID d;
      ed_ActionType d; ed_IdempotencyScope d; ed_ReceiptID d; ed_Outcome d; ed_Output d;
      ed_OutputDigest d; ed_ArtifactID d; ed_ArtifactDigest d; ed_ToolName d;
      ed_ToolArguments d; ed_Reason d ] -> jsonb d = Ok d
}.

(** ** Rows *)

Record CheckpointColumns : Type := MkCheckpointColumns {
  ck_seq : Z;
  ck_state : State;
  ck_state_digest : string;
  ck_event_digest : string;
  ck_created_at : Z
}.

Record RunRow : Type := MkRunRow {
  rr_scenario_id : string;
  rr_spec_hash : string;
  rr_desired_state : string;
  rr_observed_state : string;
  rr_current_attempt : Z;
  rr_version : Z;
  rr_created_at : Z;
  rr_updated_at : Z;
  rr_checkpoint : option CheckpointColumns
}.

Record EventRow : Type := MkEventRow {
  er_seq : Z;
  er_event_type : string;
  er_payload_version : Z;
  er_payload : EventData;
  er_idempotency_key : string;
  er_causation_id : option string;
  er_correlation_id : option string;
  er_worker_id : option string;
  er_fencing_token : option Z;
  er_created_at : Z
}.

Record AttemptRow : Type := MkAttemptRow {
  at_run_id : string;
  at_number : Z;
  at_reason : option string;
  at_started_at : Z
}.

Record ArtifactRow : Type := MkArtifactRow {
  af_run_id : string;
  af_attempt_id : option string;
  af_artifact_type : string;
  af_digest : string;
  af_path : string;
  af_size : Z;
  af_created_at : Z
}.

Record LeaseRow : Type := MkLeaseRow {
  lr_worker_id : string;
  lr_fencing_token : Z;
  lr_expires_at : Z;
  lr_heartbeat_at : Z
}.

Record WorkerRow : Type := MkWorkerRow {
  wr_registered_at : Z;
  wr_heartbeat_at : Z
}.

Record ReceiptRow : Type := MkReceiptRow {
  rc_receipt_id : string;
  rc_action_type : string;
  rc_idempotency_scope : string;
  rc_output : EventData;
  rc_output_digest : option string;
  rc_artifact_id : option string;
  rc_artifact_digest : option string;
  rc_cost_units : Z;
  rc_worker_id : string;
  rc_fencing_token : Z;
  rc_created_at : Z
}.

(** ** Tables

    [db_events] holds the rows of each Run in insertion order; [db_receipts] is
    keyed by its UNIQUE (run_id, action_id). *)
Record Database : Type := MkDatabase {
  db_runs : gmap string RunRow;
  db_events : gmap string (list EventRow);
  db_attempts : gmap string AttemptRow;
  db_artifacts : gmap string ArtifactRow;
  db_leases : gmap string LeaseRow;
  db_workers : gmap string WorkerRow;
  db_receipts : gmap (string * string) ReceiptRow
}.

Definition emptyDatabase : Database := MkDatabase ∅ ∅ ∅ ∅ ∅ ∅ ∅.

#[export] Instance set_db_runs : Setter db_runs := fun v d =>
  MkDatabase v (db_events d) (db_attempts d) (db_artifacts d) (db_leases d) (db_workers d) (db_receipts d).
#[export] Instance set_db_events : Setter db_events := fun v d =>
  MkDatabase (db_runs d) v (db_attempts d) (db_artifacts d) (db_leases d) (db_workers d) (db_receipts d).
#[export] Instance set_db_attempts : Setter db_attempts := fun v d =>
  MkDatabase (db_runs d) (db_events d) v (db_artifacts d) (db_leases d) (db_workers d) (db_receipts d).
#[export] Instance set_db_artifacts : Setter db_artifacts := fun v d =>
  MkDatabase (db_runs d) (db_events d) (db_attempts d) v (db_leases d) (db_workers d) (db_receipts d).
#[export] Instance set_db_leases : Setter db_leases := fun v d =>
  MkDatabase (db_runs d) (db_events d) (db_attempts d) (db_artifacts d) v (db_workers d) (db_receipts d).
#[export] Instance set_db_workers : Setter db_workers := fun v d =>
  MkDatabase (db_runs d) (db_events d) (db_attempts d) (db_artifacts d) (db_leases d) v (db_receipts d).
#[export] Instance set_db_receipts : Setter db_receipts := fun v d =>
  MkDatabase (db_runs d) (db_events d) (db_attempts d) (db_artifacts d) (db_leases d) (db_workers d) v.

(** The world of the managed path: the database, the artifact files (path to
    bytes) and the number of clock readings so far. *)
Record World : Type := MkWorld {
  w_db : Database;
  w_files : gmap string string;
  w_tick : nat
}.

#[export] Instance set_w_db : Setter w_db := fun v w => MkWorld v (w_files w) (w_tick w).
#[export] Instance set_w_files : Setter w_files := fun v w => MkWorld (w_db w) v (w_tick w).

Definition emptyWorld : World := MkWorld emptyDatabase ∅ 0.

(** ** Statements *)

Definition query {A} (f : Database -> A) : M World A := gets (fun w => f (w_db w)).
Definition exec (f : Database -> Database) : M World unit :=
  modify (fun w => w <| w_db := f (w_db w) |>).

(** [SELECT clock_timestamp()] *)
Definition clock_timestamp `{Postgres} : M World Z :=
  fun w => (Ok (clock (w_tick w)), MkWorld (w_db w) (w_files w) (S (w_tick w))).

(** A transaction: its body says whether it reached [Commit]; an error, or a return
    without commit, rolls the database back. *)
Definition commit {A} (a : A) : M World (bool * A) := mret (true, a).
Definition abandon {A} (a : A) : M World (bool * A) := mret (false, a).

Definition transaction {A} (body : M World (bool * A)) : M World A := fun w =>
  match body w with
  | (Ok (true, a), w') => (Ok a, w')
  | (Ok (false, a), w') => (Ok a, w' <| w_db := w_db w |>)
  | (Err e, w') => (Err e, w' <| w_db := w_db w |>)
  end.

(** [ORDER BY seq] *)
Fixpoint insertBySeq (row : EventRow) (rows : list EventRow) : list EventRow :=
  match rows with
  | [] => [row]
  | r :: rest => if (er_seq row <=? er_seq r)%Z then row :: rows else r :: insertBySeq row rest
  end.

Definition orderBySeq (rows : list EventRow) : list EventRow := foldr insertBySeq [] rows.

Definition eventRows (runID : string) (db : Database) : list EventRow :=
  orderBySeq (default [] (db_events db !! runID)).

(** [payload->>'key']: NULL for a field left out by [omitempty]. *)
Definition jsonText (value : string) : option string :=
  if decide (value = "") then None else Some value.

(** [NULLIF(value, '')] and [nullableText]. *)
Definition nullableText (value : string) : option string :=
  if decide (value = "") then None else Some value.
Definition dereferenceText (value : option string) : string := default "" value.
Definition nullableUint64 (value : Z) : option Z :=
  if decide (value = 0%Z) then None else Some (i64 value).

(** A constraint that an insert checks; the error is the server's. *)
Definition constraint (holds : bool) (name : string) : M World unit :=
  if holds then mret tt else throw (Plain name).

(** ** Inversion of statements and transactions *)

(** The world after a reading of the clock. *)
Definition ticked (w : World) : World := MkWorld (w_db w) (w_files w) (S (w_tick w)).

Lemma query_Ok {A} (f : Database -> A) w a w' :
  query f w = (Ok a, w') -> a = f (w_db w) /\ w' = w.
Proof. by intros [= <- <-]. Qed.

Lemma exec_Ok f w u w' : exec f w = (Ok u, w') -> w' = w <| w_db := f (w_db w) |>.
Proof. by intros [= _ <-]. Qed.

Lemma clock_Ok `{Postgres} w t w' :
  clock_timestamp w = (Ok t, w') -> t = clock (w_tick w) /\ w' = ticked w.
Proof. by intros [= <- <-]. Qed.

Lemma constraint_Ok holds name w u w' :
  constraint holds name w = (Ok u, w') -> holds = true /\ w' = w.
Proof. unfold constraint. destruct holds; [by intros [= _ <-]|done]. Qed.

Lemma commit_Ok {A} (a a' : A) b w w' :
  commit a w = (Ok (b, a'), w') -> b = true /\ a' = a /\ w' = w.
Proof. by intros [= <- <- <-]. Qed.

Lemma abandon_Ok {A} (a a' : A) b w w' :
  abandon a w = (Ok (b, a'), w') -> b = false /\ a' = a /\ w' = w.
Proof. by intros [= <- <- <-]. Qed.

Lemma transaction_Ok {A} (body : M World (bool * A)) w a w' :
  transaction body w = (Ok a, w') ->
  exists b w1, body w = (Ok (b, a), w1) /\ w' = if b then w1 else w1 <| w_db := w_db w |>.
Proof.
  unfold transaction. destruct (body w) as [[[[] x]|e] w1]; intros [= <- <-]; eauto.
Qed.

(** A transaction that fails leaves the database as it was. *)
Lemma transaction_Err {A} (body : M World (bool * A)) w e w' :
  transaction body w = (Err e, w') -> w_db w' = w_db w.
Proof. unfold transaction. destruct (body w) as [[[[] x]|e'] w1]; intros [= <- <-]; done. Qed.

Ltac db_step :=
  match goal with
  | H : query _ _ = (Ok _, _) |- _ => apply query_Ok in H as [? ?]; subst
  | H : exec _ _ = (Ok _, _) |- _ => apply exec_Ok in H; subst
  | H : clock_timestamp _ = (Ok _, _) |- _ => apply clock_Ok in H as [? ?]; subst
  | H : constraint _ _ _ = (Ok _, _) |- _ => apply constraint_Ok in H as [? ?]; subst
  | H : commit _ _ = (Ok (_, _), _) |- _ => apply commit_Ok in H as (? & ? & ?); subst
  | H : commit _ _ = (Ok ?p, _) |- _ => destruct p
  | H : abandon _ _ = (Ok (_, _), _) |- _ => apply abandon_Ok in H as (? & ? & ?); subst
  | H : abandon _ _ = (Ok ?p, _) |- _ => destruct p
  | H : transaction _ _ = (Ok _, _) |- _ =>
      let b := fresh "b" in let w := fresh "w" in let E := fresh "E" in
      apply transaction_Ok in H as (b & w & E & H); subst
  | _ => eff_step
  end.

Ltac db_inv := repeat (db_step; try done).

(** ** Rows in order *)

(** The rows of a Run are numbered consecutively from [n]. *)
Fixpoint numbered (n : Z) (rows : list EventRow) : Prop :=
  match rows with
  | [] => True
  | row :: rest => er_seq row = n /\ numbered (n + 1) rest
  end.

Lemma orderBySeq_numbered n rows : numbered n rows -> orderBySeq rows = rows.
Proof.
  revert n. induction rows as [|row rows IH]; intros n; [done|]. intros [Hn Hrest]. cbn [orderBySeq foldr].
  fold (orderBySeq rows). rewrite (IH _ Hrest). destruct rows as [|r rows]; [done|].
  destruct Hrest as [Hr _]. cbn [insertBySeq]. by rewrite (proj2 (Z.leb_le _ _)) by lia.
Qed.

Lemma numbered_app n rows rows' :
  numbered n (rows ++ rows') <-> numbered n rows /\ numbered (n + Z.of_nat (length rows)) rows'.
Proof.
  revert n. induction rows as [|row rows IH]; intros n; cbn [app numbered length].
  - rewrite Z.add_0_r. tauto.
  - rewrite IH. replace (n + 1 + Z.of_nat (length rows))%Z with (n + Z.of_nat (S (length rows)))%Z by lia.
    tauto.
Qed.

(** ** Calls that only read *)

(** [frame w w']: nothing changed but the number of clock readings. *)
Record frame (w w' : World) : Prop := {
  fr_db : w_db w' = w_db w;
  fr_files : w_files w' = w_files w;
  fr_tick : w_tick w <= w_tick w'
}.

#[export] Instance frame_preorder : PreOrder frame.
Proof.
  split; [by intros w|]. intros w1 w2 w3 [A1 A2 A3] [B1 B2 B3].
  split; [by rewrite B1|by rewrite B2|lia].
Qed.

(** [keeps R m]: the call relates the worlds before and after it by [R], whether it
    succeeds or not. *)
Definition keeps (R : World -> World -> Prop) {A} (m : M World A) : Prop := forall w, R w (snd (m w)).
Definition readonly {A} (m : M World A) : Prop := keeps frame m.

Lemma readonly_apply {A} (m : M World A) w r w' : readonly m -> m w = (r, w') -> frame w w'.
Proof. intros H Hm. specialize (H w). by rewrite Hm in H. Qed.

Lemma readonly_ret {A} (a : A) : readonly (mret a : M World A).
Proof. by intros w. Qed.
Lemma readonly_throw {A} e : readonly (throw e : M World A).
Proof. by intros w. Qed.
Lemma readonly_lift {A} (r : result A) : readonly (lift r).
Proof. by intros w. Qed.
Lemma readonly_query {A} (f : Database -> A) : readonly (query f).
Proof. by intros w. Qed.
Lemma readonly_gets {A} (f : World -> A) : readonly (gets f).
Proof. by intros w. Qed.
Lemma readonly_clock `{Postgres} : readonly clock_timestamp.
Proof. intros w. split; cbn; [done..|lia]. Qed.
Lemma readonly_constraint b name : readonly (constraint b name).
Proof. unfold constraint. by destruct b. Qed.
Lemma readonly_commit {A} (a : A) : readonly (commit a).
Proof. by intros w. Qed.
Lemma readonly_abandon {A} (a : A) : readonly (abandon a).
Proof. by intros w. Qed.
Lemma readonly_checkContext ctx : readonly (checkContext ctx).
Proof. unfold checkContext. by destruct (ctx_Err ctx). Qed.

Lemma readonly_bind {A B} (f : A -> M World B) (m : M World A) :
  readonly m -> (forall a, readonly (f a)) -> readonly (m ≫= f).
Proof.
  intros Hm Hf w. unfold mbind, M_bind. specialize (Hm w). destruct (m w) as [[a|e] w1]; [|done].
  etrans; [exact Hm|apply Hf].
Qed.

Lemma readonly_try {A} (m : M World A) : readonly m -> readonly (try m).
Proof. intros Hm w. unfold try. specialize (Hm w). by destruct (m w). Qed.

Lemma readonly_wrapM {A} (m : M World A) : readonly m -> readonly (wrapM m).
Proof. intros Hm w. unfold wrapM. specialize (Hm w). by destruct (m w). Qed.

Lemma readonly_transaction {A} (body : M World (bool * A)) : readonly body -> readonly (transaction body).
Proof.
  intros Hm w. unfold transaction. specialize (Hm w). destruct (body w) as [[[[] a]|e] w1]; [done|..];
    destruct Hm; by split.
Qed.

Create HintDb readonly.
#[export] Hint Resolve readonly_ret readonly_throw readonly_lift readonly_query readonly_gets
  readonly_clock readonly_constraint readonly_commit readonly_abandon readonly_checkContext
  readonly_try readonly_wrapM readonly_transaction : readonly.

(** Walks through binds and branches. *)
Ltac readonly_steps :=
  repeat first [ apply readonly_bind; [|intros ?] | progress cbv zeta
               | case_decide | case_match ]; eauto with readonly.

(** In the context: a read-only call frames its world. *)
Ltac framed H :=
  eapply readonly_apply in H; [|solve [auto with readonly | readonly_steps]].

(** ** Calls that keep a relation coarser than [frame] *)

Section keeps.
Context (R : World -> World -> Prop) `{!PreOrder R}.

Lemma keeps_ret {A} (a : A) : keeps R (mret a).
Proof. by intros w. Qed.
Lemma keeps_throw {A} e : keeps R (throw e : M World A).
Proof. by intros w. Qed.

Lemma keeps_bind {A B} (f : A -> M World B) (m : M World A) :
  keeps R m -> (forall a, keeps R (f a)) -> keeps R (m ≫= f).
Proof.
  intros Hm Hf w. unfold mbind, M_bind. specialize (Hm w). destruct (m w) as [[a|e] w1]; [|done].
  etrans; [exact Hm|apply Hf].
Qed.

Lemma keeps_wrapM {A} (m : M World A) : keeps R m -> keeps R (wrapM m).
Proof. intros Hm w. unfold wrapM. specialize (Hm w). by destruct (m w). Qed.

Lemma keeps_readonly {A} (m : M World A) : subrelation frame R -> readonly m -> keeps R m.
Proof. intros HR Hm w. apply HR, Hm. Qed.

Lemma keeps_exec f : (forall w, R w (w <| w_db := f (w_db w) |>)) -> keeps R (exec f).
Proof. intros Hf w. apply Hf. Qed.
End keeps.

(** A failed or abandoned transaction changes no table, so a relation on the tables
    holds of a transaction when it holds of its body. *)
Lemma keeps_transaction {A} (R : World -> World -> Prop) (body : M World (bool * A)) :
  (forall w w', w_db w' = w_db w -> R w w') -> keeps R body -> keeps R (transaction body).
Proof.
  intros Hf Hc w. unfold transaction. specialize (Hc w).
  destruct (body w) as [[[[] a]|e] w1]; [done|by apply Hf..].
Qed.
