(* ===== verification/Artifact.v ===== *)
(** * Artifacts: internal/store/artifact.go *)
From S2P Require Import Prelude Sha256 GoLib Types Decide Reducer Receipt Effect Database.

(** [ArtifactInput]; [Content] is the whole stream, absent for a nil reader. *)
Record ArtifactInput : Type := MkArtifactInput {
  ai_ID : string;
  ai_RunID : string;
  ai_AttemptID : string;
  ai_Type : string;
  ai_Content : option string
}.

Record ArtifactRecord : Type := MkArtifactRecord {
  arec_ID : string;
  arec_RunID : string;
  arec_AttemptID : string;
  arec_Type : string;
  arec_Digest : string;
  arec_Path : string;
  arec_Size : Z;
  arec_CreatedAt : string
}.

(** [PostgresArtifactStore]: its root directory, absolute and clean. *)
Record PostgresArtifactStore : Type := MkPostgresArtifactStore { as_root : string }.

Definition identifierByte (b : Z) : bool :=
  in_range 97 122 b || in_range 65 90 b || in_range 48 57 b ||
  bool_decide (b = 45 \/ b = 95 \/ b = 46)%Z.

Definition validArtifactIdentifier (value : string) : bool :=
  if bool_decide (value = "" \/ value = "." \/ value = "..") || Contains value ".."
  then false else forallb identifierByte (bytes_of value).

Section artifact.
Context `{Postgres}.

(** The columns read by [Get]. *)
Definition artifactRecord (artifactID : string) (row : ArtifactRow) : ArtifactRecord :=
  MkArtifactRecord artifactID (af_run_id row) (dereferenceText (af_attempt_id row))
    (af_artifact_type row) (af_digest row) (af_path row) (af_size row)
    (RFC3339Nano (af_created_at row)).

Definition Get (artifactID : string) : M World ArtifactRecord :=
  row ← query (fun db => db_artifacts db !! artifactID);
  match row with
  | None => throw (Sentinel ErrArtifactNotFound)
  | Some row => mret (artifactRecord artifactID row)
  end.

(** Hash the published bytes and compare them with the metadata. *)
Definition verifyArtifactRecordBytes (record : ArtifactRecord) : M World unit :=
  file ← gets (fun w => w_files w !! arec_Path record);
  match file with
  | None => throw (Sentinel ErrArtifactIntegrity)
  | Some content =>
      if decide (digestBytes content <> arec_Digest record \/
                 Z.of_nat (String.length content) <> arec_Size record)
      then throw (Sentinel ErrArtifactIntegrity)
      else mret tt
  end.

Definition outsideRoot (relativePath : option string) : bool :=
  match relativePath with
  | None => true
  | Some rel => bool_decide (rel = "." \/ rel = "..") || rooted rel || HasPrefix rel "../"
  end.

Definition Verify (store : PostgresArtifactStore) (ctx : Context) (artifactID : string)
    : M World ArtifactRecord :=
  _ ← checkContext ctx;
  record ← Get artifactID;
  if outsideRoot (filepath_Rel (as_root store) (arec_Path record))
  then throw (Sentinel ErrArtifactIntegrity)
  else
    _ ← verifyArtifactRecordBytes record;
    mret record.

(** [INSERT INTO artifacts ... ON CONFLICT (artifact_id) DO NOTHING RETURNING
    created_at]: [None] when the row already existed. *)
Definition insertArtifact (input : ArtifactInput) (digest finalPath : string) (size : Z)
    : M World (option Z) :=
  now ← clock_timestamp;
  _ ← constraint (sha256DigestPattern digest) "artifacts_digest_check";
  existing ← query (fun db => db_artifacts db !! ai_ID input);
  match existing with
  | Some _ => mret None
  | None =>
      runExists ← query (fun db => bool_decide (is_Some (db_runs db !! ai_RunID input)));
      _ ← constraint runExists "artifacts_run_id_fkey";
      attemptExists ← query (fun db =>
        match nullableText (ai_AttemptID input) with
        | None => true
        | Some attempt => bool_decide (at_run_id <$> db_attempts db !! attempt = Some (ai_RunID input))
        end);
      _ ← constraint attemptExists "artifacts_run_attempt_fk";
      _ ← exec (fun db => db <| db_artifacts :=
            <[ai_ID input := MkArtifactRow (ai_RunID input) (nullableText (ai_AttemptID input))
                               (ai_Type input) digest finalPath size now]> (db_artifacts db) |>);
      mret (Some now)
  end.

(** An existing row must describe the same artifact. *)
Definition sameArtifact (existing : ArtifactRecord) (input : ArtifactInput)
    (digest finalPath : string) (size : Z) : bool :=
  bool_decide (arec_RunID existing = ai_RunID input /\ arec_AttemptID existing = ai_AttemptID input /\
    arec_Type existing = ai_Type input /\ arec_Digest existing = digest /\
    arec_Path existing = finalPath /\ arec_Size existing = size).

Definition artifactPath (store : PostgresArtifactStore) (artifactID content : string) : string :=
  filepath_Join [as_root store; artifactID +:+ "-" +:+ sha256_hex content].

Definition publishFile (path content : string) : M World unit :=
  modify (fun w => w <| w_files := <[path := content]> (w_files w) |>).

Definition Write (store : PostgresArtifactStore) (ctx : Context) (input : ArtifactInput)
    : M World ArtifactRecord :=
  _ ← checkContext ctx;
  match ai_Content input with
  | None => throw (Plain "artifact ID, Run ID, type, and content are required")
  | Some content =>
      if negb (validArtifactIdentifier (ai_ID input)) ||
         bool_decide (ai_RunID input = "" \/ ai_Type input = "")
      then throw (Plain "artifact ID, Run ID, type, and content are required")
      else
        let digest := digestBytes content in
        let size := Z.of_nat (String.length content) in
        let finalPath := artifactPath store (ai_ID input) content in
        _ ← publishFile finalPath content;
        inserted ← wrapM (insertArtifact input digest finalPath size);
        match inserted with
        | None =>
            existing ← wrapM (Get (ai_ID input));
            if negb (sameArtifact existing input digest finalPath size)
            then throw (Sentinel ErrIdempotencyConflict)
            else mret existing
        | Some createdAt =>
            mret (MkArtifactRecord (ai_ID input) (ai_RunID input) (ai_AttemptID input)
                    (ai_Type input) digest finalPath size (RFC3339Nano createdAt))
        end
  end.
End artifact.
