(* ===== verification/PostgresStore.v ===== *)
(** * The PostgreSQL event store: internal/store/postgres.go *)
From S2P Require Import Prelude Sha256 GoLib Types Decide Reducer Receipt Effect.
From S2P Require Import Store Database Artifact.

Definition maxDatabaseVersion : Z := 2 ^ 63 - 1.

(** ** Reading events *)

(** [scanPostgresEvent] *)
Definition scanPostgresEvent (runID : string) (row : EventRow) : Event :=
  MkEvent runID (u64 (er_seq row)) (er_event_type row) (er_payload_version row) (er_payload row)
    (er_idempotency_key row) (dereferenceText (er_causation_id row))
    (dereferenceText (er_correlation_id row)) (dereferenceText (er_worker_id row))
    (match er_fencing_token row with Some token => u64 token | None => 0 end)
    (RFC3339Nano (er_created_at row)).

Definition loadPostgresEvents (runID : string) : M World (list Event) :=
  query (fun db => map (scanPostgresEvent runID) (eventRows runID db)).

Definition loadEventByIdempotencyKey (runID idempotencyKey : string) : M World (option Event) :=
  query (fun db =>
    scanPostgresEvent runID <$>
      find (fun row => bool_decide (er_idempotency_key row = idempotencyKey))
        (default [] (db_events db !! runID))).

(** ** Authority and evidence checks of [Append] *)

Definition leaseSensitiveTypes : list EventType :=
  [ EventLeaseAcquired; EventLeaseRenewed; EventLeaseExpired; EventActionPlanned;
    EventActionCompleted; EventActionFailed ].

Definition leaseSensitiveEvent (event : Event) : bool :=
  if decide (ev_Type event ∈ leaseSensitiveTypes) then true
  else bool_decide (ev_WorkerID event <> "" \/ ev_FencingToken event <> 0%Z).

Definition legacyLifecycleTypes : list EventType :=
  [ EventAttemptStarted; EventWorkspaceProvisionPlanned; EventWorkspaceProvisioned;
    EventReasoningPlanned; EventReasoningCompleted; EventToolCallPlanned;
    EventToolCallCompleted; EventToolCallFailed; EventPatchProduced;
    EventVerificationPlanned; EventVerificationPassed; EventVerificationFailed;
    EventRepairScheduled; EventApprovalRequested; EventApprovalResolved;
    EventCheckpointSaved; EventRunSucceeded; EventRunFailed; EventRunCancelled ].

Definition legacyLifecycleEvent (eventType : EventType) : bool :=
  bool_decide (eventType ∈ legacyLifecycleTypes).

Section postgres.
Context `{Postgres}.

(** [validateFencingToken] *)
Definition validateFencingToken (event : Event) : M World unit :=
  let refused worker token expired :=
    FencingTokenError (ev_RunID event) (ev_WorkerID event) (ev_FencingToken event)
      worker token expired in
  if decide (ev_WorkerID event = "" \/ ev_FencingToken event = 0%Z \/
             (maxDatabaseVersion < ev_FencingToken event)%Z)
  then throw (refused "" 0%Z false)
  else
    row ← query (fun db => db_leases db !! ev_RunID event);
    match row with
    | None => throw (refused "" 0%Z false)
    | Some row =>
        databaseNow ← clock_timestamp;
        let expired := negb (databaseNow <? lr_expires_at row)%Z in
        if expired || bool_decide (lr_worker_id row <> ev_WorkerID event \/
                                   u64 (lr_fencing_token row) <> ev_FencingToken event)
        then throw (refused (lr_worker_id row) (u64 (lr_fencing_token row)) expired)
        else mret tt
    end.

(** The newest ActionPlanned row for an action. *)
Definition plannedRow (actionID actionType : string) (row : EventRow) : bool :=
  bool_decide (er_event_type row = EventActionPlanned /\
               jsonText (ed_ActionID (er_payload row)) = Some actionID /\
               jsonText (ed_ActionType (er_payload row)) = Some actionType).

Definition plannedAttempt (runID actionID actionType : string) (db : Database) : option string :=
  ed_AttemptID <$> (er_payload <$>
    last (List.filter (plannedRow actionID actionType) (eventRows runID db))).

(** The artifact named by a receipt must be registered for this Run and attempt,
    and its bytes must still hash to the recorded digest. *)
Definition validateReceiptArtifact (runID plannedAttemptID artifactID artifactDigest : string)
    : M World unit :=
  row ← query (fun db => db_artifacts db !! artifactID);
  match row with
  | None => throw (Sentinel ErrActionReceiptMismatch)
  | Some row =>
      if decide (af_run_id row <> runID \/
                 dereferenceText (af_attempt_id row) <> plannedAttemptID \/
                 af_artifact_type row <> Phase3ReceiptArtifactType \/
                 af_digest row <> artifactDigest)
      then throw (Sentinel ErrActionReceiptMismatch)
      else verifyArtifactRecordBytes (artifactRecord artifactID row)
  end.

(** The completion payload that a receipt determines. *)
Definition completionOfReceipt (row : ReceiptRow) (actionID : string) (actionType : CommandType)
    (receiptID : string) : EventData :=
  (rc_output row) <| ed_ActionID := actionID |> <| ed_ActionType := actionType |>
    <| ed_IdempotencyScope := rc_idempotency_scope row |> <| ed_ReceiptID := receiptID |>
    <| ed_OutputDigest := dereferenceText (rc_output_digest row) |>
    <| ed_ArtifactID := dereferenceText (rc_artifact_id row) |>
    <| ed_ArtifactDigest := dereferenceText (rc_artifact_digest row) |>.

Definition validateActionReceipt (event : Event) : M World unit :=
  let data := ev_Data event in
  if decide (ed_ReceiptID data = "" \/ ed_ActionID data = "")
  then throw (Sentinel ErrMissingActionReceipt)
  else
    found ← query (fun db => db_receipts db !! (ev_RunID event, ed_ActionID data));
    match found with
    | None => throw (Sentinel ErrMissingActionReceipt)
    | Some row =>
        if decide (rc_receipt_id row <> ed_ReceiptID data \/
                   rc_action_type row <> ed_ActionType data)
        then throw (Sentinel ErrMissingActionReceipt)
        else
          planned ← query (plannedAttempt (ev_RunID event) (ed_ActionID data) (ed_ActionType data));
          match planned with
          | None => throw (Sentinel ErrActionReceiptMismatch)
          | Some plannedAttemptID =>
              let outputDigest := dereferenceText (rc_output_digest row) in
              let artifactID := dereferenceText (rc_artifact_id row) in
              let artifactDigest := dereferenceText (rc_artifact_digest row) in
              _ ← (match ValidateManagedReceiptEvidence (ed_ActionType data) (ed_ActionID data)
                           plannedAttemptID (rc_output row) outputDigest artifactID artifactDigest with
                   | Ok _ => mret tt
                   | Err _ => throw (Sentinel ErrActionReceiptMismatch)
                   end : M World unit);
              _ ← (if decide (artifactID <> "")
                   then validateReceiptArtifact (ev_RunID event) plannedAttemptID artifactID artifactDigest
                   else mret tt);
              if decide (completionOfReceipt row (ed_ActionID data) (ed_ActionType data)
                           (ed_ReceiptID data) <> data)
              then throw (Sentinel ErrActionReceiptMismatch)
              else mret tt
          end
    end.

(** ** The statements of [Append] *)

(** [INSERT INTO runs ... ON CONFLICT (run_id) DO NOTHING] *)
Definition newRunRow (event : Event) (databaseTime : Z) : RunRow :=
  MkRunRow (ed_ScenarioID (ev_Data event)) (ed_SpecHash (ev_Data event)) DesiredRunning
    StatusQueued 0 0 databaseTime databaseTime None.

Definition createRunRow (event : Event) (databaseTime : Z) : M World unit :=
  exec (fun db =>
    match db_runs db !! ev_RunID event with
    | Some _ => db
    | None => db <| db_runs := <[ev_RunID event := newRunRow event databaseTime]> (db_runs db) |>
    end).

(** Whether a lease row has made the Run managed; creation and changes of intent
    are accepted in either mode and do not ask. *)
Definition inspectManaged (event : Event) : M World bool :=
  if decide (ev_Type event <> EventRunCreated /\ ev_Type event <> EventDesiredStateChanged)
  then query (fun db => bool_decide (is_Some (db_leases db !! ev_RunID event)))
  else mret false.

(** [INSERT INTO events]: the constraints of the table, then the row. *)
Definition eventRow (event : Event) (payload : EventData) (databaseTime : Z) : EventRow :=
  MkEventRow (i64 (ev_Seq event)) (ev_Type event) (ev_PayloadVersion event) payload
    (ev_IdempotencyKey event) (nullableText (ev_CausationID event))
    (nullableText (ev_CorrelationID event)) (nullableText (ev_WorkerID event))
    (nullableUint64 (ev_FencingToken event)) databaseTime.

Definition eventConstraints (rows : list EventRow) (row : EventRow) : bool :=
  (0 <? er_seq row)%Z && (0 <? er_payload_version row)%Z &&
  match er_fencing_token row with Some token => (0 <=? token)%Z | None => true end &&
  forallb (fun r => bool_decide (er_seq r <> er_seq row /\
                                 er_idempotency_key r <> er_idempotency_key row)) rows.

Definition insertEvent (event : Event) (databaseTime : Z) : M World unit :=
  payload ← lift (jsonb (ev_Data event));
  let row := eventRow event payload databaseTime in
  rows ← query (fun db => default [] (db_events db !! ev_RunID event));
  _ ← constraint (eventConstraints rows row) "events";
  exec (fun db => db <| db_events := <[ev_RunID event := rows ++ [row]]> (db_events db) |>).

(** [INSERT INTO attempts], for the two events that start an attempt. *)
Definition startsAttempt (event : Event) (state : State) : bool :=
  bool_decide (ev_Type event = EventAttemptStarted) ||
  bool_decide (ev_Type event = EventActionCompleted /\
               ed_ActionType (ev_Data event) = CommandStartAttempt /\
               (0 < st_CurrentAttempt state)%Z).

Definition attemptConstraints (db : Database) (attemptID runID : string) (number : Z) : bool :=
  bool_decide (db_attempts db !! attemptID = None) && (0 <? number)%Z &&
  bool_decide (map_Forall (fun _ row => ~ (at_run_id row = runID /\ at_number row = number))
                 (db_attempts db)).

Definition insertAttempt (event : Event) (state : State) (databaseTime : Z) : M World unit :=
  let attemptID := ed_AttemptID (ev_Data event) in
  ok ← query (fun db => attemptConstraints db attemptID (ev_RunID event) (st_CurrentAttempt state));
  _ ← constraint ok "attempts";
  exec (fun db => db <| db_attempts := <[attemptID :=
          MkAttemptRow (ev_RunID event) (st_CurrentAttempt state)
            (nullableText (ed_Reason (ev_Data event))) databaseTime]> (db_attempts db) |>).

Definition recordAttempt (event : Event) (state : State) (databaseTime : Z) : M World unit :=
  if startsAttempt event state then wrapM (insertAttempt event state databaseTime) else mret tt.

(** [UPDATE runs ... WHERE run_id = $1 AND version = $9]: whether a row was updated. *)
Definition projectRow (row : RunRow) (state : State) (databaseTime : Z) : RunRow :=
  MkRunRow (run_ScenarioID (st_Run state)) (run_SpecHash (st_Run state)) (st_DesiredState state)
    (st_ObservedState state) (st_CurrentAttempt state) (i64 (st_Version state))
    (rr_created_at row) databaseTime (rr_checkpoint row).

Definition updateProjection (runID : string) (state : State) (actualVersion databaseTime : Z)
    : M World bool :=
  found ← query (fun db => db_runs db !! runID);
  match found with
  | Some row =>
      if decide (rr_version row = actualVersion) then
        _ ← exec (fun db => db <| db_runs :=
              <[runID := projectRow row state databaseTime]> (db_runs db) |>);
        mret true
      else mret false
  | None => mret false
  end.

(** The writes of an accepted append. *)
Definition writeEvent (expectedVersion actualVersion : Z) (event : Event) (state : State)
    (databaseTime : Z) : M World (bool * AppendResult) :=
  _ ← wrapM (insertEvent event databaseTime);
  _ ← recordAttempt event state databaseTime;
  updated ← updateProjection (ev_RunID event) state actualVersion databaseTime;
  if negb updated
  then throw (VersionConflictError (ev_RunID event) expectedVersion (u64 actualVersion))
  else commit (MkAppendResult event true).

(** After the locks and the replay check. *)
Definition appendNew (expectedVersion actualVersion : Z) (event : Event)
    : M World (bool * AppendResult) :=
  if decide (u64 actualVersion <> expectedVersion)
  then throw (VersionConflictError (ev_RunID event) expectedVersion (u64 actualVersion))
  else
    _ ← (if decide (ev_Type event = EventActionCompleted) then validateActionReceipt event else mret tt);
    databaseTime ← clock_timestamp;
    current ← loadPostgresEvents (ev_RunID event);
    let event := event <| ev_Seq := u64 (expectedVersion + 1) |>
                       <| ev_CreatedAt := RFC3339Nano databaseTime |> in
    state ← lift (Reduce (current ++ [event]));
    writeEvent expectedVersion actualVersion event state databaseTime.

(** Once the Run row is locked. *)
Definition appendLocked (expectedVersion : Z) (event : Event) (requiresFencing : bool)
    : M World (bool * AppendResult) :=
  found ← query (fun db => db_runs db !! ev_RunID event);
  match found with
  | None => throw (Sentinel ErrRunNotFound)
  | Some row =>
      _ ← (if requiresFencing then validateFencingToken event else mret tt);
      existing ← loadEventByIdempotencyKey (ev_RunID event) (ev_IdempotencyKey event);
      match existing with
      | Some existing =>
          if negb (sameIdempotentEvent existing event)
          then throw (Sentinel ErrIdempotencyConflict)
          else abandon (MkAppendResult existing false)
      | None => appendNew expectedVersion (rr_version row) event
      end
  end.

Definition appendTransaction (expectedVersion : Z) (event : Event) : M World (bool * AppendResult) :=
  databaseTime ← clock_timestamp;
  _ ← (if decide (ev_Type event = EventRunCreated) then createRunRow event databaseTime else mret tt);
  managedRun ← inspectManaged event;
  let requiresFencing := leaseSensitiveEvent event || managedRun in
  _ ← (if requiresFencing then validateFencingToken event else mret tt);
  if managedRun && legacyLifecycleEvent (ev_Type event)
  then throw (Sentinel ErrManagedRunLegacyEvent)
  else appendLocked expectedVersion event requiresFencing.

Definition appendPostgres `{CredentialScanner} (ctx : Context) (expectedVersion : Z) (event : Event)
    : M World AppendResult :=
  _ ← checkContext ctx;
  if decide (maxDatabaseVersion < expectedVersion)%Z then throw (Sentinel ErrInvalidAppend)
  else
    _ ← lift (validateAppendInput event);
    transaction (appendTransaction expectedVersion (defaultPayloadVersion event)).

(** ** Reading a Run *)

Definition loadPostgres (ctx : Context) (runID : string) : M World (list Event) :=
  events ← loadPostgresEvents runID;
  exists_ ← query (fun db => bool_decide (is_Some (db_runs db !! runID)));
  if bool_decide (events = []) && negb exists_
  then throw (Sentinel ErrRunNotFound)
  else mret events.

(** A checkpoint is trusted only when its digests, its Run, its version and its
    projection agree with the authoritative events. *)
Definition checkpointMatches (runID : string) (ck : CheckpointColumns) (events : list Event) : bool :=
  let prefix := take (Z.to_nat (ck_seq ck)) events in
  bool_decide (0 < ck_seq ck)%Z && bool_decide (ck_seq ck <= Z.of_nat (length events))%Z &&
  match events !! (Z.to_nat (ck_seq ck) - 1) with
  | Some e => bool_decide (ev_Seq e = ck_seq ck)
  | None => false
  end &&
  bool_decide (digestBytes (marshalState (ck_state ck)) = ck_state_digest ck) &&
  bool_decide (run_ID (st_Run (ck_state ck)) = runID) &&
  bool_decide (st_Version (ck_state ck) = ck_seq ck) &&
  bool_decide (digestEventSequence prefix = ck_event_digest ck) &&
  match Reduce prefix with Ok s => bool_decide (ck_state ck = s) | Err _ => false end.

Definition rebuildFrom (runID : string) (checkpoint : option CheckpointColumns) (events : list Event)
    : result State :=
  match checkpoint with
  | Some ck =>
      if checkpointMatches runID ck events then
        match ReduceFromCheckpoint (ck_state ck) (drop (Z.to_nat (ck_seq ck)) events) with
        | Ok rebuilt => Ok rebuilt
        | Err _ => Reduce events
        end
      else Reduce events
  | None => Reduce events
  end.

Definition rebuildPostgres (ctx : Context) (runID : string) : M World State :=
  row ← query (fun db => db_runs db !! runID);
  match row with
  | None => throw (Sentinel ErrRunNotFound)
  | Some row =>
      events ← loadPostgresEvents runID;
      lift (rebuildFrom runID (rr_checkpoint row) events)
  end.

Definition isManagedRun (ctx : Context) (runID : string) : M World bool :=
  if decide (runID = "") then throw (Sentinel ErrInvalidAppend)
  else query (fun db => bool_decide (is_Some (db_leases db !! runID))).

(** ** Checkpoints *)

Record Checkpoint : Type := MkCheckpoint {
  cp_Seq : Z;
  cp_State : State;
  cp_CreatedAt : string
}.

Definition checkpointColumns (version : Z) (stored state : State) (events : list Event) (now : Z)
    : CheckpointColumns :=
  MkCheckpointColumns (i64 version) stored (digestBytes (marshalState state))
    (digestEventSequence events) now.

Definition setCheckpoint (row : RunRow) (ck : CheckpointColumns) : RunRow :=
  MkRunRow (rr_scenario_id row) (rr_spec_hash row) (rr_desired_state row) (rr_observed_state row)
    (rr_current_attempt row) (rr_version row) (rr_created_at row) (rr_updated_at row) (Some ck).

Definition SaveCheckpoint (ctx : Context) (runID : string) (expectedVersion : Z)
    : M World Checkpoint :=
  if decide (runID = "" \/ expectedVersion = 0%Z \/ (maxDatabaseVersion < expectedVersion)%Z)
  then throw (Sentinel ErrInvalidAppend)
  else transaction (
    currentTimestamp ← clock_timestamp;
    found ← query (fun db => db_runs db !! runID);
    match found with
    | None => throw (Sentinel ErrRunNotFound)
    | Some row =>
        if decide (u64 (rr_version row) <> expectedVersion)
        then throw (VersionConflictError runID expectedVersion (u64 (rr_version row)))
        else
          events ← loadPostgresEvents runID;
          state ← wrapM (lift (Reduce events));
          if decide (st_Version state <> expectedVersion)
          then throw (VersionConflictError runID expectedVersion (st_Version state))
          else
            stored ← wrapM (lift (jsonb_state state));
            _ ← exec (fun db => db <| db_runs := <[runID := setCheckpoint row
                  (checkpointColumns expectedVersion stored state events currentTimestamp)]>
                  (db_runs db) |>);
            commit (MkCheckpoint expectedVersion state (RFC3339Nano currentTimestamp))
    end).

#[export] Instance postgres_store `{CredentialScanner} : EventStore World := {
  Load := loadPostgres; Rebuild := rebuildPostgres; Append := appendPostgres
}.
End postgres.

#[export] Instance postgres_inspector : ManagedRunInspector World := Some isManagedRun.
