(* ===== verification/PostgresFacts.v ===== *)
(** * What a successful PostgreSQL append did

    Inversion of [appendPostgres]: the statements of a transaction that committed,
    with the authority and the evidence it checked. *)
From S2P Require Import Prelude Sha256 GoLib Types Decide Reducer Receipt Effect.
From S2P Require Import Store Database Artifact PostgresStore.

(** ** Views of the tables *)

Definition pgRows (db : Database) (runID : string) : list EventRow := default [] (db_events db !! runID).

Definition pgLog (w : World) (runID : string) : list Event :=
  map (scanPostgresEvent runID) (eventRows runID (w_db w)).

Section facts.
Context `{Postgres}.

(** ** Authority *)

(** [Authorised w w' e]: the lease of the event's Run is held by its worker under its
    token, and had not expired at a reading of the clock between [w] and [w']. *)
Definition Authorised (w w' : World) (e : Event) : Prop :=
  exists row n, db_leases (w_db w) !! ev_RunID e = Some row /\
    lr_worker_id row = ev_WorkerID e /\ u64 (lr_fencing_token row) = ev_FencingToken e /\
    ev_WorkerID e <> "" /\ ev_FencingToken e <> 0%Z /\ (ev_FencingToken e <= maxDatabaseVersion)%Z /\
    w_tick w <= n < w_tick w' /\ (clock n < lr_expires_at row)%Z.

Lemma validateFencingToken_readonly e : readonly (validateFencingToken e).
Proof. unfold validateFencingToken. readonly_steps. Qed.
#[local] Hint Resolve validateFencingToken_readonly : readonly.

Lemma validateFencingToken_Ok e w u w' :
  validateFencingToken e w = (Ok u, w') -> Authorised w w' e /\ frame w w'.
Proof.
  intros H0. split; [|by framed H0]. unfold validateFencingToken in H0. db_inv.
  destruct (db_leases _ !! _) as [row|] eqn:Hl; db_inv. simp_not.
  apply orb_false_iff in E as [E%negb_false_iff%Z.ltb_lt [E1 E2]%bool_decide_eq_false%not_or_split].
  exists row, (w_tick w). cbn. repeat split; try done; try lia; by apply dec_stable.
Qed.

(** ** Evidence *)

Definition ArtifactEvidence (w : World) (runID attemptID artifactID digest : string) : Prop :=
  exists row content, db_artifacts (w_db w) !! artifactID = Some row /\
    af_run_id row = runID /\ dereferenceText (af_attempt_id row) = attemptID /\
    af_artifact_type row = Phase3ReceiptArtifactType /\ af_digest row = digest /\
    w_files w !! af_path row = Some content /\ digestBytes content = digest /\
    Z.of_nat (String.length content) = af_size row.

Lemma verifyArtifactRecordBytes_Ok record w u w' :
  verifyArtifactRecordBytes record w = (Ok u, w') ->
  w' = w /\ exists content, w_files w !! arec_Path record = Some content /\
    digestBytes content = arec_Digest record /\ Z.of_nat (String.length content) = arec_Size record.
Proof.
  unfold verifyArtifactRecordBytes. intros H0. db_inv.
  destruct (w_files _ !! _) as [content|] eqn:Hf; db_inv. simp_not. eauto.
Qed.

Lemma verifyArtifactRecordBytes_readonly record : readonly (verifyArtifactRecordBytes record).
Proof. unfold verifyArtifactRecordBytes. readonly_steps. Qed.
#[local] Hint Resolve verifyArtifactRecordBytes_readonly : readonly.

Lemma validateReceiptArtifact_Ok runID attemptID artifactID digest w u w' :
  validateReceiptArtifact runID attemptID artifactID digest w = (Ok u, w') ->
  ArtifactEvidence w runID attemptID artifactID digest.
Proof.
  unfold validateReceiptArtifact. intros H0. db_inv.
  destruct (db_artifacts _ !! _) as [row|] eqn:Ha; db_inv. simp_not.
  apply verifyArtifactRecordBytes_Ok in H0 as [_ (content & ? & ? & ?)]. cbn in *.
  exists row, content. repeat split; congruence.
Qed.

(** [ReceiptEvidence w e]: the receipt of the completed action is durable, was
    checked against the recorded plan of that action, determines the payload of the
    event, and names an artifact only if its bytes still match. *)
Definition ReceiptEvidence (w : World) (e : Event) : Prop :=
  let data := ev_Data e in
  exists row attemptID, db_receipts (w_db w) !! (ev_RunID e, ed_ActionID data) = Some row /\
    plannedAttempt (ev_RunID e) (ed_ActionID data) (ed_ActionType data) (w_db w) = Some attemptID /\
    ValidateManagedReceiptEvidence (ed_ActionType data) (ed_ActionID data) attemptID (rc_output row)
      (ed_OutputDigest data) (ed_ArtifactID data) (ed_ArtifactDigest data) = Ok tt /\
    rc_receipt_id row = ed_ReceiptID data /\ rc_action_type row = ed_ActionType data /\
    completionOfReceipt row (ed_ActionID data) (ed_ActionType data) (ed_ReceiptID data) = data /\
    (ed_ArtifactID data <> "" ->
     ArtifactEvidence w (ev_RunID e) attemptID (ed_ArtifactID data) (ed_ArtifactDigest data)).

Lemma validateActionReceipt_readonly e : readonly (validateActionReceipt e).
Proof. unfold validateActionReceipt, validateReceiptArtifact. readonly_steps. Qed.
#[local] Hint Resolve validateActionReceipt_readonly : readonly.

(** The digests in a completion payload are those of its receipt. *)
Lemma completionOfReceipt_fields row id t r d :
  completionOfReceipt row id t r = d ->
  ed_OutputDigest d = dereferenceText (rc_output_digest row) /\
  ed_ArtifactID d = dereferenceText (rc_artifact_id row) /\
  ed_ArtifactDigest d = dereferenceText (rc_artifact_digest row).
Proof. by intros <-. Qed.

Lemma validateActionReceipt_Ok e w u w' :
  validateActionReceipt e w = (Ok u, w') -> ReceiptEvidence w e /\ frame w w'.
Proof.
  intros H0. split; [|by framed H0].
  unfold validateActionReceipt in H0. db_inv.
  destruct (db_receipts _ !! _) as [row|] eqn:Hr; db_inv.
  destruct (plannedAttempt _ _ _ _) as [attempt|] eqn:Hp; db_inv; simp_not.
  all: destruct (ValidateManagedReceiptEvidence _ _ _ _ _ _ _) as [[]|] eqn:Hv; [|done].
  all: match goal with E : completionOfReceipt _ _ _ _ = _ |- _ =>
         pose proof (completionOfReceipt_fields _ _ _ _ _ E) as (Ho & Ha & Hd) end.
  all: exists row, attempt; rewrite Ho, Ha, Hd; repeat split; try done.
  intros _. by eapply validateReceiptArtifact_Ok.
Qed.

(** ** The writes *)

(** The event as it is recorded. *)
Definition recordedEvent (v : Z) (e : Event) (time : Z) : Event :=
  e <| ev_Seq := u64 (v + 1) |> <| ev_CreatedAt := RFC3339Nano time |>.

(** [Written w v e row payload time st w']: from [w], where [row] is the row of its
    Run, the event was recorded at [time] and its Run projected to [st]. *)
Record Written (w : World) (v : Z) (e : Event) (row : RunRow) (payload : EventData) (time : Z)
    (st : State) (w' : World) : Prop := {
  wn_row : db_runs (w_db w) !! ev_RunID e = Some row;
  wn_version : u64 (rr_version row) = v;
  wn_fresh : find (fun r => bool_decide (er_idempotency_key r = ev_IdempotencyKey e))
               (pgRows (w_db w) (ev_RunID e)) = None;
  wn_payload : jsonb (ev_Data e) = Ok payload;
  wn_reduce : Reduce (pgLog w (ev_RunID e) ++ [recordedEvent v e time]) = Ok st;
  wn_constraints : eventConstraints (pgRows (w_db w) (ev_RunID e))
                     (eventRow (recordedEvent v e time) payload time) = true;
  wn_receipt : ev_Type e = EventActionCompleted -> ReceiptEvidence w e;
  wn_files : w_files w' = w_files w;
  wn_tick : w_tick w <= w_tick w';
  wn_attempts : db_attempts (w_db w) ⊆ db_attempts (w_db w');
  wn_tables : w_db w' = MkDatabase
    (<[ev_RunID e := projectRow row st time]> (db_runs (w_db w)))
    (<[ev_RunID e := pgRows (w_db w) (ev_RunID e) ++ [eventRow (recordedEvent v e time) payload time]]>
       (db_events (w_db w)))
    (db_attempts (w_db w')) (db_artifacts (w_db w)) (db_leases (w_db w)) (db_workers (w_db w))
    (db_receipts (w_db w))
}.

Lemma insertEvent_Ok e time w u w' :
  insertEvent e time w = (Ok u, w') ->
  exists payload, jsonb (ev_Data e) = Ok payload /\
    eventConstraints (pgRows (w_db w) (ev_RunID e)) (eventRow e payload time) = true /\
    w' = w <| w_db := (w_db w) <| db_events :=
           <[ev_RunID e := pgRows (w_db w) (ev_RunID e) ++ [eventRow e payload time]]>
             (db_events (w_db w)) |> |>.
Proof. unfold insertEvent. intros H0. db_inv. eauto. Qed.

Lemma insertAttempt_Ok e st time w u w' :
  insertAttempt e st time w = (Ok u, w') ->
  exists row, attemptConstraints (w_db w) (ed_AttemptID (ev_Data e)) (ev_RunID e)
                (st_CurrentAttempt st) = true /\
    w' = w <| w_db := (w_db w) <| db_attempts :=
           <[ed_AttemptID (ev_Data e) := row]> (db_attempts (w_db w)) |> |>.
Proof. unfold insertAttempt. intros H0. db_inv. eauto. Qed.

Lemma attemptConstraints_fresh db id run n :
  attemptConstraints db id run n = true -> db_attempts db !! id = None.
Proof. unfold attemptConstraints. by intros [[?%bool_decide_eq_true _]%andb_true_iff _]%andb_true_iff. Qed.

Lemma updateProjection_true run st v time w w' :
  updateProjection run st v time w = (Ok true, w') ->
  exists row, db_runs (w_db w) !! run = Some row /\ rr_version row = v /\
    w' = w <| w_db := (w_db w) <| db_runs := <[run := projectRow row st time]> (db_runs (w_db w)) |> |>.
Proof.
  unfold updateProjection. intros H0. db_inv. destruct (db_runs _ !! _) eqn:Hr; db_inv; eauto.
Qed.

(** The attempts after the optional insert. *)
Lemma recordAttempt_Ok e st time w u w' :
  recordAttempt e st time w = (Ok u, w') ->
  exists attempts, db_attempts (w_db w) ⊆ attempts /\
    w' = w <| w_db := (w_db w) <| db_attempts := attempts |> |>.
Proof.
  unfold recordAttempt. intros H0. db_inv.
  - apply insertAttempt_Ok in H0 as (row & Hc & ->). eexists. split; [|done].
    by eapply insert_subseteq, attemptConstraints_fresh.
  - exists (db_attempts (w_db w)). split; [done|]. by destruct w as [[]].
Qed.

Lemma writeEvent_Ok v e row st time w b r w' :
  writeEvent v (rr_version row) (recordedEvent v e time) st time w = (Ok (b, r), w') ->
  u64 (rr_version row) = v -> db_runs (w_db w) !! ev_RunID e = Some row ->
  find (fun r => bool_decide (er_idempotency_key r = ev_IdempotencyKey e))
    (pgRows (w_db w) (ev_RunID e)) = None ->
  Reduce (pgLog w (ev_RunID e) ++ [recordedEvent v e time]) = Ok st ->
  (ev_Type e = EventActionCompleted -> ReceiptEvidence w e) ->
  b = true /\ r = MkAppendResult (recordedEvent v e time) true /\
  exists payload, Written w v e row payload time st w'.
Proof.
  unfold writeEvent. intros H0 Hv Hrow Hfresh HR Hrc. db_inv.
  match goal with E : insertEvent _ _ _ = _ |- _ =>
    apply insertEvent_Ok in E as (payload & Hj & Hc & ->) end.
  match goal with E : recordAttempt _ _ _ _ = _ |- _ =>
    apply recordAttempt_Ok in E as (attempts & Hsub & ->) end.
  match goal with E : updateProjection _ _ _ _ _ = _, N : negb ?b = false |- _ =>
    apply negb_false_iff in N; subst; apply updateProjection_true in E as (row' & Hr' & _ & ->) end.
  cbn in Hr', Hrow. rewrite Hrow in Hr'. injection Hr' as <-.
  split_and!; [done..|]. exists payload. by split.
Qed.

(** ** The transaction *)

Lemma Authorised_frame w w1 w2 w3 e :
  db_leases (w_db w1) = db_leases (w_db w) -> w_tick w <= w_tick w1 -> w_tick w2 <= w_tick w3 ->
  Authorised w1 w2 e -> Authorised w w3 e.
Proof.
  intros Hl H1 H3 (row & n & Hrow & Hw & Ht & Hw0 & Ht0 & Hm & Hn & Hc). rewrite Hl in Hrow.
  exists row, n. repeat split; try done; lia.
Qed.

Lemma ReceiptEvidence_frame w w1 e : frame w w1 -> ReceiptEvidence w1 e -> ReceiptEvidence w e.
Proof. intros [Hdb Hf _]. unfold ReceiptEvidence, ArtifactEvidence. by rewrite Hdb, Hf. Qed.

Lemma Written_frame w w1 v e row payload time st w' :
  frame w w1 -> Written w1 v e row payload time st w' -> Written w v e row payload time st w'.
Proof.
  intros HF [H1 H2 H3 H4 H5 H6 H7 H8 H9 H10 H11]. pose proof (ReceiptEvidence_frame _ _ e HF) as HR.
  destruct HF as [Hdb Hf Ht]. unfold pgLog in *. rewrite Hdb in *. rewrite Hf in *.
  split; try done; [by auto|lia].
Qed.

(** The event stored under the key of [e]. *)
Definition storedUnder (w : World) (e : Event) : option Event :=
  scanPostgresEvent (ev_RunID e) <$>
    find (fun r => bool_decide (er_idempotency_key r = ev_IdempotencyKey e))
      (pgRows (w_db w) (ev_RunID e)).

Lemma appendNew_Ok v e row w b r w' :
  appendNew v (rr_version row) e w = (Ok (b, r), w') ->
  db_runs (w_db w) !! ev_RunID e = Some row -> storedUnder w e = None ->
  b = true /\ exists time payload st, r = MkAppendResult (recordedEvent v e time) true /\
    Written w v e row payload time st w'.
Proof.
  unfold appendNew. intros H0 Hrow Hfresh. apply fmap_None in Hfresh.
  case_decide as Hv; [done|].
  apply M_bind_Ok in H0 as (u & w1 & Hrc & H0).
  assert (frame w w1 /\ (ev_Type e = EventActionCompleted -> ReceiptEvidence w e)) as [HF HRc].
  { case_decide; db_inv. by apply validateActionReceipt_Ok in Hrc as [? ?]. }
  clear Hrc. db_inv. unfold loadPostgresEvents in *. db_inv.
  match goal with E : Reduce _ = Ok _ |- _ => rename E into HR end.
  assert (frame w (ticked w1)) as HF1 by (etrans; [exact HF|split; cbn; [done..|lia]]).
  change (w_db w1) with (w_db (ticked w1)) in HR. rewrite (fr_db _ _ HF1) in HR.
  eapply writeEvent_Ok in H0 as (-> & -> & payload & HW).
  - split; [done|]. eexists _, _, _. split; [reflexivity|]. by eapply Written_frame.
  - done.
  - by rewrite (fr_db _ _ HF1).
  - by rewrite (fr_db _ _ HF1).
  - unfold pgLog. by rewrite (fr_db _ _ HF1).
  - intros Ht. destruct HF1 as [Hdb Hf _]. unfold ReceiptEvidence, ArtifactEvidence.
    rewrite Hdb, Hf. by apply HRc.
Qed.

(** What a committed or replayed append did, from the world [w] on. *)
Inductive Outcome (w : World) (v : Z) (e : Event) : bool -> AppendResult -> World -> Prop :=
  | Replayed existing w' :
      frame w w' -> storedUnder w e = Some existing -> sameIdempotentEvent existing e = true ->
      Outcome w v e false (MkAppendResult existing false) w'
  | Recorded row payload time st w' :
      storedUnder w e = None -> Written w v e row payload time st w' ->
      Outcome w v e true (MkAppendResult (recordedEvent v e time) true) w'.

Lemma appendLocked_Ok v e fenced w b r w' :
  appendLocked v e fenced w = (Ok (b, r), w') ->
  (fenced = true -> Authorised w w' e) /\ Outcome w v e b r w'.
Proof.
  unfold appendLocked. intros H0. apply M_bind_Ok in H0 as (found & w0 & [-> ->]%query_Ok & H0).
  destruct (db_runs _ !! _) as [row|] eqn:Hrow; [|done].
  apply M_bind_Ok in H0 as (u & w1 & Hf & H0).
  assert (frame w w1 /\ (fenced = true -> Authorised w w1 e)) as [HF HA].
  { destruct fenced; db_inv. by apply validateFencingToken_Ok in Hf as [? ?]. }
  clear Hf. apply M_bind_Ok in H0 as (existing & w2 & [-> ->]%query_Ok & H0).
  assert (storedUnder w1 e = storedUnder w e) as Hs by (unfold storedUnder; by rewrite (fr_db _ _ HF)).
  fold (pgRows (w_db w1) (ev_RunID e)) in H0. fold (storedUnder w1 e) in H0. rewrite Hs in H0.
  destruct (storedUnder w e) as [existing|] eqn:Hst; db_inv.
  - apply negb_false_iff in E. split; [done|]. by apply Replayed.
  - apply appendNew_Ok in H0 as (-> & time & payload & st & -> & HW);
      [|by rewrite (fr_db _ _ HF)|by rewrite Hs].
    pose proof (wn_tick _ _ _ _ _ _ _ _ HW) as Ht. apply (Written_frame _ _ _ _ _ _ _ _ _ HF) in HW.
    split; [|by eapply Recorded]. intros Hb. eapply Authorised_frame; [..|by apply HA]; done.
Qed.

(** The world in which the Run row is locked: a creation has inserted its row. *)
Definition Prepared (w : World) (e : Event) (w0 : World) : Prop :=
  frame w w0 \/
  ev_Type e = EventRunCreated /\ db_runs (w_db w) !! ev_RunID e = None /\ w_files w0 = w_files w /\
  w_tick w <= w_tick w0 /\ exists t, w_db w0 =
    (w_db w) <| db_runs := <[ev_RunID e := newRunRow e t]> (db_runs (w_db w)) |>.

(** When the append checks authority, and when it refuses the legacy protocol. *)
Definition ManagedRun (w : World) (e : Event) : Prop :=
  is_Some (db_leases (w_db w) !! ev_RunID e) /\
  ev_Type e <> EventRunCreated /\ ev_Type e <> EventDesiredStateChanged.

Definition RequiresFencing (w : World) (e : Event) : Prop :=
  leaseSensitiveEvent e = true \/ ManagedRun w e.

Lemma Prepared_leases w e w0 :
  Prepared w e w0 -> db_leases (w_db w0) = db_leases (w_db w) /\ w_tick w <= w_tick w0.
Proof. intros [[-> _ ?]|(_ & _ & _ & ? & t & ->)]; done. Qed.

Lemma prepare_Ok w e time u w1 :
  (if decide (ev_Type e = EventRunCreated) then createRunRow e time else mret tt : M World unit) (ticked w)
    = (Ok u, w1) -> Prepared w e w1.
Proof.
  case_decide; [|intros [= _ <-]; left; split; cbn; [done..|lia]].
  intros Hc. unfold createRunRow in Hc. db_inv. cbn.
  destruct (db_runs (w_db w) !! ev_RunID e) eqn:Hr.
  - left. split; cbn; [done..|lia].
  - right. split_and!; try done; cbn; [lia|]. by exists time.
Qed.

Lemma inspectManaged_Ok w e b w1 :
  inspectManaged e w = (Ok b, w1) -> w1 = w /\ (b = true <-> ManagedRun w e).
Proof.
  unfold inspectManaged, ManagedRun. intros H0. db_inv; split; try done.
  - rewrite bool_decide_eq_true. tauto.
  - split; [done|tauto].
Qed.

Lemma appendTransaction_Ok v e w b r w' :
  appendTransaction v e w = (Ok (b, r), w') ->
  (RequiresFencing w e -> Authorised w w' e) /\
  (ManagedRun w e -> legacyLifecycleEvent (ev_Type e) = false) /\
  exists w0, Prepared w e w0 /\ Outcome w0 v e b r w'.
Proof.
  unfold appendTransaction. intros H0.
  apply M_bind_Ok in H0 as (t & w1 & [-> ->]%clock_Ok & H0).
  apply M_bind_Ok in H0 as (u & w2 & HP%prepare_Ok & H0).
  destruct (Prepared_leases _ _ _ HP) as [Hl Ht].
  apply M_bind_Ok in H0 as (managed & w3 & [-> Hm]%inspectManaged_Ok & H0).
  assert (ManagedRun w2 e <-> ManagedRun w e) as HM by (unfold ManagedRun; by rewrite Hl).
  rewrite HM in Hm. apply M_bind_Ok in H0 as (u2 & w4 & Hf & H0).
  assert (frame w2 w4) as HF.
  { destruct (_ || _); db_inv. by apply validateFencingToken_Ok in Hf as [? ?]. }
  destruct (managed && _) eqn:Hleg; [done|]. apply appendLocked_Ok in H0 as [HA HO].
  split_and!.
  - intros Hreq. eapply Authorised_frame; [..|apply HA]; [by rewrite (fr_db _ _ HF)| |done|].
    + destruct HF. lia.
    + unfold RequiresFencing in Hreq. rewrite <- Hm in Hreq. by apply orb_true_iff.
  - intros Hman%Hm. by rewrite Hman in Hleg.
  - exists w4. split; [|done]. destruct HP as [HP|(H1 & H2 & H3 & H4 & H5)]; [left; by etrans|right].
    destruct HF as [-> -> ?]. split_and!; try done. lia.
Qed.

(** ** The tables after an append *)

Lemma pgRows_insert db runs runID rows runID' a f l k r :
  pgRows (MkDatabase runs (<[runID := rows]> (db_events db)) a f l k r) runID' =
  if decide (runID' = runID) then rows else pgRows db runID'.
Proof.
  unfold pgRows. cbn. case_decide as Hd; [subst; by rewrite lookup_insert_eq|].
  by rewrite lookup_insert_ne.
Qed.

Lemma Prepared_other w e w0 runID :
  Prepared w e w0 -> runID <> ev_RunID e -> db_runs (w_db w0) !! runID = db_runs (w_db w) !! runID.
Proof.
  intros [[-> _ _]|(_ & _ & _ & _ & t & ->)] Hne; [done|]. cbn. by rewrite lookup_insert_ne.
Qed.

Lemma Prepared_events w e w0 runID :
  Prepared w e w0 -> pgRows (w_db w0) runID = pgRows (w_db w) runID.
Proof. by intros [[-> _ _]|(_ & _ & _ & _ & t & ->)]. Qed.

(** ** The whole append *)

Inductive AppendedTo (w : World) (v : Z) (e : Event) : AppendResult -> World -> Prop :=
  | AppendReplayed existing w' :
      frame w w' -> storedUnder w e = Some existing -> sameIdempotentEvent existing e = true ->
      AppendedTo w v e (MkAppendResult existing false) w'
  | AppendRecorded w0 row payload time st w' :
      Prepared w e w0 -> storedUnder w e = None -> Written w0 v e row payload time st w' ->
      AppendedTo w v e (MkAppendResult (recordedEvent v e time) true) w'.

Lemma Prepared_stored w e w0 : Prepared w e w0 -> storedUnder w0 e = storedUnder w e.
Proof. unfold storedUnder. by intros [[-> _ _]|(_ & _ & _ & _ & t & ->)]. Qed.

Lemma Prepared_frame w e w0 w1 : Prepared w e w0 -> frame w0 w1 -> frame w (w1 <| w_db := w_db w |>).
Proof.
  intros [HP|(_ & _ & Hf & Ht & _)] HF.
  - destruct (transitivity HP HF). by split.
  - destruct HF as [_ HF1 HF2]. split; cbn; [done|congruence|lia].
Qed.

Lemma appendPostgres_Ok `{CredentialScanner} ctx v event w r w' :
  appendPostgres ctx v event w = (Ok r, w') ->
  let e := defaultPayloadVersion event in
  validateAppendInput event = Ok tt /\ (RequiresFencing w e -> Authorised w w' e) /\
  (ManagedRun w e -> legacyLifecycleEvent (ev_Type e) = false) /\ AppendedTo w v e r w'.
Proof.
  unfold appendPostgres. intros H1. cbv zeta. db_inv.
  match goal with E : appendTransaction _ _ _ = _ |- _ =>
    apply appendTransaction_Ok in E as (HA & HL & w2 & HP & HO) end.
  split; [by match goal with E : validateAppendInput _ = Ok ?u |- _ => destruct u end|].
  split; [|split; [done|]].
  - intros Hreq. eapply Authorised_frame; [..|by apply HA]; [done..|]. by destruct b.
  - inversion HO as [existing ? HF Hst Hsame|row payload time st ? Hst HW]; subst; cbn.
    + rewrite (Prepared_stored _ _ _ HP) in Hst. apply AppendReplayed; [|done..].
      by eapply Prepared_frame.
    + rewrite (Prepared_stored _ _ _ HP) in Hst. by eapply AppendRecorded.
Qed.

Lemma appendPostgres_Err `{CredentialScanner} ctx v event w err w' :
  appendPostgres ctx v event w = (Err err, w') -> w_db w' = w_db w.
Proof.
  unfold appendPostgres, checkContext. unfold mbind, M_bind. intros H1.
  destruct (ctx_Err ctx); [by injection H1 as _ <-|]. cbn [mret M_ret] in H1.
  case_decide; [by injection H1 as _ <-|]. unfold lift in H1.
  destruct (validateAppendInput event); [|by injection H1 as _ <-]. by apply transaction_Err in H1.
Qed.
End facts.
