(* ===== verification/PostgresTheorems.v ===== *)
(** * The PostgreSQL event store keeps its promises

    The tables always hold, per Run, one log the reducer accepts, numbered without
    gaps, with the Run row its projection; an append is the abstract append of the
    store contract or leaves the database untouched; and nothing is recorded without
    the authority and the evidence the managed protocol demands. *)
From S2P Require Import Prelude Sha256 GoLib Types Decide Reducer Lifecycle Replay.
From S2P Require Import ReplayTheorems Receipt Effect Store Database Artifact.
From S2P Require Import PostgresStore PostgresFacts Samples.

(** ** The invariant of the tables *)

(** The Run row is the projection of the log. *)
Definition Projects (row : RunRow) (st : State) : Prop :=
  rr_scenario_id row = run_ScenarioID (st_Run st) /\ rr_spec_hash row = run_SpecHash (st_Run st) /\
  rr_desired_state row = st_DesiredState st /\ rr_observed_state row = st_ObservedState st /\
  rr_current_attempt row = st_CurrentAttempt st /\ rr_version row = st_Version st.

Record RunInv (runID : string) (row : RunRow) (rows : list EventRow) : Prop := {
  ri_numbered : numbered 1 rows;
  ri_length : (Z.of_nat (length rows) <= maxDatabaseVersion)%Z;
  ri_version : rr_version row = Z.of_nat (length rows);
  ri_projection : exists st, Reduce (map (scanPostgresEvent runID) rows) = Ok st /\ Projects row st
}.

Record DbInv (db : Database) : Prop := {
  di_run : forall runID row, db_runs db !! runID = Some row -> RunInv runID row (pgRows db runID);
  di_orphan : forall runID, db_runs db !! runID = None -> pgRows db runID = []
}.

Lemma emptyDatabase_inv : DbInv emptyDatabase.
Proof. by split. Qed.

Lemma DbInv_numbered db runID : DbInv db -> numbered 1 (pgRows db runID).
Proof.
  intros [Hr Ho]. destruct (db_runs db !! runID) as [row|] eqn:Hrow; [apply (Hr _ _ Hrow)|].
  by rewrite (Ho _ Hrow).
Qed.

Lemma ri_len_bound db runID :
  DbInv db -> (Z.of_nat (length (pgRows db runID)) <= maxDatabaseVersion)%Z.
Proof.
  intros [Hr Ho]. destruct (db_runs db !! runID) as [row|] eqn:Hrow; [apply (Hr _ _ Hrow)|].
  by rewrite (Ho _ Hrow).
Qed.

Lemma eventRows_pgRows db runID : DbInv db -> eventRows runID db = pgRows db runID.
Proof. intros HI. by apply (orderBySeq_numbered 1), DbInv_numbered. Qed.

Lemma pgLog_rows w runID :
  DbInv (w_db w) -> pgLog w runID = map (scanPostgresEvent runID) (pgRows (w_db w) runID).
Proof. intros HI. unfold pgLog. by rewrite eventRows_pgRows. Qed.

(** ** One row, written and read back *)

(** What the Go types say of the fields of an event. *)
Definition typedEvent (e : Event) : Prop := (0 <= ev_FencingToken e < 2 ^ 64)%Z.

Lemma dereference_nullable value : dereferenceText (nullableText value) = value.
Proof. unfold nullableText. by case_decide. Qed.

Lemma scan_eventRow v e time payload :
  typedEvent e -> payload = ev_Data e ->
  scanPostgresEvent (ev_RunID e) (eventRow (recordedEvent v e time) payload time) =
  recordedEvent v e time.
Proof.
  intros Ht ->. unfold scanPostgresEvent, eventRow, recordedEvent. cbn.
  rewrite !dereference_nullable, u64_i64 by apply u64_bounds.
  assert (match nullableUint64 (ev_FencingToken e) with Some t => u64 t | None => 0%Z end =
    ev_FencingToken e) as ->; [|by destruct e].
  unfold nullableUint64. case_decide as Hz; [done|]. by apply u64_i64.
Qed.

Section store.
Context `{Postgres} {storable : string -> Prop} `{!PostgresLaws storable} `{CredentialScanner}.

Definition storableEvent (e : Event) : Prop :=
  typedEvent e /\ Forall storable (eventDataStrings (ev_Data e)).

Lemma storable_payload e payload :
  storableEvent e -> jsonb (ev_Data e) = Ok payload -> payload = ev_Data e.
Proof. intros [_ Hs] Hj. rewrite jsonb_faithful in Hj by exact Hs. by injection Hj. Qed.

(** ** Appending *)

(** The stamp of this store: the database time. *)
Definition stampTime (time : Z) (e : Event) : Event := e <| ev_CreatedAt := RFC3339Nano time |>.

Lemma Prepared_row w e w0 row :
  DbInv (w_db w) -> Prepared w e w0 -> db_runs (w_db w0) !! ev_RunID e = Some row ->
  let rows := pgRows (w_db w) (ev_RunID e) in
  pgRows (w_db w0) (ev_RunID e) = rows /\ numbered 1 rows /\
  (Z.of_nat (length rows) <= maxDatabaseVersion)%Z /\ rr_version row = Z.of_nat (length rows).
Proof.
  intros HI HP Hrow rows. pose proof (DbInv_numbered _ (ev_RunID e) HI) as Hn.
  destruct HP as [[Hdb _ _]|(_ & Hnone & _ & _ & t & Hdb)]; rewrite Hdb in *.
  - split_and!; try done; by apply (di_run _ HI _ _ Hrow).
  - cbn in Hrow. rewrite lookup_insert_eq in Hrow. injection Hrow as <-.
    subst rows. rewrite (di_orphan _ HI _ Hnone) in *.
    by split_and!; [apply (di_orphan _ HI _ Hnone)| |done..].
Qed.

(** The rows after a recorded append. *)
Lemma recorded_rows w v e row payload time st w' :
  let rows := pgRows (w_db w) (ev_RunID e) in
  numbered 1 rows -> (Z.of_nat (length rows) <= maxDatabaseVersion)%Z ->
  rr_version row = Z.of_nat (length rows) -> Written w v e row payload time st w' ->
  v = Z.of_nat (length rows) /\ (Z.of_nat (length rows) + 1 <= maxDatabaseVersion)%Z /\
  numbered 1 (rows ++ [eventRow (recordedEvent v e time) payload time]).
Proof.
  intros rows Hn Hlen Hver HW. pose proof (wn_version _ _ _ _ _ _ _ _ HW) as Hv.
  rewrite Hver, u64_small in Hv by (unfold maxDatabaseVersion in Hlen; lia). subst v.
  pose proof (wn_constraints _ _ _ _ _ _ _ _ HW) as Hc. unfold eventConstraints in Hc.
  repeat apply andb_true_iff in Hc as [Hc _]. apply Z.ltb_lt in Hc. cbn in Hc.
  rewrite u64_small in Hc by (unfold maxDatabaseVersion in Hlen; lia).
  assert (Z.of_nat (length rows) + 1 <= maxDatabaseVersion)%Z as Hmax.
  { unfold maxDatabaseVersion in *. destruct (decide (Z.of_nat (length rows) = 2 ^ 63 - 1)%Z) as [E|]; [|lia].
    exfalso. fold rows in Hc. rewrite E in Hc. by compute in Hc. }
  split_and!; [done|done|]. apply numbered_app. split; [done|]. split; [|done]. cbn.
  rewrite u64_small by (unfold maxDatabaseVersion in *; lia).
  rewrite i64_small by (unfold maxDatabaseVersion in *; lia). subst rows. lia.
Qed.

Lemma lookupKey_rows runID key rows :
  lookupKey key (map (scanPostgresEvent runID) rows) =
  scanPostgresEvent runID <$> find (fun r => bool_decide (er_idempotency_key r = key)) rows.
Proof.
  unfold lookupKey. induction rows as [|row rows IH]; [done|]. cbn [map find].
  change (ev_IdempotencyKey (scanPostgresEvent runID row)) with (er_idempotency_key row).
  by case_bool_decide.
Qed.

Lemma storedUnder_lookupKey w e :
  DbInv (w_db w) -> storedUnder w e = lookupKey (ev_IdempotencyKey e) (pgLog w (ev_RunID e)).
Proof. intros HI. by rewrite pgLog_rows, lookupKey_rows. Qed.

(** The Run row written with a log is its projection. *)
Lemma projectRow_RunInv runID rows er row st time :
  numbered 1 (rows ++ [er]) -> (Z.of_nat (length rows) + 1 <= maxDatabaseVersion)%Z ->
  Reduce (map (scanPostgresEvent runID) (rows ++ [er])) = Ok st ->
  RunInv runID (projectRow row st time) (rows ++ [er]).
Proof.
  intros Hn Hmax HR. pose proof (al_version _ _ (Reduce_log _ _ HR)) as HVer.
  rewrite length_map, length_app, Nat2Z.inj_add in HVer. cbn [length] in HVer.
  rewrite u64_small in HVer by (unfold maxDatabaseVersion in *; lia).
  assert (i64 (st_Version st) = st_Version st) as Hi64.
  { apply i64_small. rewrite HVer. unfold maxDatabaseVersion in *. lia. }
  split; [done| | |exists st; split; [done|]].
  - rewrite length_app. cbn. lia.
  - rewrite length_app. cbn [length rr_version projectRow]. rewrite Hi64, HVer. lia.
  - unfold Projects, projectRow. cbn -[st_Version i64]. by rewrite Hi64.
Qed.

(** The invariant after a recorded append. *)
Lemma recorded_inv w e w0 v row payload time st w' :
  DbInv (w_db w) -> Prepared w e w0 -> storableEvent e -> Written w0 v e row payload time st w' ->
  DbInv (w_db w') /\ v = Z.of_nat (length (pgRows (w_db w) (ev_RunID e))) /\
  pgLog w' (ev_RunID e) = pgLog w (ev_RunID e) ++ [recordedEvent v e time] /\
  (forall runID, runID <> ev_RunID e -> pgLog w' runID = pgLog w runID) /\
  Reduce (pgLog w' (ev_RunID e)) = Ok st.
Proof.
  intros HI HP Hs HW. assert (Hpay := storable_payload e payload Hs (wn_payload _ _ _ _ _ _ _ _ HW)).
  destruct (Prepared_row w e w0 row HI HP (wn_row _ _ _ _ _ _ _ _ HW)) as (Hrows & Hn & Hlen & Hver).
  set (rows := pgRows (w_db w) (ev_RunID e)) in *.
  assert (Hrec := HW). eapply recorded_rows in Hrec as (Hv & Hmax & Hn'); [|by rewrite Hrows..].
  rewrite Hrows in Hn', Hv, Hmax. pose proof (scan_eventRow v e time payload (proj1 Hs) Hpay) as Hscan.
  pose proof (wn_reduce _ _ _ _ _ _ _ _ HW) as HR. pose proof (wn_tables _ _ _ _ _ _ _ _ HW) as Htab.
  set (er := eventRow (recordedEvent v e time) payload time) in *.
  assert (forall runID, pgRows (w_db w') runID =
    if decide (runID = ev_RunID e) then rows ++ [er] else pgRows (w_db w) runID) as Hpg.
  { intros runID. rewrite Htab, pgRows_insert, Hrows. case_decide; [done|].
    by apply (Prepared_events _ _ _ _ HP). }
  assert (pgLog w0 (ev_RunID e) = map (scanPostgresEvent (ev_RunID e)) rows) as Hlog0.
  { unfold pgLog, eventRows. change (default [] _) with (pgRows (w_db w0) (ev_RunID e)).
    rewrite Hrows. by erewrite orderBySeq_numbered. }
  rewrite Hlog0 in HR.
  assert (Reduce (map (scanPostgresEvent (ev_RunID e)) (rows ++ [er])) = Ok st) as HR'.
  { rewrite map_app. cbn [map]. by rewrite Hscan. }
  assert (DbInv (w_db w')) as HI'.
  { split; intros runID; rewrite Hpg; rewrite Htab; cbn [db_runs]; rewrite lookup_insert;
      (destruct (decide (ev_RunID e = runID)) as [<-|Hd];
       [rewrite decide_True by done|rewrite decide_False by done; rewrite (Prepared_other _ _ _ _ HP) by done]);
      [|apply (di_run _ HI)|done|apply (di_orphan _ HI)].
    intros row' [= <-]. by apply projectRow_RunInv. }
  split; [done|]. split; [done|]. rewrite !(pgLog_rows w'), !(pgLog_rows w) by done. split_and!.
  - rewrite Hpg, decide_True, map_app by done. cbn [map]. by rewrite Hscan.
  - intros runID Hne. rewrite !pgLog_rows by done. by rewrite Hpg, decide_False.
  - by rewrite Hpg, decide_True.
Qed.

Lemma appendPostgres_refines w ctx v event :
  DbInv (w_db w) -> storableEvent event ->
  let e := defaultPayloadVersion event in
  let out := appendPostgres ctx v event w in
  DbInv (w_db (snd out)) /\
  match fst out with
  | Err _ => w_db (snd out) = w_db w
  | Ok r =>
      exists time, appendSpec (stampTime time) (pgLog w (ev_RunID e)) v e =
                     (Ok r, pgLog (snd out) (ev_RunID e)) /\
        forall runID, runID <> ev_RunID e -> pgLog (snd out) runID = pgLog w runID
  end.
Proof.
  intros HI Hs e out. assert (storableEvent e) as Hse.
  { subst e. destruct Hs as [Ht Hf]. unfold defaultPayloadVersion. by case_decide. }
  subst out. destruct (appendPostgres ctx v event w) as [[r|err] w'] eqn:Ha; cbn [fst snd].
  - apply appendPostgres_Ok in Ha as (_ & _ & _ & HO). fold e in HO.
    inversion HO as [existing ? [Hdb _ _] Hst Hsame|w0 row payload time st ? HP Hst HW]; subst r.
    + unfold pgLog. rewrite Hdb. split; [done|]. exists 0%Z. split; [|done]. unfold appendSpec.
      fold (pgLog w (ev_RunID e)). by rewrite <- storedUnder_lookupKey, Hst, Hsame by done.
    + subst. destruct (recorded_inv _ _ _ _ _ _ _ _ _ HI HP Hse HW) as (HI' & Hv & Hlog & Hother & HR).
      split; [done|]. exists time. split; [|done]. unfold appendSpec.
      rewrite <- storedUnder_lookupKey, Hst by done.
      assert (length (pgLog w (ev_RunID e)) = length (pgRows (w_db w) (ev_RunID e))) as Hl
        by (rewrite pgLog_rows by done; apply length_map).
      rewrite Hl, Hv, u64_small; [|pose proof (ri_len_bound _ (ev_RunID e) HI); unfold maxDatabaseVersion in *; lia].
      rewrite decide_False by auto. cbv zeta. rewrite <- Hv. rewrite Hlog in HR |- *.
      change (stampTime time (e <| ev_Seq := u64 (v + 1) |>)) with (recordedEvent v e time).
      by rewrite HR.
  - apply appendPostgres_Err in Ha. by rewrite Ha.
Qed.

(** C2: the PostgreSQL store implements the abstract store: every append keeps the
    invariant of the tables; a failed append leaves the database untouched, and a
    successful one has the abstract outcome on the log of its Run (replay, or
    extension by one event stamped with the database time), touches no other log and
    leaves the Run row the projection of the log. *)
Theorem postgres_store_refines w ctx v event :
  DbInv (w_db w) -> storableEvent event ->
  let e := defaultPayloadVersion event in
  let out := appendPostgres ctx v event w in
  DbInv (w_db (snd out)) /\
  match fst out with
  | Err _ => w_db (snd out) = w_db w
  | Ok r =>
      exists time, appendSpec (stampTime time) (pgLog w (ev_RunID e)) v e =
                     (Ok r, pgLog (snd out) (ev_RunID e)) /\
        forall runID, runID <> ev_RunID e -> pgLog (snd out) runID = pgLog w runID
  end.
Proof. apply appendPostgres_refines. Qed.

(** ** Authority and evidence *)

(** C9: nothing is recorded, or replayed, for a managed Run without authority: the
    append of a lease-sensitive event, and of any event but a change of intent once
    the Run has a lease, succeeds only if at a clock reading within the call the
    event's worker holds the unexpired lease under the event's fencing token; and a
    managed Run never accepts an event of the legacy protocol. *)
Theorem append_needs_authority ctx v event w r w' :
  appendPostgres ctx v event w = (Ok r, w') ->
  let e := defaultPayloadVersion event in
  (RequiresFencing w e -> Authorised w w' e) /\
  (ManagedRun w e -> legacyLifecycleEvent (ev_Type e) = false).
Proof. intros Ha. by apply appendPostgres_Ok in Ha as (_ & HA & HL & _). Qed.

(** C11: an action is completed only on durable evidence: a newly recorded
    ActionCompleted has a receipt for its Run and action, with the output its digest
    names, checked against the attempt of the recorded plan; the event's payload is
    the one the receipt determines, and the bytes of a named artifact still hash to
    the recorded digest. *)
Theorem completion_needs_receipt ctx v event w r w' :
  appendPostgres ctx v event w = (Ok r, w') -> ar_Appended r = true ->
  ev_Type event = EventActionCompleted -> ReceiptEvidence w (defaultPayloadVersion event).
Proof.
  intros Ha Hr Ht. apply appendPostgres_Ok in Ha as (_ & _ & _ & HO).
  assert (ev_Type (defaultPayloadVersion event) = EventActionCompleted) as Ht'
    by (unfold defaultPayloadVersion; by case_decide).
  inversion HO as [|w0 row payload time st ? HP Hst HW]; subst; [done|].
  destruct HP as [HF|(Hc & _)]; [|by rewrite Ht' in Hc].
  eapply ReceiptEvidence_frame; [exact HF|]. by apply (wn_receipt _ _ _ _ _ _ _ _ HW).
Qed.

(** ** Reading a Run back *)

Lemma checkpointMatches_inv runID ck events :
  checkpointMatches runID ck events = true ->
  (0 < ck_seq ck <= Z.of_nat (length events))%Z /\
  Reduce (take (Z.to_nat (ck_seq ck)) events) = Ok (ck_state ck).
Proof.
  unfold checkpointMatches. intros Hm. apply andb_true_iff in Hm as [Hm Hr].
  repeat apply andb_true_iff in Hm as [Hm ?]. repeat ok_step. split; [lia|].
  destruct (Reduce _) as [s|]; [|done]. apply bool_decide_eq_true in Hr. by rewrite Hr.
Qed.

(** Whatever a checkpoint holds, the rebuilt projection is that of the events. *)
Lemma rebuildFrom_Reduce runID ck events :
  NoDup (map ev_IdempotencyKey events) -> (Z.of_nat (length events) < 2 ^ 64)%Z ->
  rebuildFrom runID ck events = Reduce events.
Proof.
  intros Hnd Hlen. destruct ck as [ck|]; [|done]. unfold rebuildFrom.
  destruct (checkpointMatches _ _ _) eqn:Hm; [|done].
  apply checkpointMatches_inv in Hm as [Hseq Hr]. set (n := Z.to_nat (ck_seq ck)) in *.
  destruct (ReduceFromCheckpoint _ _) as [s|] eqn:Hc; [|done]. symmetry.
  rewrite <- (take_drop n events). apply (ReduceFromCheckpoint_app _ (ck_state ck)).
  - done.
  - intros Hnil. apply (f_equal length) in Hnil. rewrite length_take in Hnil. cbn in Hnil. lia.
  - rewrite length_take. lia.
  - split; [done|]. apply Forall_forall. intros e He Hin.
    rewrite <- (take_drop n events), map_app in Hnd.
    apply NoDup_app in Hnd as (_ & Hdisj & _). apply (Hdisj _ Hin).
    by apply list_elem_of_fmap_2.
Qed.

Lemma pgLog_reduces w runID row :
  DbInv (w_db w) -> db_runs (w_db w) !! runID = Some row ->
  exists st, Reduce (pgLog w runID) = Ok st /\ Projects row st /\
    rr_version row = Z.of_nat (length (pgLog w runID)).
Proof.
  intros HI Hrow. rewrite pgLog_rows by done. destruct (di_run _ HI _ _ Hrow) as [_ _ Hv (st & Hr & Hp)].
  exists st. by rewrite length_map.
Qed.

Lemma rebuildPostgres_spec w ctx runID :
  DbInv (w_db w) ->
  rebuildPostgres ctx runID w =
    (match db_runs (w_db w) !! runID with
     | None => Err (Sentinel ErrRunNotFound)
     | Some _ => Reduce (pgLog w runID)
     end, w).
Proof.
  intros HI. unfold rebuildPostgres, mbind, M_bind, query, gets. cbn [fst snd].
  destruct (db_runs (w_db w) !! runID) as [row|] eqn:Hrow; [|done].
  unfold loadPostgresEvents, query, gets, lift. fold (pgLog w runID).
  destruct (pgLog_reduces w runID row HI Hrow) as (st & Hr & _ & _).
  rewrite rebuildFrom_Reduce; [done|by apply (al_keys _ _ (Reduce_log _ _ Hr))|].
  rewrite pgLog_rows, length_map by done. pose proof (ri_len_bound _ runID HI).
  unfold maxDatabaseVersion in *. lia.
Qed.

(** rebuilding trusts only the events: whatever checkpoint the Run row holds
    (absent, stale, corrupted or current), Rebuild changes nothing and returns the
    projection of the authoritative log, which agrees with the columns of the row. *)
Theorem rebuild_trusts_events w ctx runID row :
  DbInv (w_db w) -> db_runs (w_db w) !! runID = Some row ->
  exists st, rebuildPostgres ctx runID w = (Ok st, w) /\ Reduce (pgLog w runID) = Ok st /\
    Projects row st /\ (pgLog w runID <> [] -> WF st).
Proof.
  intros HI Hrow. destruct (pgLog_reduces w runID row HI Hrow) as (st & Hr & Hp & _).
  exists st. rewrite rebuildPostgres_spec, Hrow, Hr by done. split_and!; try done.
  intros ?. by destruct (Reduce_initial_or_WF _ _ Hr) as [[]|[]].
Qed.

(** ** Checkpoints *)

Lemma setCheckpoint_inv w runID row ck :
  DbInv (w_db w) -> db_runs (w_db w) !! runID = Some row ->
  let w' := w <| w_db := (w_db w) <| db_runs := <[runID := setCheckpoint row ck]> (db_runs (w_db w)) |> |> in
  DbInv (w_db w') /\ forall id, pgLog w' id = pgLog w id.
Proof.
  intros HI Hrow w'. split; [|done]. split; intros id; subst w'; cbn [w_db set_field set_w_db];
    cbn; rewrite lookup_insert; case_decide as Hd; [|apply (di_run _ HI)|done|apply (di_orphan _ HI)].
  subst id. intros row' [= <-]. destruct (di_run _ HI _ _ Hrow) as [? ? ? ?]. by split.
Qed.

(** The digests and numbers of a fresh checkpoint agree with the log. *)
Lemma fresh_checkpoint_matches runID log st now :
  Reduce log = Ok st -> log <> [] -> (Z.of_nat (length log) <= maxDatabaseVersion)%Z ->
  Forall (fun e => ev_RunID e = runID) log ->
  checkpointMatches runID (checkpointColumns (Z.of_nat (length log)) st st log now) log = true.
Proof.
  intros Hr Hne Hlen Hrun. unfold maxDatabaseVersion in Hlen.
  destruct (Reduce_log _ _ Hr) as [Hseq Hver _ _ Hhead].
  destruct (Hhead Hne) as (e0 & rest & Heq & _ & Hid & _ & _).
  assert (length log <> 0) as Hl0 by by destruct log.
  unfold checkpointMatches, checkpointColumns. cbn [ck_seq ck_state ck_state_digest ck_event_digest].
  rewrite i64_small, Nat2Z.id by lia. rewrite take_ge by lia. rewrite Hr.
  rewrite u64_small in Hver by lia. rewrite Hver.
  assert (run_ID (st_Run st) = runID) as ->.
  { rewrite Hid. rewrite Heq in Hrun. by apply Forall_cons in Hrun as [? _]. }
  repeat rewrite bool_decide_true by (done || lia). cbn [andb].
  apply (f_equal (fun l => l !! (length log - 1))) in Hseq.
  rewrite !list_lookup_fmap, lookup_seq_lt in Hseq by lia.
  destruct (log !! (length log - 1)) as [e|] eqn:He; [|done]. injection Hseq as Hs.
  rewrite !andb_true_r. apply bool_decide_eq_true. rewrite Hs, u64_small by lia. lia.
Qed.

Lemma pgLog_RunID w runID : Forall (fun e => ev_RunID e = runID) (pgLog w runID).
Proof. unfold pgLog. apply Forall_fmap, Forall_forall. done. Qed.

Lemma SaveCheckpoint_Ok w ctx runID v cp w' :
  DbInv (w_db w) -> SaveCheckpoint ctx runID v w = (Ok cp, w') ->
  DbInv (w_db w') /\ (forall id, pgLog w' id = pgLog w id) /\
  cp_Seq cp = v /\ v = Z.of_nat (length (pgLog w runID)) /\
  Reduce (pgLog w runID) = Ok (cp_State cp) /\
  exists row ck, db_runs (w_db w') !! runID = Some row /\ rr_checkpoint row = Some ck /\
    (jsonb_state (cp_State cp) = Ok (cp_State cp) ->
     checkpointMatches runID ck (pgLog w' runID) = true).
Proof.
  intros HI Hsave. unfold SaveCheckpoint in Hsave. db_inv. simp_not.
  destruct (db_runs _ !! _) as [row|] eqn:Hrow; db_inv. unfold loadPostgresEvents in *. db_inv.
  simp_not. cbn [w_db ticked] in *. fold (pgLog w runID) in *.
  match goal with |- context [setCheckpoint row ?c] => set (ck := c) end.
  destruct (setCheckpoint_inv (ticked w) runID row ck HI Hrow) as [HI' Hlog'].
  match goal with E : Reduce _ = Ok ?s |- _ => rename E into HR; rename s into st end.
  assert (length (pgLog w runID) = length (pgRows (w_db w) runID)) as Hlen
    by (rewrite pgLog_rows by done; apply length_map).
  pose proof (ri_len_bound _ runID HI) as Hmax. unfold maxDatabaseVersion in Hmax.
  pose proof (ri_version _ _ _ (di_run _ HI _ _ Hrow)) as Hver.
  assert (u64 (rr_version row) = Z.of_nat (length (pgLog w runID))) as Hv.
  { rewrite Hver, Hlen. apply u64_small. lia. }
  cbn [cp_Seq cp_State]. split_and!; try done; [congruence|].
  exists (setCheckpoint row ck), ck. split; [apply lookup_insert_eq|]. split; [done|].
  intros Hj. rewrite Hlog'. change (pgLog (ticked w) runID) with (pgLog w runID).
  assert (pgLog w runID <> []) as Hne.
  { intros Hnil. rewrite Hnil in Hv. change (u64 (rr_version row) = 0%Z) in Hv. congruence. }
  match goal with E : jsonb_state _ = Ok ?s |- _ =>
    assert (s = st) as -> by congruence end.
  subst ck. replace v with (Z.of_nat (length (pgLog w runID))) by congruence.
  apply fresh_checkpoint_matches; [done|done| |apply pgLog_RunID].
  rewrite Hlen. unfold maxDatabaseVersion. lia.
Qed.

(** a checkpoint is a cache of the log: saving one at the current version changes
    no log and no projection, returns the projection of the whole log, and - when the
    database gives the projection back as it was written - the saved row passes every
    check [Rebuild] makes before it trusts a checkpoint. *)
Theorem checkpoint_is_current w ctx runID v cp w' :
  DbInv (w_db w) -> SaveCheckpoint ctx runID v w = (Ok cp, w') ->
  DbInv (w_db w') /\ (forall id, pgLog w' id = pgLog w id) /\
  cp_Seq cp = v /\ v = Z.of_nat (length (pgLog w runID)) /\
  Reduce (pgLog w runID) = Ok (cp_State cp) /\
  exists row ck, db_runs (w_db w') !! runID = Some row /\ rr_checkpoint row = Some ck /\
    (jsonb_state (cp_State cp) = Ok (cp_State cp) ->
     checkpointMatches runID ck (pgLog w' runID) = true).
Proof. apply SaveCheckpoint_Ok. Qed.
End store.
