(* ===== verification/Lease.v ===== *)
(** * Workers, leases and action receipts: internal/lease/lease.go, postgres.go *)
From stdpp Require Import sorting.
From S2P Require Import Prelude Sha256 GoLib Types Decide Reducer Receipt Effect Store Database Artifact.
From S2P Require Import PostgresStore PostgresFacts.

(** ** Data: lease.go. Instants are microseconds, durations nanoseconds. *)

Record Worker : Type := MkWorker {
  wk_ID : string;
  wk_RegisteredAt : Z;
  wk_HeartbeatAt : Z
}.

Record Lease : Type := MkLease {
  ls_RunID : string;
  ls_WorkerID : string;
  ls_FencingToken : Z;
  ls_ExpiresAt : Z;
  ls_HeartbeatAt : Z
}.

Record AcquireResult : Type := MkAcquireResult {
  aq_Lease : Lease;
  aq_Acquired : bool;
  aq_TookOver : bool
}.

Record ActionReceipt : Type := MkActionReceipt {
  rcp_ID : string;
  rcp_RunID : string;
  rcp_ActionID : string;
  rcp_ActionType : CommandType;
  rcp_IdempotencyScope : IdempotencyScope;
  rcp_Output : EventData;
  rcp_OutputDigest : string;
  rcp_ArtifactID : string;
  rcp_ArtifactDigest : string;
  rcp_CostUnits : Z;
  rcp_WorkerID : string;
  rcp_FencingToken : Z;
  rcp_CreatedAt : Z
}.

#[export] Instance ActionReceipt_eq_dec : EqDecision ActionReceipt.
Proof. solve_decision. Defined.

#[export] Instance set_rcp_ID : Setter rcp_ID := fun v r =>
  MkActionReceipt v (rcp_RunID r) (rcp_ActionID r) (rcp_ActionType r) (rcp_IdempotencyScope r) (rcp_Output r) (rcp_OutputDigest r) (rcp_ArtifactID r) (rcp_ArtifactDigest r) (rcp_CostUnits r) (rcp_WorkerID r) (rcp_FencingToken r) (rcp_CreatedAt r).
#[export] Instance set_rcp_RunID : Setter rcp_RunID := fun v r =>
  MkActionReceipt (rcp_ID r) v (rcp_ActionID r) (rcp_ActionType r) (rcp_IdempotencyScope r) (rcp_Output r) (rcp_OutputDigest r) (rcp_ArtifactID r) (rcp_ArtifactDigest r) (rcp_CostUnits r) (rcp_WorkerID r) (rcp_FencingToken r) (rcp_CreatedAt r).
#[export] Instance set_rcp_ActionID : Setter rcp_ActionID := fun v r =>
  MkActionReceipt (rcp_ID r) (rcp_RunID r) v (rcp_ActionType r) (rcp_IdempotencyScope r) (rcp_Output r) (rcp_OutputDigest r) (rcp_ArtifactID r) (rcp_ArtifactDigest r) (rcp_CostUnits r) (rcp_WorkerID r) (rcp_FencingToken r) (rcp_CreatedAt r).
#[export] Instance set_rcp_ActionType : Setter rcp_ActionType := fun v r =>
  MkActionReceipt (rcp_ID r) (rcp_RunID r) (rcp_ActionID r) v (rcp_IdempotencyScope r) (rcp_Output r) (rcp_OutputDigest r) (rcp_ArtifactID r) (rcp_ArtifactDigest r) (rcp_CostUnits r) (rcp_WorkerID r) (rcp_FencingToken r) (rcp_CreatedAt r).
#[export] Instance set_rcp_IdempotencyScope : Setter rcp_IdempotencyScope := fun v r =>
  MkActionReceipt (rcp_ID r) (rcp_RunID r) (rcp_ActionID r) (rcp_ActionType r) v (rcp_Output r) (rcp_OutputDigest r) (rcp_ArtifactID r) (rcp_ArtifactDigest r) (rcp_CostUnits r) (rcp_WorkerID r) (rcp_FencingToken r) (rcp_CreatedAt r).
#[export] Instance set_rcp_ArtifactID : Setter rcp_ArtifactID := fun v r =>
  MkActionReceipt (rcp_ID r) (rcp_RunID r) (rcp_ActionID r) (rcp_ActionType r) (rcp_IdempotencyScope r) (rcp_Output r) (rcp_OutputDigest r) v (rcp_ArtifactDigest r) (rcp_CostUnits r) (rcp_WorkerID r) (rcp_FencingToken r) (rcp_CreatedAt r).
#[export] Instance set_rcp_ArtifactDigest : Setter rcp_ArtifactDigest := fun v r =>
  MkActionReceipt (rcp_ID r) (rcp_RunID r) (rcp_ActionID r) (rcp_ActionType r) (rcp_IdempotencyScope r) (rcp_Output r) (rcp_OutputDigest r) (rcp_ArtifactID r) v (rcp_CostUnits r) (rcp_WorkerID r) (rcp_FencingToken r) (rcp_CreatedAt r).
#[export] Instance set_rcp_WorkerID : Setter rcp_WorkerID := fun v r =>
  MkActionReceipt (rcp_ID r) (rcp_RunID r) (rcp_ActionID r) (rcp_ActionType r) (rcp_IdempotencyScope r) (rcp_Output r) (rcp_OutputDigest r) (rcp_ArtifactID r) (rcp_ArtifactDigest r) (rcp_CostUnits r) v (rcp_FencingToken r) (rcp_CreatedAt r).
#[export] Instance set_rcp_FencingToken : Setter rcp_FencingToken := fun v r =>
  MkActionReceipt (rcp_ID r) (rcp_RunID r) (rcp_ActionID r) (rcp_ActionType r) (rcp_IdempotencyScope r) (rcp_Output r) (rcp_OutputDigest r) (rcp_ArtifactID r) (rcp_ArtifactDigest r) (rcp_CostUnits r) (rcp_WorkerID r) v (rcp_CreatedAt r).
#[export] Instance set_rcp_CreatedAt : Setter rcp_CreatedAt := fun v r =>
  MkActionReceipt (rcp_ID r) (rcp_RunID r) (rcp_ActionID r) (rcp_ActionType r) (rcp_IdempotencyScope r) (rcp_Output r) (rcp_OutputDigest r) (rcp_ArtifactID r) (rcp_ArtifactDigest r) (rcp_CostUnits r) (rcp_WorkerID r) (rcp_FencingToken r) v.

Record ReceiptResult : Type := MkReceiptResult {
  rres_Receipt : ActionReceipt;
  rres_Recorded : bool
}.

(** ** The interface: [Manager] *)

Class Manager (W : Type) : Type := {
  Register : Context -> string -> M W Worker;
  LookupWorker : Context -> string -> M W Worker;
  Heartbeat : Context -> string -> M W Worker;
  Acquire : Context -> string -> string -> Z -> M W AcquireResult;
  Renew : Context -> Lease -> Z -> M W Lease;
  Current : Context -> string -> M W Lease;
  Validate : Context -> Lease -> M W unit;
  RecordReceipt : Context -> Lease -> ActionReceipt -> M W ReceiptResult;
  LookupReceipt : Context -> string -> string -> M W ActionReceipt
}.

(** ** The PostgreSQL manager: postgres.go *)

Definition maxFencingToken : Z := 2 ^ 63 - 1.

Definition leaseOfRow (runID : string) (row : LeaseRow) : Lease :=
  MkLease runID (lr_worker_id row) (u64 (lr_fencing_token row)) (lr_expires_at row)
    (lr_heartbeat_at row).

Definition validatePresentedLease (presented : Lease) : result unit :=
  if decide (ls_RunID presented = "" \/ ls_WorkerID presented = "" \/
             ls_FencingToken presented = 0%Z \/ (maxFencingToken < ls_FencingToken presented)%Z)
  then Err (Sentinel ErrInvalidLease) else Ok tt.

(** [leaseAuthorityError]: an expired but otherwise current lease is reported as
    expired, anything else as stale. *)
Definition leaseAuthorityError (presented current : Lease) (expired : bool) : error :=
  LeaseError (ls_RunID presented) (ls_WorkerID presented) (ls_FencingToken presented)
    (ls_WorkerID current) (ls_FencingToken current)
    (if bool_decide (ls_WorkerID current = ls_WorkerID presented /\
                     ls_FencingToken current = ls_FencingToken presented) && expired
     then ErrLeaseExpired else ErrStaleLease).

(** [expiresAt.After(now)] *)
Definition expiredAt (lease : Lease) (now : Z) : bool := negb (now <? ls_ExpiresAt lease)%Z.

Definition notAuthority (presented current : Lease) (expired : bool) : bool :=
  bool_decide (ls_WorkerID current <> ls_WorkerID presented \/
               ls_FencingToken current <> ls_FencingToken presented) || expired.

Section manager.
Context `{Postgres}.

(** *** Workers *)

Definition registerWorker (ctx : Context) (workerID : string) : M World Worker :=
  if decide (workerID = "") then throw (Sentinel ErrInvalidLease)
  else
    now ← clock_timestamp;
    existing ← query (fun db => db_workers db !! workerID);
    match existing with
    | Some _ => throw (Sentinel ErrWorkerRegistered)
    | None =>
        _ ← exec (fun db => db <| db_workers := <[workerID := MkWorkerRow now now]> (db_workers db) |>);
        mret (MkWorker workerID now now)
    end.

Definition lookupWorker (ctx : Context) (workerID : string) : M World Worker :=
  if decide (workerID = "") then throw (Sentinel ErrInvalidLease)
  else
    found ← query (fun db => db_workers db !! workerID);
    match found with
    | None => throw (Sentinel ErrWorkerNotFound)
    | Some row => mret (MkWorker workerID (wr_registered_at row) (wr_heartbeat_at row))
    end.

Definition heartbeatWorker (ctx : Context) (workerID : string) : M World Worker :=
  if decide (workerID = "") then throw (Sentinel ErrInvalidLease)
  else
    now ← clock_timestamp;
    found ← query (fun db => db_workers db !! workerID);
    match found with
    | None => throw (Sentinel ErrWorkerNotFound)
    | Some row =>
        _ ← exec (fun db => db <| db_workers :=
              <[workerID := MkWorkerRow (wr_registered_at row) now]> (db_workers db) |>);
        mret (MkWorker workerID (wr_registered_at row) now)
    end.

(** *** Leases *)

Definition loadLease (runID : string) : M World (option Lease) :=
  query (fun db => leaseOfRow runID <$> db_leases db !! runID).

(** [unresolvedLegacyAction]: a legacy plan row that no later row resolves. *)
Definition resolvesLegacy (planned result : EventRow) : bool :=
  bool_decide (er_seq planned < er_seq result)%Z &&
  (bool_decide (er_event_type result ∈ [EventRunFailed; EventRunCancelled]) ||
   match jsonText (ed_ActionID (er_payload result)), jsonText (ed_ActionID (er_payload planned)) with
   | Some r, Some p => bool_decide (r = p)
   | _, _ => false
   end &&
   (bool_decide (er_event_type planned = EventReasoningPlanned /\
                 er_event_type result ∈ [EventReasoningCompleted; EventToolCallFailed]) ||
    bool_decide (er_event_type planned = EventVerificationPlanned /\
                 er_event_type result ∈ [EventVerificationPassed; EventVerificationFailed]))).

Definition unresolvedLegacyAction (runID : string) (db : Database) : option EventRow :=
  let rows := eventRows runID db in
  last (List.filter (fun planned =>
          bool_decide (er_event_type planned ∈ [EventReasoningPlanned; EventVerificationPlanned]) &&
          negb (existsb (resolvesLegacy planned) rows)) rows).

(** [insertLease] and [updateExpiredLease]: one row with a fresh expiry; the two
    readings of the clock in the statement are two instants. *)
Definition writeLease (runID workerID : string) (token ttl : Z) : M World Lease :=
  now ← clock_timestamp;
  heartbeat ← clock_timestamp;
  registered ← query (fun db => bool_decide (is_Some (db_workers db !! workerID)));
  _ ← constraint registered "leases_worker_fk";
  _ ← constraint (0 <? i64 token)%Z "leases_fencing_token_check";
  let row := MkLeaseRow workerID (i64 token) (now + make_interval ttl)%Z heartbeat in
  _ ← exec (fun db => db <| db_leases := <[runID := row]> (db_leases db) |>);
  mret (leaseOfRow runID row).

(** The first acquisition turns the Run into a managed one. *)
Definition acquireFirst (runID workerID : string) (ttl : Z) : M World (bool * AcquireResult) :=
  pending ← query (unresolvedLegacyAction runID);
  match pending with
  | Some _ => throw (Sentinel ErrLegacyExecutionInProgress)
  | None =>
      created ← wrapM (writeLease runID workerID 1 ttl);
      commit (MkAcquireResult created true false)
  end.

Definition acquireCurrent (runID workerID : string) (ttl : Z) (current : Lease)
    : M World (bool * AcquireResult) :=
  databaseNow ← clock_timestamp;
  if negb (expiredAt current databaseNow) then
    if decide (ls_WorkerID current = workerID)
    then commit (MkAcquireResult current false false)
    else throw (LeaseError runID workerID 0%Z (ls_WorkerID current) (ls_FencingToken current)
                  ErrLeaseHeld)
  else if decide (maxFencingToken <= ls_FencingToken current)%Z
  then throw (Sentinel ErrInvalidLease)
  else
    taken ← wrapM (writeLease runID workerID (u64 (ls_FencingToken current + 1)) ttl);
    commit (MkAcquireResult taken true true).

Definition acquireLease (ctx : Context) (runID workerID : string) (ttl : Z) : M World AcquireResult :=
  if decide (runID = "" \/ workerID = "" \/ (ttl <= 0)%Z) then throw (Sentinel ErrInvalidLease)
  else transaction (
    workerExists ← query (fun db => bool_decide (is_Some (db_workers db !! workerID)));
    if negb workerExists then throw (Sentinel ErrWorkerNotFound)
    else
      runExists ← query (fun db => bool_decide (is_Some (db_runs db !! runID)));
      if negb runExists then throw (Sentinel ErrRunNotFound)
      else
        found ← loadLease runID;
        match found with
        | None => acquireFirst runID workerID ttl
        | Some current => acquireCurrent runID workerID ttl current
        end).

(** The check shared by [Renew], [Validate] and [RecordReceipt]: the presented lease
    is the current one at this instant. *)
Definition validateLeaseInTx (presented : Lease) : M World Z :=
  found ← loadLease (ls_RunID presented);
  match found with
  | None => throw (Sentinel ErrLeaseNotFound)
  | Some current =>
      databaseNow ← clock_timestamp;
      let expired := expiredAt current databaseNow in
      if notAuthority presented current expired
      then throw (leaseAuthorityError presented current expired)
      else mret databaseNow
  end.

Definition renewLease (ctx : Context) (presented : Lease) (ttl : Z) : M World Lease :=
  _ ← lift (validatePresentedLease presented);
  if decide (ttl <= 0)%Z then throw (Sentinel ErrInvalidLease)
  else transaction (
    databaseNow ← validateLeaseInTx presented;
    _ ← exec (fun db => db <| db_leases := alter (fun row =>
          MkLeaseRow (lr_worker_id row) (lr_fencing_token row)
            (databaseNow + make_interval ttl)%Z databaseNow) (ls_RunID presented) (db_leases db) |>);
    renewed ← loadLease (ls_RunID presented);
    match renewed with
    | Some renewed => commit renewed
    | None => throw (Plain "renew lease")
    end).

Definition currentLease (ctx : Context) (runID : string) : M World Lease :=
  if decide (runID = "") then throw (Sentinel ErrInvalidLease)
  else
    found ← loadLease runID;
    match found with
    | None => throw (Sentinel ErrLeaseNotFound)
    | Some current => mret current
    end.

Definition validateLease (ctx : Context) (presented : Lease) : M World unit :=
  _ ← lift (validatePresentedLease presented);
  transaction (_ ← validateLeaseInTx presented; commit tt).

(** *** Receipts *)

Definition receiptOfRow (runID actionID : string) (row : ReceiptRow) : ActionReceipt :=
  MkActionReceipt (rc_receipt_id row) runID actionID (rc_action_type row)
    (rc_idempotency_scope row) (rc_output row) (dereferenceText (rc_output_digest row))
    (dereferenceText (rc_artifact_id row)) (dereferenceText (rc_artifact_digest row))
    (rc_cost_units row) (rc_worker_id row) (u64 (rc_fencing_token row)) (rc_created_at row).

Definition lookupReceiptRow (runID actionID : string) : M World (option ActionReceipt) :=
  query (fun db => receiptOfRow runID actionID <$> db_receipts db !! (runID, actionID)).

Definition lookupReceipt (ctx : Context) (runID actionID : string) : M World ActionReceipt :=
  found ← lookupReceiptRow runID actionID;
  match found with
  | None => throw (Sentinel ErrReceiptNotFound)
  | Some receipt => mret receipt
  end.

(** Equality up to the recording worker, token and time. *)
Definition sameReceipt (existing replay : ActionReceipt) : bool :=
  bool_decide (existing = replay <| rcp_WorkerID := rcp_WorkerID existing |>
                                 <| rcp_FencingToken := rcp_FencingToken existing |>
                                 <| rcp_CreatedAt := rcp_CreatedAt existing |>).

(** The pending plan of the action: an ActionPlanned row for its identifier, type and
    scope, and no result row for its identifier. *)
Definition pendingPlan (receipt : ActionReceipt) (db : Database) : option EventRow :=
  let rows := eventRows (rcp_RunID receipt) db in
  let isResult row :=
    bool_decide (er_event_type row ∈ [EventActionCompleted; EventActionFailed] /\
                 jsonText (ed_ActionID (er_payload row)) = Some (rcp_ActionID receipt)) in
  if existsb isResult rows then None
  else last (List.filter (fun row =>
         plannedRow (rcp_ActionID receipt) (rcp_ActionType receipt) row &&
         bool_decide (jsonText (ed_IdempotencyScope (er_payload row)) =
                      Some (rcp_IdempotencyScope receipt))) rows).

Definition receiptRow (presented : Lease) (receipt : ActionReceipt) (output : EventData) (now : Z)
    : ReceiptRow :=
  MkReceiptRow (rcp_ID receipt) (rcp_ActionType receipt) (rcp_IdempotencyScope receipt) output
    (nullableText (rcp_OutputDigest receipt)) (nullableText (rcp_ArtifactID receipt))
    (nullableText (rcp_ArtifactDigest receipt)) (rcp_CostUnits receipt) (ls_WorkerID presented)
    (i64 (ls_FencingToken presented)) now.

(** The constraints of action_receipts. *)
Definition receiptConstraints (db : Database) (runID actionID : string) (row : ReceiptRow) : bool :=
  bool_decide (map_Forall (fun _ r => rc_receipt_id r <> rc_receipt_id row) (db_receipts db)) &&
  bool_decide (is_Some (db_runs db !! runID)) &&
  IdempotencyScope_Valid (rc_idempotency_scope row) &&
  match rc_output_digest row with Some d => sha256DigestPattern d | None => true end &&
  (0 <=? rc_cost_units row)%Z &&
  bool_decide (is_Some (db_workers db !! rc_worker_id row)) &&
  (0 <? rc_fencing_token row)%Z &&
  bool_decide (db_receipts db !! (runID, actionID) = None) &&
  match rc_artifact_id row, rc_artifact_digest row with
  | None, None => true
  | Some artifact, Some digest =>
      sha256DigestPattern digest && bool_decide (is_Some (db_artifacts db !! artifact)) &&
      bool_decide (map_Forall (fun k r => ~ (fst k = runID /\ rc_artifact_id r = Some artifact))
                     (db_receipts db))
  | _, _ => false
  end.

Definition insertReceipt (presented : Lease) (receipt : ActionReceipt) : M World (bool * ReceiptResult) :=
  output ← wrapM (lift (jsonb (rcp_Output receipt)));
  now ← clock_timestamp;
  let row := receiptRow presented receipt output now in
  ok ← query (fun db => receiptConstraints db (rcp_RunID receipt) (rcp_ActionID receipt) row);
  _ ← constraint ok "action_receipts";
  _ ← exec (fun db => db <| db_receipts :=
        <[(rcp_RunID receipt, rcp_ActionID receipt) := row]> (db_receipts db) |>);
  commit (MkReceiptResult
    (receipt <| rcp_WorkerID := ls_WorkerID presented |>
             <| rcp_FencingToken := ls_FencingToken presented |> <| rcp_CreatedAt := now |>) true).

Definition recordReceiptInTx (presented : Lease) (receipt : ActionReceipt)
    : M World (bool * ReceiptResult) :=
  _ ← validateLeaseInTx presented;
  existing ← lookupReceiptRow (rcp_RunID receipt) (rcp_ActionID receipt);
  match existing with
  | Some existing =>
      if negb (sameReceipt existing receipt) then throw (Sentinel ErrReceiptConflict)
      else commit (MkReceiptResult existing false)
  | None =>
      planned ← query (pendingPlan receipt);
      match planned with
      | None => throw (Sentinel ErrReceiptWithoutPlan)
      | Some planned =>
          _ ← lift (ValidateManagedReceiptEvidence (rcp_ActionType receipt) (rcp_ActionID receipt)
                      (ed_AttemptID (er_payload planned)) (rcp_Output receipt)
                      (rcp_OutputDigest receipt) (rcp_ArtifactID receipt) (rcp_ArtifactDigest receipt));
          insertReceipt presented receipt
      end
  end.

(** [if receipt.ID == "" { ... }] *)
Definition defaultReceiptID (receipt : ActionReceipt) : ActionReceipt :=
  if decide (rcp_ID receipt = "")
  then receipt <| rcp_ID := rcp_RunID receipt +:+ ":" +:+ rcp_ActionID receipt |> else receipt.

Definition receiptRequestInvalid (presented : Lease) (receipt : ActionReceipt) : bool :=
  bool_decide (rcp_RunID receipt = "" \/ rcp_RunID receipt <> ls_RunID presented \/
               rcp_ActionID receipt = "" \/ rcp_ActionType receipt = "") ||
  negb (IdempotencyScope_Valid (rcp_IdempotencyScope receipt)) ||
  bool_decide (rcp_CostUnits receipt < 0)%Z.

Definition recordReceipt `{CredentialScanner} (ctx : Context) (presented : Lease)
    (receipt : ActionReceipt) : M World ReceiptResult :=
  _ ← lift (validatePresentedLease presented);
  if receiptRequestInvalid presented receipt then throw (Sentinel ErrInvalidLease)
  else
    _ ← lift (ValidateEventData (rcp_Output receipt));
    transaction (recordReceiptInTx presented (defaultReceiptID receipt)).

#[export] Instance postgres_manager `{CredentialScanner} : Manager World := {
  Register := registerWorker; LookupWorker := lookupWorker; Heartbeat := heartbeatWorker;
  Acquire := acquireLease; Renew := renewLease; Current := currentLease; Validate := validateLease;
  RecordReceipt := recordReceipt; LookupReceipt := lookupReceipt
}.
End manager.

(** * What the lease operations did

    Inversion of the operations of [PostgresManager], and the system they form with
    the event and artifact stores: a step relation on the shared world. *)

Section facts.
Context `{Postgres}.

(** ** The authority check *)

(** [Holds w w' presented]: the stored lease is the presented one and had not expired
    at a reading of the clock between [w] and [w']. *)
Definition Holds (w w' : World) (presented : Lease) : Prop :=
  exists row n, db_leases (w_db w) !! ls_RunID presented = Some row /\
    lr_worker_id row = ls_WorkerID presented /\ u64 (lr_fencing_token row) = ls_FencingToken presented /\
    w_tick w <= n < w_tick w' /\ (clock n < lr_expires_at row)%Z.

Lemma validateLeaseInTx_Ok presented w now w' :
  validateLeaseInTx presented w = (Ok now, w') -> Holds w w' presented /\ w' = ticked w /\ now = clock (w_tick w).
Proof.
  unfold validateLeaseInTx, loadLease. intros H0.
  apply M_bind_Ok in H0 as (found & w1 & [-> ->]%query_Ok & H0).
  destruct (db_leases _ !! _) as [row|] eqn:Hl; cbn [fmap option_fmap option_map] in H0; [|done].
  db_inv. apply orb_false_iff in E as [E1 E2]. unfold expiredAt in E2.
  apply negb_false_iff, Z.ltb_lt in E2. apply bool_decide_eq_false in E1. simp_not. cbn in *.
  split; [|done]. exists row, (w_tick w). rewrite Hl. split_and!; try done; cbn; lia.
Qed.

(** ** Acquisition *)

(** The row [writeLease] leaves. *)
Lemma writeLease_Ok runID workerID token ttl w l w' :
  writeLease runID workerID token ttl w = (Ok l, w') ->
  exists row, l = leaseOfRow runID row /\ lr_worker_id row = workerID /\
    lr_fencing_token row = i64 token /\ (0 < i64 token)%Z /\
    lr_expires_at row = (clock (w_tick w) + make_interval ttl)%Z /\
    w' = (ticked (ticked w)) <| w_db := (w_db w) <| db_leases := <[runID := row]> (db_leases (w_db w)) |> |>.
Proof.
  unfold writeLease. intros H0. db_inv.
  match goal with E : (0 <? _)%Z = true |- _ => apply Z.ltb_lt in E end. eexists. by split_and!.
Qed.

(** The three ways an acquisition succeeds. *)
Inductive Acquired (w : World) (runID workerID : string) (ttl : Z) : AcquireResult -> World -> Prop :=
  | AcquiredFirst row w' :
      db_leases (w_db w) !! runID = None -> unresolvedLegacyAction runID (w_db w) = None ->
      lr_worker_id row = workerID -> lr_fencing_token row = 1%Z ->
      w_files w' = w_files w -> w_tick w <= w_tick w' ->
      w_db w' = (w_db w) <| db_leases := <[runID := row]> (db_leases (w_db w)) |> ->
      Acquired w runID workerID ttl (MkAcquireResult (leaseOfRow runID row) true false) w'
  | AcquiredAgain row w' :
      db_leases (w_db w) !! runID = Some row -> lr_worker_id row = workerID ->
      frame w w' -> (clock (w_tick w) < lr_expires_at row)%Z ->
      Acquired w runID workerID ttl (MkAcquireResult (leaseOfRow runID row) false false) w'
  | AcquiredExpired old row w' :
      db_leases (w_db w) !! runID = Some old -> (lr_expires_at old <= clock (w_tick w))%Z ->
      (u64 (lr_fencing_token old) < maxFencingToken)%Z ->
      lr_worker_id row = workerID -> lr_fencing_token row = (u64 (lr_fencing_token old) + 1)%Z ->
      w_files w' = w_files w -> w_tick w <= w_tick w' ->
      w_db w' = (w_db w) <| db_leases := <[runID := row]> (db_leases (w_db w)) |> ->
      Acquired w runID workerID ttl (MkAcquireResult (leaseOfRow runID row) true true) w'.

Lemma acquireFirst_Ok runID workerID ttl w b r w' :
  acquireFirst runID workerID ttl w = (Ok (b, r), w') -> db_leases (w_db w) !! runID = None ->
  b = true /\ Acquired w runID workerID ttl r w'.
Proof.
  unfold acquireFirst. intros H0 Hl.
  apply M_bind_Ok in H0 as (pending & w1 & [-> ->]%query_Ok & H0).
  destruct (unresolvedLegacyAction _ _) eqn:Hp; [done|]. db_inv.
  match goal with E : writeLease _ _ _ _ _ = _ |- _ =>
    apply writeLease_Ok in E as (row & -> & ? & Ht & _ & _ & ->) end.
  split; [done|]. apply AcquiredFirst; try done. cbn. lia.
Qed.

Lemma acquireCurrent_Ok runID workerID ttl row w b r w' :
  acquireCurrent runID workerID ttl (leaseOfRow runID row) w = (Ok (b, r), w') ->
  db_leases (w_db w) !! runID = Some row -> b = true /\ Acquired w runID workerID ttl r w'.
Proof.
  unfold acquireCurrent, expiredAt. intros H0 Hl. db_inv.
  - apply negb_true_iff, negb_false_iff, Z.ltb_lt in E. cbn in E. split; [done|].
    apply AcquiredAgain; try done. split; cbn; [done..|lia].
  - match goal with E : writeLease _ _ _ _ _ = _ |- _ =>
      apply writeLease_Ok in E as (new & -> & ? & Ht & _ & _ & ->) end.
    apply negb_false_iff, negb_true_iff, Z.ltb_ge in E. cbn in *. split; [done|].
    pose proof (u64_bounds (lr_fencing_token row)).
    apply (AcquiredExpired _ _ _ _ row); try done; cbn; [lia| |lia].
    rewrite Ht. unfold maxFencingToken in *. rewrite u64_small, i64_small by lia. done.
Qed.

Lemma acquireLease_Ok ctx runID workerID ttl w r w' :
  acquireLease ctx runID workerID ttl w = (Ok r, w') -> Acquired w runID workerID ttl r w'.
Proof.
  unfold acquireLease, loadLease. intros H0. case_decide; [done|].
  apply transaction_Ok in H0 as (b & w1 & H0 & ->).
  apply M_bind_Ok in H0 as (we & w2 & [-> ->]%query_Ok & H0). destruct (negb _); [done|].
  apply M_bind_Ok in H0 as (re & w3 & [-> ->]%query_Ok & H0). destruct (negb _); [done|].
  apply M_bind_Ok in H0 as (found & w4 & [-> ->]%query_Ok & H0).
  destruct (db_leases _ !! runID) as [row|] eqn:Hl; cbn [fmap option_fmap option_map] in H0.
  - by apply acquireCurrent_Ok in H0 as [-> HA].
  - by apply acquireFirst_Ok in H0 as [-> HA].
Qed.

(** ** Renewal and receipts *)

Lemma renewLease_Ok ctx presented ttl w l w' :
  renewLease ctx presented ttl w = (Ok l, w') ->
  Holds w w' presented /\ w_files w' = w_files w /\ w_tick w <= w_tick w' /\
  exists row expires, db_leases (w_db w) !! ls_RunID presented = Some row /\
    w_db w' = (w_db w) <| db_leases := alter (fun row => MkLeaseRow (lr_worker_id row)
      (lr_fencing_token row) expires (clock (w_tick w))) (ls_RunID presented) (db_leases (w_db w)) |>.
Proof.
  unfold renewLease. intros H0. apply M_bind_Ok in H0 as (u & w1 & [_ ->]%lift_Ok & H0).
  case_decide; [done|]. apply transaction_Ok in H0 as (b & w2 & H0 & ->).
  apply M_bind_Ok in H0 as (now & w3 & (HH & -> & ->)%validateLeaseInTx_Ok & H0).
  assert (HH2 := HH). destruct HH2 as (row & n & Hrow & _). unfold loadLease in H0. db_inv.
  cbn [w_db] in H0.
  match type of H0 with (match ?o with _ => _ end _) = _ => destruct o as [row'|] eqn:Hr end; db_inv.
  split; [|split; [done|split; [cbn; lia|eauto]]].
  destruct HH as (r & k & ? & ? & ? & ? & ?). by exists r, k.
Qed.

Lemma validateLease_Ok ctx presented w u w' :
  validateLease ctx presented w = (Ok u, w') -> Holds w w' presented /\ frame w w'.
Proof.
  unfold validateLease. intros H0. apply M_bind_Ok in H0 as (v & w1 & [_ ->]%lift_Ok & H0).
  apply transaction_Ok in H0 as (b & w2 & H0 & ->).
  apply M_bind_Ok in H0 as (now & w3 & (HH & -> & ->)%validateLeaseInTx_Ok & H0).
  apply commit_Ok in H0 as (-> & _ & ->). split; [done|]. split; cbn; [done..|lia].
Qed.

(** What a recorded receipt has behind it. *)
Definition ReceiptRecorded (w : World) (presented : Lease) (receipt : ActionReceipt) (w' : World) : Prop :=
  let r := defaultReceiptID receipt in
  exists planned output now, pendingPlan r (w_db w) = Some planned /\
    ValidateManagedReceiptEvidence (rcp_ActionType r) (rcp_ActionID r) (ed_AttemptID (er_payload planned))
      (rcp_Output r) (rcp_OutputDigest r) (rcp_ArtifactID r) (rcp_ArtifactDigest r) = Ok tt /\
    jsonb (rcp_Output r) = Ok output /\ db_receipts (w_db w) !! (rcp_RunID r, rcp_ActionID r) = None /\
    w_db w' = (w_db w) <| db_receipts := <[(rcp_RunID r, rcp_ActionID r) :=
                receiptRow presented r output now]> (db_receipts (w_db w)) |>.

Lemma insertReceipt_Ok presented r w b res w' :
  insertReceipt presented r w = (Ok (b, res), w') ->
  b = true /\ rres_Recorded res = true /\ w_files w' = w_files w /\ w_tick w <= w_tick w' /\
  exists output now, jsonb (rcp_Output r) = Ok output /\
    db_receipts (w_db w) !! (rcp_RunID r, rcp_ActionID r) = None /\
    w_db w' = (w_db w) <| db_receipts := <[(rcp_RunID r, rcp_ActionID r) :=
                receiptRow presented r output now]> (db_receipts (w_db w)) |>.
Proof.
  unfold insertReceipt. intros H0. db_inv.
  match goal with E : receiptConstraints _ _ _ _ = true |- _ => rename E into Hc end.
  unfold receiptConstraints in Hc. apply andb_true_iff in Hc as [[_ Hc%bool_decide_eq_true]%andb_true_iff _].
  split_and!; [done..|cbn; lia|]. eexists _, _. by split_and!.
Qed.

Lemma recordReceipt_Ok `{CredentialScanner} ctx presented receipt w res w' :
  recordReceipt ctx presented receipt w = (Ok res, w') ->
  Holds w w' presented /\ rcp_RunID receipt = ls_RunID presented /\ w_files w' = w_files w /\
  w_tick w <= w_tick w' /\
  (rres_Recorded res = false /\ w_db w' = w_db w /\
     lookupReceiptRow (rcp_RunID receipt) (rcp_ActionID receipt) w = (Ok (Some (rres_Receipt res)), w) /\
     sameReceipt (rres_Receipt res) (defaultReceiptID receipt) = true \/
   rres_Recorded res = true /\ ReceiptRecorded w presented receipt w').
Proof.
  unfold recordReceipt. intros H1. apply M_bind_Ok in H1 as (u & w1 & [_ ->]%lift_Ok & H1).
  destruct (receiptRequestInvalid _ _) eqn:Hreq; [done|].
  apply M_bind_Ok in H1 as (u2 & w2 & [_ ->]%lift_Ok & H1).
  apply transaction_Ok in H1 as (b & w2 & H1 & ->). unfold recordReceiptInTx in H1.
  apply M_bind_Ok in H1 as (now & w3 & (HH & -> & ->)%validateLeaseInTx_Ok & H1).
  assert (rcp_RunID (defaultReceiptID receipt) = rcp_RunID receipt /\
          rcp_ActionID (defaultReceiptID receipt) = rcp_ActionID receipt) as [Hr Ha]
    by (unfold defaultReceiptID; by case_decide).
  assert (rcp_RunID receipt = ls_RunID presented) as Hrun.
  { unfold receiptRequestInvalid in Hreq. repeat apply orb_false_iff in Hreq as [Hreq _].
    apply bool_decide_eq_false in Hreq. by simp_not. }
  assert (forall w4, w_tick (ticked w) <= w_tick w4 -> Holds w w4 presented) as HH'.
  { intros w4 Ht. destruct HH as (r & k & ? & ? & ? & ? & ?). exists r, k. split_and!; try done; lia. }
  unfold lookupReceiptRow in *. apply M_bind_Ok in H1 as (existing & w5 & [-> ->]%query_Ok & H1).
  rewrite Hr, Ha in *. cbn [w_db ticked] in H1.
  destruct (_ <$> db_receipts _ !! _) as [existing|] eqn:Hex.
  - db_inv. apply negb_false_iff in E. split; [apply HH'; cbn; lia|].
    split_and!; try done; [cbn; lia|]. left. split_and!; try done. unfold query, gets. by rewrite Hex.
  - apply M_bind_Ok in H1 as (planned & w6 & [-> ->]%query_Ok & H1).
    destruct (pendingPlan _ _) as [planned|] eqn:Hplan; [|done].
    apply M_bind_Ok in H1 as ([] & w7 & [Hv ->]%lift_Ok & H1).
    apply insertReceipt_Ok in H1 as (-> & Hrec & Hf & Ht & output & now & Hj & Hnone & Hdb).
    rewrite Hr, Ha in *. split; [by apply HH'|]. split_and!; try done; [cbn in Ht; lia|]. right.
    split; [done|]. unfold ReceiptRecorded. rewrite Hr, Ha. by exists planned, output, now.
Qed.
End facts.

(** ** Listing *)

Section listing.
Context `{Postgres}.

(** The order of texts in the database is its collation's. *)
Context (collate : relation string) `{!RelDecision collate}.

(** ORDER BY created_at, action_id *)
Definition receiptOrder (a b : ActionReceipt) : Prop :=
  (rcp_CreatedAt a < rcp_CreatedAt b)%Z \/
  rcp_CreatedAt a = rcp_CreatedAt b /\ collate (rcp_ActionID a) (rcp_ActionID b).

#[export] Instance receiptOrder_dec : RelDecision receiptOrder.
Proof. intros a b. unfold receiptOrder. apply _. Defined.

Definition receiptsOf (runID : string) (db : Database) : list ActionReceipt :=
  omap (fun '((run, actionID), row) => if decide (run = runID) then Some (receiptOfRow runID actionID row) else None)
    (map_to_list (db_receipts db)).

Definition ListReceipts (ctx : Context) (runID : string) : M World (list ActionReceipt) :=
  query (fun db => merge_sort receiptOrder (receiptsOf runID db)).

Lemma receiptsOf_spec runID db receipt : receipt ∈ receiptsOf runID db <->
  exists actionID row, db_receipts db !! (runID, actionID) = Some row /\ receipt = receiptOfRow runID actionID row.
Proof.
  unfold receiptsOf. rewrite list_elem_of_omap. split.
  - intros ([[run actionID] row] & Hl%elem_of_map_to_list & Hr). case_decide as Hd; [|done].
    subst run. injection Hr as <-. eauto.
  - intros (actionID & row & Hl & ->). exists ((runID, actionID), row). split; [by apply elem_of_map_to_list|].
    by rewrite decide_True.
Qed.

Lemma receiptsOf_NoDup runID db : NoDup (map rcp_ActionID (receiptsOf runID db)).
Proof.
  unfold receiptsOf. pose proof (NoDup_fst_map_to_list (db_receipts db)) as Hn.
  induction (map_to_list (db_receipts db)) as [|[[run actionID] row] l IH]; [constructor|].
  cbn in Hn |- *. apply NoDup_cons in Hn as [Hi Hn]. specialize (IH Hn). case_decide as Hd; [|done]. subst run.
  cbn. apply NoDup_cons. split; [|done]. intros Hin. apply Hi.
  apply list_elem_of_fmap in Hin as (receipt & Ha & Hr). apply list_elem_of_omap in Hr as ([[run' actionID'] row'] & Hl & Hr).
  case_decide as Hd; [|done]. subst run'. injection Hr as <-. cbn in Ha. subst actionID'.
  apply list_elem_of_fmap. by exists (runID, actionID, row').
Qed.

(** A listing changes nothing, holds each receipt of the Run once and no other, and is in
    the order of their times. *)
Theorem listed_receipts_are_the_recorded ctx runID w `{!Total collate} :
  exists receipts, ListReceipts ctx runID w = (Ok receipts, w) /\
    (forall actionID, receiptOfRow runID actionID <$> db_receipts (w_db w) !! (runID, actionID) =
       list_find (fun r => rcp_ActionID r = actionID) receipts ≫= fun found => Some found.2) /\
    NoDup (map rcp_ActionID receipts) /\ (forall r, r ∈ receipts -> rcp_RunID r = runID) /\ Sorted receiptOrder receipts.
Proof.
  set (receipts := merge_sort receiptOrder (receiptsOf runID (w_db w))). exists receipts.
  assert (receipts ≡ₚ receiptsOf runID (w_db w)) as Hp by apply merge_sort_Permutation.
  assert (NoDup (map rcp_ActionID receipts)) as Hn by (rewrite Hp; apply receiptsOf_NoDup).
  split; [done|]. split; [|split; [done|split]].
  - intros actionID. destruct (list_find _ receipts) as [[i r]|] eqn:Hf; cbn.
    + apply list_find_Some in Hf as (Hl & <- & _). apply list_elem_of_lookup_2 in Hl. rewrite Hp in Hl.
      apply receiptsOf_spec in Hl as (a & row & Hr & ->). cbn. by rewrite Hr.
    + apply list_find_None in Hf. destruct (db_receipts (w_db w) !! (runID, actionID)) as [row|] eqn:Hr; [|done].
      exfalso. rewrite Forall_forall in Hf. apply (Hf (receiptOfRow runID actionID row)); [|done].
      rewrite Hp. apply receiptsOf_spec. eauto.
  - intros r Hr. rewrite Hp in Hr. by apply receiptsOf_spec in Hr as (a & row & _ & ->).
  - apply Sorted_merge_sort. intros a b. unfold receiptOrder.
    destruct (Z.lt_trichotomy (rcp_CreatedAt a) (rcp_CreatedAt b)) as [?|[?|?]]; [by left; left| |by right; left].
    destruct (total collate (rcp_ActionID a) (rcp_ActionID b)); [left|right]; by right.
Qed.
End listing.
