(* ===== verification/System.v ===== *)
(** * The managed system and its fencing protocol

    The operations that workers, operators and the API perform on the shared world,
    as a step relation, and the abstract protocol they implement per Run: a holder
    that changes only upwards in token, and writes that carry the holder's token. *)
From stdpp Require Import sorting.
From S2P Require Import Prelude Sha256 GoLib Types Decide Reducer Receipt Effect.
From S2P Require Import Store Database Artifact PostgresStore PostgresFacts Lease.

(** ** The abstract protocol *)

(** A token with the worker it was granted to. *)
Definition Grant : Type := Z * string.

Record Fence : Type := MkFence {
  fn_holder : option Grant;
  fn_writes : list Grant
}.

Inductive fenceStep : Fence -> Fence -> Prop :=
  | FenceGranted worker writes :
      fenceStep (MkFence None writes) (MkFence (Some (1%Z, worker)) writes)
  | FenceTakenOver token worker worker' writes :
      fenceStep (MkFence (Some (token, worker)) writes)
                (MkFence (Some ((token + 1)%Z, worker')) writes)
  | FenceWritten grant writes :
      fenceStep (MkFence (Some grant) writes) (MkFence (Some grant) (writes ++ [grant])).

(** Later grants have a greater token, or are the same grant. *)
Definition outranks (g1 g2 : Grant) : Prop := (fst g1 < fst g2)%Z \/ g1 = g2.

#[export] Instance outranks_preorder : PreOrder outranks.
Proof.
  split; [by right|]. intros g1 g2 g3 [H1| ->] [H2| ->]; [left; lia|by left|by left|by right].
Qed.

Definition FenceInv (f : Fence) : Prop :=
  match fn_holder f with
  | None => fn_writes f = []
  | Some g => StronglySorted outranks (fn_writes f ++ [g])
  end.

Lemma sorted_one g : StronglySorted outranks [g].
Proof. repeat constructor. Qed.

Lemma sorted_snoc ws g g' :
  StronglySorted outranks (ws ++ [g]) -> outranks g g' -> StronglySorted outranks (ws ++ [g']).
Proof.
  intros Hs Hg. induction ws as [|x ws IH]; cbn in *; [apply sorted_one|].
  apply StronglySorted_inv in Hs as [Hs Hx]. constructor; [by apply IH|].
  apply Forall_app in Hx as [Hx Hxg]. apply Forall_app. split; [done|].
  apply Forall_singleton. trans g; [exact (proj1 (Forall_singleton _ _) Hxg)|done].
Qed.

Lemma sorted_write ws g :
  StronglySorted outranks (ws ++ [g]) -> StronglySorted outranks ((ws ++ [g]) ++ [g]).
Proof.
  intros Hs. induction ws as [|x ws IH]; cbn in *; [apply SSorted_cons; [apply sorted_one|by constructor]|].
  apply StronglySorted_inv in Hs as [Hs Hx]. constructor; [by apply IH|].
  apply Forall_app. split; [done|]. by apply Forall_app in Hx as [_ Hx].
Qed.

Lemma fenceStep_inv f f' : FenceInv f -> fenceStep f f' -> FenceInv f'.
Proof.
  intros HI Hs. destruct Hs as [worker ws|token worker worker' ws|g ws]; unfold FenceInv in *; cbn in *.
  - subst ws. apply sorted_one.
  - eapply sorted_snoc; [exact HI|]. left. cbn. lia.
  - by apply sorted_write.
Qed.

(** The holder never steps back. *)
Definition holderLe (f f' : Fence) : Prop :=
  match fn_holder f with
  | None => True
  | Some g => exists g', fn_holder f' = Some g' /\ outranks g g'
  end.

#[export] Instance holderLe_preorder : PreOrder holderLe.
Proof.
  split.
  - intros f. unfold holderLe. destruct (fn_holder f) as [g|]; [|done]. by exists g.
  - intros f1 f2 f3 H1 H2. unfold holderLe in *. destruct (fn_holder f1) as [g|]; [|done].
    destruct H1 as (g2 & E2 & HR). rewrite E2 in H2. destruct H2 as (g3 & E3 & HR').
    exists g3. split; [done|by trans g2].
Qed.

Lemma fenceStep_holder f f' : fenceStep f f' -> holderLe f f'.
Proof.
  intros []; unfold holderLe; cbn; [done| |by eexists].
  eexists. split; [done|]. left. cbn. lia.
Qed.

(** ** The system *)

Section system.
Context `{Postgres} `{CredentialScanner}.

(** [ok] restricts the events that are appended. *)
Inductive step (ok : Event -> Prop) (w : World) : World -> Prop :=
  | StepAppend ctx v event : ok event -> step ok w (snd (appendPostgres ctx v event w))
  | StepCheckpoint ctx runID v : step ok w (snd (SaveCheckpoint ctx runID v w))
  | StepRegister ctx workerID : step ok w (snd (registerWorker ctx workerID w))
  | StepHeartbeat ctx workerID : step ok w (snd (heartbeatWorker ctx workerID w))
  | StepAcquire ctx runID workerID ttl : step ok w (snd (acquireLease ctx runID workerID ttl w))
  | StepRenew ctx presented ttl : step ok w (snd (renewLease ctx presented ttl w))
  | StepValidate ctx presented : step ok w (snd (validateLease ctx presented w))
  | StepReceipt ctx presented receipt : step ok w (snd (recordReceipt ctx presented receipt w))
  | StepArtifact store ctx input : step ok w (snd (Write store ctx input w)).

(** ** The protocol state of a Run *)

Definition grantOfRow (row : LeaseRow) : Grant := (u64 (lr_fencing_token row), lr_worker_id row).

(** The grants under which the fenced events of a Run were written, in log order. *)
Definition writers (rows : list EventRow) : list Grant :=
  omap (fun row => token ← er_fencing_token row; Some (u64 token, dereferenceText (er_worker_id row))) rows.

Definition fenceOf (db : Database) (runID : string) : Fence :=
  MkFence (grantOfRow <$> db_leases db !! runID) (writers (pgRows db runID)).

(** Every Run's protocol state stays or makes one protocol step. *)
Definition Simulated (w w' : World) : Prop := forall runID,
  fenceOf (w_db w') runID = fenceOf (w_db w) runID \/
  fenceStep (fenceOf (w_db w) runID) (fenceOf (w_db w') runID).

Lemma Simulated_same w w' :
  db_leases (w_db w') = db_leases (w_db w) -> db_events (w_db w') = db_events (w_db w) ->
  Simulated w w'.
Proof. intros Hl He runID. left. unfold fenceOf, pgRows. by rewrite Hl, He. Qed.

Lemma writers_app rows rows' : writers (rows ++ rows') = writers rows ++ writers rows'.
Proof. apply omap_app. Qed.

(** An unfenced event writes under no grant, a fenced one under the holder's. *)
Lemma writers_unfenced e payload time v :
  leaseSensitiveEvent e = false -> writers [eventRow (recordedEvent v e time) payload time] = [].
Proof.
  unfold leaseSensitiveEvent. case_decide; [done|]. intros Hn%bool_decide_eq_false. simp_not.
  unfold writers, eventRow, recordedEvent. cbn. unfold nullableUint64. by rewrite decide_True.
Qed.

Lemma writers_fenced w w' e payload time v :
  Authorised w w' e -> exists g, fn_holder (fenceOf (w_db w) (ev_RunID e)) = Some g /\
    writers [eventRow (recordedEvent v e time) payload time] = [g].
Proof.
  intros (row & n & Hrow & Hw & Ht & Hw0 & Ht0 & Hmax & _). exists (grantOfRow row).
  cbn. rewrite Hrow. split; [done|]. unfold writers, eventRow, recordedEvent, grantOfRow. cbn.
  unfold nullableUint64. rewrite decide_False by done. cbn.
  unfold nullableText. rewrite decide_False by done. cbn.
  rewrite u64_i64; [by rewrite Hw, Ht|]. rewrite <- Ht. apply u64_bounds.
Qed.

Lemma simulate_append ctx v event w : Simulated w (snd (appendPostgres ctx v event w)).
Proof.
  destruct (appendPostgres ctx v event w) as [[r|err] w'] eqn:Ha; cbn [snd];
    [|apply appendPostgres_Err in Ha; by apply Simulated_same; rewrite Ha].
  apply appendPostgres_Ok in Ha as (_ & HA & _ & HO). set (e := defaultPayloadVersion event) in *.
  inversion HO as [existing ? [Hdb _ _]|w0 row payload time st ? HP Hst HW]; subst;
    [by apply Simulated_same; rewrite Hdb|].
  pose proof (wn_tables _ _ _ _ _ _ _ _ HW) as Htab.
  assert (db_leases (w_db w') = db_leases (w_db w)) as Hl.
  { rewrite Htab. by apply Prepared_leases in HP as [? _]. }
  intros runID. unfold fenceOf. rewrite Hl. rewrite Htab, pgRows_insert.
  case_decide as Hd; [subst runID|left; by rewrite (Prepared_events _ _ _ _ HP)].
  rewrite (Prepared_events _ _ _ _ HP), writers_app.
  destruct (leaseSensitiveEvent e) eqn:Hsens.
  - destruct (writers_fenced w w' e payload time v) as (g & Hg & ->); [apply HA; by left|].
    cbn in Hg. rewrite Hg. right. apply FenceWritten.
  - left. by rewrite writers_unfenced, app_nil_r.
Qed.

(** *** Operations that leave leases and events alone *)

Definition sameAuthority (w w' : World) : Prop :=
  db_leases (w_db w') = db_leases (w_db w) /\ db_events (w_db w') = db_events (w_db w).

#[export] Instance sameAuthority_preorder : PreOrder sameAuthority.
Proof. split; [by intros w|]. intros w1 w2 w3 [A1 A2] [B1 B2]. split; congruence. Qed.

Lemma frame_sameAuthority : subrelation frame sameAuthority.
Proof. intros w w' [Hdb _ _]. split; by rewrite Hdb. Qed.

Lemma simulate_sameAuthority w w' : sameAuthority w w' -> Simulated w w'.
Proof. intros []. by apply Simulated_same. Qed.

Ltac authority_steps :=
  repeat first [ apply keeps_bind; [apply _| |intros ?] | progress cbv zeta | case_decide | case_match
               | apply keeps_wrapM | by apply keeps_exec; intros ?; split ];
  try solve [apply keeps_readonly; [exact frame_sameAuthority|eauto with readonly]].

Lemma registerWorker_keeps ctx workerID : keeps sameAuthority (registerWorker ctx workerID).
Proof. unfold registerWorker. authority_steps. Qed.

Lemma heartbeatWorker_keeps ctx workerID : keeps sameAuthority (heartbeatWorker ctx workerID).
Proof. unfold heartbeatWorker. authority_steps. Qed.

Lemma publishFile_keeps path content : keeps sameAuthority (publishFile path content).
Proof. by intros w. Qed.

Lemma Write_keeps store ctx input : keeps sameAuthority (Write store ctx input).
Proof.
  unfold Write, insertArtifact, Get. authority_steps. all: apply publishFile_keeps.
Qed.

Lemma SaveCheckpoint_keeps ctx runID v : keeps sameAuthority (SaveCheckpoint ctx runID v).
Proof.
  unfold SaveCheckpoint, loadPostgresEvents. case_decide; [by apply keeps_throw; apply _|].
  apply keeps_transaction; [intros w w' Hdb; split; by rewrite Hdb|]. authority_steps.
Qed.

(** *** The lease operations *)

(** A failed call outside and inside a transaction. *)
Lemma simulate_db w w' : w_db w' = w_db w -> Simulated w w'.
Proof. intros Hdb. by apply Simulated_same; rewrite Hdb. Qed.

Lemma acquireLease_Err ctx runID workerID ttl w err w' :
  acquireLease ctx runID workerID ttl w = (Err err, w') -> w_db w' = w_db w.
Proof. unfold acquireLease. case_decide; [by intros [= _ <-]|]. apply transaction_Err. Qed.

Lemma simulate_acquire ctx runID workerID ttl w :
  Simulated w (snd (acquireLease ctx runID workerID ttl w)).
Proof.
  destruct (acquireLease ctx runID workerID ttl w) as [[r|err] w'] eqn:Ha; cbn [snd];
    [|by apply simulate_db; eapply acquireLease_Err].
  apply acquireLease_Ok in Ha. intros id. destruct (decide (id = runID)) as [->|Hne].
  - destruct Ha as [row w' Hl _ Hw Ht _ _ Hdb|row w' Hl Hw [Hdb _ _] _|old row w' Hl _ Hmax Hw Ht _ _ Hdb];
      unfold fenceOf; rewrite Hdb; [right|by left|right]; cbn; rewrite lookup_insert_eq, Hl; cbn;
      unfold grantOfRow at 1; try (unfold grantOfRow at 1); rewrite Hw, Ht.
    + apply FenceGranted.
    + unfold maxFencingToken in Hmax. pose proof (u64_bounds (lr_fencing_token old)).
      rewrite (u64_small (_ + 1)) by lia. apply FenceTakenOver.
  - left. destruct Ha as [row w' _ _ _ _ _ _ Hdb|row w' _ _ [Hdb _ _] _|old row w' _ _ _ _ _ _ _ Hdb];
      unfold fenceOf; rewrite Hdb; cbn; by rewrite ?lookup_insert_ne by done.
Qed.

Lemma renewLease_Err ctx presented ttl w err w' :
  renewLease ctx presented ttl w = (Err err, w') -> w_db w' = w_db w.
Proof.
  unfold renewLease, mbind, M_bind at 1. unfold lift. destruct (validatePresentedLease _); [|by intros [= _ <-]].
  case_decide; [by intros [= _ <-]|]. apply transaction_Err.
Qed.

Lemma simulate_renew ctx presented ttl w : Simulated w (snd (renewLease ctx presented ttl w)).
Proof.
  destruct (renewLease ctx presented ttl w) as [[r|err] w'] eqn:Ha; cbn [snd];
    [|by apply simulate_db; eapply renewLease_Err].
  apply renewLease_Ok in Ha as (_ & _ & _ & row & expires & Hl & Hdb). intros id. left.
  unfold fenceOf. rewrite Hdb. cbn. f_equal. rewrite lookup_alter. case_decide; [|done].
  subst id. by rewrite Hl.
Qed.

Lemma validateLease_db ctx presented w : w_db (snd (validateLease ctx presented w)) = w_db w.
Proof.
  destruct (validateLease ctx presented w) as [[u|err] w'] eqn:Ha; cbn [snd].
  - by apply validateLease_Ok in Ha as [_ [? _ _]].
  - revert Ha. unfold validateLease, mbind, M_bind at 1, lift.
    destruct (validatePresentedLease _); [|by intros [= _ <-]]. apply transaction_Err.
Qed.

Lemma recordReceipt_Err ctx presented receipt w err w' :
  recordReceipt ctx presented receipt w = (Err err, w') -> w_db w' = w_db w.
Proof.
  unfold recordReceipt, mbind, M_bind, lift. destruct (validatePresentedLease _); [|by intros [= _ <-]].
  destruct (receiptRequestInvalid _ _); [by intros [= _ <-]|].
  destruct (ValidateEventData _); [|by intros [= _ <-]]. apply transaction_Err.
Qed.

Lemma recordReceipt_keeps ctx presented receipt : keeps sameAuthority (recordReceipt ctx presented receipt).
Proof.
  intros w. destruct (recordReceipt ctx presented receipt w) as [[r|err] w'] eqn:Ha; cbn [snd].
  - apply recordReceipt_Ok in Ha as (_ & _ & _ & _ & [(_ & Hdb & _)|(_ & Hr)]); [split; by rewrite Hdb|].
    destruct Hr as (planned & output & now & _ & _ & _ & _ & Hdb). split; by rewrite Hdb.
  - apply recordReceipt_Err in Ha. split; by rewrite Ha.
Qed.

(** Each operation of the system, on each Run, is at most one step of the protocol. *)
Lemma step_simulated ok w w' : step ok w w' -> Simulated w w'.
Proof.
  intros [ctx v event _|ctx runID v|ctx id|ctx id|ctx runID id ttl|ctx p ttl|ctx p|ctx p receipt|st ctx input].
  - apply simulate_append.
  - apply simulate_sameAuthority, SaveCheckpoint_keeps.
  - apply simulate_sameAuthority, registerWorker_keeps.
  - apply simulate_sameAuthority, heartbeatWorker_keeps.
  - apply simulate_acquire.
  - apply simulate_renew.
  - apply simulate_db, validateLease_db.
  - apply simulate_sameAuthority, recordReceipt_keeps.
  - apply simulate_sameAuthority, Write_keeps.
Qed.
End system.
