(* ===== verification/SystemTheorems.v ===== *)
(** * What every history of the managed system guarantees

    Theorems on all sequences of operations, by rule induction over the step
    relation: consistency of the tables, append-only history, single writer per
    grant, monotone leases, and powerlessness of a superseded worker. *)
From stdpp Require Import sorting relations.
From S2P Require Import Prelude Sha256 GoLib Types Decide Reducer Receipt Effect.
From S2P Require Import Store Database Artifact PostgresStore PostgresFacts.
From S2P Require Import PostgresTheorems Lease System.

Section theorems.
Context `{Postgres} {storable : string -> Prop} `{!PostgresLaws storable} `{CredentialScanner}.

(** ** Consistency *)

(** The tables the invariant reads. *)
Definition sameTables (w w' : World) : Prop :=
  db_runs (w_db w') = db_runs (w_db w) /\ db_events (w_db w') = db_events (w_db w).

#[export] Instance sameTables_preorder : PreOrder sameTables.
Proof. split; [by intros w|]. intros w1 w2 w3 [A1 A2] [B1 B2]. split; congruence. Qed.

Lemma frame_sameTables : subrelation frame sameTables.
Proof. intros w w' [Hdb _ _]. split; by rewrite Hdb. Qed.

Lemma DbInv_sameTables w w' : sameTables w w' -> DbInv (w_db w) -> DbInv (w_db w').
Proof.
  intros [Hr He] [H1 H2]. split; intros runID; unfold pgRows in *; rewrite Hr, He; [apply H1|apply H2].
Qed.

Ltac table_steps :=
  repeat first [ apply keeps_bind; [apply _| |intros ?] | progress cbv zeta | case_decide | case_match
               | apply keeps_wrapM | by apply keeps_exec; intros ?; split ];
  try solve [apply keeps_readonly; [exact frame_sameTables|eauto with readonly]].

Lemma registerWorker_tables ctx workerID : keeps sameTables (registerWorker ctx workerID).
Proof. unfold registerWorker. table_steps. Qed.

Lemma heartbeatWorker_tables ctx workerID : keeps sameTables (heartbeatWorker ctx workerID).
Proof. unfold heartbeatWorker. table_steps. Qed.

Lemma Write_tables store ctx input : keeps sameTables (Write store ctx input).
Proof. unfold Write, insertArtifact, Get. table_steps. all: by intros w. Qed.

Lemma acquireLease_tables ctx runID workerID ttl : keeps sameTables (acquireLease ctx runID workerID ttl).
Proof.
  intros w. destruct (acquireLease ctx runID workerID ttl w) as [[r|err] w'] eqn:Ha; cbn [snd].
  - by apply acquireLease_Ok in Ha as [? ? _ _ _ _ _ _ Hdb|? ? _ _ [Hdb _ _] _|? ? ? _ _ _ _ _ _ _ Hdb];
      split; rewrite Hdb.
  - apply acquireLease_Err in Ha. by split; rewrite Ha.
Qed.

Lemma renewLease_tables ctx presented ttl : keeps sameTables (renewLease ctx presented ttl).
Proof.
  intros w. destruct (renewLease ctx presented ttl w) as [[r|err] w'] eqn:Ha; cbn [snd].
  - apply renewLease_Ok in Ha as (_ & _ & _ & row & expires & _ & Hdb). by split; rewrite Hdb.
  - apply renewLease_Err in Ha. by split; rewrite Ha.
Qed.

Lemma recordReceipt_tables ctx presented receipt : keeps sameTables (recordReceipt ctx presented receipt).
Proof.
  intros w. destruct (recordReceipt ctx presented receipt w) as [[r|err] w'] eqn:Ha; cbn [snd].
  - apply recordReceipt_Ok in Ha as (_ & _ & _ & _ & [(_ & Hdb & _)|(_ & Hr)]); [by split; rewrite Hdb|].
    destruct Hr as (planned & output & now & _ & _ & _ & _ & Hdb). by split; rewrite Hdb.
  - apply recordReceipt_Err in Ha. by split; rewrite Ha.
Qed.

Lemma SaveCheckpoint_Err ctx runID v w err w' :
  SaveCheckpoint ctx runID v w = (Err err, w') -> w_db w' = w_db w.
Proof. unfold SaveCheckpoint. case_decide; [by intros [= _ <-]|]. apply transaction_Err. Qed.

Lemma step_DbInv w w' : step (storableEvent (storable:=storable)) w w' -> DbInv (w_db w) -> DbInv (w_db w').
Proof.
  intros [ctx v event Hok|ctx runID v|ctx id|ctx id|ctx runID id ttl|ctx p ttl|ctx p|ctx p receipt|st ctx input] HI.
  - by apply appendPostgres_refines.
  - destruct (SaveCheckpoint ctx runID v w) as [[cp|err] w1] eqn:Hs; cbn [snd].
    + by apply (SaveCheckpoint_Ok w ctx runID v cp w1 HI) in Hs as [? _].
    + by rewrite (SaveCheckpoint_Err _ _ _ _ _ _ Hs).
  - by eapply DbInv_sameTables; [apply registerWorker_tables|].
  - by eapply DbInv_sameTables; [apply heartbeatWorker_tables|].
  - by eapply DbInv_sameTables; [apply acquireLease_tables|].
  - by eapply DbInv_sameTables; [apply renewLease_tables|].
  - by rewrite validateLease_db.
  - by eapply DbInv_sameTables; [apply recordReceipt_tables|].
  - by eapply DbInv_sameTables; [apply Write_tables|].
Qed.

Lemma reachable_DbInv w : rtc (step (storableEvent (storable:=storable))) emptyWorld w -> DbInv (w_db w).
Proof.
  intros Hr. assert (DbInv (w_db emptyWorld)) as HI by apply emptyDatabase_inv. revert HI.
  induction Hr as [w|w w1 w2 Hs _ IH]; [done|]. intros HI. by apply IH, (step_DbInv w).
Qed.

(** C40: every reachable state of the managed system is consistent: whatever appends,
    checkpoints, registrations, acquisitions, renewals, receipts and artifact writes
    were performed, and whether they succeeded or failed, every Run's rows are a log
    the reducer accepts, numbered from one without gaps, and the Run row is its
    projection. *)
Theorem reachable_consistent w runID row :
  rtc (step (storableEvent (storable:=storable))) emptyWorld w ->
  db_runs (w_db w) !! runID = Some row ->
  numbered 1 (pgRows (w_db w) runID) /\
  exists st, Reduce (pgLog w runID) = Ok st /\ Projects row st.
Proof.
  intros HI%reachable_DbInv Hrow. split; [by apply DbInv_numbered|].
  destruct (pgLog_reduces w runID row HI Hrow) as (st & ? & ? & _). by exists st.
Qed.

(** ** Fencing *)

(** The invariant and the order of the protocol along a history. *)
Lemma history_fence ok w w' runID :
  rtc (step ok) w w' -> FenceInv (fenceOf (w_db w) runID) ->
  FenceInv (fenceOf (w_db w') runID) /\ holderLe (fenceOf (w_db w) runID) (fenceOf (w_db w') runID) /\
  fn_writes (fenceOf (w_db w) runID) `prefix_of` fn_writes (fenceOf (w_db w') runID).
Proof.
  induction 1 as [w|w w1 w2 Hs _ IH]; intros HI; [done|].
  destruct (step_simulated _ _ _ Hs runID) as [Heq|Hstep]; [by rewrite Heq in IH; apply IH|].
  destruct IH as (H1 & H2 & H3); [by eapply fenceStep_inv|]. split; [done|].
  split; [etrans; [by apply fenceStep_holder|done]|].
  etrans; [|done]. by destruct Hstep; [..|apply prefix_app_r].
Qed.

Lemma reachable_fence ok w runID : rtc (step ok) emptyWorld w -> FenceInv (fenceOf (w_db w) runID).
Proof. intros Hr. by apply (history_fence ok emptyWorld w runID Hr). Qed.

Lemma sorted_lookup ws i j g1 g2 :
  StronglySorted outranks ws -> ws !! i = Some g1 -> ws !! j = Some g2 -> i <= j -> outranks g1 g2.
Proof.
  intros Hs. revert i j. induction Hs as [|x ws _ IH Hx]; intros i j Hi Hj Hle; [done|].
  destruct i as [|i], j as [|j]; cbn in *; try lia.
  - by simplify_eq.
  - simplify_eq. by eapply Forall_lookup_1.
  - apply (IH i j); [done..|lia].
Qed.

(** C1: one writer at a time: in every reachable state the fenced events of a Run, in
    log order, carry fencing tokens that never decrease, two events with the same token
    come from the same worker, and none outranks the current lease of the Run. *)
Theorem single_writer ok w runID i j g1 g2 :
  rtc (step ok) emptyWorld w ->
  let ws := writers (pgRows (w_db w) runID) in
  ws !! i = Some g1 -> ws !! j = Some g2 -> i <= j ->
  outranks g1 g2 /\
  exists row, db_leases (w_db w) !! runID = Some row /\ outranks g2 (grantOfRow row).
Proof.
  intros HI%(reachable_fence _ _ runID) ws Hi Hj Hle. unfold FenceInv, fenceOf in HI. cbn in HI.
  fold ws in HI. destruct (db_leases (w_db w) !! runID) as [row|]; cbn in HI; [|by rewrite HI in Hi].
  split.
  - apply (sorted_lookup (ws ++ [grantOfRow row]) i j); [done| | |done]; by apply lookup_app_l_Some.
  - exists row. split; [done|].
    apply (sorted_lookup (ws ++ [grantOfRow row]) j (length ws)); [done|by apply lookup_app_l_Some| |].
    + by rewrite lookup_app_r, Nat.sub_diag by done.
    + apply lookup_lt_Some in Hj. lia.
Qed.

(** A presented token that is not the current one authorises nothing. *)
Lemma stale_not_authorised w w' e row :
  db_leases (w_db w) !! ev_RunID e = Some row -> grantOfRow row <> (ev_FencingToken e, ev_WorkerID e) ->
  ~ Authorised w w' e.
Proof.
  intros Hrow Hne (row' & n & Hrow' & Hw & Ht & _). rewrite Hrow in Hrow'. injection Hrow' as <-.
  apply Hne. unfold grantOfRow. by rewrite Hw, Ht.
Qed.

Lemma stale_not_held w w' presented row :
  db_leases (w_db w) !! ls_RunID presented = Some row ->
  grantOfRow row <> (ls_FencingToken presented, ls_WorkerID presented) -> ~ Holds w w' presented.
Proof.
  intros Hrow Hne (row' & n & Hrow' & Hw & Ht & _). rewrite Hrow in Hrow'. injection Hrow' as <-.
  apply Hne. unfold grantOfRow. by rewrite Hw, Ht.
Qed.

(** a superseded worker is powerless for ever: once another worker took a Run's
    lease over, then in every later state the old lease can neither write a fenced
    event, nor be renewed or validated, nor record a receipt. *)
Theorem superseded_is_powerless ok w w' runID row old :
  db_leases (w_db w) !! runID = Some row -> FenceInv (fenceOf (w_db w) runID) ->
  (fst old < fst (grantOfRow row))%Z -> rtc (step ok) w w' ->
  (forall ctx v event, ev_RunID event = runID -> (ev_FencingToken event, ev_WorkerID event) = old ->
     RequiresFencing w' (defaultPayloadVersion event) ->
     is_ok (fst (appendPostgres ctx v event w')) = false) /\
  (forall ctx presented ttl receipt, ls_RunID presented = runID ->
     (ls_FencingToken presented, ls_WorkerID presented) = old ->
     is_ok (fst (renewLease ctx presented ttl w')) = false /\
     is_ok (fst (validateLease ctx presented w')) = false /\
     is_ok (fst (recordReceipt ctx presented receipt w')) = false).
Proof.
  intros Hrow HI Hlt Hh. destruct (history_fence ok w w' runID Hh HI) as (_ & Hle & _).
  unfold holderLe, fenceOf in Hle. cbn in Hle. rewrite Hrow in Hle. destruct Hle as (g & Hg & Hout).
  apply fmap_Some in Hg as (row' & Hrow' & ->).
  assert (grantOfRow row' <> old) as Hne.
  { intros <-. destruct Hout as [Hout|Hout]; [lia|]. rewrite Hout in Hlt. lia. }
  split.
  - intros ctx v event <- <- Hreq. destruct (appendPostgres _ _ _ _) as [[r|err] w1] eqn:Ha; [|done].
    apply appendPostgres_Ok in Ha as (_ & HA & _). exfalso. specialize (HA Hreq). revert HA.
    eapply stale_not_authorised; unfold defaultPayloadVersion; by case_decide.
  - intros ctx presented ttl receipt <- <-.
    assert (forall w1, ~ Holds w' w1 presented) as Hno by (intros w1; by eapply stale_not_held).
    split_and!.
    + destruct (renewLease _ _ _ _) as [[r|err] w1] eqn:Ha; [|done].
      apply renewLease_Ok in Ha as [Ha _]. by apply Hno in Ha.
    + destruct (validateLease _ _ _) as [[r|err] w1] eqn:Ha; [|done].
      apply validateLease_Ok in Ha as [Ha _]. by apply Hno in Ha.
    + destruct (recordReceipt _ _ _ _) as [[r|err] w1] eqn:Ha; [|done].
      apply recordReceipt_Ok in Ha as [Ha _]. by apply Hno in Ha.
Qed.

(** ** Acquisition *)

Lemma writeLease_total runID workerID token ttl w :
  is_Some (db_workers (w_db w) !! workerID) -> (0 < i64 token)%Z -> exists l w', writeLease runID workerID token ttl w = (Ok l, w').
Proof.
  intros Hw Ht. unfold writeLease, mbind, M_bind, clock_timestamp, query, gets. cbn [w_db]. rewrite bool_decide_true by done.
  unfold constraint. rewrite (proj2 (Z.ltb_lt _ _) Ht). by eexists _, _.
Qed.

(** Why an acquisition fails *)
Definition Refused (runID workerID : string) (ttl : Z) (w : World) (err : error) : Prop :=
  (runID = "" \/ workerID = "" \/ (ttl <= 0)%Z) \/ db_workers (w_db w) !! workerID = None \/ db_runs (w_db w) !! runID = None \/
  match db_leases (w_db w) !! runID with
  | None => is_Some (unresolvedLegacyAction runID (w_db w))
  | Some row =>
      (lr_worker_id row <> workerID /\ (clock (w_tick w) < lr_expires_at row)%Z /\ errors_Is err ErrLeaseHeld = true) \/
      ((lr_expires_at row <= clock (w_tick w))%Z /\ (maxFencingToken <= u64 (lr_fencing_token row))%Z)
  end.

Lemma acquireLease_refused ctx runID workerID ttl w err w' :
  acquireLease ctx runID workerID ttl w = (Err err, w') -> Refused runID workerID ttl w err.
Proof.
  unfold acquireLease, Refused. intros Ha. case_decide as Hargs; [by left|right].
  unfold transaction, mbind, M_bind, query, gets, loadLease in Ha.
  destruct (decide (is_Some (db_workers (w_db w) !! workerID))) as [Hwk|Hwk]; [right|left; by apply eq_None_not_Some].
  rewrite bool_decide_true in Ha by done. cbn [negb] in Ha.
  destruct (decide (is_Some (db_runs (w_db w) !! runID))) as [Hrun|Hrun]; [right|left; by apply eq_None_not_Some].
  rewrite bool_decide_true in Ha by done. cbn [negb] in Ha. unfold query, gets in Ha.
  destruct (db_leases (w_db w) !! runID) as [row|] eqn:Hl; cbn [fmap option_fmap option_map] in Ha.
  - unfold acquireCurrent, mbind, M_bind, clock_timestamp, expiredAt in Ha.
    cbn [ls_ExpiresAt ls_WorkerID ls_FencingToken leaseOfRow] in Ha.
    destruct (Z.ltb_spec (clock (w_tick w)) (lr_expires_at row)) as [Hc|Hc]; cbn [negb] in Ha.
    + destruct (decide (lr_worker_id row = workerID)) as [Hsame|Hne]; [done|]. injection Ha as <- _. by left.
    + destruct (decide (maxFencingToken <= u64 (lr_fencing_token row))%Z) as [Hmax|Hmax]; [by right|]. exfalso.
      unfold maxFencingToken in Hmax. pose proof (u64_bounds (lr_fencing_token row)).
      assert (u64 (u64 (lr_fencing_token row) + 1) = u64 (lr_fencing_token row) + 1)%Z as Hu by (apply u64_small; lia).
      destruct (writeLease_total runID workerID (u64 (u64 (lr_fencing_token row) + 1)) ttl (ticked w) Hwk) as (l & w1 & E);
        [rewrite Hu, i64_small; lia|]. unfold wrapM, ticked in *. by rewrite E in Ha.
  - unfold acquireFirst, mbind, M_bind, query, gets in Ha.
    destruct (unresolvedLegacyAction runID (w_db w)) as [planned|]; [by eexists|]. exfalso.
    destruct (writeLease_total runID workerID 1 ttl w Hwk) as (l & w1 & E); [done|]. unfold wrapM in Ha. by rewrite E in Ha.
Qed.

(** C29: acquiring a lease is exclusive, and decided exactly.  Success makes the caller the
    recorded holder: of a first lease with token one, when no legacy action is unresolved;
    of its own lease, unexpired and as it was; or of an expired lease, under the next token.
    Otherwise no table changes, and there is a reason: bad arguments, an unknown worker or
    Run, an unresolved legacy action, tokens used up, or the unexpired lease of another
    worker, for which the error is [ErrLeaseHeld]. *)
Theorem acquire_is_exclusive ctx runID workerID ttl w :
  match acquireLease ctx runID workerID ttl w with
  | (Ok r, w') =>
      exists row', db_leases (w_db w') = <[runID := row']> (db_leases (w_db w)) /\ lr_worker_id row' = workerID /\
        aq_Lease r = leaseOfRow runID row' /\
        match db_leases (w_db w) !! runID with
        | None => grantOfRow row' = (1%Z, workerID) /\ unresolvedLegacyAction runID (w_db w) = None
        | Some row =>
            if aq_TookOver r
            then (lr_expires_at row <= clock (w_tick w))%Z /\
                 grantOfRow row' = ((fst (grantOfRow row) + 1)%Z, workerID)
            else (clock (w_tick w) < lr_expires_at row)%Z /\ row' = row
        end
  | (Err err, w') => w_db w' = w_db w /\ Refused runID workerID ttl w err
  end.
Proof.
  destruct (acquireLease ctx runID workerID ttl w) as [[r|err] w'] eqn:Ha.
  - apply acquireLease_Ok in Ha as [row ? Hl Hu Hw Ht _ _ Hdb|row ? Hl Hw [Hdb _ _] Hc
      |old row ? Hl Hc Hmax Hw Ht _ _ Hdb]; rewrite Hl; exists row; rewrite Hdb; cbn;
      (split; [try done; by rewrite insert_id|split; [done|split; [done|]]]).
    + unfold grantOfRow. by rewrite Ht, Hw.
    + done.
    + split; [done|]. unfold grantOfRow. rewrite Ht, Hw. unfold maxFencingToken in Hmax.
      pose proof (u64_bounds (lr_fencing_token old)). by rewrite u64_small by lia.
  - split; [by eapply acquireLease_Err|by eapply acquireLease_refused].
Qed.

(** ** History *)

(** [Durable w w']: nothing recorded was altered or removed. *)
Record Durable (w w' : World) : Prop := {
  du_events : forall runID, pgRows (w_db w) runID `prefix_of` pgRows (w_db w') runID;
  du_receipts : db_receipts (w_db w) ⊆ db_receipts (w_db w');
  du_artifacts : db_artifacts (w_db w) ⊆ db_artifacts (w_db w');
  du_attempts : db_attempts (w_db w) ⊆ db_attempts (w_db w')
}.

#[export] Instance Durable_preorder : PreOrder Durable.
Proof. split; [by split|]. intros w1 w2 w3 [A1 A2 A3 A4] [B1 B2 B3 B4].
  split; [intros id; by trans (pgRows (w_db w2) id)|by trans (db_receipts (w_db w2))
         |by trans (db_artifacts (w_db w2))|by trans (db_attempts (w_db w2))].
Qed.

Lemma Durable_db w w' : w_db w' = w_db w -> Durable w w'.
Proof. intros Hdb. by split; intros; rewrite Hdb. Qed.

Lemma frame_Durable : subrelation frame Durable.
Proof. intros w w' [Hdb _ _]. by apply Durable_db. Qed.

Create HintDb durable.

Ltac durable_steps :=
  repeat first [ solve [eauto 1 with durable nocore] | apply keeps_bind; [apply _| |intros ?] | progress cbv zeta | case_decide | case_match
               | apply keeps_wrapM | apply keeps_exec; intros ?; by split ];
  try solve [apply keeps_readonly; [exact frame_Durable|eauto with readonly]].

Lemma registerWorker_durable ctx workerID : keeps Durable (registerWorker ctx workerID).
Proof. unfold registerWorker. durable_steps. Qed.

Lemma heartbeatWorker_durable ctx workerID : keeps Durable (heartbeatWorker ctx workerID).
Proof. unfold heartbeatWorker. durable_steps. Qed.

Lemma SaveCheckpoint_durable ctx runID v : keeps Durable (SaveCheckpoint ctx runID v).
Proof.
  unfold SaveCheckpoint, loadPostgresEvents. case_decide; [by apply keeps_throw; apply _|].
  apply keeps_transaction; [exact Durable_db|]. durable_steps.
Qed.

(** An artifact row is only ever added. *)
Lemma insertArtifact_durable input digest path size : keeps Durable (insertArtifact input digest path size).
Proof.
  intros w. unfold insertArtifact, mbind, M_bind, clock_timestamp, query, gets, constraint, exec, modify.
  destruct (sha256DigestPattern digest); [|by split]. cbn.
  destruct (db_artifacts (w_db w) !! ai_ID input) eqn:Hnone; [by split|]. cbn.
  destruct (bool_decide _); [|by split]. cbn.
  match goal with |- context [if ?b then _ else _] => destruct b end; [|by split].
  split; cbn; [done..| |done]. by apply insert_subseteq.
Qed.

#[local] Hint Resolve insertArtifact_durable : durable.

Lemma Write_durable store ctx input : keeps Durable (Write store ctx input).
Proof.
  unfold Write, Get. durable_steps. all: intros w; by apply Durable_db.
Qed.

Lemma appendPostgres_durable ctx v event : keeps Durable (appendPostgres ctx v event).
Proof.
  intros w. destruct (appendPostgres ctx v event w) as [[r|err] w'] eqn:Ha; cbn [snd];
    [|by apply Durable_db; eapply appendPostgres_Err].
  apply appendPostgres_Ok in Ha as (_ & _ & _ & HO).
  destruct HO as [existing w' HF _ _|w0 row payload time st w' HP _ HW]; [by apply frame_Durable|].
  pose proof (Prepared_events _ _ _ (ev_RunID (defaultPayloadVersion event)) HP) as Hev.
  assert (db_receipts (w_db w0) = db_receipts (w_db w) /\ db_artifacts (w_db w0) = db_artifacts (w_db w) /\
          db_attempts (w_db w0) = db_attempts (w_db w)) as (Er & Ea & Et)
    by by destruct HP as [[-> _ _]|(_ & _ & _ & _ & t & ->)].
  pose proof (wn_attempts _ _ _ _ _ _ _ _ HW) as Hatt. rewrite Et in Hatt.
  pose proof (wn_tables _ _ _ _ _ _ _ _ HW) as Htab.
  split; [|by rewrite Htab; cbn; rewrite ?Er, ?Ea..|done]. intros runID. rewrite Htab, pgRows_insert.
  case_decide as Hd; [subst; rewrite Hev; by apply prefix_app_r|].
  by rewrite (Prepared_events _ _ _ _ HP).
Qed.

Lemma step_durable ok w w' : step ok w w' -> Durable w w'.
Proof.
  intros [ctx v event _|ctx runID v|ctx id|ctx id|ctx runID id ttl|ctx p ttl|ctx p|ctx p receipt|st ctx input].
  - apply appendPostgres_durable.
  - apply SaveCheckpoint_durable.
  - apply registerWorker_durable.
  - apply heartbeatWorker_durable.
  - destruct (acquireLease ctx runID id ttl w) as [[r|err] w1] eqn:Ha; cbn [snd].
    + by apply acquireLease_Ok in Ha as [? ? _ _ _ _ _ _ Hdb|? ? _ _ [Hdb _ _] _|? ? ? _ _ _ _ _ _ _ Hdb];
        split; intros; rewrite Hdb.
    + by eapply Durable_db, acquireLease_Err.
  - destruct (renewLease ctx p ttl w) as [[r|err] w1] eqn:Ha; cbn [snd].
    + apply renewLease_Ok in Ha as (_ & _ & _ & row & expires & _ & Hdb). by split; intros; rewrite Hdb.
    + by eapply Durable_db, renewLease_Err.
  - apply Durable_db, validateLease_db.
  - destruct (recordReceipt ctx p receipt w) as [[r|err] w1] eqn:Ha; cbn [snd].
    + apply recordReceipt_Ok in Ha as (_ & _ & _ & _ & [(_ & Hdb & _)|(_ & Hr)]); [by apply Durable_db|].
      destruct Hr as (planned & output & now & _ & _ & _ & Hnone & Hdb).
      split; intros; rewrite Hdb; cbn; [done|by apply insert_subseteq|done..].
    + by eapply Durable_db, recordReceipt_Err.
  - apply Write_durable.
Qed.

(** history is append-only: along any sequence of operations the rows of every
    Run are only extended, no receipt, artifact or attempt row is altered or removed,
    and a Run that has a lease - a managed Run - has one for ever. *)
Theorem history_is_append_only ok w w' :
  rtc (step ok) w w' ->
  Durable w w' /\
  forall runID, is_Some (db_leases (w_db w) !! runID) -> is_Some (db_leases (w_db w') !! runID).
Proof.
  induction 1 as [w|w w1 w2 Hs _ [IHd IHl]]; [done|]. split; [etrans; [by eapply step_durable|done]|].
  intros runID [row Hrow]. apply IHl.
  pose proof (step_simulated _ _ _ Hs runID) as Hsim. unfold fenceOf in Hsim. cbn in Hsim.
  rewrite Hrow in Hsim. cbn in Hsim. apply fmap_is_Some with (f := grantOfRow).
  destruct Hsim as [[= -> _]|Hsim]; [by eexists|]. inversion Hsim; by eexists.
Qed.

(** ** Content *)

(** Only an append changes the events. *)
Lemma step_events ok w w' :
  step ok w w' ->
  (exists ctx v event, ok event /\ w' = snd (appendPostgres ctx v event w)) \/
  db_events (w_db w') = db_events (w_db w).
Proof.
  intros [ctx v event Hok|ctx runID v|ctx id|ctx id|ctx runID id ttl|ctx p ttl|ctx p|ctx p receipt|st ctx input].
  - left. by exists ctx, v, event.
  - right. apply SaveCheckpoint_keeps.
  - right. apply registerWorker_tables.
  - right. apply heartbeatWorker_tables.
  - right. apply acquireLease_tables.
  - right. apply renewLease_tables.
  - right. by rewrite validateLease_db.
  - right. apply recordReceipt_tables.
  - right. apply Write_tables.
Qed.

Definition CleanEvents (db : Database) : Prop :=
  forall runID row, row ∈ pgRows db runID -> containsCredentialMaterial (er_payload row) = false.

Lemma append_clean ctx v event w :
  storableEvent (storable:=storable) event -> CleanEvents (w_db w) ->
  CleanEvents (w_db (snd (appendPostgres ctx v event w))).
Proof.
  intros Hs HC. destruct (appendPostgres ctx v event w) as [[r|err] w'] eqn:Ha; cbn [snd];
    [|apply appendPostgres_Err in Ha; by rewrite Ha].
  apply appendPostgres_Ok in Ha as (HV & _ & _ & HO). set (e := defaultPayloadVersion event) in *.
  assert (ev_Data e = ev_Data event) as Hd by (unfold e, defaultPayloadVersion; by case_decide).
  inversion HO as [existing ? [Hdb _ _]|w0 row payload time st ? HP Hst HW]; subst; [by rewrite Hdb|].
  pose proof (wn_payload _ _ _ _ _ _ _ _ HW) as Hj. rewrite Hd in Hj.
  apply (storable_payload event) in Hj; [|done]. subst payload.
  intros runID row'. rewrite (wn_tables _ _ _ _ _ _ _ _ HW), pgRows_insert.
  case_decide as Hr; rewrite (Prepared_events _ _ _ _ HP); [|apply HC].
  intros [Hi|Hi]%elem_of_app; [by apply (HC (ev_RunID e))|]. apply list_elem_of_singleton in Hi as ->.
  by apply validateAppendInput_Ok in HV as (_ & _ & _ & HV).
Qed.

(** no recorded event carries credential material: in every reachable state the
    payload of every event row passes the credential scanner, so nothing read back,
    replayed or projected from the log can contain what the scanner finds. *)
Theorem no_credential_is_stored w runID row :
  rtc (step (storableEvent (storable:=storable))) emptyWorld w ->
  row ∈ pgRows (w_db w) runID -> containsCredentialMaterial (er_payload row) = false.
Proof.
  intros Hr. assert (CleanEvents (w_db emptyWorld)) as HC by (intros id r Hi; by apply elem_of_nil in Hi).
  revert HC. induction Hr as [w|w w1 w2 Hs _ IH]; [intros HC; apply HC|]. intros HC. apply IH.
  destruct (step_events _ _ _ Hs) as [(ctx & v & event & Hok & ->)|He]; [by apply append_clean|].
  intros id r. unfold pgRows. rewrite He. apply HC.
Qed.
End theorems.
