(* ===== verification/ManagedWitnesses.v ===== *)
(** * A concrete managed Run

    A database server that meets the documented laws, and the worlds a managed Run
    goes through: created, leased, planned, with a receipt, completed, taken over. *)
From stdpp Require Import relations.
From S2P Require Import Prelude Sha256 GoLib Types Decide Reducer Lifecycle Replay ReplayTheorems Receipt Effect.
From S2P Require Import Store Samples Database Artifact PostgresStore PostgresFacts PostgresTheorems Lease System.
From S2P Require Import SystemTheorems.

(** A clock of one second per reading, and a server that stores every text. *)
#[export] Instance sampleServer : Postgres := {
  clock := fun n => (Z.of_nat n * 1000000)%Z;
  jsonb := Ok;
  jsonb_state := Ok;
  make_interval := fun ttl => (ttl / 1000)%Z
}.

Definition anyText (value : string) : Prop := True.

#[export] Instance sampleServer_laws : PostgresLaws anyText.
Proof.
  split; [|intros ttl Ht; cbn; apply Z.div_pos; lia|done].
  intros n m Hnm. cbn. lia.
Qed.

#[export] Existing Instance sampleScanner.

Lemma storable_any e : typedEvent e -> storableEvent (storable := anyText) e.
Proof. intros Ht. split; [done|]. by apply Forall_true. Qed.

(** ** The worlds *)

Definition createdWorld : World := snd (appendPostgres background 0 createRequest emptyWorld).

Definition halfMinute : Z := 30 * 10 ^ 9.

Definition leasedWorld : World :=
  snd (acquireLease background "run-1" "worker-1" halfMinute
    (snd (registerWorker background "worker-2" (snd (registerWorker background "worker-1" createdWorld))))).

Definition firstLease : Lease := MkLease "run-1" "worker-1" 1 0 0.

(** An event of the first worker. *)
Definition leasedEvent (t : EventType) (d : EventData) (key : string) : Event :=
  MkEvent "run-1" 0 t 1 d key "" "run-1" "worker-1" 1 "".

Definition startData : EventData :=
  emptyEventData <| ed_ActionID := cmd_ActionID (Decide created) |>
    <| ed_ActionType := CommandStartAttempt |> <| ed_AttemptID := "run-1:attempt:1" |>
    <| ed_IdempotencyScope := IdempotencyScoped |>.

Definition startPlan : Event := leasedEvent EventActionPlanned startData "start:planned".

Definition plannedWorld : World := snd (appendPostgres background 1 startPlan leasedWorld).

Definition startOutput : EventData := emptyEventData <| ed_AttemptID := "run-1:attempt:1" |>.

Definition startReceipt : ActionReceipt :=
  MkActionReceipt "" "run-1" (cmd_ActionID (Decide created)) CommandStartAttempt IdempotencyScoped
    startOutput (DigestEventData startOutput) "" "" 0 "" 0 0.

Definition receiptWorld : World :=
  snd (recordReceipt background firstLease startReceipt plannedWorld).

Definition startCompletion : Event :=
  leasedEvent EventActionCompleted
    (startOutput <| ed_ActionID := cmd_ActionID (Decide created) |>
       <| ed_ActionType := CommandStartAttempt |> <| ed_IdempotencyScope := IdempotencyScoped |>
       <| ed_ReceiptID := rcp_ID (defaultReceiptID startReceipt) |>
       <| ed_OutputDigest := DigestEventData startOutput |>) "start:completed".

Definition completedWorld : World := snd (appendPostgres background 2 startCompletion receiptWorld).

(** Time passes: the first worker checks its lease until it has expired, and the
    second takes the Run over. *)
Fixpoint wait (n : nat) (w : World) : World :=
  match n with O => w | S n' => wait n' (snd (validateLease background firstLease w)) end.

Definition expiredWorld : World := wait 40 completedWorld.

Definition takenOverWorld : World :=
  snd (acquireLease background "run-1" "worker-2" halfMinute expiredWorld).

(** * The theorems on the PostgreSQL store and the managed system, at concrete worlds *)

(** ** How the sample worlds are reached *)

Abbreviation sampleStep := (step (storableEvent (storable := anyText))).

Lemma rtc_snoc w w1 w2 : rtc sampleStep w w1 -> sampleStep w1 w2 -> rtc sampleStep w w2.
Proof. intros H1 H2. by eapply rtc_r. Qed.

Lemma typed_small e : (0 <= ev_FencingToken e <= 1)%Z -> storableEvent (storable := anyText) e.
Proof. intros Ht. apply storable_any. unfold typedEvent. lia. Qed.

Lemma createdWorld_reachable : rtc sampleStep emptyWorld createdWorld.
Proof. eapply rtc_snoc; [done|]. apply StepAppend, typed_small. done. Qed.

Lemma leasedWorld_reachable : rtc sampleStep emptyWorld leasedWorld.
Proof.
  eapply rtc_snoc; [|apply StepAcquire]. eapply rtc_snoc; [|apply StepRegister].
  eapply rtc_snoc; [apply createdWorld_reachable|apply StepRegister].
Qed.

Lemma plannedWorld_reachable : rtc sampleStep emptyWorld plannedWorld.
Proof. eapply rtc_snoc; [apply leasedWorld_reachable|]. by apply StepAppend, typed_small. Qed.

Lemma receiptWorld_reachable : rtc sampleStep emptyWorld receiptWorld.
Proof. eapply rtc_snoc; [apply plannedWorld_reachable|apply StepReceipt]. Qed.

Lemma completedWorld_reachable : rtc sampleStep emptyWorld completedWorld.
Proof. eapply rtc_snoc; [apply receiptWorld_reachable|]. by apply StepAppend, typed_small. Qed.

Lemma leased_to_completed : rtc sampleStep leasedWorld completedWorld.
Proof.
  apply (rtc_snoc _ receiptWorld); [|by apply StepAppend, typed_small].
  apply (rtc_snoc _ plannedWorld); [|apply StepReceipt].
  apply (rtc_snoc _ leasedWorld); [done|by apply StepAppend, typed_small].
Qed.

Lemma wait_reachable n w : rtc sampleStep w (wait n w).
Proof. revert w. induction n as [|n IH]; intros w; [done|]. eapply rtc_l; [apply StepValidate|apply IH]. Qed.

Lemma takenOverWorld_reachable : rtc sampleStep emptyWorld takenOverWorld.
Proof.
  eapply rtc_snoc; [|apply StepAcquire]. etrans; [apply completedWorld_reachable|apply wait_reachable].
Qed.

Lemma createdWorld_inv : DbInv (w_db createdWorld).
Proof. apply (reachable_DbInv (storable := anyText)), createdWorld_reachable. Qed.

Lemma leasedWorld_inv : DbInv (w_db leasedWorld).
Proof. apply (reachable_DbInv (storable := anyText)), leasedWorld_reachable. Qed.

(** ** The store *)

Lemma postgres_store_refines_witness :
  exists r time, appendSpec (stampTime time) (pgLog leasedWorld "run-1") 1 startPlan =
    (Ok r, pgLog plannedWorld "run-1").
Proof.
  destruct (postgres_store_refines (storable := anyText) leasedWorld background 1 startPlan
    leasedWorld_inv (typed_small startPlan ltac:(cbn; lia))) as [_ H].
  change (snd (appendPostgres background 1 startPlan leasedWorld)) with plannedWorld in H.
  destruct (fst (appendPostgres background 1 startPlan leasedWorld)) as [r|] eqn:Hr.
  - destruct H as (time & H & _). exists r, time. exact H.
  - exfalso. revert Hr. vm_compute. discriminate.
Defined.

(** The results of two appends of the sample Run. *)
Definition planResult : AppendResult :=
  MkAppendResult (recordedEvent 1 startPlan 9000000) true.
Definition completionResult : AppendResult :=
  MkAppendResult (recordedEvent 2 startCompletion 15000000) true.

Lemma plan_appended : appendPostgres background 1 startPlan leasedWorld = (Ok planResult, plannedWorld).
Proof. vm_compute. reflexivity. Qed.

Lemma completion_appended :
  appendPostgres background 2 startCompletion receiptWorld = (Ok completionResult, completedWorld).
Proof. vm_compute. reflexivity. Qed.

Lemma append_needs_authority_witness : Authorised leasedWorld plannedWorld startPlan.
Proof.
  apply (append_needs_authority background 1 startPlan leasedWorld planResult plannedWorld plan_appended).
  left. reflexivity.
Defined.

Lemma completion_needs_receipt_witness : ReceiptEvidence receiptWorld startCompletion.
Proof.
  exact (completion_needs_receipt background 2 startCompletion receiptWorld completionResult
    completedWorld completion_appended eq_refl eq_refl).
Defined.

Lemma rebuild_trusts_events_witness :
  exists st, rebuildPostgres background "run-1" createdWorld = (Ok st, createdWorld).
Proof.
  destruct (db_runs (w_db createdWorld) !! "run-1") as [row|] eqn:Hrow;
    [|exfalso; revert Hrow; vm_compute; discriminate].
  destruct (rebuild_trusts_events createdWorld background "run-1" row createdWorld_inv Hrow)
    as (st & H & _).
  exists st. exact H.
Defined.

Definition sampleCheckpoint : Checkpoint :=
  match fst (SaveCheckpoint background "run-1" 1 createdWorld) with
  | Ok cp => cp
  | Err _ => MkCheckpoint 0 InitialState ""
  end.

Lemma checkpoint_saved :
  SaveCheckpoint background "run-1" 1 createdWorld =
  (Ok sampleCheckpoint, snd (SaveCheckpoint background "run-1" 1 createdWorld)).
Proof.
  unfold sampleCheckpoint. destruct (SaveCheckpoint background "run-1" 1 createdWorld) as [[cp|err] w] eqn:Hs;
    [done|]. exfalso. revert Hs. vm_compute. discriminate.
Qed.

Lemma checkpoint_is_current_witness :
  cp_Seq sampleCheckpoint = 1%Z /\ Reduce (pgLog createdWorld "run-1") = Ok (cp_State sampleCheckpoint).
Proof.
  destruct (checkpoint_is_current createdWorld background "run-1" 1 sampleCheckpoint _
    createdWorld_inv checkpoint_saved) as (_ & _ & H1 & _ & H2 & _).
  split; [exact H1|exact H2].
Defined.

(** ** The system *)

Lemma reachable_consistent_witness :
  exists st, Reduce (pgLog completedWorld "run-1") = Ok st.
Proof.
  destruct (db_runs (w_db completedWorld) !! "run-1") as [row|] eqn:Hrow;
    [|exfalso; revert Hrow; vm_compute; discriminate].
  destruct (reachable_consistent (storable := anyText) completedWorld "run-1" row
    completedWorld_reachable Hrow) as (_ & st & H & _).
  exists st. exact H.
Defined.

Lemma completed_writers :
  writers (pgRows (w_db completedWorld) "run-1") = [(1%Z, "worker-1"); (1%Z, "worker-1")].
Proof. vm_compute. reflexivity. Qed.

Lemma single_writer_witness : outranks (1%Z, "worker-1") (1%Z, "worker-1").
Proof.
  apply (single_writer _ completedWorld "run-1" 0 1 _ _ completedWorld_reachable);
    [rewrite completed_writers; reflexivity|rewrite completed_writers; reflexivity|].
  apply Nat.le_succ_diag_r.
Defined.

Lemma takenOver_lease : exists row, db_leases (w_db takenOverWorld) !! "run-1" = Some row /\
  grantOfRow row = (2%Z, "worker-2").
Proof. exists (MkLeaseRow "worker-2" 2 87000000 58000000). split; [vm_compute|]; reflexivity. Qed.

Lemma superseded_is_powerless_witness :
  is_ok (fst (validateLease background firstLease takenOverWorld)) = false.
Proof.
  destruct takenOver_lease as (row & Hrow & Hg).
  refine (proj1 (proj2 (proj2 (superseded_is_powerless (storableEvent (storable := anyText))
    takenOverWorld takenOverWorld "run-1" row (1%Z, "worker-1") Hrow
    (reachable_fence _ _ _ takenOverWorld_reachable) _ (rtc_refl _ _))
    background firstLease halfMinute startReceipt eq_refl eq_refl))).
  rewrite Hg. reflexivity.
Defined.

Lemma history_is_append_only_witness : Durable leasedWorld completedWorld.
Proof.
  exact (proj1 (history_is_append_only (storableEvent (storable := anyText)) leasedWorld completedWorld
    leased_to_completed)).
Defined.

Lemma no_credential_is_stored_witness :
  exists row, row ∈ pgRows (w_db completedWorld) "run-1" /\ containsCredentialMaterial (er_payload row) = false.
Proof.
  destruct (pgRows (w_db completedWorld) "run-1") as [|row rows] eqn:Hrows;
    [exfalso; revert Hrows; vm_compute; discriminate|].
  exists row. split; [left|]. apply (no_credential_is_stored (storable := anyText) completedWorld "run-1" row
    completedWorld_reachable). rewrite Hrows. left.
Defined.
