(* ===== verification/Reasoner.v ===== *)
(** * The reasoner stream contract: internal/reasoner/reasoner.go, stream.go, fake.go

    A provider's event stream is normalised before anything else reads it: every
    turn the runtime sees is a sequence of well-shaped events that ends with one
    Finish or one Error. *)
From S2P Require Import Prelude Sha256 GoLib Json Types Effect.

Definition Phase1PatchTool : string := "phase1.patch".

(** ** Data *)

Record ToolCall : Type := MkToolCall {
  tc_ID : string;
  tc_Name : string;
  tc_Arguments : string
}.

Record Usage : Type := MkUsage {
  us_InputTokens : Z;
  us_OutputTokens : Z;
  us_TotalTokens : Z
}.

Record Finish : Type := MkFinish { fin_Reason : string }.

Abbreviation ErrorClass := string.
Definition ErrorInvalidEvent : ErrorClass := "invalid_event".
Definition ErrorInvalidTool : ErrorClass := "invalid_tool".
Definition ErrorInvalidToolArguments : ErrorClass := "invalid_tool_arguments".
Definition ErrorTokenBudgetExceeded : ErrorClass := "token_budget_exceeded".
Definition ErrorStreamingInterrupted : ErrorClass := "streaming_interrupted".
Definition ErrorCanceled : ErrorClass := "canceled".

Record StreamError : Type := MkStreamError {
  se_Class : ErrorClass;
  se_Message : string;
  se_Retryable : bool
}.

Abbreviation StreamEventType := string.
Definition EventTextDelta : StreamEventType := "text_delta".
Definition EventToolCall : StreamEventType := "tool_call".
Definition EventUsage : StreamEventType := "usage".
Definition EventFinish : StreamEventType := "finish".
Definition EventError : StreamEventType := "error".

(** One normalised event; a nil pointer is [None]. *)
Record StreamEvent : Type := MkStreamEvent {
  sv_Type : StreamEventType;
  sv_Text : string;
  sv_ToolCall : option ToolCall;
  sv_Usage : option Usage;
  sv_Finish : option Finish;
  sv_Error : option StreamError
}.

Definition textEvent (text : string) : StreamEvent :=
  MkStreamEvent EventTextDelta text None None None None.
Definition toolCallEvent (call : ToolCall) : StreamEvent :=
  MkStreamEvent EventToolCall "" (Some call) None None None.
Definition usageEvent (usage : Usage) : StreamEvent :=
  MkStreamEvent EventUsage "" None (Some usage) None None.
Definition finishEvent (reason : string) : StreamEvent :=
  MkStreamEvent EventFinish "" None None (Some (MkFinish reason)) None.
Definition failureEvent (failure : StreamError) : StreamEvent :=
  MkStreamEvent EventError "" None None None (Some failure).

(** [errorEvent] *)
Definition errorEvent (class message : string) (retryable : bool) : StreamEvent :=
  failureEvent (MkStreamError class message retryable).

(** ** The registered tools

    What the stream needs of a Tool Contract: its name and whether it accepts the
    arguments of a call ([Contract.ValidateInput]). *)
Class ToolContract (C : Type) : Type := {
  contract_Name : C -> string;
  contract_ValidateInput : C -> string -> bool
}.

(** ** Event shape *)

Definition isSome {A} (o : option A) : bool := match o with Some _ => true | None => false end.

Definition variantCount (event : StreamEvent) : nat :=
  (if decide (sv_Text event <> "") then 1 else 0) + (if isSome (sv_ToolCall event) then 1 else 0) +
  (if isSome (sv_Usage event) then 1 else 0) + (if isSome (sv_Finish event) then 1 else 0) +
  (if isSome (sv_Error event) then 1 else 0).

Definition invalidEvent (message : string) : option StreamError :=
  Some (MkStreamError ErrorInvalidEvent message false).

(** [jsonValid] *)
Definition jsonValid (arguments : string) : bool := isSome (json_Unmarshal arguments).

Definition toolCallShape (event : StreamEvent) : option StreamError :=
  match sv_ToolCall event with
  | None => invalidEvent "Tool Call requires id, name, and arguments"
  | Some call =>
      if decide (tc_ID call = "" \/ tc_Name call = "" \/ tc_Arguments call = "")
      then invalidEvent "Tool Call requires id, name, and arguments"
      else if negb (jsonValid (tc_Arguments call))
      then Some (MkStreamError ErrorInvalidToolArguments
                   "Tool arguments do not match the registered JSON Schema" false)
      else None
  end.

Definition usageShape (event : StreamEvent) : option StreamError :=
  match sv_Usage event with
  | None => invalidEvent "Usage token counts must be non-negative"
  | Some u =>
      if decide (us_InputTokens u < 0 \/ us_OutputTokens u < 0 \/ us_TotalTokens u < 0)%Z
      then invalidEvent "Usage token counts must be non-negative"
      else if decide (us_TotalTokens u < i64 (us_InputTokens u + us_OutputTokens u))%Z
      then invalidEvent "Usage total is smaller than input plus output"
      else None
  end.

(** [validateEventShape]; [None] is success. *)
Definition validateEventShape (event : StreamEvent) : option StreamError :=
  if decide (variantCount event <> 1)
  then invalidEvent "normalized event must contain exactly one variant"
  else if decide (sv_Type event = EventTextDelta) then
    if bool_decide (sv_Text event = "") || isSome (sv_ToolCall event) || isSome (sv_Usage event) ||
       isSome (sv_Finish event) || isSome (sv_Error event)
    then invalidEvent "invalid Text Delta event" else None
  else if decide (sv_Type event = EventToolCall) then toolCallShape event
  else if decide (sv_Type event = EventUsage) then usageShape event
  else if decide (sv_Type event = EventFinish) then
    match sv_Finish event with
    | Some f => if decide (fin_Reason f = "") then invalidEvent "Finish reason is required" else None
    | None => invalidEvent "Finish reason is required"
    end
  else if decide (sv_Type event = EventError) then
    match sv_Error event with
    | Some f => if decide (se_Class f = "" \/ se_Message f = "")
                then invalidEvent "normalized Error requires class and message" else None
    | None => invalidEvent "normalized Error requires class and message"
    end
  else invalidEvent "unsupported normalized event type".

(** ** Source streams *)

(** What [errors.Is] and [errors.As] see of a source error. *)
Inductive sourceError : Type :=
  | SourceFailure (failure : StreamError)
  | SourceCanceled
  | SourceBroken.

(** [Recv] of a stream: an event, [io.EOF], or an error. *)
Inductive received : Type :=
  | Received (event : StreamEvent)
  | ReceivedEOF
  | ReceivedError (err : sourceError).

(** [sliceStream] *)
Record sliceStream : Type := MkSliceStream {
  sl_events : list StreamEvent;
  sl_err : option sourceError;
  sl_index : nat;
  sl_closed : bool
}.

Definition sliceRecv (s : sliceStream) : received * sliceStream :=
  if sl_closed s then (ReceivedEOF, s)
  else match sl_events s !! sl_index s with
  | Some event => (Received event, MkSliceStream (sl_events s) (sl_err s) (S (sl_index s)) false)
  | None =>
      match sl_err s with
      | Some err => (ReceivedError err, MkSliceStream (sl_events s) None (sl_index s) false)
      | None => (ReceivedEOF, s)
      end
  end.

Definition sliceClose (s : sliceStream) : sliceStream :=
  MkSliceStream (sl_events s) (sl_err s) (sl_index s) true.

(** ** The normalised stream *)

Section normalized.
Context {C : Type} `{ToolContract C}.

(** [Request], as far as the stream reads it. *)
Record Request : Type := MkRequest {
  rq_Tools : list C;
  rq_TaskSummary : string;
  rq_TokenLimit : Z
}.

Record normalizedStream : Type := MkNormalizedStream {
  ns_request : Request;
  ns_source : sliceStream;
  ns_terminal : bool;
  ns_usageSeen : bool
}.

Definition NewNormalizedStream (request : Request) (source : sliceStream) : normalizedStream :=
  MkNormalizedStream request source false false.

Definition findContract (tools : list C) (name : string) : option C :=
  find (fun c => bool_decide (contract_Name c = name)) tools.

Definition validateToolCall (request : Request) (call : ToolCall) : option StreamError :=
  match findContract (rq_Tools request) (tc_Name call) with
  | None =>
      match rq_Tools request with
      | [] => if decide (tc_Name call = Phase1PatchTool) then None
              else Some (MkStreamError ErrorInvalidTool "Tool name is not registered" false)
      | _ => Some (MkStreamError ErrorInvalidTool "Tool name is not registered" false)
      end
  | Some contract =>
      if contract_ValidateInput contract (tc_Arguments call) then None
      else Some (MkStreamError ErrorInvalidToolArguments
                   "Tool arguments do not match the registered JSON Schema" false)
  end.

Definition validateUsage (stream : normalizedStream) (usage : Usage) : option StreamError :=
  let limit := rq_TokenLimit (ns_request stream) in
  if ns_usageSeen stream
  then invalidEvent "Reasoner turn must contain exactly one Usage event"
  else if decide (0 < limit /\ limit < us_TotalTokens usage)%Z
  then Some (MkStreamError ErrorTokenBudgetExceeded "Reasoner token budget exceeded" false)
  else None.

(** [validateEvent]: the shape, then the rule of the variant; the pointer of the
    variant is not nil once the shape is right. *)
Definition validateEvent (stream : normalizedStream) (event : StreamEvent) : option StreamError :=
  match validateEventShape event with
  | Some failure => Some failure
  | None =>
      if decide (sv_Type event = EventToolCall) then
        match sv_ToolCall event with
        | Some call => validateToolCall (ns_request stream) call
        | None => None
        end
      else if decide (sv_Type event = EventUsage) then
        match sv_Usage event with
        | Some usage => validateUsage stream usage
        | None => None
        end
      else if decide (sv_Type event = EventFinish) then
        if bool_decide (0 < length (rq_Tools (ns_request stream))) && negb (ns_usageSeen stream)
        then invalidEvent "Reasoner turn requires one Usage event before Finish"
        else None
      else None
  end.

Definition closeSource (stream : normalizedStream) (source : sliceStream) : normalizedStream :=
  MkNormalizedStream (ns_request stream) (sliceClose source) true (ns_usageSeen stream).

(** [Recv]: [None] is [io.EOF]; no other error leaves a normalised stream. *)
Definition Recv (stream : normalizedStream) : option StreamEvent * normalizedStream :=
  if ns_terminal stream then (None, stream)
  else
    let '(r, source) := sliceRecv (ns_source stream) in
    match r with
    | ReceivedEOF =>
        (Some (errorEvent ErrorStreamingInterrupted "model stream ended before Finish" true),
         closeSource stream source)
    | ReceivedError (SourceFailure failure) => (Some (failureEvent failure), closeSource stream source)
    | ReceivedError SourceCanceled =>
        (Some (errorEvent ErrorCanceled "reasoner request was canceled" false),
         closeSource stream source)
    | ReceivedError SourceBroken =>
        (Some (errorEvent ErrorStreamingInterrupted "model stream was interrupted" true),
         closeSource stream source)
    | Received event =>
        match validateEvent stream event with
        | Some failure => (Some (failureEvent failure), closeSource stream source)
        | None =>
            let usageSeen := ns_usageSeen stream || bool_decide (sv_Type event = EventUsage) in
            if decide (sv_Type event = EventFinish \/ sv_Type event = EventError)
            then (Some event,
                  MkNormalizedStream (ns_request stream) (sliceClose source) true usageSeen)
            else (Some event, MkNormalizedStream (ns_request stream) source false usageSeen)
        end
    end.

(** ** Collecting a turn *)

Record Result : Type := MkResult {
  res_Output : string;
  res_ToolCall : option ToolCall;
  res_ToolCalls : list ToolCall;
  res_Usage : Usage;
  res_FinishReason : string
}.

Definition emptyResult : Result := MkResult "" None [] (MkUsage 0 0 0) "".

(** The loop of [Collect] with the result so far; a nil pointer dereference is a
    panic. *)
Fixpoint collectLoop (fuel : nat) (stream : normalizedStream) (acc : Result) : result Result :=
  match fuel with
  | O => Err (Plain "fuel")
  | S n =>
      match Recv stream with
      | (None, _) =>
          Ok (MkResult (res_Output acc) (head (res_ToolCalls acc)) (res_ToolCalls acc)
                (res_Usage acc) (res_FinishReason acc))
      | (Some event, stream') =>
          if decide (sv_Type event = EventTextDelta) then
            collectLoop n stream' (MkResult (res_Output acc +:+ sv_Text event) (res_ToolCall acc)
              (res_ToolCalls acc) (res_Usage acc) (res_FinishReason acc))
          else if decide (sv_Type event = EventToolCall) then
            match sv_ToolCall event with
            | Some call => collectLoop n stream' (MkResult (res_Output acc) (res_ToolCall acc)
                (res_ToolCalls acc ++ [call]) (res_Usage acc) (res_FinishReason acc))
            | None => Err (Plain "nil pointer dereference")
            end
          else if decide (sv_Type event = EventUsage) then
            match sv_Usage event with
            | Some usage => collectLoop n stream' (MkResult (res_Output acc) (res_ToolCall acc)
                (res_ToolCalls acc) usage (res_FinishReason acc))
            | None => Err (Plain "nil pointer dereference")
            end
          else if decide (sv_Type event = EventFinish) then
            match sv_Finish event with
            | Some f => collectLoop n stream' (MkResult (res_Output acc) (res_ToolCall acc)
                (res_ToolCalls acc) (res_Usage acc) (fin_Reason f))
            | None => Err (Plain "nil pointer dereference")
            end
          else if decide (sv_Type event = EventError) then Err (Plain "stream error")
          else Err (Sentinel ErrInvalidResult)
      end
  end.

(** One call per remaining source event, one for its end, one for [io.EOF]. *)
Definition collectFuel (stream : normalizedStream) : nat :=
  length (sl_events (ns_source stream)) + 3.

Definition Collect (stream : normalizedStream) : result Result :=
  collectLoop (collectFuel stream) stream emptyResult.

(** [ValidatePhase1Result] *)
Definition ValidatePhase1Result (result : Result) : Prelude.result unit :=
  match res_ToolCall result with
  | None => Err (Sentinel ErrInvalidResult)
  | Some call =>
      if decide (tc_Name call <> Phase1PatchTool) then Err (Sentinel ErrIllegalToolCall)
      else if bool_decide (tc_Arguments call = "") || negb (json_Valid (tc_Arguments call))
      then Err (Sentinel ErrInvalidResult)
      else Ok tt
  end.
End normalized.

Arguments Request C : clear implicits.
Arguments normalizedStream C : clear implicits.

(** ** The deterministic reasoner: fake.go *)

(** [FakeReasoner]; its mutex makes each call atomic. *)
Record FakeReasoner : Type := MkFakeReasoner {
  fk_events : list StreamEvent;
  fk_sourceErr : option sourceError;
  fk_calls : Z;
  fk_defaultMode : bool
}.

(** [{"<key>":"<value>"}] *)
Definition objectLiteral (key value : string) : string :=
  "{" +:+ quote +:+ key +:+ quote +:+ ":" +:+ quote +:+ value +:+ quote +:+ "}".

Definition NewFakeReasoner : FakeReasoner :=
  MkFakeReasoner
    [ textEvent "deterministic fake patch";
      toolCallEvent (MkToolCall "phase1-fake-call" Phase1PatchTool (objectLiteral "patch" "fake"));
      usageEvent (MkUsage 0 1 1);
      finishEvent "tool_calls" ]
    None 0 true.

Definition NewFakeReasonerWithEvents (events : list StreamEvent) : FakeReasoner :=
  MkFakeReasoner events None 0 false.

Definition NewFailingFakeReasoner (err : sourceError) : FakeReasoner :=
  MkFakeReasoner [] (Some err) 0 false.

(** [NewFakeReasonerWithResult] *)
Definition scriptedCall (call : ToolCall) : ToolCall :=
  if decide (tc_ID call = "")
  then MkToolCall "scripted-fake-call" (tc_Name call) (tc_Arguments call) else call.

Definition zeroUsage (u : Usage) : bool :=
  bool_decide (us_InputTokens u = 0 /\ us_OutputTokens u = 0 /\ us_TotalTokens u = 0)%Z.

Definition NewFakeReasonerWithResult (result : Result) : FakeReasoner :=
  NewFakeReasonerWithEvents
    ((if decide (res_Output result <> "") then [textEvent (res_Output result)] else []) ++
     (match res_ToolCall result with Some call => [toolCallEvent (scriptedCall call)] | None => [] end) ++
     (if zeroUsage (res_Usage result) then [] else [usageEvent (res_Usage result)]) ++
     [finishEvent (if decide (res_FinishReason result = "") then "tool_calls"
                   else res_FinishReason result)]).

Definition inspectionTurn : list StreamEvent :=
  [ textEvent "deterministic fake repository inspection";
    toolCallEvent (MkToolCall "phase5-fake-call" "repo.read" (objectLiteral "path" "."));
    usageEvent (MkUsage 0 1 1);
    finishEvent "tool_calls" ].

(** [Reason]; a cancelled context replaces the source error. *)
Definition fakeReason {C : Type} (fake : FakeReasoner) (cancelled : option sourceError)
    (request : Request C) : normalizedStream C * FakeReasoner :=
  let events := if fk_defaultMode fake && bool_decide (0 < length (rq_Tools request))
                then inspectionTurn else fk_events fake in
  let sourceErr := match cancelled with Some err => Some err | None => fk_sourceErr fake end in
  (NewNormalizedStream request (MkSliceStream events sourceErr 0 false),
   MkFakeReasoner (fk_events fake) (fk_sourceErr fake) (i64 (fk_calls fake + 1)) (fk_defaultMode fake)).
