(* ===== verification/ReasonerTheorems.v ===== *)
(** * The reasoner stream protocol

    Whatever a provider sends, the runtime reads one well-formed turn: events of the
    right shape, registered tool calls, at most one usage record, and exactly one
    terminal event, the last; collecting a turn is total and loses nothing. *)
From S2P Require Import Prelude Sha256 GoLib Json Types Effect Reasoner.

Section protocol.
Context {C : Type} `{ToolContract C}.

(** ** Turns *)

(** [Turn request seen events]: a well-formed turn of [request]; [seen] says whether
    its usage record came before. *)
Inductive Turn (request : Request C) : bool -> list StreamEvent -> Prop :=
  | TurnFinish seen event :
      sv_Type event = EventFinish -> validateEventShape event = None ->
      (rq_Tools request <> [] -> seen = true) -> Turn request seen [event]
  | TurnError seen event :
      sv_Type event = EventError -> Turn request seen [event]
  | TurnText seen event rest :
      sv_Type event = EventTextDelta -> validateEventShape event = None ->
      Turn request seen rest -> Turn request seen (event :: rest)
  | TurnCall seen event call rest :
      sv_Type event = EventToolCall -> validateEventShape event = None ->
      sv_ToolCall event = Some call -> validateToolCall request call = None ->
      Turn request seen rest -> Turn request seen (event :: rest)
  | TurnUsage event usage rest :
      sv_Type event = EventUsage -> validateEventShape event = None ->
      sv_Usage event = Some usage ->
      ~ (0 < rq_TokenLimit request /\ rq_TokenLimit request < us_TotalTokens usage)%Z ->
      Turn request true rest -> Turn request false (event :: rest).

(** All events of a stream. *)
Fixpoint drain (fuel : nat) (stream : normalizedStream C) : list StreamEvent :=
  match fuel with
  | O => []
  | S n =>
      match Recv stream with
      | (None, _) => []
      | (Some event, stream') => event :: drain n stream'
      end
  end.

(** ** Shapes *)

Definition streamTypes : list StreamEventType :=
  [EventTextDelta; EventToolCall; EventUsage; EventFinish; EventError].

(** A well-shaped event has a known type, its own variant and no other. *)
Record Shaped (event : StreamEvent) : Prop := {
  sh_type : sv_Type event ∈ streamTypes;
  sh_text : sv_Type event = EventTextDelta <-> sv_Text event <> "";
  sh_call : sv_Type event = EventToolCall <-> is_Some (sv_ToolCall event);
  sh_usage : sv_Type event = EventUsage <-> is_Some (sv_Usage event);
  sh_finish : sv_Type event = EventFinish <-> is_Some (sv_Finish event);
  sh_error : sv_Type event = EventError <-> is_Some (sv_Error event)
}.

Lemma validateEventShape_Shaped event : validateEventShape event = None -> Shaped event.
Proof.
  destruct event as [t text call usage fin err]. unfold validateEventShape. cbn [sv_Type].
  case_decide as Hc; [done|]. revert Hc. unfold variantCount. cbn.
  destruct call as [call|], usage as [usage|], fin as [fin|], err as [err|]; destruct (decide (text <> "")) as [Ht|Ht];
    cbn; try done; intros _; try apply dec_stable in Ht; subst;
    repeat case_decide; subst; try done; intros _; split; cbn; try by_computation;
    split; intros Hx; try done; try (by destruct Hx); by eexists.
Qed.

(** ** One reading *)

Definition remaining (stream : normalizedStream C) : nat :=
  length (sl_events (ns_source stream)) - sl_index (ns_source stream).

Definition lastEvent (event : StreamEvent) : Prop :=
  sv_Type event = EventFinish \/ sv_Type event = EventError.

Lemma Recv_terminal stream : ns_terminal stream = true -> Recv stream = (None, stream).
Proof. unfold Recv. by intros ->. Qed.

(** What one reading of an open stream gives: the terminal event of the turn, or one
    event of it and a stream with one source event less. *)
Lemma Recv_open stream :
  ns_terminal stream = false ->
  exists event stream', Recv stream = (Some event, stream') /\ ns_request stream' = ns_request stream /\
    ((sv_Type event = EventError /\ is_Some (sv_Error event) /\ ns_terminal stream' = true) \/
     (validateEvent stream event = None /\
      ns_usageSeen stream' = ns_usageSeen stream || bool_decide (sv_Type event = EventUsage) /\
      if bool_decide (lastEvent event) then ns_terminal stream' = true
      else ns_terminal stream' = false /\ S (remaining stream') <= remaining stream)).
Proof.
  intros Ht. unfold Recv, sliceRecv. rewrite Ht.
  assert (forall f, sv_Type (failureEvent f) = EventError /\ is_Some (sv_Error (failureEvent f))) as Hf
    by (intros f; split; [done|by eexists]).
  destruct (sl_closed (ns_source stream)) eqn:Hc; [do 2 eexists; split; [done|]; split; [done|]; left; by split|].
  destruct (sl_events (ns_source stream) !! sl_index (ns_source stream)) as [event|] eqn:He.
  - destruct (validateEvent stream event) as [failure|] eqn:Hv; [do 2 eexists; split; [done|]; split; [done|]; left; by split|].
    apply lookup_lt_Some in He. case_decide as Hl; do 2 eexists; (split; [done|]; split; [done|]); right;
      (split; [done|]; split; [done|]).
    + by rewrite bool_decide_true.
    + rewrite bool_decide_false by done. split; [done|]. unfold remaining. cbn. lia.
  - destruct (sl_err (ns_source stream)) as [[]|]; do 2 eexists; (split; [done|]); (split; [done|]); left; by split.
Qed.

(** An accepted event continues or ends the turn. *)
Lemma validateEvent_turn stream event rest :
  validateEvent stream event = None ->
  (if bool_decide (lastEvent event) then rest = []
   else Turn (ns_request stream) (ns_usageSeen stream || bool_decide (sv_Type event = EventUsage)) rest) ->
  Turn (ns_request stream) (ns_usageSeen stream) (event :: rest).
Proof.
  unfold validateEvent. destruct (validateEventShape event) eqn:Hs; [done|]. intros Hv Hrest.
  pose proof (validateEventShape_Shaped _ Hs) as [Hty _ Hcall Husage _ _].
  repeat (apply elem_of_cons in Hty as [Hty|Hty]); [..|by apply elem_of_nil in Hty];
    unfold lastEvent in Hrest; rewrite Hty in Hv, Hrest.
  - change (Turn (ns_request stream) (ns_usageSeen stream || false) rest) in Hrest.
    rewrite orb_false_r in Hrest. by apply TurnText.
  - change (Turn (ns_request stream) (ns_usageSeen stream || false) rest) in Hrest.
    rewrite orb_false_r in Hrest. destruct (proj1 Hcall Hty) as [call Hc]. rewrite Hc in Hv.
    by eapply TurnCall.
  - change (Turn (ns_request stream) (ns_usageSeen stream || true) rest) in Hrest.
    rewrite orb_true_r in Hrest. destruct (proj1 Husage Hty) as [usage Hu]. rewrite Hu in Hv.
    change (validateUsage stream usage = None) in Hv. unfold validateUsage in Hv.
    destruct (ns_usageSeen stream); [done|]. cbv zeta in Hv. case_decide; [done|].
    by eapply TurnUsage.
  - change (rest = []) in Hrest. subst rest. apply TurnFinish; [done|done|]. intros Hne.
    destruct (ns_usageSeen stream); [done|]. by destruct (rq_Tools (ns_request stream)).
  - change (rest = []) in Hrest. subst rest. by apply TurnError.
Qed.

Lemma drain_terminal n stream : ns_terminal stream = true -> drain n stream = [].
Proof. intros Ht. destruct n; [done|]. cbn. by rewrite Recv_terminal. Qed.

Lemma drain_turn n stream :
  ns_terminal stream = false -> remaining stream < n ->
  Turn (ns_request stream) (ns_usageSeen stream) (drain n stream).
Proof.
  revert stream. induction n as [|n IH]; intros stream Ht Hn; [lia|]. cbn [drain].
  destruct (Recv_open stream Ht) as (event & stream' & -> & Hreq & [(Hty & _ & Ht')|(Hv & Hseen & Hnext)]).
  - rewrite drain_terminal by done. by apply TurnError.
  - apply validateEvent_turn; [done|]. case_bool_decide as Hl; [by apply drain_terminal|].
    destruct Hnext as [Ht' Hrem]. rewrite <- Hreq, <- Hseen. apply IH; [done|lia].
Qed.

Lemma drain_enough n m stream :
  ns_terminal stream = false -> remaining stream < n -> remaining stream < m ->
  drain n stream = drain m stream.
Proof.
  revert m stream. induction n as [|n IH]; intros m stream Ht Hn Hm; [lia|]. destruct m as [|m]; [lia|].
  cbn [drain]. destruct (Recv_open stream Ht) as (event & stream' & -> & _ & [(_ & _ & Ht')|(_ & _ & Hnext)]).
  - by rewrite !drain_terminal.
  - f_equal. case_bool_decide; [by rewrite !drain_terminal|]. destruct Hnext. apply IH; [done|lia..].
Qed.

(** ** Collecting *)

(** The events of a turn, put together: the text in order, the calls in order, the
    usage record, the reason of the terminal Finish. *)
Definition turnText (turn : list StreamEvent) : string := foldr (fun e s => sv_Text e +:+ s) "" turn.
Definition turnUsage (usage : Usage) (turn : list StreamEvent) : Usage :=
  default usage (last (omap sv_Usage turn)).
Definition turnReason (reason : string) (turn : list StreamEvent) : string :=
  default reason (fin_Reason <$> last (omap sv_Finish turn)).

Definition assembleFrom (acc : Result) (turn : list StreamEvent) : Result :=
  let calls := res_ToolCalls acc ++ omap sv_ToolCall turn in
  MkResult (res_Output acc +:+ turnText turn) (head calls) calls (turnUsage (res_Usage acc) turn)
    (turnReason (res_FinishReason acc) turn).

Definition assemble (turn : list StreamEvent) : Result := assembleFrom emptyResult turn.

(** Whether the turn ended with a Finish. *)
Definition finished (turn : list StreamEvent) : bool :=
  match last turn with Some e => bool_decide (sv_Type e = EventFinish) | None => false end.

Lemma Shaped_none event :
  Shaped event ->
  (sv_Type event <> EventTextDelta -> sv_Text event = "") /\
  (sv_Type event <> EventToolCall -> sv_ToolCall event = None) /\
  (sv_Type event <> EventUsage -> sv_Usage event = None) /\
  (sv_Type event <> EventFinish -> sv_Finish event = None).
Proof.
  intros [_ H1 H2 H3 H4 _]. split_and!; intros Hn.
  - apply dec_stable. intros Hx. by apply Hn, H1.
  - apply eq_None_not_Some. intros Hx. by apply Hn, H2.
  - apply eq_None_not_Some. intros Hx. by apply Hn, H3.
  - apply eq_None_not_Some. intros Hx. by apply Hn, H4.
Qed.

Lemma Turn_nonempty request seen turn : Turn request seen turn -> turn <> [].
Proof. by intros []. Qed.

Lemma finished_cons event rest : rest <> [] -> finished (event :: rest) = finished rest.
Proof. by destruct rest. Qed.

(** The loop consumes the turn [drain] gives. *)
Lemma collectLoop_step n stream event stream' acc :
  Recv stream = (Some event, stream') -> Shaped event ->
  collectLoop (S n) stream acc =
    if decide (sv_Type event = EventError) then Err (Plain "stream error")
    else collectLoop n stream' (MkResult (res_Output acc +:+ sv_Text event) (res_ToolCall acc)
      (res_ToolCalls acc ++ omap sv_ToolCall [event]) (turnUsage (res_Usage acc) [event])
      (turnReason (res_FinishReason acc) [event])).
Proof.
  intros Hr HS. destruct (Shaped_none _ HS) as (Nt & Nc & Nu & Nf). destruct HS as [Hty _ Hc Hu Hf _].
  cbn [collectLoop]. rewrite Hr. unfold turnUsage, turnReason. cbn [omap list_omap].
  repeat (apply elem_of_cons in Hty as [Hty|Hty]); [..|by apply elem_of_nil in Hty].
  - rewrite Hty in *. rewrite decide_True, decide_False by done.
    rewrite Nc, Nu, Nf by done. cbn. by rewrite app_nil_r.
  - destruct (proj1 Hc Hty) as [call ->]. rewrite Hty in *.
    rewrite decide_False, decide_True, decide_False by done.
    rewrite Nt, Nu, Nf by done. cbn. by rewrite str_app_nil.
  - destruct (proj1 Hu Hty) as [usage ->]. rewrite Hty in *.
    do 2 (rewrite decide_False by done). rewrite decide_True, decide_False by done.
    rewrite Nt, Nc, Nf by done. cbn. by rewrite str_app_nil, app_nil_r.
  - destruct (proj1 Hf Hty) as [fin ->]. rewrite Hty in *.
    do 3 (rewrite decide_False by done). rewrite decide_True, decide_False by done.
    rewrite Nt, Nc, Nu by done. cbn. by rewrite str_app_nil, app_nil_r.
  - rewrite Hty in *. do 4 (rewrite decide_False by done). by rewrite !decide_True.
Qed.

Lemma collectLoop_error n stream event stream' acc :
  Recv stream = (Some event, stream') -> sv_Type event = EventError ->
  collectLoop (S n) stream acc = Err (Plain "stream error").
Proof. intros Hr Ht. cbn [collectLoop]. rewrite Hr, Ht. by repeat (rewrite decide_False by done). Qed.

Lemma collectLoop_end n stream acc :
  ns_terminal stream = true -> collectLoop (S n) stream acc = Ok (assembleFrom acc []).
Proof.
  intros Ht. cbn [collectLoop]. rewrite Recv_terminal by done. unfold assembleFrom. cbn.
  by rewrite str_app_nil, app_nil_r.
Qed.

Lemma turnUsage_app usage l1 l2 : turnUsage (turnUsage usage l1) l2 = turnUsage usage (l1 ++ l2).
Proof. unfold turnUsage. rewrite omap_app, last_app. by destruct (last (omap sv_Usage l2)). Qed.

Lemma turnReason_app reason l1 l2 : turnReason (turnReason reason l1) l2 = turnReason reason (l1 ++ l2).
Proof. unfold turnReason. rewrite omap_app, last_app. by destruct (last (omap sv_Finish l2)). Qed.

Lemma assembleFrom_cons acc event rest :
  assembleFrom (MkResult (res_Output acc +:+ sv_Text event) (res_ToolCall acc)
    (res_ToolCalls acc ++ omap sv_ToolCall [event]) (turnUsage (res_Usage acc) [event])
    (turnReason (res_FinishReason acc) [event])) rest = assembleFrom acc (event :: rest).
Proof.
  unfold assembleFrom. cbn [res_Output res_ToolCalls res_Usage res_FinishReason].
  change (event :: rest) with ([event] ++ rest).
  rewrite omap_app, turnUsage_app, turnReason_app, str_app_assoc, <- (assoc_L (++)). done.
Qed.

(** The loop computes the assembled turn. *)
Lemma collectLoop_turn n stream acc :
  ns_terminal stream = false -> S (remaining stream) < n ->
  collectLoop n stream acc =
    if finished (drain n stream) then Ok (assembleFrom acc (drain n stream))
    else Err (Plain "stream error").
Proof.
  revert stream acc. induction n as [|n IH]; intros stream acc Ht Hn; [lia|].
  destruct (Recv_open stream Ht) as (event & stream' & Hr & Hreq & [(Hty & _ & Ht')|(Hv & Hseen & Hnext)]).
  - rewrite (collectLoop_error _ _ _ _ _ Hr Hty). cbn [drain]. rewrite Hr, drain_terminal by done.
    unfold finished. cbn. by rewrite Hty.
  - assert (Shaped event) as HS.
    { apply validateEventShape_Shaped. unfold validateEvent in Hv. by destruct (validateEventShape event). }
    rewrite (collectLoop_step _ _ _ _ _ Hr HS). cbn [drain]. rewrite Hr.
    case_bool_decide as Hl.
    + rewrite drain_terminal by done. unfold finished. cbn [last]. destruct Hl as [Hl|Hl]; rewrite Hl.
      * rewrite decide_False by done. destruct n as [|n]; [lia|].
        rewrite collectLoop_end, assembleFrom_cons by done. done.
      * by rewrite decide_True.
    + destruct Hnext as [Ht' Hrem]. rewrite decide_False by (intros Hx; apply Hl; by right).
      rewrite IH by (done || lia). rewrite assembleFrom_cons.
      assert (drain n stream' <> []) as Hne.
      { eapply Turn_nonempty, drain_turn; [done|lia]. }
      by rewrite finished_cons.
Qed.

(** C31: whatever events or errors the source of a stream delivers, reading it to the
    end gives one well-formed turn - shaped events, calls of registered tools with
    accepted arguments only, at most one usage record within the budget, one terminal
    event and nothing after it - and [Collect] always returns: the turn put together
    if it ended with Finish, the stream's error otherwise. *)
Theorem collect_reads_one_turn request source :
  let stream := NewNormalizedStream request source in
  let turn := drain (collectFuel stream) stream in
  Turn request false turn /\
  Collect stream = (if finished turn then Ok (assemble turn) else Err (Plain "stream error")) /\
  forall n, collectFuel stream <= n -> drain n stream = turn.
Proof.
  intros stream turn. assert (remaining stream + 3 <= collectFuel stream) as Hn.
  { unfold remaining, collectFuel, stream. cbn. lia. }
  split; [apply (drain_turn (collectFuel stream) stream); [done|lia]|].
  split; [apply collectLoop_turn; [done|lia]|].
  intros n Hle. subst turn. apply drain_enough; [done|lia..].
Qed.

(** ** Well-formed sources *)

Definition sourceOf (events : list StreamEvent) (err : option sourceError) (i : nat) : sliceStream :=
  MkSliceStream events err i false.

(** What a turn says of its first event is what the stream checks. *)
Lemma Turn_validateEvent stream event rest :
  Turn (ns_request stream) (ns_usageSeen stream) (event :: rest) -> finished (event :: rest) = true ->
  validateEvent stream event = None /\
  (if bool_decide (lastEvent event) then rest = []
   else finished rest = true /\
        Turn (ns_request stream) (ns_usageSeen stream || bool_decide (sv_Type event = EventUsage)) rest).
Proof.
  remember (event :: rest) as turn eqn:Heq. remember (ns_usageSeen stream) as seen eqn:Hseen.
  intros HT Hfin. unfold validateEvent, lastEvent.
  destruct HT as [seen e Hty HS Htools|seen e Hty|seen e r Hty HS HT|seen e call r Hty HS Hc Hv HT
    |e usage r Hty HS Hu Hlim HT]; injection Heq as -> ->.
  - rewrite HS, Hty. split; [|done]. do 2 (rewrite decide_False by done). rewrite decide_True by done.
    rewrite <- Hseen. destruct seen; [by rewrite andb_false_r|].
    destruct (rq_Tools (ns_request stream)); [done|]. by discriminate Htools.
  - unfold finished in Hfin. cbn in Hfin. by rewrite Hty in Hfin.
  - rewrite HS, Hty. rewrite finished_cons in Hfin by by eapply Turn_nonempty.
    change (bool_decide (EventTextDelta = EventUsage)) with false. rewrite orb_false_r. done.
  - rewrite HS, Hty, Hc. rewrite finished_cons in Hfin by by eapply Turn_nonempty.
    change (bool_decide (EventToolCall = EventUsage)) with false. rewrite orb_false_r. done.
  - rewrite HS, Hty, Hu. rewrite finished_cons in Hfin by by eapply Turn_nonempty.
    split; [|done]. rewrite decide_False, decide_True by done. unfold validateUsage.
    rewrite <- Hseen. cbv zeta. by rewrite decide_False.
Qed.

(** One reading of a source in the middle. *)
Lemma Recv_sourceOf request events err i seen event :
  events !! i = Some event ->
  let stream := MkNormalizedStream request (sourceOf events err i) false seen in
  let seen' := seen || bool_decide (sv_Type event = EventUsage) in
  Recv stream =
    match validateEvent stream event with
    | Some failure => (Some (failureEvent failure), closeSource stream (sourceOf events err (S i)))
    | None => (Some event,
        if bool_decide (lastEvent event)
        then MkNormalizedStream request (sliceClose (sourceOf events err (S i))) true seen'
        else MkNormalizedStream request (sourceOf events err (S i)) false seen')
    end.
Proof.
  intros He stream seen'. unfold Recv, sliceRecv. cbn [ns_terminal ns_source stream sourceOf sl_closed sl_events sl_index].
  rewrite He. fold stream. destruct (validateEvent stream event); [done|]. cbn. change (_ \/ _) with (lastEvent event).
  destruct (decide (lastEvent event)) as [Hl|Hl];
    [by rewrite (bool_decide_true (lastEvent event) Hl)|by rewrite (bool_decide_false (lastEvent event) Hl)].
Qed.

Lemma drop_cons_inv {A} (l : list A) i x rest : drop i l = x :: rest -> l !! i = Some x /\ rest = drop (S i) l.
Proof.
  intros Hd. assert (l !! i = Some x) as Hx by (rewrite <- (Nat.add_0_r i), <- lookup_drop; by rewrite Hd).
  split; [done|]. rewrite (drop_S _ _ _ Hx) in Hd. by injection Hd.
Qed.

(** What follows the turn in the source is not read. *)
Lemma drain_script n request events err i seen turn more :
  drop i events = turn ++ more -> Turn request seen turn -> finished turn = true -> length turn < n ->
  drain n (MkNormalizedStream request (sourceOf events err i) false seen) = turn.
Proof.
  revert i seen turn. induction n as [|n IH]; intros i seen turn Hd HT Hfin Hn; [lia|].
  destruct turn as [|event rest]; [by inversion HT|]. destruct (drop_cons_inv _ _ _ _ Hd) as [He Hrest].
  cbn [drain]. rewrite (Recv_sourceOf _ _ _ _ _ _ He).
  destruct (Turn_validateEvent (MkNormalizedStream request (sourceOf events err i) false seen) event rest HT Hfin) as [-> Hnext].
  f_equal. case_bool_decide as Hl.
  - rewrite drain_terminal by done. by rewrite Hnext.
  - destruct Hnext as [Hf HT']. apply IH; [done..|]. cbn [length] in Hn. lia.
Qed.

Lemma Collect_script request events err turn more :
  events = turn ++ more -> Turn request false turn -> finished turn = true ->
  let stream := NewNormalizedStream request (sourceOf events err 0) in
  drain (collectFuel stream) stream = turn /\ Collect stream = Ok (assemble turn).
Proof.
  intros He HT Hfin stream. assert (drain (collectFuel stream) stream = turn) as Hd.
  { apply (drain_script _ _ events err 0 false turn more); [by rewrite drop_0|done|done|].
    unfold collectFuel. cbn. rewrite He, length_app. lia. }
  split; [done|]. unfold Collect. rewrite collectLoop_turn, Hd, Hfin; [done|done|].
  unfold remaining, collectFuel, stream. cbn. lia.
Qed.

(** Draining a fresh stream and collecting it. *)
Definition reads (stream : normalizedStream C) (turn : list StreamEvent) : Prop :=
  drain (collectFuel stream) stream = turn /\
  Collect stream = (if finished turn then Ok (assemble turn) else Err (Plain "stream error")).

Lemma reads_drain request source turn :
  drain (collectFuel (NewNormalizedStream request source)) (NewNormalizedStream request source) = turn ->
  reads (NewNormalizedStream request source) turn.
Proof.
  intros Hd. split; [done|]. unfold Collect. rewrite collectLoop_turn, Hd; [done|done|].
  unfold remaining, collectFuel. cbn. lia.
Qed.

(** normalisation is faithful: a source that delivers a well-formed turn ending
    with Finish is passed through unchanged, and [Collect] returns exactly that turn
    put together. *)
Theorem turn_passes_through request turn err :
  Turn request false turn -> finished turn = true ->
  let stream := NewNormalizedStream request (sourceOf turn err 0) in
  drain (collectFuel stream) stream = turn /\ Collect stream = Ok (assemble turn).
Proof. intros HT Hfin. apply (Collect_script _ _ _ _ []); [by rewrite app_nil_r|done|done]. Qed.
End protocol.

(** ** The scripted reasoner *)

Section scripted.
Context {C : Type} `{ToolContract C}.

(** What a scripted result must satisfy to be delivered without tools. *)
Record Scriptable (request : Request C) (result : Result) : Prop := {
  sc_tools : rq_Tools request = [];
  sc_call : forall call, res_ToolCall result = Some call ->
    tc_Name call = Phase1PatchTool /\ tc_Arguments call <> "" /\ jsonValid (tc_Arguments call) = true;
  sc_usage : (0 <= us_InputTokens (res_Usage result))%Z /\ (0 <= us_OutputTokens (res_Usage result))%Z /\
    (i64 (us_InputTokens (res_Usage result) + us_OutputTokens (res_Usage result)) <=
       us_TotalTokens (res_Usage result))%Z /\ (0 <= us_TotalTokens (res_Usage result))%Z /\
    (0 < rq_TokenLimit request -> us_TotalTokens (res_Usage result) <= rq_TokenLimit request)%Z
}.

Lemma text_shape text : text <> "" -> validateEventShape (textEvent text) = None.
Proof.
  intros Ht. unfold validateEventShape, textEvent. replace (variantCount _) with 1.
  - rewrite decide_False by (intros Hx; by apply Hx). cbn. by rewrite bool_decide_false.
  - unfold variantCount. cbn. by rewrite decide_True.
Qed.

Lemma call_shape call :
  tc_ID call <> "" -> tc_Name call <> "" -> tc_Arguments call <> "" ->
  jsonValid (tc_Arguments call) = true -> validateEventShape (toolCallEvent call) = None.
Proof.
  intros H1 H2 H3 H4. trans (toolCallShape (toolCallEvent call)); [done|].
  unfold toolCallShape. cbn -[decide]. rewrite decide_False by (intros [|[|]]; done). by rewrite H4.
Qed.

Lemma usage_shape u :
  (0 <= us_InputTokens u)%Z -> (0 <= us_OutputTokens u)%Z -> (0 <= us_TotalTokens u)%Z ->
  (i64 (us_InputTokens u + us_OutputTokens u) <= us_TotalTokens u)%Z ->
  validateEventShape (usageEvent u) = None.
Proof.
  intros. trans (usageShape (usageEvent u)); [done|].
  unfold usageShape. cbn -[i64 decide]. by do 2 rewrite decide_False by lia.
Qed.

Lemma finish_shape reason : reason <> "" -> validateEventShape (finishEvent reason) = None.
Proof.
  intros Hr. trans (if decide (reason = "") then invalidEvent "Finish reason is required" else None); [done|].
  by rewrite decide_False.
Qed.

Lemma scriptedCall_fields call :
  tc_ID (scriptedCall call) <> "" /\ tc_Name (scriptedCall call) = tc_Name call /\
  tc_Arguments (scriptedCall call) = tc_Arguments call.
Proof. unfold scriptedCall. by case_decide. Qed.

(** The script of a result is a turn. *)
Lemma scripted_turn request result :
  Scriptable request result -> Turn request false (fk_events (NewFakeReasonerWithResult result)).
Proof.
  intros [Htools Hcall (Hi & Ho & Ht & Htot & Hlim)]. cbn. set (reason := if decide (_ = "") then _ else _).
  assert (reason <> "") as Hreason by (subst reason; by case_decide). clearbody reason.
  assert (forall seen, Turn request seen [finishEvent reason]) as Hfin.
  { intros seen. apply TurnFinish; [done| |by rewrite Htools]. by apply finish_shape. }
  assert (Turn request false ((if zeroUsage (res_Usage result) then [] else [usageEvent (res_Usage result)]) ++
    [finishEvent reason])) as Hu.
  { destruct (zeroUsage _); [apply Hfin|].
    eapply TurnUsage; [done|by apply usage_shape|done|lia|apply Hfin]. }
  assert (forall turn, Turn request false turn -> Turn request false
    (match res_ToolCall result with Some call => [toolCallEvent (scriptedCall call)] | None => [] end ++ turn)) as Hc.
  { intros turn HT. destruct (res_ToolCall result) as [call|]; [|done].
    destruct (Hcall call eq_refl) as (Hn & Ha & Hj). destruct (scriptedCall_fields call) as (Hid & Hn' & Ha').
    eapply TurnCall; [done| |done| |done].
    - apply call_shape; [done|by rewrite Hn', Hn|by rewrite Ha'|by rewrite Ha'].
    - unfold validateToolCall. rewrite Htools, Hn', Hn. done. }
  case_decide as Hout; cbn [app]; [|by apply Hc].
  apply TurnText; [done|by apply text_shape|by apply Hc].
Qed.

Lemma finished_snoc l e : finished (l ++ [e]) = bool_decide (sv_Type e = EventFinish).
Proof. unfold finished. by rewrite last_snoc. Qed.

(** the scripted reasoner delivers its script: for every result whose call is the
    registered one with valid JSON arguments and whose usage is consistent and within
    the budget, streaming it as events, normalising and collecting give the result
    back, with the defaults for a missing call identifier and finish reason. *)
Theorem scripted_result_roundtrip request result :
  Scriptable request result ->
  Collect (fst (fakeReason (NewFakeReasonerWithResult result) None request)) =
  Ok (MkResult (res_Output result) (scriptedCall <$> res_ToolCall result)
        (option_list (scriptedCall <$> res_ToolCall result)) (res_Usage result)
        (if decide (res_FinishReason result = "") then "tool_calls" else res_FinishReason result)).
Proof.
  intros Hs. pose proof (scripted_turn request result Hs) as HT. unfold fakeReason.
  cbn [fst fk_defaultMode NewFakeReasonerWithResult NewFakeReasonerWithEvents andb fk_sourceErr fk_events].
  cbn [fk_events NewFakeReasonerWithResult NewFakeReasonerWithEvents] in HT.
  set (turn := _ ++ _) in *. set (stream := NewNormalizedStream _ _).
  assert (finished turn = true) as Hfin by (subst turn; rewrite !(assoc_L (++)), finished_snoc; done).
  trans (Ok (assemble turn)); [by apply (Collect_script _ _ None turn []); [rewrite app_nil_r|..]|].
  f_equal. subst turn. unfold assemble, assembleFrom, emptyResult. cbn [res_Output res_ToolCalls res_Usage res_FinishReason].
  set (reason := if decide (res_FinishReason result = "") then _ else _).
  assert (forall u, zeroUsage u = true -> u = MkUsage 0 0 0) as Hz.
  { intros [a b c] Hu%bool_decide_eq_true. cbn in Hu. by destruct Hu as (-> & -> & ->). }
  destruct (zeroUsage (res_Usage result)) eqn:Hzero; [apply Hz in Hzero; rewrite Hzero|clear Hzero];
    destruct (res_ToolCall result) as [call|]; case_decide as Hout; try apply dec_stable in Hout; cbn;
    rewrite ?Hout, ?str_app_nil; done.
Qed.
End scripted.

(** ** Witnesses *)

(** Contracts that are only a name. *)
#[local] Instance namedContract : ToolContract string := {
  contract_Name := fun name => name; contract_ValidateInput := fun _ arguments => jsonValid arguments
}.

Definition plainRequest : Request string := MkRequest [] "summary" 1.

Definition defaultTurn : list StreamEvent := fk_events NewFakeReasoner.

Lemma defaultTurn_turn : Turn plainRequest false defaultTurn.
Proof.
  apply TurnText; [done|reflexivity|]. eapply TurnCall; [done|reflexivity|done|done|].
  eapply TurnUsage; [done|reflexivity|done|cbn; lia|]. by apply TurnFinish.
Qed.

Lemma turn_passes_through_witness :
  Collect (NewNormalizedStream plainRequest (sourceOf defaultTurn None 0)) = Ok (assemble defaultTurn).
Proof. exact (proj2 (turn_passes_through plainRequest defaultTurn None defaultTurn_turn eq_refl)). Defined.

Definition scriptedResult : Result :=
  MkResult "done" (Some (MkToolCall "" Phase1PatchTool (objectLiteral "patch" "p"))) [] (MkUsage 0 1 1) "".

Lemma scriptedResult_ok : Scriptable plainRequest scriptedResult.
Proof.
  split; [done| |cbn; change (i64 (0 + 1)) with 1%Z; lia].
  intros call [= <-]. split; [done|]. split; [done|reflexivity].
Qed.

Lemma scripted_result_roundtrip_witness :
  Collect (fst (fakeReason (NewFakeReasonerWithResult scriptedResult) None plainRequest)) =
  Ok (MkResult "done" (Some (MkToolCall "scripted-fake-call" Phase1PatchTool (objectLiteral "patch" "p")))
        [MkToolCall "scripted-fake-call" Phase1PatchTool (objectLiteral "patch" "p")] (MkUsage 0 1 1)
        "tool_calls").
Proof. exact (scripted_result_roundtrip plainRequest scriptedResult scriptedResult_ok). Defined.
