(* ===== verification/Controller.v ===== *)
(** * The controller over a compatible store: internal/controller/controller.go

    Written against the store interface, the managed-run inspector and a reasoner,
    for any world they share. *)
From S2P Require Import Prelude Sha256 GoLib Json Types Decide Reducer Effect Store Reasoner.

(** [err.Error()]: the text of an error is a parameter. *)
Class ErrorText : Type := Error : error -> string.

(** [Reasoner] *)
Class ReasonerPort (C W : Type) : Type := Reason : Context -> Request C -> M W (normalizedStream C).

Record CreateRunRequest : Type := MkCreateRunRequest {
  crr_RunID : string;
  crr_ScenarioID : string;
  crr_SpecHash : string;
  crr_CreatedAt : string
}.

Record ReconcileResult : Type := MkReconcileResult {
  rec_Command : Command;
  rec_Events : list Event;
  rec_State : State
}.

Definition isErr {A} (r : result A) (target : sentinel) : bool :=
  match r with Ok _ => false | Err e => errors_Is e target end.

(** [%d] of an unsigned version. *)
Definition desiredKey (desired : DesiredState) (version : Z) : string :=
  "desired:" +:+ desired +:+ ":v" +:+ pretty version.

Section controller.
Context {W C : Type} `{EventStore W} `{ManagedRunInspector W} `{ToolContract C} `{ReasonerPort C W}
  `{ErrorText}.

(** ** Runs *)

Definition GetRun (ctx : Context) (runID : string) : M W State := wrapM (Rebuild ctx runID).

Definition runCreatedEvent (request : CreateRunRequest) : Event :=
  (newEvent EventRunCreated
    (emptyEventData <| ed_ScenarioID := crr_ScenarioID request |>
                    <| ed_SpecHash := crr_SpecHash request |>) "run-created")
    <| ev_RunID := crr_RunID request |> <| ev_CorrelationID := crr_RunID request |>
    <| ev_CreatedAt := crr_CreatedAt request |>.

Definition CreateRun (ctx : Context) (request : CreateRunRequest) : M W State :=
  if decide (crr_RunID request = "" \/ crr_ScenarioID request = "" \/ crr_SpecHash request = "")
  then throw (Sentinel ErrInvalidRequest)
  else
    loaded ← try (Load ctx (crr_RunID request));
    match loaded with
    | Ok _ => throw (Sentinel ErrRunExists)
    | Err e =>
        if negb (errors_Is e ErrRunNotFound) then throw e
        else
          _ ← wrapM (Append ctx 0%Z (runCreatedEvent request));
          GetRun ctx (crr_RunID request)
    end.

Definition Events (ctx : Context) (runID : string) : M W (list Event) := Load ctx runID.

(** ** Intent *)

Definition desiredStateEvent (runID : string) (desired : DesiredState) (version : Z) : Event :=
  (newEvent EventDesiredStateChanged (emptyEventData <| ed_DesiredState := desired |>)
    (desiredKey desired version))
    <| ev_RunID := runID |> <| ev_CorrelationID := runID |>.

Definition maxDesiredStateRetries : nat := 64.

(** The retry loop: [retries] attempts are left. *)
Fixpoint setDesiredLoop (retries : nat) (ctx : Context) (runID : string) (desired : DesiredState)
    : M W State :=
  match retries with
  | O => throw (Wrap (Sentinel ErrVersionConflict))
  | S n =>
      _ ← checkContext ctx;
      state ← GetRun ctx runID;
      if Terminal (st_ObservedState state) then throw (Sentinel ErrTerminalState)
      else if decide (st_DesiredState state = desired) then mret state
      else
        appended ← try (Append ctx (st_Version state)
                          (desiredStateEvent runID desired (st_Version state)));
        match appended with
        | Ok _ => GetRun ctx runID
        | Err e => if errors_Is e ErrVersionConflict then setDesiredLoop n ctx runID desired
                   else throw (Wrap e)
        end
  end.

Definition SetDesiredState (ctx : Context) (runID : string) (desired : DesiredState) : M W State :=
  if negb (DesiredState_Valid desired) then throw (Sentinel ErrInvalidRequest)
  else setDesiredLoop maxDesiredStateRetries ctx runID desired.

(** ** Reconcile without a lease

    The closure [appendEvent] carries the version it expects and the events it has
    appended. *)
Record Appender : Type := MkAppender {
  ap_expectedVersion : Z;
  ap_events : list Event
}.

Definition appendEvent (ctx : Context) (runID : string) (appender : Appender) (event : Event)
    : M W Appender :=
  let event := event <| ev_RunID := runID |> <| ev_CorrelationID := runID |> in
  first ← try (Append ctx (ap_expectedVersion appender) event);
  appended ← (if isErr first ErrVersionConflict then
                current ← GetRun ctx runID;
                Append ctx (st_Version current) event
              else lift first);
  if ar_Appended appended
  then mret (MkAppender (ev_Seq (ar_Event appended)) (ap_events appender ++ [ar_Event appended]))
  else
    current ← GetRun ctx runID;
    mret (MkAppender (st_Version current) (ap_events appender)).

(** The lifecycle event of a command. *)
Definition commandEvent (eventType : EventType) (data : EventData) (command : Command) (suffix : string)
    : Event :=
  newEvent eventType (data <| ed_ActionID := cmd_ActionID command |>)
    (cmd_ActionID command +:+ ":" +:+ suffix).

Definition appendControlledReasonerFailure (ctx : Context) (runID : string) (command : Command)
    (reason : error) (appender : Appender) : M W Appender :=
  appendEvent ctx runID appender
    (commandEvent EventToolCallFailed (emptyEventData <| ed_Reason := Error reason |>) command
       "tool-call-failed").

Definition reasonerRequest (state : State) : Request C :=
  MkRequest [] (run_ScenarioID (st_Run state)) 1.

(** The result of the reasoner, or the controlled failure it stands for. *)
Definition collectReasoning (stream : normalizedStream C) : result Result :=
  match Collect stream with
  | Err e => Err (Wrap e)
  | Ok result => _ ← ValidatePhase1Result result; Ok result
  end.

Definition reasoningData (result : Result) : EventData :=
  emptyEventData <| ed_Output := res_Output result |>
    <| ed_ToolName := from_option tc_Name "" (res_ToolCall result) |>
    <| ed_ToolArguments := from_option tc_Arguments "" (res_ToolCall result) |>.

Definition runReasoner (ctx : Context) (runID : string) (state : State) (command : Command)
    (appender : Appender) : M W Appender :=
  appender ← (if decide (st_PendingActionID state = "")
              then appendEvent ctx runID appender
                     (commandEvent EventReasoningPlanned emptyEventData command "reasoning-planned")
              else mret appender);
  stream ← Reason ctx (reasonerRequest state);
  match collectReasoning stream with
  | Err e => appendControlledReasonerFailure ctx runID command e appender
  | Ok result =>
      appendEvent ctx runID appender
        (commandEvent EventReasoningCompleted (reasoningData result) command "reasoning-completed")
  end.

Definition runVerification (ctx : Context) (runID : string) (state : State) (command : Command)
    (appender : Appender) : M W Appender :=
  appender ← (if decide (st_PendingActionID state = "")
              then appendEvent ctx runID appender
                     (commandEvent EventVerificationPlanned emptyEventData command
                        "verification-planned")
              else mret appender);
  appendEvent ctx runID appender
    (commandEvent EventVerificationPassed emptyEventData command "verification-passed").

(** The switch over the command. *)
Definition executeCommand (ctx : Context) (runID : string) (state : State) (command : Command)
    (appender : Appender) : M W Appender :=
  let one eventType data suffix :=
    appendEvent ctx runID appender (commandEvent eventType data command suffix) in
  let t := cmd_Type command in
  if decide (t = CommandStartAttempt) then
    one EventAttemptStarted
      (emptyEventData <| ed_AttemptID := cmd_AttemptID command |> <| ed_Reason := "initial" |>)
      "attempt-started"
  else if decide (t = CommandProvisionWorkspace) then
    one EventWorkspaceProvisioned emptyEventData "workspace-provisioned"
  else if decide (t = CommandRunReasoner) then runReasoner ctx runID state command appender
  else if decide (t = CommandApplyPatch) then one EventPatchProduced emptyEventData "patch-produced"
  else if decide (t = CommandVerify) then runVerification ctx runID state command appender
  else if decide (t = CommandSucceedRun) then one EventRunSucceeded emptyEventData "run-succeeded"
  else if decide (t = CommandFailRun) then
    one EventRunFailed (emptyEventData <| ed_Reason := st_FailureReason state |>) "run-failed"
  else if decide (t = CommandCancelRun) then one EventRunCancelled emptyEventData "run-cancelled"
  else throw (Sentinel ErrInvalidRequest).

(** Whether the Run must be reconciled under a lease. *)
Definition requiresLease (leased : bool) (ctx : Context) (runID : string) (state : State) : M W bool :=
  if leased || bool_decide (st_PendingActionType state <> "") then mret true
  else match IsManagedRun with
  | Some inspect => inspect ctx runID
  | None => mret false
  end.

(** [Reconcile]; [leased] says whether the controller has a lease manager. *)
Definition Reconcile (leased : bool) (ctx : Context) (runID : string) : M W ReconcileResult :=
  state ← GetRun ctx runID;
  managed ← requiresLease leased ctx runID state;
  if (managed : bool) then throw (Sentinel ErrManagedRunRequiresLease)
  else
    let command := Decide state in
    if decide (cmd_Type command = CommandNoop) then mret (MkReconcileResult command [] state)
    else
      appender ← wrapM (executeCommand ctx runID state command (MkAppender (st_Version state) []));
      final ← GetRun ctx runID;
      mret (MkReconcileResult command (ap_events appender) final).
End controller.
