(* ===== verification/Managed.v ===== *)
(** * The leased reconcile path: internal/controller/managed.go

    One external action at most per call; a recovered worker calls the same method
    and continues from the pending intent and the durable receipt. *)
From S2P Require Import Prelude Sha256 GoLib Json Types Decide Reducer Receipt.
From S2P Require Import Effect Store Database Artifact PostgresStore Lease Reasoner.
From S2P Require Import Controller.

(** ** Options *)

Inductive FaultPoint : Type :=
  | FaultBeforeActionPlanned
  | FaultAfterActionPlanned
  | FaultAfterActionExecution
  | FaultAfterReceiptPersisted
  | FaultAfterActionCompleted.

Record ActionRequest : Type := MkActionRequest {
  aq_State : State;
  aq_Command : Command;
  aq_Scope : IdempotencyScope
}.

(** [ManagedOptions]: the executor, the artifact store, the fault hook and the safety
    policy; the optional ones are nil by default. *)
Record ManagedOptions (W : Type) : Type := MkManagedOptions {
  mo_Executor : Context -> ActionRequest -> M W ActionReceipt;
  mo_Artifacts : option (Context -> string -> M W ArtifactRecord);
  mo_Fault : option (FaultPoint -> Command -> result unit);
  mo_Safety : Command -> IdempotencyScope
}.
Arguments mo_Executor {W}. Arguments mo_Artifacts {W}.
Arguments mo_Fault {W}. Arguments mo_Safety {W}. Arguments MkManagedOptions {W}.

(** [NewManaged]'s default policy. *)
Definition defaultSafety (command : Command) : IdempotencyScope := IdempotencyScoped.

(** ** Events *)

(** [actionCompletedEvent] *)
Definition completionData (receipt : ActionReceipt) : EventData :=
  (rcp_Output receipt) <| ed_ActionID := rcp_ActionID receipt |>
    <| ed_ActionType := rcp_ActionType receipt |>
    <| ed_IdempotencyScope := rcp_IdempotencyScope receipt |> <| ed_ReceiptID := rcp_ID receipt |>
    <| ed_OutputDigest := rcp_OutputDigest receipt |> <| ed_ArtifactID := rcp_ArtifactID receipt |>
    <| ed_ArtifactDigest := rcp_ArtifactDigest receipt |>.

Definition actionCompletedEvent (receipt : ActionReceipt) : Event :=
  newEvent EventActionCompleted (completionData receipt)
    (rcp_ActionID receipt +:+ ":action-completed").

Definition actionFailedEvent (command : Command) (reason : string) (outcome : ActionOutcome) : Event :=
  newEvent EventActionFailed
    (emptyEventData <| ed_ActionID := cmd_ActionID command |> <| ed_ActionType := cmd_Type command |>
       <| ed_Reason := reason |> <| ed_Outcome := outcome |>)
    (cmd_ActionID command +:+ ":action-failed:" +:+ outcome).

Definition actionPlannedEvent (command : Command) (scope : IdempotencyScope) : Event :=
  newEvent EventActionPlanned
    (emptyEventData <| ed_ActionID := cmd_ActionID command |> <| ed_ActionType := cmd_Type command |>
       <| ed_AttemptID := cmd_AttemptID command |> <| ed_IdempotencyScope := scope |>)
    (cmd_ActionID command +:+ ":action-planned").

Section managed.
Context {W : Type} `{EventStore W} `{Manager W} `{ErrorText}.
Context (options : ManagedOptions W).

Definition inject (point : FaultPoint) (command : Command) : M W unit :=
  match mo_Fault options with
  | None => mret tt
  | Some hook => lift (hook point command)
  end.

(** ** The appender

    [managedAppender]: the event carries the lease; a version conflict is retried
    once at the current version, except for a plan. *)
Definition managedAppend (ctx : Context) (runID : string) (presented : Lease) (appender : Appender)
    (event : Event) : M W Appender :=
  let event := event <| ev_RunID := runID |> <| ev_CorrelationID := runID |>
                     <| ev_WorkerID := ls_WorkerID presented |>
                     <| ev_FencingToken := ls_FencingToken presented |> in
  first ← try (Append ctx (ap_expectedVersion appender) event);
  appended ← (if isErr first ErrVersionConflict && negb (bool_decide (ev_Type event = EventActionPlanned))
              then
                current ← GetRun ctx runID;
                Append ctx (st_Version current) event
              else lift first);
  if ar_Appended appended
  then mret (MkAppender (ev_Seq (ar_Event appended)) (ap_events appender ++ [ar_Event appended]))
  else
    current ← GetRun ctx runID;
    mret (MkAppender (st_Version current) (ap_events appender)).

(** ** Receipt evidence *)

Definition artifactMatches (state : State) (receipt : ActionReceipt) (record : ArtifactRecord) : bool :=
  bool_decide (arec_RunID record = rcp_RunID receipt /\
               arec_AttemptID record = st_PendingAttemptID state /\
               arec_ID record = rcp_ArtifactID receipt /\
               arec_Type record = Phase3ReceiptArtifactType /\
               arec_Digest record = rcp_ArtifactDigest receipt).

Definition validateReceiptEvidence (ctx : Context) (state : State) (receipt : ActionReceipt) : M W unit :=
  _ ← lift (ValidateManagedReceiptEvidence (rcp_ActionType receipt) (rcp_ActionID receipt)
              (st_PendingAttemptID state) (rcp_Output receipt) (rcp_OutputDigest receipt)
              (rcp_ArtifactID receipt) (rcp_ArtifactDigest receipt));
  _ ← wrapM (lift (ValidateActionCompletion state (ev_Data (actionCompletedEvent receipt))));
  if decide (rcp_ArtifactID receipt = "") then mret tt
  else match mo_Artifacts options with
  | None => throw (Plain "Artifact verifier is not configured")
  | Some verify =>
      record ← verify ctx (rcp_ArtifactID receipt);
      if negb (artifactMatches state receipt record)
      then throw (Plain "Artifact metadata mismatch")
      else mret tt
  end.

(** ** Results

    [ReconcileLeased] hands [recoverPendingAction] and [executeManagedAction] a copy
    of its result, while the appender keeps adding events to the original: the copy
    they return holds the events appended before the call. *)
Definition reloaded (ctx : Context) (runID : string) (command : Command) (events : list Event)
    : M W ReconcileResult :=
  state ← GetRun ctx runID;
  mret (MkReconcileResult command events state).

Definition failAction (ctx : Context) (presented : Lease) (state : State) (command : Command)
    (events : list Event) (appender : Appender) (reason : string) (outcome : ActionOutcome)
    : M W ReconcileResult :=
  _ ← managedAppend ctx (run_ID (st_Run state)) presented appender
        (actionFailedEvent command reason outcome);
  reloaded ctx (run_ID (st_Run state)) command events.

Definition unverifiable (e : error) : string :=
  "durable action receipt evidence cannot be verified: " +:+ Error e.

(** The receipt the controller records for an executed action. *)
Definition stampReceipt (state : State) (command : Command) (receipt : ActionReceipt) : ActionReceipt :=
  receipt <| rcp_RunID := run_ID (st_Run state) |> <| rcp_ActionID := cmd_ActionID command |>
          <| rcp_ActionType := cmd_Type command |>
          <| rcp_IdempotencyScope := st_PendingActionScope state |>.

(** [executeManagedAction] *)
Definition executeManagedAction (ctx : Context) (presented : Lease) (state : State)
    (command : Command) (events : list Event) (appender : Appender) : M W ReconcileResult :=
  let runID := run_ID (st_Run state) in
  executed ← try (mo_Executor options ctx (MkActionRequest state command (st_PendingActionScope state)));
  match executed with
  | Err e => failAction ctx presented state command events appender (Error e) ActionOutcomeFailed
  | Ok receipt =>
      _ ← inject FaultAfterActionExecution command;
      recorded ← wrapM (RecordReceipt ctx presented (stampReceipt state command receipt));
      _ ← inject FaultAfterReceiptPersisted command;
      evidence ← try (validateReceiptEvidence ctx state (rres_Receipt recorded));
      match evidence with
      | Err e => failAction ctx presented state command events appender (unverifiable e)
                   ActionOutcomeAmbiguous
      | Ok _ =>
          _ ← wrapM (managedAppend ctx runID presented appender
                       (actionCompletedEvent (rres_Receipt recorded)));
          _ ← inject FaultAfterActionCompleted command;
          reloaded ctx runID command events
      end
  end.

(** The command rebuilt from the pending fields. *)
Definition recoveredCommand (state : State) : Command :=
  MkCommand (st_PendingActionType state) (run_ID (st_Run state)) (st_PendingActionID state)
    (st_PendingAttemptID state).

(** A durable receipt is completed if its evidence still holds. *)
Definition recoverFromReceipt (ctx : Context) (presented : Lease) (state : State)
    (events : list Event) (appender : Appender) (receipt : ActionReceipt) : M W ReconcileResult :=
  let command := recoveredCommand state in
  evidence ← try (validateReceiptEvidence ctx state receipt);
  match evidence with
  | Err e => failAction ctx presented state command events appender (unverifiable e)
               ActionOutcomeAmbiguous
  | Ok _ =>
      _ ← wrapM (managedAppend ctx (run_ID (st_Run state)) presented appender
                   (actionCompletedEvent receipt));
      reloaded ctx (run_ID (st_Run state)) command events
  end.

(** [recoverPendingAction] *)
Definition recoverPendingAction (ctx : Context) (presented : Lease) (state : State)
    (events : list Event) (appender : Appender) : M W ReconcileResult :=
  let command := recoveredCommand state in
  if decide (st_DesiredState state = DesiredPaused \/ st_ObservedState state = StatusPaused)
  then mret (MkReconcileResult NoopCommand events state)
  else if decide (st_DesiredState state = DesiredCancelled)
  then failAction ctx presented state command events appender
         "cancel intent superseded the pending action" ActionOutcomeFailed
  else
    looked ← try (LookupReceipt ctx (run_ID (st_Run state)) (st_PendingActionID state));
    match looked with
    | Ok receipt => recoverFromReceipt ctx presented state events appender receipt
    | Err e =>
        if negb (errors_Is e ErrReceiptNotFound) then throw e
        else if decide (st_PendingActionScope state <> IdempotencyScoped)
        then failAction ctx presented state command events appender
               "action outcome is ambiguous and no durable receipt proves completion"
               ActionOutcomeAmbiguous
        else executeManagedAction ctx presented state command events appender
    end.

(** ** [ReconcileLeased] *)

Definition planAndExecute (ctx : Context) (runID : string) (presented : Lease) (state : State)
    (command : Command) : M W ReconcileResult :=
  _ ← inject FaultBeforeActionPlanned command;
  let scope := mo_Safety options command in
  if negb (IdempotencyScope_Valid scope) then throw (Sentinel ErrInvalidRequest)
  else
    planned ← try (managedAppend ctx runID presented (MkAppender (st_Version state) [])
                     (actionPlannedEvent command scope));
    match planned with
    | Err e =>
        if errors_Is e ErrVersionConflict then
          current ← GetRun ctx runID;
          mret (MkReconcileResult NoopCommand [] current)
        else throw (Wrap e)
    | Ok appender =>
        _ ← inject FaultAfterActionPlanned command;
        plannedState ← GetRun ctx runID;
        executeManagedAction ctx presented plannedState command (ap_events appender) appender
    end.

Definition ReconcileLeased (ctx : Context) (runID : string) (presented : Lease) : M W ReconcileResult :=
  if decide (ls_RunID presented <> runID) then throw (Sentinel ErrInvalidRequest)
  else
    _ ← Validate ctx presented;
    state ← GetRun ctx runID;
    if decide (st_PendingActionID state <> "")
    then recoverPendingAction ctx presented state [] (MkAppender (st_Version state) [])
    else
      let command := Decide state in
      if decide (cmd_Type command = CommandNoop) then mret (MkReconcileResult command [] state)
      else planAndExecute ctx runID presented state command.
End managed.

(** ** The deterministic executors *)

Definition receiptForOutput (request : ActionRequest) (output : EventData) (cost : Z)
    (artifactID : string) : ActionReceipt :=
  MkActionReceipt "" (run_ID (st_Run (aq_State request))) (cmd_ActionID (aq_Command request))
    (cmd_Type (aq_Command request)) (aq_Scope request) output (DigestEventData output) artifactID ""
    cost "" 0 0.

(** The output of each command; [None] for an unsupported one. *)
Definition deterministicOutput (request : ActionRequest) : option EventData :=
  let t := cmd_Type (aq_Command request) in
  if decide (t = CommandStartAttempt) then
    Some (emptyEventData <| ed_AttemptID := cmd_AttemptID (aq_Command request) |>
                         <| ed_Reason := "initial" |>)
  else if decide (t = CommandRunReasoner) then
    Some (emptyEventData <| ed_Output := "phase-3 deterministic reasoning" |>
            <| ed_ToolName := Phase1PatchTool |>
            <| ed_ToolArguments := objectLiteral "patch" "phase-3" |>)
  else if decide (t = CommandFailRun) then
    Some (emptyEventData <| ed_Reason := st_FailureReason (aq_State request) |>)
  else if decide (t ∈ [CommandProvisionWorkspace; CommandApplyPatch; CommandVerify;
                       CommandSucceedRun; CommandCancelRun])
  then Some emptyEventData
  else None.

Definition ExecuteDeterministicAction (request : ActionRequest) : result ActionReceipt :=
  match deterministicOutput request with
  | None => Err (Plain "unsupported managed action")
  | Some output =>
      let cost := if decide (cmd_Type (aq_Command request) = CommandRunReasoner) then 1%Z else 0%Z in
      Ok (receiptForOutput request output cost "")
  end.

Section executors.
Context {W C : Type} `{ToolContract C} `{ReasonerPort C W}.

(** [reasonerActionExecutor] *)
Definition reasonerExecute (ctx : Context) (request : ActionRequest) : M W ActionReceipt :=
  if decide (cmd_Type (aq_Command request) <> CommandRunReasoner)
  then lift (ExecuteDeterministicAction request)
  else
    stream ← Reason ctx (reasonerRequest (aq_State request));
    result ← lift (collectReasoning stream);
    mret (receiptForOutput request (reasoningData result) 1 "").
End executors.

(** [artifactActionExecutor]: ApplyPatch also writes the receipt artifact. *)
Definition newline : string := string_of_bytes [10%Z].

Definition artifactContent (request : ActionRequest) : string :=
  "phase-3 receipt artifact" +:+ newline +:+ "run_id=" +:+ run_ID (st_Run (aq_State request)) +:+
  newline +:+ "action_id=" +:+ cmd_ActionID (aq_Command request) +:+ newline.

Definition artifactExecute `{Postgres} (base : Context -> ActionRequest -> M World ActionReceipt)
    (artifacts : option PostgresArtifactStore) (ctx : Context) (request : ActionRequest)
    : M World ActionReceipt :=
  receipt ← base ctx request;
  if decide (cmd_Type (aq_Command request) <> CommandApplyPatch) then mret receipt
  else match artifacts with
  | None => throw (Plain "PostgreSQL Artifact store is required")
  | Some store =>
      record ← wrapM (Write store ctx (MkArtifactInput
                 (ExpectedActionArtifactID (cmd_ActionID (aq_Command request)))
                 (run_ID (st_Run (aq_State request))) (st_AttemptID (aq_State request))
                 Phase3ReceiptArtifactType (Some (artifactContent request))));
      mret (receipt <| rcp_ArtifactID := arec_ID record |>
                    <| rcp_ArtifactDigest := arec_Digest record |>)
  end.
