(* ===== verification/Operations.v ===== *)
(** * The controllers as histories of the managed system

    Every operation of the controller on the PostgreSQL stores - creating a Run,
    changing its intent, reconciling it with or without a lease, recovering a pending
    action - is a sequence of steps of the system, whatever the executor, the fault
    injector and the safety policy do, as long as the executor works through the same
    stores. *)
From stdpp Require Import relations.
From S2P Require Import Prelude Sha256 GoLib Json Types Decide Reducer Receipt Effect.
From S2P Require Import Store Database Artifact PostgresStore PostgresFacts Lease.
From S2P Require Import System Reasoner Controller Managed.

Section operations.
Context `{Postgres} `{CredentialScanner} `{ErrorText}.

(** Any event may be appended. *)
Definition anyEvent (e : Event) : Prop := True.

Definition history : World -> World -> Prop := rtc (step anyEvent).

#[export] Instance history_preorder : PreOrder history.
Proof. apply _. Qed.

(** ** The stores *)

Lemma history_step w w' : step anyEvent w w' -> history w w'.
Proof. apply rtc_once. Qed.

Lemma append_history ctx v event : keeps history (Append ctx v event).
Proof. intros w. apply history_step, (StepAppend anyEvent w ctx v event I). Qed.

Lemma receipt_history ctx presented receipt : keeps history (RecordReceipt ctx presented receipt).
Proof. intros w. apply history_step, (StepReceipt anyEvent w ctx presented receipt). Qed.

Lemma validate_history ctx presented : keeps history (Validate ctx presented).
Proof. intros w. apply history_step, (StepValidate anyEvent w ctx presented). Qed.

Lemma artifact_history store ctx input : keeps history (Write store ctx input).
Proof. intros w. apply history_step, (StepArtifact anyEvent w store ctx input). Qed.

(** [pure m]: a call that reads the tables and nothing else. *)
Definition pure {A} (m : M World A) : Prop := forall w, snd (m w) = w.

Lemma pure_history {A} (m : M World A) : pure m -> keeps history m.
Proof. intros Hp w. by rewrite Hp. Qed.

Lemma pure_bind {A B} (f : A -> M World B) (m : M World A) :
  pure m -> (forall a, pure (f a)) -> pure (m ≫= f).
Proof.
  intros Hm Hf w. unfold mbind, M_bind. specialize (Hm w). destruct (m w) as [[a|e] w1]; cbn in *; subst;
    [apply Hf|done].
Qed.

Lemma pure_ret {A} (a : A) : pure (mret a). Proof. done. Qed.
Lemma pure_throw {A} e : pure (throw e : M World A). Proof. done. Qed.
Lemma pure_lift {A} (r : result A) : pure (lift r). Proof. done. Qed.
Lemma pure_query {A} (f : Database -> A) : pure (query f). Proof. done. Qed.
Lemma pure_wrapM {A} (m : M World A) : pure m -> pure (wrapM m).
Proof. intros Hm w. unfold wrapM. specialize (Hm w). by destruct (m w). Qed.

Lemma rebuild_pure ctx runID : pure (Rebuild ctx runID).
Proof.
  cbn. unfold rebuildPostgres. apply pure_bind; [apply pure_query|]. intros [row|]; [|apply pure_throw].
  apply pure_bind; [apply pure_query|]. intros ?. apply pure_lift.
Qed.

Lemma load_pure ctx runID : pure (Load ctx runID).
Proof.
  cbn. unfold loadPostgres, loadPostgresEvents. do 2 (apply pure_bind; [apply pure_query|]; intros ?).
  case_match; [apply pure_throw|apply pure_ret].
Qed.

Lemma lookupReceipt_pure ctx runID actionID : pure (LookupReceipt ctx runID actionID).
Proof.
  cbn. unfold lookupReceipt, lookupReceiptRow. apply pure_bind; [apply pure_query|].
  intros [?|]; [apply pure_ret|apply pure_throw].
Qed.

Lemma inspect_pure ctx runID : pure (isManagedRun ctx runID).
Proof. unfold isManagedRun. case_decide; [apply pure_throw|apply pure_query]. Qed.

Lemma GetRun_pure ctx runID : pure (GetRun ctx runID).
Proof. apply pure_wrapM, rebuild_pure. Qed.

Lemma keeps_try {A} (R : World -> World -> Prop) (m : M World A) : keeps R m -> keeps R (try m).
Proof. intros Hm w. unfold try. specialize (Hm w). by destruct (m w). Qed.

Lemma checkContext_pure ctx : pure (checkContext ctx).
Proof. unfold checkContext. by destruct (ctx_Err ctx). Qed.

Lemma inject_pure (options : ManagedOptions World) point command : pure (inject options point command).
Proof. unfold inject. by destruct (mo_Fault options). Qed.

Create HintDb history.
#[local] Hint Resolve inject_pure append_history receipt_history validate_history artifact_history
  pure_history pure_ret pure_throw pure_lift pure_query rebuild_pure load_pure lookupReceipt_pure
  inspect_pure GetRun_pure checkContext_pure : history.

(** Walks through a controller body. *)
Ltac history_steps :=
  repeat first [ solve [eauto 2 with history nocore] | apply keeps_bind; [apply _| |intros ?] | progress cbv zeta
               | apply keeps_try | apply keeps_wrapM | case_decide | case_match ].

(** ** Controllers without a lease *)

Lemma CreateRun_history ctx request : keeps history (CreateRun ctx request).
Proof. unfold CreateRun. history_steps. Qed.

Lemma SetDesiredState_history ctx runID desired : keeps history (SetDesiredState ctx runID desired).
Proof.
  unfold SetDesiredState. case_match; [history_steps|]. generalize maxDesiredStateRetries as n.
  induction n as [|n IH]; cbn [setDesiredLoop]; history_steps.
Qed.

(** ** Reconcile *)

Section reconcile.
Context {C : Type} `{ToolContract C} `{ReasonerPort C World}.
Hypothesis Reason_history : forall ctx request, keeps history (Reason ctx request).

Lemma appendEvent_history ctx runID appender event : keeps history (appendEvent ctx runID appender event).
Proof. unfold appendEvent. history_steps. Qed.

#[local] Hint Resolve Reason_history appendEvent_history : history.

Lemma executeCommand_history ctx runID state command appender :
  keeps history (executeCommand ctx runID state command appender).
Proof. unfold executeCommand, runReasoner, runVerification, appendControlledReasonerFailure. history_steps. Qed.

#[local] Hint Resolve executeCommand_history : history.

Lemma Reconcile_history leased ctx runID : keeps history (Reconcile leased ctx runID).
Proof. unfold Reconcile, requiresLease. cbn [IsManagedRun postgres_inspector]. history_steps. Qed.
End reconcile.

(** ** Reconcile under a lease *)

Section leased.
Context (options : ManagedOptions World).
Hypothesis Executor_history : forall ctx request, keeps history (mo_Executor options ctx request).
Hypothesis Artifacts_history :
  forall verify ctx id, mo_Artifacts options = Some verify -> keeps history (verify ctx id).

Lemma managedAppend_history ctx runID presented appender event :
  keeps history (managedAppend ctx runID presented appender event).
Proof. unfold managedAppend. history_steps. Qed.

Lemma evidence_history ctx state receipt : keeps history (validateReceiptEvidence options ctx state receipt).
Proof.
  unfold validateReceiptEvidence. history_steps. by apply Artifacts_history.
Qed.

#[local] Hint Resolve Executor_history managedAppend_history evidence_history : history.

Lemma failAction_history ctx presented state command events appender reason outcome :
  keeps history (failAction ctx presented state command events appender reason outcome).
Proof. unfold failAction, reloaded. history_steps. Qed.

#[local] Hint Resolve failAction_history : history.

Lemma executeManagedAction_history ctx presented state command events appender :
  keeps history (executeManagedAction options ctx presented state command events appender).
Proof. unfold executeManagedAction, reloaded. history_steps. Qed.

#[local] Hint Resolve executeManagedAction_history : history.

Lemma recoverPendingAction_history ctx presented state events appender :
  keeps history (recoverPendingAction options ctx presented state events appender).
Proof. unfold recoverPendingAction, recoverFromReceipt, reloaded. history_steps. Qed.

#[local] Hint Resolve recoverPendingAction_history : history.

Lemma ReconcileLeased_history ctx runID presented :
  keeps history (ReconcileLeased options ctx runID presented).
Proof. unfold ReconcileLeased, planAndExecute. history_steps. Qed.
End leased.
End operations.
