(* ===== verification/ManagedTheorems.v ===== *)
(** * What the managed controller guarantees

    Theorems on [ReconcileLeased] and the operations of the controller together:
    every run of the controllers is a history of the system, a durable receipt stops
    the executor from running again, and a worker that loses its lease while an
    action runs records nothing of it. *)
From stdpp Require Import relations.
From S2P Require Import Prelude Sha256 GoLib Json Types Decide Reducer Receipt Effect.
From S2P Require Import Store Database Artifact PostgresStore PostgresFacts Lease.
From S2P Require Import System SystemTheorems Reasoner Controller Managed Operations.
From S2P Require Import Cycle CycleTheorems.

(** ** When recovery executes *)

(** The conditions under which [recoverPendingAction] reaches the executor, given what
    the receipt lookup said. *)
Definition recoveryExecutes (state : State) (looked : result ActionReceipt) : bool :=
  bool_decide (st_DesiredState state <> DesiredPaused /\ st_ObservedState state <> StatusPaused /\
               st_DesiredState state <> DesiredCancelled /\
               st_PendingActionScope state = IdempotencyScoped) &&
  isErr looked ErrReceiptNotFound.

Section recovery.
Context {W : Type} `{EventStore W} `{Manager W} `{ErrorText}.

(** The options with another executor. *)
Definition withExecutor (executor : Context -> ActionRequest -> M W ActionReceipt)
    (options : ManagedOptions W) : ManagedOptions W :=
  MkManagedOptions executor (mo_Artifacts options) (mo_Fault options) (mo_Safety options).

Lemma try_ret {A} (m : M W A) w r w' : m w = (r, w') -> try m w = (Ok r, w').
Proof. unfold try. by intros ->. Qed.

Lemma recoverPendingAction_executes options ctx presented state events appender w looked w' :
  LookupReceipt ctx (run_ID (st_Run state)) (st_PendingActionID state) w = (looked, w') ->
  recoveryExecutes state looked = true ->
  recoverPendingAction options ctx presented state events appender w =
  executeManagedAction options ctx presented state (recoveredCommand state) events appender w'.
Proof.
  intros Hl [(Hp & Ho & Hc & Hs)%bool_decide_eq_true Herr]%andb_true_iff. unfold recoverPendingAction.
  rewrite decide_False by tauto. rewrite decide_False by done.
  rewrite (M_bind_ret _ _ _ _ _ (try_ret _ _ _ _ Hl)). destruct looked as [r|e]; [done|]. cbn in Herr.
  rewrite Herr. cbn [negb]. by rewrite decide_False by auto.
Qed.

Lemma recoverPendingAction_spares executor options ctx presented state events appender w looked w' :
  LookupReceipt ctx (run_ID (st_Run state)) (st_PendingActionID state) w = (looked, w') ->
  recoveryExecutes state looked = false ->
  recoverPendingAction (withExecutor executor options) ctx presented state events appender w =
  recoverPendingAction options ctx presented state events appender w.
Proof.
  intros Hl Hno. unfold recoverPendingAction.
  case_decide as Hp; [done|]. case_decide as Hd; [done|].
  rewrite !(M_bind_ret _ _ _ _ _ (try_ret _ _ _ _ Hl)). destruct looked as [r|e]; [done|].
  destruct (errors_Is e ErrReceiptNotFound) eqn:He; [|done]. cbn [negb]. case_decide as Hs; [done|].
  exfalso. apply andb_false_iff in Hno as [Hno%bool_decide_eq_false|Hno]; cbn in *; [|congruence].
  apply Hno. split_and!; [tauto..|]. by destruct (decide (st_PendingActionScope state = IdempotencyScoped)).
Qed.

(** C8: an action is executed again only when nothing proves it done: for a Run with a
    pending action, [ReconcileLeased] reaches the executor exactly when the Run is
    neither paused nor cancelled, the action is idempotent and the receipt lookup
    answers that there is none.  Otherwise - a durable receipt exists, in particular -
    the result and all effects are the same whatever the executor is. *)
Theorem receipt_prevents_reexecution executor options ctx presented w w1 state w2 looked w3 :
  Validate ctx presented w = (Ok tt, w1) ->
  GetRun ctx (ls_RunID presented) w1 = (Ok state, w2) -> st_PendingActionID state <> "" ->
  LookupReceipt ctx (run_ID (st_Run state)) (st_PendingActionID state) w2 = (looked, w3) ->
  if recoveryExecutes state looked
  then ReconcileLeased options ctx (ls_RunID presented) presented w =
       executeManagedAction options ctx presented state (recoveredCommand state) []
         (MkAppender (st_Version state) []) w3
  else ReconcileLeased (withExecutor executor options) ctx (ls_RunID presented) presented w =
       ReconcileLeased options ctx (ls_RunID presented) presented w.
Proof.
  intros Hv Hg Hp Hl.
  assert (forall o, ReconcileLeased o ctx (ls_RunID presented) presented w =
    recoverPendingAction o ctx presented state [] (MkAppender (st_Version state) []) w2) as Hrec.
  { intros o. unfold ReconcileLeased. rewrite decide_False by auto.
    rewrite (M_bind_ret _ _ _ _ _ Hv). rewrite (M_bind_ret _ _ _ _ _ Hg). by rewrite decide_True. }
  rewrite !Hrec. destruct (recoveryExecutes state looked) eqn:Hx.
  - by apply (recoverPendingAction_executes _ _ _ _ _ _ _ looked).
  - by apply (recoverPendingAction_spares _ _ _ _ _ _ _ _ looked w3).
Qed.
End recovery.

(** ** Losing the lease *)

Section lost.
Context `{Postgres} `{CredentialScanner} `{ErrorText}.

(** The presented lease is not the stored one. *)
Definition Superseded (w : World) (presented : Lease) : Prop :=
  forall row, db_leases (w_db w) !! ls_RunID presented = Some row ->
    grantOfRow row <> (ls_FencingToken presented, ls_WorkerID presented).

(** A call that fails and changes no table. *)
Definition Refused {A} (m : M World A) (w : World) : Prop :=
  is_ok (fst (m w)) = false /\ w_db (snd (m w)) = w_db w.

Lemma Refused_bind {A B} (f : A -> M World B) (m : M World A) w : Refused m w -> Refused (m ≫= f) w.
Proof. unfold Refused, mbind, M_bind. intros [Hfst Hsnd]. by destruct (m w) as [[a|e] w']. Qed.

Lemma Refused_wrapM {A} (m : M World A) w : Refused m w -> Refused (wrapM m) w.
Proof. unfold Refused, wrapM. intros [Hfst Hsnd]. by destruct (m w) as [[a|e] w']. Qed.

Lemma Refused_pure_bind {A B} (f : A -> M World B) (m : M World A) w :
  pure m -> (forall a, Refused (f a) w) -> Refused (m ≫= f) w.
Proof.
  intros Hm Hf. specialize (Hm w). unfold Refused, mbind, M_bind. destruct (m w) as [[a|e] w']; cbn in Hm; subst; [|done].
  apply Hf.
Qed.

Lemma Refused_try_bind {A B} (f : result A -> M World B) (m : M World A) w :
  Refused m w -> (forall e w', w_db w' = w_db w -> Refused (f (Err e)) w') -> Refused (try m ≫= f) w.
Proof.
  unfold Refused at 1 3, mbind, M_bind, try. intros [Hfst Hsnd] Hf. destruct (m w) as [[a|e] w']; [done|].
  destruct (Hf e w' Hsnd) as [H1' H2']. split; [done|]. by rewrite H2'.
Qed.

Lemma superseded_append ctx v event w presented :
  Superseded w presented -> ev_RunID event = ls_RunID presented ->
  ev_WorkerID event = ls_WorkerID presented -> ev_FencingToken event = ls_FencingToken presented ->
  ev_Type event ∈ leaseSensitiveTypes -> Refused (appendPostgres ctx v event) w.
Proof.
  intros Hs Hr Hw Ht Hty. unfold Refused. destruct (appendPostgres ctx v event w) as [[r|e] w'] eqn:Ha; cbn.
  - exfalso. apply appendPostgres_Ok in Ha as (_ & HA & _).
    assert (forall A (f : Event -> A), (forall z, f (event <| ev_PayloadVersion := z |>) = f event) ->
      f (defaultPayloadVersion event) = f event) as Hf
      by (intros A f Hf; unfold defaultPayloadVersion; by case_decide; rewrite ?Hf).
    destruct HA as (row & n & Hrow & Hfst & Hsnd & _).
    { left. unfold leaseSensitiveEvent. rewrite (Hf _ ev_Type) by done. by rewrite decide_True. }
    rewrite (Hf _ ev_RunID), Hr in Hrow by done. apply (Hs row Hrow).
    rewrite (Hf _ ev_WorkerID) in Hfst by done. rewrite (Hf _ ev_FencingToken) in Hsnd by done.
    unfold grantOfRow. by rewrite Hfst, Hsnd, Hw, Ht.
  - by apply appendPostgres_Err in Ha.
Qed.

Lemma Superseded_db w w' presented : w_db w' = w_db w -> Superseded w presented -> Superseded w' presented.
Proof. intros Hdb Hs. unfold Superseded. by rewrite Hdb. Qed.

Lemma superseded_managedAppend ctx presented appender event w :
  Superseded w presented -> ev_Type event ∈ leaseSensitiveTypes ->
  Refused (managedAppend ctx (ls_RunID presented) presented appender event) w.
Proof.
  intros Hs Hty. unfold managedAppend. cbv zeta.
  set (e := event <| _ := _ |> <| _ := _ |> <| _ := _ |> <| _ := _ |>).
  assert (forall v w', w_db w' = w_db w -> Refused (appendPostgres ctx v e) w') as Hap.
  { intros v w' Hdb. apply (superseded_append ctx v e w' presented); [by apply (Superseded_db w)|done..]. }
  apply Refused_try_bind; [by apply Hap|]. intros err w' Hdb. apply Refused_bind. case_match; [|done].
  apply Refused_pure_bind; [apply GetRun_pure|]. intros current. by apply Hap.
Qed.

Lemma superseded_failAction ctx presented state command events appender reason outcome w :
  Superseded w presented -> run_ID (st_Run state) = ls_RunID presented ->
  Refused (failAction ctx presented state command events appender reason outcome) w.
Proof.
  intros Hs Hr. unfold failAction. rewrite Hr. apply Refused_bind, superseded_managedAppend; [done|].
  set_solver.
Qed.

Lemma superseded_receipt ctx presented receipt w :
  Superseded w presented -> Refused (RecordReceipt ctx presented receipt) w.
Proof.
  intros Hs. unfold Refused. cbn [RecordReceipt postgres_manager].
  destruct (recordReceipt ctx presented receipt w) as [[r|e] w'] eqn:Ha; cbn.
  - exfalso. apply recordReceipt_Ok in Ha as ((row & n & Hrow & Hfst & Hsnd & _) & _).
    apply (Hs row Hrow). unfold grantOfRow. by rewrite Hfst, Hsnd.
  - by apply recordReceipt_Err in Ha.
Qed.

(** C3: a worker that loses its lease while an action runs records nothing of it: if
    after the executor's work, whatever that was and however it ended, the stored lease
    is no longer the presented one, [executeManagedAction] fails, and the tables are
    exactly as the executor left them: no receipt, no completion, no failure. *)
Theorem lost_lease_records_nothing options ctx presented state command events appender w executed w1 :
  run_ID (st_Run state) = ls_RunID presented ->
  mo_Executor options ctx (MkActionRequest state command (st_PendingActionScope state)) w = (executed, w1) ->
  Superseded w1 presented ->
  exists err w', executeManagedAction options ctx presented state command events appender w = (Err err, w') /\
    w_db w' = w_db w1.
Proof.
  intros Hr Hx Hs.
  assert (forall A (m : M World A), Refused m w1 -> exists err w', m w1 = (Err err, w') /\ w_db w' = w_db w1)
    as Hout.
  { intros A m [Hfst Hsnd]. destruct (m w1) as [[a|err] w'] eqn:Hm; [done|]. by exists err, w'. }
  unfold executeManagedAction. cbv zeta.
  unfold mbind at 1, M_bind at 1. unfold try at 1. rewrite Hx. destruct executed as [receipt|err].
  - apply Hout. apply Refused_pure_bind; [apply inject_pure|]. intros _.
    by apply Refused_bind, Refused_wrapM, superseded_receipt.
  - by apply Hout, superseded_failAction.
Qed.
End lost.

(** ** The recovery of a cancellation *)

Section cancelled.
Context {W : Type} `{EventStore W} `{Manager W} `{ErrorText}.

Lemma applyEvent_failed s d k :
  applyEvent s (newEvent EventActionFailed d k) = applyActionFailed s (newEvent EventActionFailed d k).
Proof.
  unfold applyEvent. cbn [ev_Type newEvent]. rewrite decide_False by by intros []. reflexivity.
Qed.

Lemma requireManagedPendingAction_pending s :
  st_PendingActionID s <> "" -> st_PendingActionType s <> "" ->
  requireManagedPendingAction s (st_PendingActionID s) (st_PendingActionType s) = Ok tt.
Proof.
  intros Hi Ht. unfold requireManagedPendingAction, guard_err. rewrite bool_decide_false; [done|]. tauto.
Qed.

(** The state after the failure that recovery records for a cancelled Run. *)
Definition cancelFailed (s : State) (reason : string) : State :=
  (clearPending s) <| st_FailureReason := reason |>.

Lemma cancelled_failure_step s reason :
  st_PendingActionID s <> "" -> st_PendingActionType s <> "" -> reason <> "" ->
  applyEvent s (actionFailedEvent (recoveredCommand s) reason ActionOutcomeFailed) = Ok (cancelFailed s reason).
Proof.
  intros Hi Ht Hr. unfold actionFailedEvent. rewrite applyEvent_failed. unfold applyActionFailed.
  cbn [ev_Data newEvent ed_ActionID ed_ActionType]. cbn -[requireManagedPendingAction decide].
  rewrite requireManagedPendingAction_pending by done. cbn [mbind result_bind].
  rewrite decide_False by done. rewrite decide_False by by intros [[] _]. rewrite decide_False; [done|]. by intros [[=] _].
Qed.

Lemma Decide_cancelled s :
  st_Exists s = true -> active s -> st_DesiredState s = DesiredCancelled ->
  Decide s = commandFor s CommandCancelRun.
Proof.
  intros Hx (_ & _ & Ht & _)%active_inv Hd. unfold Decide. rewrite Hx, Ht. cbn [negb orb]. by rewrite decide_True.
Qed.

(** the recovery of a planned CancelRun defeats the cancellation.  For a Run
    whose cancelled intent was planned and whose worker then crashed, recovery records
    the failure of CancelRun itself; the Run keeps its state, the next decision is
    CancelRun under the same identifier, the store never records another plan of it
    because the key of the first plan is taken, and without a plan every completion is
    refused. *)
Theorem cancel_recovery_is_stuck options ctx presented s events appender w :
  st_Exists s = true -> active s -> st_DesiredState s = DesiredCancelled ->
  st_PendingActionType s = CommandCancelRun -> st_PendingActionID s = cmd_ActionID (Decide s) ->
  let c := recoveredCommand s in
  let reason := "cancel intent superseded the pending action" in
  recoverPendingAction options ctx presented s events appender w =
    failAction ctx presented s c events appender reason ActionOutcomeFailed w /\
  exists s1, applyEvent s (actionFailedEvent c reason ActionOutcomeFailed) = Ok s1 /\
    st_ObservedState s1 = st_ObservedState s /\
    cmd_Type (Decide s1) = CommandCancelRun /\ cmd_ActionID (Decide s1) = cmd_ActionID c /\
    (forall log planned scope stamp v plan,
       planned ∈ log -> ev_IdempotencyKey planned = ev_IdempotencyKey (actionPlannedEvent c scope) ->
       ev_IdempotencyKey plan = ev_IdempotencyKey (actionPlannedEvent (Decide s1) scope) ->
       snd (appendSpec stamp log v plan) = log) /\
    forall d k, is_ok (applyEvent s1 (newEvent EventActionCompleted d k)) = false.
Proof.
  intros Hx Ha Hd Ht Hi c reason.
  assert (Decide s = commandFor s CommandCancelRun) as Hdec.
  { by apply Decide_cancelled. }
  assert (st_PendingActionID s <> "") as Hne by (rewrite Hi, Hdec; apply actionDigest_nonempty).
  assert (Decide (cancelFailed s reason) = commandFor s CommandCancelRun) as Hdec1.
  { trans (commandFor (cancelFailed s reason) CommandCancelRun); [by apply Decide_cancelled|done]. }
  split.
  { unfold recoverPendingAction. rewrite decide_False; [by rewrite decide_True|].
    rewrite Hd. intros [[=]|Ho]. by apply active_inv in Ha as [Ha _]. }
  exists (cancelFailed s reason). split; [by apply cancelled_failure_step; [..|rewrite Ht|]|].
  split; [done|]. rewrite Hdec1. split; [done|]. split; [by rewrite Hdec in Hi|]. split.
  - intros log planned scope stamp v plan Hin Hk Hp. unfold appendSpec.
    destruct (lookupKey _ log) as [existing|] eqn:Hl; [by case_match|].
    exfalso. apply lookupKey_None in Hl. apply Hl. rewrite Hp. rewrite Hdec in Hi.
    replace (ev_IdempotencyKey (actionPlannedEvent (commandFor s CommandCancelRun) scope))
      with (ev_IdempotencyKey planned) by (rewrite Hk; cbn; by rewrite Hi).
    by apply list_elem_of_fmap_2.
  - intros d k. rewrite applyEvent_completed. unfold applyActionCompleted. case_decide; [done|].
    destruct (requireManagedPendingAction _ _ _) eqn:Hreq; [|done].
    apply requireManagedPendingAction_Ok in Hreq as (Hid & _ & Heq & _). exfalso. apply Hid.
    by rewrite Heq.
Qed.

(** While the Run is paused, recovery of a cancelled Run does nothing at all, and the
    reducer refuses every change of the intent. *)
Lemma paused_cancel_is_stuck options ctx presented s events appender w :
  st_ObservedState s = StatusPaused -> st_DesiredState s = DesiredCancelled ->
  recoverPendingAction options ctx presented s events appender w =
    (Ok (MkReconcileResult NoopCommand events s), w) /\
  forall d, d <> DesiredCancelled -> is_ok (applyDesiredState s d) = false.
Proof.
  intros Ho Hd. split.
  - unfold recoverPendingAction. by rewrite decide_True by auto.
  - intros d Hne. unfold applyDesiredState. rewrite Hd. repeat case_match; done.
Qed.
End cancelled.

(** ** All operations together *)

Section operations.
Context `{Postgres} `{CredentialScanner} `{ErrorText}.

(** The executor and the artifact verifier act on the world through its operations. *)
Record Lawful (options : ManagedOptions World) : Prop := {
  lw_executor : forall ctx request, keeps history (mo_Executor options ctx request);
  lw_artifacts : forall verify ctx id, mo_Artifacts options = Some verify -> keeps history (verify ctx id)
}.

(** The executors of the repository are lawful. *)
Lemma deterministic_history ctx request :
  keeps history ((fun (_ : Context) r => lift (ExecuteDeterministicAction r)) ctx request).
Proof. intros w. done. Qed.

Lemma artifactExecute_history base artifacts ctx request :
  (forall c r, keeps history (base c r)) -> keeps history (artifactExecute base artifacts ctx request).
Proof.
  intros Hb. unfold artifactExecute. apply keeps_bind; [apply _|apply Hb|]. intros receipt.
  case_decide; [by apply keeps_ret; apply _|]. destruct artifacts as [store|]; [|by apply keeps_throw; apply _].
  apply keeps_bind; [apply _|apply keeps_wrapM, artifact_history|]. intros record. by apply keeps_ret; apply _.
Qed.

(** What the processes of the system do: primitive operations, and whole calls of the
    controller with any options and any reasoner that are lawful.  Each is a history, so
    what holds of every history holds of them. *)
Inductive operates (w : World) : World -> Prop :=
  | OperatePrimitive w' : step anyEvent w w' -> operates w w'
  | OperateCreate ctx request : operates w (snd (CreateRun ctx request w))
  | OperateIntent ctx runID desired : operates w (snd (SetDesiredState ctx runID desired w))
  | OperateReconcile C (contract : ToolContract C) (reason : ReasonerPort C World) leased ctx runID :
      (forall c request, keeps history (Reason c request)) ->
      operates w (snd (Reconcile (C := C) leased ctx runID w))
  | OperateLeased options ctx runID presented :
      Lawful options -> operates w (snd (ReconcileLeased options ctx runID presented w)).

Lemma operates_history w w' : operates w w' -> history w w'.
Proof.
  intros [w1 Hs|ctx request|ctx runID desired|C contract reason leased ctx runID Hr|options ctx runID presented [Hx Ha]].
  - by apply rtc_once.
  - apply CreateRun_history.
  - apply SetDesiredState_history.
  - by apply Reconcile_history.
  - by apply ReconcileLeased_history.
Qed.
End operations.
