(* ===== verification/ControllerWitnesses.v ===== *)
(** * The theorems on the controllers, at concrete worlds *)
From stdpp Require Import relations.
From S2P Require Import Prelude Sha256 GoLib Json Types Decide Reducer Receipt Effect.
From S2P Require Import Store Samples Database Artifact PostgresStore PostgresFacts PostgresTheorems.
From S2P Require Import Lease System SystemTheorems ManagedWitnesses.
From S2P Require Import Reasoner Controller Managed Operations ManagedTheorems Cycle.

#[export] Instance sampleErrorText : ErrorText := fun _ => "error".

(** ** A managed Run driven by the controller *)

Definition deterministicOptions : ManagedOptions World :=
  MkManagedOptions (fun _ request => lift (ExecuteDeterministicAction request)) None None defaultSafety.

Lemma deterministicOptions_lawful : Lawful deterministicOptions.
Proof. split; [apply deterministic_history|done]. Qed.

Definition sampleRequest : CreateRunRequest := MkCreateRunRequest "run-1" "scenario" "spec" "2024".

Definition requestedWorld : World := snd (CreateRun background sampleRequest emptyWorld).

Definition grantedWorld : World :=
  snd (acquireLease background "run-1" "worker-1" halfMinute
    (snd (registerWorker background "worker-1" requestedWorld))).

Definition reconciledWorld : World :=
  snd (ReconcileLeased deterministicOptions background "run-1" firstLease grantedWorld).

(** The whole call planned, executed, recorded and completed the first action. *)
Example reconciled_log :
  map ev_Type (pgLog reconciledWorld "run-1") = [EventRunCreated; EventActionPlanned; EventActionCompleted].
Proof. vm_compute. reflexivity. Qed.

(** ** Recovery *)

Definition pendingState : State :=
  match fst (GetRun background "run-1" (snd (validateLease background firstLease receiptWorld))) with
  | Ok st => st | Err _ => InitialState end.

Definition validatedWorld : World := snd (validateLease background firstLease receiptWorld).

Lemma receipt_still_held : Validate background firstLease receiptWorld = (Ok tt, validatedWorld).
Proof. vm_compute. reflexivity. Qed.

Lemma pending_read : GetRun background "run-1" validatedWorld = (Ok pendingState, validatedWorld).
Proof. vm_compute. reflexivity. Qed.

Lemma pending_is_pending : st_PendingActionID pendingState <> "".
Proof. vm_compute. discriminate. Qed.

Definition durableReceipt : result ActionReceipt :=
  fst (LookupReceipt background (run_ID (st_Run pendingState)) (st_PendingActionID pendingState) validatedWorld).

Lemma receipt_found :
  LookupReceipt background (run_ID (st_Run pendingState)) (st_PendingActionID pendingState) validatedWorld =
  (durableReceipt, validatedWorld).
Proof. vm_compute. reflexivity. Qed.

Lemma recovery_spares : recoveryExecutes pendingState durableReceipt = false.
Proof. vm_compute. reflexivity. Qed.

Lemma receipt_prevents_reexecution_witness :
  ReconcileLeased (withExecutor (fun _ _ => throw (Plain "not called")) deterministicOptions)
    background "run-1" firstLease receiptWorld =
  ReconcileLeased deterministicOptions background "run-1" firstLease receiptWorld.
Proof.
  pose proof (receipt_prevents_reexecution (fun _ _ => throw (Plain "not called")) deterministicOptions
    background firstLease receiptWorld validatedWorld pendingState validatedWorld durableReceipt
    validatedWorld receipt_still_held pending_read pending_is_pending receipt_found) as H.
  rewrite recovery_spares in H. exact H.
Defined.

(** ** Losing the lease *)

(** An executor that takes so long that another worker takes the Run over. *)
Definition slowExecutor (_ : Context) (_ : ActionRequest) : M World ActionReceipt := fun w =>
  (Ok startReceipt, snd (acquireLease background "run-1" "worker-2" halfMinute (wait 40 w))).

Definition slowOptions : ManagedOptions World :=
  MkManagedOptions slowExecutor None None defaultSafety.

Definition slowRequest : ActionRequest :=
  MkActionRequest pendingState (recoveredCommand pendingState) (st_PendingActionScope pendingState).

Definition afterSlow : World :=
  snd (acquireLease background "run-1" "worker-2" halfMinute (wait 40 plannedWorld)).

Lemma slow_ran : mo_Executor slowOptions background slowRequest plannedWorld = (Ok startReceipt, afterSlow).
Proof. unfold slowOptions, mo_Executor, slowExecutor, afterSlow. reflexivity. Qed.

Lemma pending_run : run_ID (st_Run pendingState) = "run-1".
Proof. vm_compute. reflexivity. Qed.

Lemma afterSlow_superseded : Superseded afterSlow firstLease.
Proof.
  intros row Hrow. assert (db_leases (w_db afterSlow) !! "run-1" = Some (MkLeaseRow "worker-2" 2
    (lr_expires_at row) (lr_heartbeat_at row))) as Hs.
  { destruct row as [worker token expires beat]. revert Hrow. vm_compute. by intros [= <- <- <- <-]. }
  change "run-1" with (ls_RunID firstLease) in Hs. rewrite Hrow in Hs. injection Hs as Hs. rewrite Hs. unfold grantOfRow. cbn. discriminate.
Qed.

Lemma lost_lease_records_nothing_witness :
  exists err w', executeManagedAction slowOptions background firstLease pendingState
    (recoveredCommand pendingState) [] (MkAppender 2 []) plannedWorld = (Err err, w') /\ w_db w' = w_db afterSlow.
Proof.
  exact (lost_lease_records_nothing slowOptions background firstLease pendingState
    (recoveredCommand pendingState) [] (MkAppender 2 []) plannedWorld (Ok startReceipt) afterSlow
    pending_run slow_ran afterSlow_superseded).
Defined.

(** ** A cancellation that is lost *)

Definition cancelling : State :=
  (created <| st_DesiredState := DesiredCancelled |>)
    <| st_PendingActionType := CommandCancelRun |>
    <| st_PendingActionID := cmd_ActionID (commandFor created CommandCancelRun) |>.

Lemma cancelling_active : active cancelling.
Proof. apply (bool_decide_unpack _). vm_compute. exact I. Qed.

Lemma cancelling_identifier : st_PendingActionID cancelling = cmd_ActionID (Decide cancelling).
Proof. vm_compute. reflexivity. Qed.

Lemma cancel_recovery_is_stuck_witness :
  exists s1, st_ObservedState s1 = StatusQueued /\ cmd_Type (Decide s1) = CommandCancelRun /\
    forall d k, is_ok (applyEvent s1 (newEvent EventActionCompleted d k)) = false.
Proof.
  destruct (cancel_recovery_is_stuck deterministicOptions background firstLease cancelling [] (MkAppender 2 []) emptyWorld
    eq_refl cancelling_active eq_refl eq_refl cancelling_identifier) as (_ & s1 & _ & H1 & H2 & _ & _ & H3).
  exists s1. split; [exact H1|]. split; [exact H2|exact H3].
Defined.
