(* ===== verification/Regexp.v ===== *)
(** * Regular expressions: the part of regexp the sources use

    Patterns without captures over the runes of a string, with the ASCII word boundary
    [\b].  A match is defined declaratively, with the runes before and after it, and
    searched by derivatives. *)
From S2P Require Import Prelude Sha256 GoLib.

(** ** Runes

    The iteration of a string: each byte that starts no valid encoding is one
    [utf8.RuneError].  A rune is kept with the bytes it was read from. *)
Definition RuneInvalid (b : Z) : Z * list Z := (65533%Z, [b]).

Fixpoint chunks_of (bs : list Z) : list (Z * list Z) :=
  match bs with
  | [] => []
  | b1 :: r1 =>
      if (b1 <? 128)%Z then (b1, [b1]) :: chunks_of r1
      else match r1 with
      | [] => [RuneInvalid b1]
      | b2 :: r2 =>
          if utf8_2 b1 b2
          then ((64 * (b1 - 192) + (b2 - 128))%Z, [b1; b2]) :: chunks_of r2
          else match r2 with
          | [] => RuneInvalid b1 :: chunks_of r1
          | b3 :: r3 =>
              if utf8_3 b1 b2 b3
              then ((4096 * (b1 - 224) + 64 * (b2 - 128) + (b3 - 128))%Z, [b1; b2; b3]) :: chunks_of r3
              else match r3 with
              | [] => RuneInvalid b1 :: chunks_of r1
              | b4 :: r4 =>
                  if utf8_4 b1 b2 b3 b4
                  then ((262144 * (b1 - 240) + 4096 * (b2 - 128) + 64 * (b3 - 128) + (b4 - 128))%Z,
                        [b1; b2; b3; b4]) :: chunks_of r4
                  else RuneInvalid b1 :: chunks_of r1
              end
          end
      end
  end.

Definition runes (s : string) : list Z := map fst (chunks_of (bytes_of s)).

(** ** Syntax *)

Inductive regexp : Type :=
  | Void
  | Eps
  | WordBoundary
  | Rune (accepts : Z -> bool)
  | Cat (r1 r2 : regexp)
  | Alt (r1 r2 : regexp)
  | Star (r : regexp).

(** [\w] *)
Definition word_rune (c : Z) : bool :=
  in_range 48 57 c || in_range 65 90 c || in_range 97 122 c || (c =? 95)%Z.

Definition word_context (c : option Z) : bool := from_option word_rune false c.

(** ** Meaning *)

Definition next (v : list Z) (after : option Z) : option Z :=
  match v with c :: _ => Some c | [] => after end.
Definition previous (before : option Z) (u : list Z) : option Z :=
  match last u with Some c => Some c | None => before end.

(** [matches r before w after]: [r] matches [w] between the runes [before] and
    [after]. *)
Inductive matches : regexp -> option Z -> list Z -> option Z -> Prop :=
  | MatchEps a b : matches Eps a [] b
  | MatchBoundary a b : word_context a <> word_context b -> matches WordBoundary a [] b
  | MatchRune f c a b : f c = true -> matches (Rune f) a [c] b
  | MatchCat r1 r2 u v a b :
      matches r1 a u (next v b) -> matches r2 (previous a u) v b -> matches (Cat r1 r2) a (u ++ v) b
  | MatchAltL r1 r2 w a b : matches r1 a w b -> matches (Alt r1 r2) a w b
  | MatchAltR r1 r2 w a b : matches r2 a w b -> matches (Alt r1 r2) a w b
  | MatchDone r a b : matches (Star r) a [] b
  | MatchMore r u v a b :
      u <> [] -> matches r a u (next v b) -> matches (Star r) (previous a u) v b ->
      matches (Star r) a (u ++ v) b.

(** ** Search *)

Definition cat (r1 r2 : regexp) : regexp :=
  match r1 with Void => Void | Eps => r2 | _ => Cat r1 r2 end.
Definition alt (r1 r2 : regexp) : regexp :=
  match r1, r2 with Void, _ => r2 | _, Void => r1 | _, _ => Alt r1 r2 end.

Fixpoint nullable (r : regexp) (before after : option Z) : bool :=
  match r with
  | Void | Rune _ => false
  | Eps | Star _ => true
  | WordBoundary => xorb (word_context before) (word_context after)
  | Cat r1 r2 => nullable r1 before after && nullable r2 before after
  | Alt r1 r2 => nullable r1 before after || nullable r2 before after
  end.

(** What remains to be matched after the rune [c]. *)
Fixpoint derivative (before : option Z) (c : Z) (r : regexp) : regexp :=
  match r with
  | Void | Eps | WordBoundary => Void
  | Rune f => if f c then Eps else Void
  | Cat r1 r2 =>
      alt (cat (derivative before c r1) r2)
          (if nullable r1 before (Some c) then derivative before c r2 else Void)
  | Alt r1 r2 => alt (derivative before c r1) (derivative before c r2)
  | Star r => cat (derivative before c r) (Star r)
  end.

(** Some prefix of [w] matches. *)
Fixpoint match_prefix (r : regexp) (before : option Z) (w : list Z) : bool :=
  nullable r before (next w None) ||
  match w with
  | [] => false
  | c :: rest => match_prefix (derivative before c r) (Some c) rest
  end.

Fixpoint search (r : regexp) (before : option Z) (w : list Z) : bool :=
  match_prefix r before w ||
  match w with [] => false | c :: rest => search r (Some c) rest end.

(** [Regexp.MatchString] *)
Definition MatchString (r : regexp) (s : string) : bool := search r None (runes s).

(** ** Correctness *)

Lemma previous_cons a c u : previous a (c :: u) = previous (Some c) u.
Proof. unfold previous. rewrite last_cons. by destruct (last u). Qed.

Lemma previous_nil a : previous a [] = a.
Proof. done. Qed.

Lemma next_app u v b : next (u ++ v) b = next u (next v b).
Proof. by destruct u. Qed.

Lemma matches_void a w b : ~ matches Void a w b.
Proof. by inversion 1. Qed.

Lemma matches_eps a w b : matches Eps a w b <-> w = [].
Proof. split; [by inversion 1|intros ->; constructor]. Qed.

Lemma matches_Alt r1 r2 a w b : matches (Alt r1 r2) a w b <-> matches r1 a w b \/ matches r2 a w b.
Proof. split; [inversion 1; eauto|intros [?|?]; by constructor]. Qed.

Lemma matches_Cat r1 r2 a w b :
  matches (Cat r1 r2) a w b <->
  exists u v, w = u ++ v /\ matches r1 a u (next v b) /\ matches r2 (previous a u) v b.
Proof. split; [inversion 1; subst; eauto|intros (u & v & -> & ? & ?); by constructor]. Qed.

Lemma matches_alt r1 r2 a w b : matches (alt r1 r2) a w b <-> matches r1 a w b \/ matches r2 a w b.
Proof.
  pose proof (matches_void a w b). unfold alt.
  destruct r1; try (destruct r2); rewrite ?matches_Alt; tauto.
Qed.

Lemma matches_cat r1 r2 a w b : matches (cat r1 r2) a w b <-> matches (Cat r1 r2) a w b.
Proof.
  destruct r1; try done; rewrite matches_Cat; split.
  - by intros ?%matches_void.
  - by intros (u & v & _ & ?%matches_void & _).
  - intros Hm. exists [], w. split; [done|]. by split; [constructor|].
  - intros (u & v & -> & ->%matches_eps & Hm). exact Hm.
Qed.

Lemma nullable_spec r a b : matches r a [] b <-> nullable r a b = true.
Proof.
  revert a b. induction r as [| | |f|r1 IH1 r2 IH2|r1 IH1 r2 IH2|r IH]; intros a b; cbn.
  - split; [by intros ?%matches_void|done].
  - by rewrite matches_eps.
  - split; [inversion 1; subst; by destruct (word_context a), (word_context b)|].
    intros Hx. constructor. by destruct (word_context a), (word_context b).
  - split; [by inversion 1|done].
  - rewrite matches_Cat, andb_true_iff, <- IH1, <- IH2. split.
    + by intros (u & v & [-> ->]%eq_sym%app_nil & ? & ?).
    + intros [??]. by exists [], [].
  - by rewrite matches_Alt, orb_true_iff, IH1, IH2.
  - split; [done|constructor].
Qed.

Lemma derivative_spec r a c w b : matches r a (c :: w) b <-> matches (derivative a c r) (Some c) w b.
Proof.
  revert a w b. induction r as [| | |f|r1 IH1 r2 IH2|r1 IH1 r2 IH2|r IH]; intros a w b; cbn.
  - split; by intros ?%matches_void.
  - split; [by inversion 1|by intros ?%matches_void].
  - split; [by inversion 1|by intros ?%matches_void].
  - split.
    + inversion 1; subst. by match goal with H : f c = true |- _ => rewrite H end; constructor.
    + destruct (f c) eqn:Hf; [|by intros ?%matches_void]. intros ->%matches_eps. by constructor.
  - rewrite matches_alt, matches_cat, !matches_Cat. split.
    + intros (u & v & Heq & H1 & H2). destruct u as [|x u].
      * right. cbn in Heq. subst v. apply nullable_spec in H1. cbn in H1. rewrite H1. by apply IH2.
      * left. injection Heq as -> ->. exists u, v. split; [done|].
        rewrite <- IH1. by rewrite previous_cons in H2.
    + intros [(u & v & -> & H1 & H2)|H2].
      * exists (c :: u), v. split; [done|]. rewrite previous_cons. by rewrite IH1.
      * destruct (nullable r1 a (Some c)) eqn:Hn; [|by apply matches_void in H2].
        exists [], (c :: w). split; [done|]. split; [by apply nullable_spec|by apply IH2].
  - by rewrite matches_Alt, matches_alt, IH1, IH2.
  - rewrite matches_cat, matches_Cat. split.
    + inversion 1 as [| | | | | | |? u v ? ? Hne H1 H2 Heq]; subst.
      match goal with Hx : _ ++ _ = c :: w |- _ => rename Hx into Heq end.
      destruct u as [|x u]; [done|]. injection Heq as -> <-. exists u, v. split; [done|].
      rewrite <- IH. by rewrite previous_cons in H2.
    + intros (u & v & -> & H1 & H2). apply (MatchMore r (c :: u) v); [done|by apply IH|].
      by rewrite previous_cons.
Qed.

Lemma match_prefix_spec r a w :
  match_prefix r a w = true <-> exists u v, w = u ++ v /\ matches r a u (next v None).
Proof.
  revert r a. induction w as [|c w IH]; intros r a; cbn [match_prefix]; rewrite orb_true_iff, <- nullable_spec.
  - split; [intros [Hm|]; [by exists [], []|done]|].
    intros (u & v & [-> ->]%eq_sym%app_nil & Hm). by left.
  - rewrite IH. split.
    + intros [Hm|(u & v & -> & Hm)]; [by exists [], (c :: w)|]. exists (c :: u), v. split; [done|].
      by apply derivative_spec.
    + intros (u & v & Heq & Hm). destruct u as [|x u]; [left; cbn in Heq; by subst v|].
      right. injection Heq as -> ->. exists u, v. split; [done|]. by apply derivative_spec.
Qed.

Lemma search_spec r a w :
  search r a w = true <->
  exists x u v, w = x ++ u ++ v /\ matches r (previous a x) u (next v None).
Proof.
  revert a. induction w as [|c w IH]; intros a; cbn [search]; rewrite orb_true_iff, match_prefix_spec.
  - split; [intros [(u & v & Heq & Hm)|]; [by exists [], u, v|done]|].
    intros (x & u & v & Heq & Hm). left. apply eq_sym, app_nil in Heq as [-> Heq]. by exists u, v.
  - rewrite IH. split.
    + intros [(u & v & Heq & Hm)|(x & u & v & -> & Hm)]; [by exists [], u, v|].
      exists (c :: x), u, v. by rewrite previous_cons.
    + intros (x & u & v & Heq & Hm). destruct x as [|y x]; [left; by exists u, v|].
      right. injection Heq as -> ->. exists x, u, v. by rewrite previous_cons in Hm.
Qed.

(** ** Building patterns *)

Definition rune_range (lo hi : Z) (c : Z) : bool := in_range lo hi c.

Fixpoint power (n : nat) (r : regexp) : regexp :=
  match n with O => Eps | S m => cat r (power m r) end.

(** [r{n,}], [r+], [r?] *)
Definition at_least (n : nat) (r : regexp) : regexp := cat (power n r) (Star r).
Definition optional (r : regexp) : regexp := Alt Eps r.

(** With [(?i)] a class also contains the runes that fold to its letters: the other
    case, and U+017F for s, U+212A for k. *)
Definition folds (f : Z -> bool) (c : Z) : bool :=
  f c ||
  (if in_range 65 90 c then f (c + 32)%Z
   else if in_range 97 122 c then f (c - 32)%Z
   else if (c =? 383)%Z then f 115%Z || f 83%Z
   else if (c =? 8490)%Z then f 107%Z || f 75%Z
   else false).

Definition literal_of (fold : bool) (s : string) : regexp :=
  foldr (fun c r => cat (Rune (if fold then folds (Z.eqb c) else Z.eqb c)) r) Eps (runes s).

Definition choice (rs : list regexp) : regexp := foldr alt Void rs.

(** [strings.EqualFold] with an ASCII text: the runes that fold to ASCII letters are
    their other case, U+017F and U+212A. *)
Definition fold_rune (c : Z) : Z :=
  if in_range 65 90 c then (c + 32)%Z
  else if (c =? 383)%Z then 115%Z else if (c =? 8490)%Z then 107%Z else c.

Definition EqualFold (s t : string) : bool :=
  bool_decide (map fold_rune (runes s) = map fold_rune (runes t)).

Example search_found : MatchString (cat WordBoundary (literal_of true "ski")) "a SKI" = true.
Proof. vm_compute. reflexivity. Qed.
Example search_boundary : MatchString (cat WordBoundary (literal_of true "ski")) "aski" = false.
Proof. vm_compute. reflexivity. Qed.
