(* ===== verification/Url.v ===== *)
(** * Parsing URLs as net/url does

    [url.Parse] as far as its error, the scheme and the user information are
    concerned.  Whether the address in a bracketed host is valid is the business of
    net/netip and a parameter. *)
From S2P Require Import Prelude Sha256 GoLib Json Regexp.
Open Scope Z_scope.

(** [netip.ParseAddr] accepts the text as an IPv6 address. *)
Class AddressParser : Type := ValidIPv6 : list Z -> bool.

(** ** Bytes of a text *)

(** [strings.Cut]: [None] when the separator is missing. *)
Fixpoint cut (sep : Z) (bs : list Z) : list Z * option (list Z) :=
  match bs with
  | [] => ([], None)
  | b :: rest =>
      if b =? sep then ([], Some rest)
      else let '(l, r) := cut sep rest in (b :: l, r)
  end.

(** The text around the last occurrence of a byte. *)
Fixpoint cut_last (sep : Z) (bs : list Z) : option (list Z * list Z) :=
  match bs with
  | [] => None
  | b :: rest =>
      match cut_last sep rest with
      | Some (l, r) => Some (b :: l, r)
      | None => if b =? sep then Some ([], rest) else None
      end
  end.

Definition letter (b : Z) : bool := in_range 65 90 b || in_range 97 122 b.
Definition alphanumeric (b : Z) : bool := letter b || digit b.
Definition one_of (s : string) (b : Z) : bool := existsb (Z.eqb b) (bytes_of s).
Definition control (b : Z) : bool := (b <? 32) || (b =? 127).

(** ** Escapes: [unescape], as far as it fails *)

Inductive encoding : Type := encodePath | encodeUserPassword | encodeHost | encodeZone | encodeFragment.

(** [shouldEscape(c, encodeHost)]; the zone admits the same bytes. *)
Definition hostByte (c : Z) : bool :=
  alphanumeric c || one_of "!$&'()*+,;=:[]<>-_.~" c || (c =? 34).

Definition host_mode (mode : encoding) : bool :=
  match mode with encodeHost | encodeZone => true | _ => false end.

Definition escape_allowed (mode : encoding) (h1 h2 : Z) : bool :=
  match mode with
  | encodeHost => (8 <=? h1) || ((h1 =? 2) && (h2 =? 5))
  | encodeZone =>
      let v := 16 * h1 + h2 in
      ((h1 =? 2) && (h2 =? 5)) || (v =? 32) || hostByte v
  | _ => true
  end.

Fixpoint unescapes (mode : encoding) (bs : list Z) : bool :=
  match bs with
  | [] => true
  | b :: rest =>
      if b =? 37 then
        match rest with
        | a :: c :: rest' =>
            match hex_value a, hex_value c with
            | Some h1, Some h2 => escape_allowed mode h1 h2 && unescapes mode rest'
            | _, _ => false
            end
        | _ => false
        end
      else negb (host_mode mode && (b <? 128) && negb (hostByte b)) && unescapes mode rest
  end.

(** ** Authority *)

(** [validOptionalPort]: nothing, or a colon and digits. *)
Definition validOptionalPort (bs : list Z) : bool :=
  match bs with [] => true | 58 :: ds => forallb digit ds | _ => false end.

Fixpoint index_zone (bs : list Z) : option (list Z * list Z) :=
  match bs with
  | [] => None
  | b :: rest =>
      match bs with
      | 37 :: 50 :: 53 :: _ => Some ([], bs)
      | _ => match index_zone rest with Some (l, r) => Some (b :: l, r) | None => None end
      end
  end.

(** [parseHost]: a bracketed address with an optional port, or a name with an optional
    port. *)
Definition parseHost `{AddressParser} (host : list Z) : bool :=
  match cut_last 91 host with
  | Some (_ :: _, _) => false
  | Some ([], inside) =>
      match cut_last 93 inside with
      | None => false
      | Some (address, colonPort) =>
          validOptionalPort colonPort && unescapes encodeHost colonPort &&
          match index_zone address with
          | Some (name, zone) => unescapes encodeHost name && unescapes encodeZone zone
          | None => unescapes encodeHost address
          end && ValidIPv6 address
      end
  | None =>
      match cut_last 58 host with
      | Some (_, port) => forallb digit port
      | None => true
      end && unescapes encodeHost host
  end.

(** [validUserinfo] *)
Definition validUserinfo (bs : list Z) : bool :=
  forallb (fun b => alphanumeric b || one_of "-._:~!$&'()*+,;=%@" b) bs.

(** The user information of a URL: the name and, if there is a colon, the password. *)
Record Userinfo : Type := MkUserinfo {
  ui_username : list Z;
  ui_password : option (list Z)
}.

Record URL : Type := MkURL {
  url_Scheme : list Z;
  url_User : option Userinfo
}.

(** [parseAuthority] *)
Definition parseAuthority `{AddressParser} (authority : list Z) : option (option Userinfo) :=
  match cut_last 64 authority with
  | None => if parseHost authority then Some None else None
  | Some (userinfo, host) =>
      if negb (parseHost host) then None
      else if negb (validUserinfo userinfo) then None
      else
        let '(username, password) := cut 58 userinfo in
        if unescapes encodeUserPassword username &&
           from_option (unescapes encodeUserPassword) true password
        then Some (Some (MkUserinfo username password)) else None
  end.

(** ** The whole URL *)

Definition lower_byte (b : Z) : Z := if in_range 65 90 b then b + 32 else b.

(** [getScheme]: [None] is its error; no scheme is the empty one. *)
Fixpoint scheme_loop (first : bool) (bs : list Z) : option (option (list Z * list Z)) :=
  match bs with
  | [] => Some None
  | b :: rest =>
      if letter b then
        match scheme_loop false rest with Some (Some (s, r)) => Some (Some (b :: s, r)) | o => o end
      else if digit b || one_of "+-." b then
        if first then Some None
        else match scheme_loop false rest with Some (Some (s, r)) => Some (Some (b :: s, r)) | o => o end
      else if b =? 58 then if first then None else Some (Some ([], rest))
      else Some None
  end.

Definition getScheme (bs : list Z) : option (list Z * list Z) :=
  match scheme_loop true bs with
  | None => None
  | Some None => Some ([], bs)
  | Some (Some (s, rest)) => Some (map lower_byte s, rest)
  end.

Definition has_prefix (prefix bs : list Z) : bool := bool_decide (take (length prefix) bs = prefix).

(** [parse] of the text before the fragment, with [viaRequest] false. *)
Definition parse `{AddressParser} (bs : list Z) : option URL :=
  if existsb control bs then None
  else if decide (bs = [42]) then Some (MkURL [] None)
  else
    match getScheme bs with
    | None => None
    | Some (scheme, rest) =>
        let rest := fst (cut 63 rest) in
        if negb (has_prefix [47] rest) && negb (bool_decide (scheme = [])) then Some (MkURL scheme None)
        else if negb (has_prefix [47] rest) && existsb (Z.eqb 58) (fst (cut 47 rest)) then None
        else if (negb (bool_decide (scheme = [])) || negb (has_prefix [47; 47; 47] rest)) &&
                has_prefix [47; 47] rest then
          let '(authority, path) := cut 47 (drop 2 rest) in
          match parseAuthority authority with
          | None => None
          | Some user =>
              if unescapes encodePath (from_option id [] path) then Some (MkURL scheme user) else None
          end
        else if unescapes encodePath rest then Some (MkURL scheme None) else None
    end.

(** [url.Parse] *)
Definition url_Parse `{AddressParser} (bs : list Z) : option URL :=
  let '(u, fragment) := cut 35 bs in
  match parse u with
  | None => None
  | Some url => if unescapes encodeFragment (from_option id [] fragment) then Some url else None
  end.

Close Scope Z_scope.
