(* ===== verification/Float64.v ===== *)
(** * float64 arithmetic, as far as the sources use it

    A finite float64 is an integer times a power of two.  Every operation rounds the
    exact result to the nearest representable number, ties to even; the sources use
    it on decimal literals of JSON, on durations and for line numbers. *)
From S2P Require Import Prelude Sha256 GoLib Json.
Open Scope Z_scope.

(** [fl_mantissa * 2 ^ fl_exponent] *)
Record float64 : Type := MkFloat {
  fl_mantissa : Z;
  fl_exponent : Z
}.

(** The exact value as a numerator and a positive denominator. *)
Definition ratio (x : float64) : Z * Z :=
  if 0 <=? fl_exponent x then (fl_mantissa x * 2 ^ fl_exponent x, 1)
  else (fl_mantissa x, 2 ^ (- fl_exponent x)).

(** [n / d] to the nearest integer, ties to even, for [0 <= n] and [0 < d]. *)
Definition nearest_even (n d : Z) : Z :=
  let q := n / d in
  let r := n mod d in
  match 2 * r ?= d with
  | Lt => q
  | Gt => q + 1
  | Eq => if Z.even q then q else q + 1
  end.

Definition minExponent : Z := -1074.

(** The exponent of a result with a mantissa of 53 bits, or of the smallest one. *)
Definition target_exponent (n d : Z) : Z :=
  let e := Z.log2 n - Z.log2 d - 52 in
  let e' := if (if 0 <=? e then n <? d * 2 ^ (e + 52) else n * 2 ^ (- e) <? d * 2 ^ 52)
            then e - 1 else e in
  Z.max e' minExponent.

(** The float64 nearest to [n / d], [0 < d]; [None] on overflow. *)
Definition round_ratio (n d : Z) : option float64 :=
  let a := Z.abs n in
  if a =? 0 then Some (MkFloat 0 0)
  else
    let e := target_exponent a d in
    let m := if 0 <=? e then nearest_even a (d * 2 ^ e) else nearest_even (a * 2 ^ (- e)) d in
    if (0 <=? e) && (2 ^ 1024 <=? m * 2 ^ e) then None else Some (MkFloat (Z.sgn n * m) e).

Definition float_of_Z (n : Z) : option float64 := round_ratio n 1.

Definition float_mul (x y : float64) : option float64 :=
  let '(a, b) := ratio x in let '(c, d) := ratio y in round_ratio (a * c) (b * d).

(** For a positive divisor. *)
Definition float_div (x y : float64) : option float64 :=
  let '(a, b) := ratio x in let '(c, d) := ratio y in round_ratio (a * d) (b * c).

(** [strconv.ParseFloat] of a JSON number. *)
Definition float_of_text (text : list Z) : option float64 :=
  let '(i, f, e) := number_parts text in
  let m := digits_value (i ++ f) in
  let e := e - Z.of_nat (length f) in
  let s := match text with 45 :: _ => -1 | _ => 1 end in
  if 0 <=? e then round_ratio (s * m * 10 ^ e) 1 else round_ratio (s * m) (10 ^ (- e)).

(** ** Comparison and conversion *)

Definition float_eqb (x y : float64) : bool :=
  let '(a, b) := ratio x in let '(c, d) := ratio y in a * d =? c * b.
Definition float_ltb (x y : float64) : bool :=
  let '(a, b) := ratio x in let '(c, d) := ratio y in a * d <? c * b.

(** [int64(x)]: truncation; what is out of range becomes the least integer, as amd64
    does (the language leaves it to the implementation). *)
Definition int64_of (x : float64) : Z :=
  let '(a, b) := ratio x in
  let t := Z.quot a b in
  if (- 2 ^ 63 <=? t) && (t <? 2 ^ 63) then t else - 2 ^ 63.

(** [x == float64(int64(x))] *)
Definition is_int64 (x : float64) : bool :=
  match float_of_Z (int64_of x) with Some y => float_eqb x y | None => false end.

(** [fmt.Sprintf("%.0f", x)] *)
Definition format_whole (x : float64) : string :=
  let '(a, b) := ratio x in
  (if a <? 0 then "-" else "") +:+ pretty (nearest_even (Z.abs a) b).

(** ** Small integers are exact *)

Lemma nearest_even_one n : 0 <= n -> nearest_even n 1 = n.
Proof.
  intros Hn. unfold nearest_even. rewrite Z.mod_1_r, Z.div_1_r. done.
Qed.

Lemma target_exponent_integer n : 0 < n < 2 ^ 53 -> minExponent <= target_exponent n 1 <= 0.
Proof.
  intros Hn. unfold target_exponent. change (Z.log2 1) with 0. rewrite Z.sub_0_r.
  assert (Z.log2 n < 53) as Hl by (apply Z.log2_lt_pow2; lia). unfold minExponent.
  split; [lia|]. apply Z.max_lub; [|lia]. case_match; lia.
Qed.

(** Integers below [2^53] are represented exactly. *)
Lemma round_ratio_integer n :
  - 2 ^ 53 < n < 2 ^ 53 ->
  exists x, round_ratio n 1 = Some x /\ 0 < snd (ratio x) /\ fst (ratio x) = n * snd (ratio x).
Proof.
  intros Hn. unfold round_ratio. destruct (Z.abs n =? 0) eqn:H0.
  - apply Z.eqb_eq in H0. exists (MkFloat 0 0). cbn. split; [done|]. lia.
  - apply Z.eqb_neq in H0. destruct (target_exponent_integer (Z.abs n)) as [Hlo Hhi]; [lia|].
    set (e := target_exponent (Z.abs n) 1) in *.
    assert (Z.sgn n * Z.abs n = n) as Hs by (rewrite Z.mul_comm; apply Z.abs_sgn).
    destruct (0 <=? e) eqn:He.
    + apply Z.leb_le in He. assert (e = 0) as -> by lia. change (1 * 2 ^ 0) with 1.
      rewrite nearest_even_one by lia. exists (MkFloat n 0).
      rewrite (proj2 (Z.leb_gt _ _)) by lia. cbn [andb]. rewrite Hs. split; [done|]. cbn -[Z.mul]. lia.
    + apply Z.leb_gt in He. rewrite nearest_even_one by (apply Z.mul_nonneg_nonneg; lia). cbn [andb].
      exists (MkFloat (n * 2 ^ (- e)) e). rewrite Z.mul_assoc, Hs. split; [done|].
      unfold ratio. cbn [fl_mantissa fl_exponent]. rewrite (proj2 (Z.leb_gt _ _)) by lia.
      cbn [fst snd]. split; [|done]. apply Z.pow_pos_nonneg; lia.
Qed.

Lemma format_whole_integer x n :
  0 < snd (ratio x) -> fst (ratio x) = n * snd (ratio x) -> 0 <= n -> format_whole x = pretty n.
Proof.
  unfold format_whole. destruct (ratio x) as [a b]. cbn [fst snd]. intros Hb -> Hn.
  rewrite (proj2 (Z.ltb_ge _ _)) by (apply Z.mul_nonneg_nonneg; lia).
  rewrite Z.abs_eq by (apply Z.mul_nonneg_nonneg; lia). unfold nearest_even.
  rewrite Z.mod_mul, Z.div_mul by lia. by rewrite (proj2 (Z.compare_lt_iff (2 * 0) b)) by lia.
Qed.

Close Scope Z_scope.

Example float_tenth : float_of_text (bytes_of "0.1") = Some (MkFloat 7205759403792794 (-56)).
Proof. vm_compute. reflexivity. Qed.
Example float_large : format_whole (default (MkFloat 0 0) (float_of_text (bytes_of "9007199254740993"))) = "9007199254740992".
Proof. vm_compute. reflexivity. Qed.
