(* ===== verification/Contract.v ===== *)
(** * Tool contracts: internal/tools/contract.go

    Contracts with JSON schemas for the input and the output of a tool, the registry
    that holds them, and the checker of the schema language.  The texts of error
    messages are left out, and with them the locations the checker passes along. *)
From S2P Require Import Prelude Sha256 GoLib Json Float64 Types Decide Reducer Reasoner.

(** [Contract]; a duration is in nanoseconds. *)
Record Contract : Type := MkContract {
  ct_Name : string;
  ct_Version : string;
  ct_InputSchema : string;
  ct_OutputSchema : string;
  ct_Capability : string;
  ct_ReadOnly : bool;
  ct_Timeout : Z;
  ct_OutputLimit : Z;
  ct_AllowedPaths : list string;
  ct_Network : bool;
  ct_Idempotency : string
}.

#[export] Instance Contract_eq_dec : EqDecision Contract.
Proof. solve_decision. Defined.

(** A decoded [map[string]any]. *)
Abbreviation object := (list (list Z * json)).

Definition field (name : string) (definition : object) : option json := member (bytes_of name) definition.

(** [definition["type"].(string)], the empty string when that fails. *)
Definition schemaType (definition : object) : string :=
  match field "type" definition with Some (JString t) => string_of_bytes t | _ => "" end.

(** ** Well-formed schemas *)

Definition number_check (f : float64 -> bool) (value : json) : bool :=
  match value with
  | JNumber text => match float_of_text text with Some x => f x | None => false end
  | _ => false
  end.

Definition schemaInteger (value : json) : bool := number_check is_int64 value.
Definition nonNegativeSchemaInteger (value : json) : bool :=
  number_check (fun x => negb (float_ltb x (MkFloat 0 0)) && is_int64 x) value.

(** The loop over [required]; [seen] are the names read. *)
Fixpoint requiredNames (properties : object) (seen : list (list Z)) (required : list json) : bool :=
  match required with
  | [] => true
  | JString name :: rest =>
      negb (bool_decide (name = [] \/ name ∈ seen)) && bool_decide (is_Some (member name properties)) &&
      requiredNames properties (name :: seen) rest
  | _ :: _ => false
  end.

Definition propertiesOf (definition : object) : option object :=
  match field "properties" definition with
  | None => Some []
  | Some (JObject properties) => Some properties
  | Some _ => None
  end.

Definition keywordsOnly (allowed : list string) (definition : object) : bool :=
  forallb (fun m => bool_decide (fst m ∈ map bytes_of allowed)) definition.

Definition optionally (f : json -> bool) (value : option json) : bool := from_option f true value.

(** [validateSchemaDefinition]; [fuel] bounds the nesting of the schema. *)
Fixpoint validateSchemaDefinition (fuel : nat) (definition : object) : bool :=
  match fuel with
  | O => false
  | S n =>
      match field "type" definition with
      | Some (JString text) =>
          let expected := string_of_bytes text in
          if decide (expected = "object") then
            optionally (fun v => match v with JBool _ => true | _ => false end)
              (field "additionalProperties" definition) &&
            match propertiesOf definition with
            | None => false
            | Some properties =>
                match field "required" definition with
                | None => true
                | Some (JArray required) => requiredNames properties [] required
                | Some _ => false
                end &&
                forallb (fun m => match snd m with
                                  | JObject child => validateSchemaDefinition n child
                                  | _ => false end) (live_members properties)
            end && keywordsOnly ["type"; "additionalProperties"; "required"; "properties"] definition
          else if decide (expected = "array") then
            optionally nonNegativeSchemaInteger (field "minItems" definition) &&
            match field "items" definition with
            | Some (JObject items) => validateSchemaDefinition n items
            | _ => false
            end && keywordsOnly ["type"; "minItems"; "items"] definition
          else if decide (expected = "string") then
            optionally nonNegativeSchemaInteger (field "minLength" definition) &&
            keywordsOnly ["type"; "minLength"] definition
          else if decide (expected = "integer") then
            optionally schemaInteger (field "minimum" definition) &&
            keywordsOnly ["type"; "minimum"] definition
          else bool_decide (expected = "boolean") && keywordsOnly ["type"] definition
      | _ => false
      end
  end.

Definition schemaDefinition (definition : object) : bool :=
  validateSchemaDefinition (json_depth (JObject definition)) definition.

(** ** Values against a schema *)

(** [numericInt] *)
Definition numericInt (value : option json) : option Z :=
  match value with Some (JNumber text) => int64_of <$> float_of_text text | _ => None end.

(** [json.Number.Int64] *)
Definition number_Int64 (text : list Z) : option Z :=
  let '(negative, ds) := match text with 45%Z :: r => (true, r) | _ => (false, text) end in
  if forallb digit ds && negb (bool_decide (ds = [])) then
    let n := (if (negative : bool) then - digits_value ds else digits_value ds)%Z in
    if ((- 2 ^ 63 <=? n) && (n <? 2 ^ 63))%Z then Some n else None
  else None.

Definition atLeast (minimum : option Z) (n : Z) : bool := from_option (fun m => (m <=? n)%Z) true minimum.

Definition requiredPresent (definition members : object) : bool :=
  match field "required" definition with
  | Some (JArray required) =>
      forallb (fun raw => let name := match raw with JString s => s | _ => [] end in
                          bool_decide (is_Some (member name members))) required
  | _ => true
  end.

Definition additionalRefused (definition : object) : bool :=
  match field "additionalProperties" definition with Some (JBool additional) => negb additional | _ => false end.

Definition schemaProperties (definition : object) : object :=
  match field "properties" definition with Some (JObject properties) => properties | _ => [] end.

(** [validateSchemaValue] *)
Fixpoint validateSchemaValue (definition : object) (value : json) {struct value} : bool :=
  let expected := schemaType definition in
  if decide (expected = "object") then
    match value with
    | JObject members =>
        requiredPresent definition members &&
        (fix check members :=
           match members with
           | [] => true
           | m :: later =>
               (overwritten m later ||
                match member (fst m) (schemaProperties definition) with
                | None => negb (additionalRefused definition)
                | Some (JObject child) => validateSchemaValue child (snd m)
                | Some _ => false
                end) && check later
           end) members
    | _ => false
    end
  else if decide (expected = "array") then
    match value with
    | JArray items =>
        atLeast (numericInt (field "minItems" definition)) (Z.of_nat (length items)) &&
        match field "items" definition with
        | Some (JObject child) => forallb (validateSchemaValue child) items
        | _ => true
        end
    | _ => false
    end
  else if decide (expected = "string") then
    match value with
    | JString text => atLeast (numericInt (field "minLength" definition)) (Z.of_nat (length text))
    | _ => false
    end
  else if decide (expected = "integer") then
    match value with
    | JNumber text =>
        match number_Int64 text with
        | Some n => atLeast (numericInt (field "minimum" definition)) n
        | None => false
        end
    | _ => false
    end
  else if decide (expected = "boolean") then
    match value with JBool _ => true | _ => false end
  else false.

(** [validateJSONSchema] *)
Definition validateJSONSchema (schema payload : string) : result unit :=
  match unmarshal_map schema, parse_bytes (bytes_of payload) with
  | Some definition, Some value =>
      guard_err (negb (validateSchemaValue definition value)) (Sentinel ErrSchemaValidation)
  | _, _ => Err (Sentinel ErrSchemaValidation)
  end.

Definition ValidateInput (contract : Contract) (input : string) : result unit :=
  validateJSONSchema (ct_InputSchema contract) input.
Definition ValidateOutput (contract : Contract) (output : string) : result unit :=
  validateJSONSchema (ct_OutputSchema contract) output.

(** The contracts as the reasoner's stream sees them. *)
#[export] Instance tool_contract : Reasoner.ToolContract Contract := {
  contract_Name := ct_Name;
  contract_ValidateInput := fun contract input => is_ok (ValidateInput contract input)
}.

(** ** [Contract.Validate] *)

Definition contractIncomplete (contract : Contract) : bool :=
  bool_decide (ct_Name contract = "" \/ ct_Version contract = "" \/ ct_InputSchema contract = "" \/
    ct_OutputSchema contract = "" \/ ct_Capability contract = "" \/ (ct_Timeout contract <= 0)%Z \/
    (ct_OutputLimit contract <= 0)%Z \/ ct_AllowedPaths contract = [] \/ ct_Idempotency contract = "").

Definition rootSchema (schema : string) : bool :=
  match unmarshal_map schema with
  | Some definition => bool_decide (schemaType definition = "object") && schemaDefinition definition
  | None => false
  end.

Definition ValidateContract (contract : Contract) : result unit :=
  guard_err (contractIncomplete contract || negb (rootSchema (ct_InputSchema contract)) ||
             negb (rootSchema (ct_OutputSchema contract))) (Sentinel ErrInvalidContract).

(** ** The registry

    Contracts are values here, so the copies that [cloneContract] makes are the
    identity. *)
Record Registry : Type := MkRegistry { reg_contracts : gmap string Contract }.

Fixpoint registerAll (contracts : list Contract) (registry : gmap string Contract)
    : result (gmap string Contract) :=
  match contracts with
  | [] => Ok registry
  | contract :: rest =>
      _ ← ValidateContract contract;
      if decide (is_Some (registry !! ct_Name contract)) then Err (Sentinel ErrInvalidContract)
      else registerAll rest (<[ct_Name contract := contract]> registry)
  end.

Definition NewRegistry (contracts : list Contract) : result Registry :=
  registry ← registerAll contracts ∅; Ok (MkRegistry registry).

Definition GetContract (registry : Registry) (name : string) : option Contract :=
  reg_contracts registry !! name.

Definition Names (registry : Registry) : list string := sorted_keys (reg_contracts registry).

Definition Contracts (registry : Registry) : list Contract :=
  omap (GetContract registry) (Names registry).

(** ** Comparing contract sets

    [contractsEqual] compares every field. *)
Definition contractsEqual (left right : Contract) : bool := bool_decide (left = right).

Fixpoint byName (contracts : list Contract) (index : gmap string Contract) : option (gmap string Contract) :=
  match contracts with
  | [] => Some index
  | contract :: rest =>
      if decide (is_Some (index !! ct_Name contract)) then None
      else byName rest (<[ct_Name contract := contract]> index)
  end.

Fixpoint allFound (contracts : list Contract) (seen : gset string) (index : gmap string Contract) : bool :=
  match contracts with
  | [] => true
  | contract :: rest =>
      if decide (ct_Name contract ∈ seen) then false
      else match index !! ct_Name contract with
      | Some other => contractsEqual contract other && allFound rest ({[ct_Name contract]} ∪ seen) index
      | None => false
      end
  end.

Definition ContractSetsEqual (left right : list Contract) : bool :=
  if decide (length left <> length right) then false
  else match byName right ∅ with
  | None => false
  | Some index => allFound left ∅ index
  end.

(** ** The built-in contracts *)

Definition outputSchema : string := double_quoted
"{
	  'type':'object',
	  'additionalProperties':false,
	  'required':['stdout','stderr','exitCode','timedOut','truncated'],
	  'properties':{
	    'stdout':{'type':'string'},
	    'stderr':{'type':'string'},
	    'exitCode':{'type':'integer'},
	    'timedOut':{'type':'boolean'},
	    'truncated':{'type':'boolean'}
	  }
	}".

Definition listSchema : string := double_quoted
"{
			  'type':'object','additionalProperties':false,
			  'required':['path'],
			  'properties':{'path':{'type':'string','minLength':1}}
			}".

Definition readSchema : string := double_quoted
"{
			  'type':'object','additionalProperties':false,
			  'required':['path'],
			  'properties':{
			    'path':{'type':'string','minLength':1},
			    'startLine':{'type':'integer','minimum':1},
			    'endLine':{'type':'integer','minimum':1}
			  }
			}".

Definition searchSchema : string := double_quoted
"{
			  'type':'object','additionalProperties':false,
			  'required':['path','pattern'],
			  'properties':{
			    'path':{'type':'string','minLength':1},
			    'pattern':{'type':'string','minLength':1}
			  }
			}".

Definition applyPatchSchema : string := double_quoted
"{
			  'type':'object','additionalProperties':false,
			  'required':['path','old','new'],
			  'properties':{
			    'path':{'type':'string','minLength':1},
			    'old':{'type':'string','minLength':1},
			    'new':{'type':'string'}
			  }
			}".

Definition testSchema : string := double_quoted
"{
			  'type':'object','additionalProperties':false,
			  'required':['packages'],
			  'properties':{
			    'packages':{'type':'array','minItems':1,'items':{'type':'string','minLength':1}},
			    'run':{'type':'string'},
			    'verbose':{'type':'boolean'}
			  }
			}".

Definition second : Z := 10 ^ 9.

Definition readOnlyIdempotency : string := "read-only; identical workspace bytes yield equivalent output".

Definition builtinContracts : list Contract :=
  [ MkContract "repo.list" "v1" listSchema outputSchema "repo:read" true (10 * second) (Z.shiftl 256 10)
      ["."] false readOnlyIdempotency;
    MkContract "repo.read" "v1" readSchema outputSchema "repo:read" true (10 * second) (Z.shiftl 256 10)
      ["."] false readOnlyIdempotency;
    MkContract "repo.search" "v1" searchSchema outputSchema "repo:read" true (15 * second) (Z.shiftl 512 10)
      ["."] false readOnlyIdempotency;
    MkContract "repo.apply_patch" "v1" applyPatchSchema outputSchema "repo:write" false (15 * second)
      (Z.shiftl 256 10) ["."] false
      "scoped exact replacement; the complete result must exclude old so replay after success is rejected";
    MkContract "repo.test" "v1" testSchema outputSchema "repo:test" false (60 * second) (Z.shiftl 1 20)
      ["."] false "scoped to disposable workspace; tests may write only within that workspace" ].

Definition NewBuiltinRegistry : result Registry := NewRegistry builtinContracts.

Example builtin_contracts_valid : is_ok NewBuiltinRegistry = true.
Proof. vm_compute. reflexivity. Qed.
