(* ===== verification/ContractTheorems.v ===== *)
(** * What tool contracts guarantee

    The schema checker decides the type that the members of a schema tell, and two
    contract sets are equal when they are the same set. *)
From S2P Require Import Prelude Sha256 GoLib Json Float64 Contract.

(** ** What a schema says

    The values that have the type a schema describes, told from the members of the schema
    itself: an object has its required members, and every member it has is declared and has
    the declared type or, where [additionalProperties] is not [false], is of another name; the
    bounds are inclusive and count items, bytes of text, and units. *)
Definition least_le (least : option json) (n : Z) : Prop :=
  forall text bound, least = Some (JNumber text) -> float_of_text text = Some bound -> (int64_of bound <= n)%Z.

Definition saysType (schema : object) (type : string) : Prop :=
  exists text, field "type" schema = Some (JString text) /\ string_of_bytes text = type.

Inductive typed (schema : object) : json -> Prop :=
  | TypedObject members :
      saysType schema "object" ->
      (forall required name, field "required" schema = Some (JArray required) -> JString name ∈ required ->
         is_Some (member name members)) ->
      (forall name value, live (name, value) members ->
         (exists properties child, field "properties" schema = Some (JObject properties) /\
            live (name, JObject child) properties /\ typed child value) \/
         (field "additionalProperties" schema <> Some (JBool false) /\
            forall properties, field "properties" schema = Some (JObject properties) -> name ∉ map fst properties)) ->
      typed schema (JObject members)
  | TypedArray values :
      saysType schema "array" ->
      least_le (field "minItems" schema) (Z.of_nat (length values)) ->
      (exists items, field "items" schema = Some (JObject items) /\ Forall (typed items) values) ->
      typed schema (JArray values)
  | TypedString text :
      saysType schema "string" -> least_le (field "minLength" schema) (Z.of_nat (length text)) ->
      typed schema (JString text)
  | TypedInteger text n :
      saysType schema "integer" -> number_Int64 text = Some n -> least_le (field "minimum" schema) n ->
      typed schema (JNumber text)
  | TypedBoolean b : saysType schema "boolean" -> typed schema (JBool b).

Lemma saysType_schemaType schema type : type <> "" -> saysType schema type <-> schemaType schema = type.
Proof.
  unfold saysType, schemaType. intros Hne. split.
  - by intros (text & -> & ?).
  - destruct (field "type" schema) as [[| | |text| |]|]; try by intros <-. eauto.
Qed.

Lemma saysType_inj schema type type' : saysType schema type -> saysType schema type' -> type = type'.
Proof. intros (text & Ht & <-) (text' & Ht' & <-). congruence. Qed.

(** A value of another type *)
Ltac other_type :=
  split; [done|inversion 1; lazymatch goal with
    | H1 : saysType ?schema ?type, H2 : saysType ?schema ?type' |- _ => discriminate (saysType_inj schema type type' H1 H2)
    end].

Lemma atLeast_spec least n : atLeast (numericInt least) n = true <-> least_le least n.
Proof.
  unfold atLeast, numericInt, least_le. destruct least as [[| |text| | |]|]; cbn; try (split; [by intros|done]).
  destruct (float_of_text text) as [bound|] eqn:Hb; cbn.
  - rewrite Z.leb_le. split; [intros ? ? ? [= <-] ?; by simplify_eq|eauto].
  - split; [intros _ ? ? [= <-] ?; by simplify_eq|done].
Qed.

(** ** The checker *)

Definition stringsOf (items : list json) : list (list Z) :=
  map (fun v => match v with JString s => s | _ => [] end) items.

Definition requiredOf (definition : object) : list (list Z) :=
  match field "required" definition with Some (JArray required) => stringsOf required | _ => [] end.

(** The member loop of [validateSchemaValue]. *)
Definition check_members (f : list Z * json -> bool) : object -> bool :=
  fix check members :=
    match members with [] => true | m :: later => (overwritten m later || f m) && check later end.

Lemma check_members_spec f members :
  check_members f members = true <-> forall m, live m members -> f m = true.
Proof.
  induction members as [|m later IH]; cbn.
  - split; [|done]. intros _ m ([|] & ? & ? & _); done.
  - rewrite andb_true_iff, IH. setoid_rewrite live_cons. split.
    + intros [Hm Hl] x [[Hn ->]|Hx]; [by rewrite Hn in Hm|by apply Hl].
    + intros Hx. split; [|by intros x Hl; apply Hx; right]. destruct (overwritten m later) eqn:Ho; [done|].
      apply Hx. by left.
Qed.

Definition checkMember (definition : object) (m : list Z * json) : bool :=
  match member (fst m) (schemaProperties definition) with
  | None => negb (additionalRefused definition)
  | Some (JObject child) => validateSchemaValue child (snd m)
  | Some _ => false
  end.

Lemma validate_object definition v :
  schemaType definition = "object" ->
  validateSchemaValue definition v =
  match v with
  | JObject members => requiredPresent definition members && check_members (checkMember definition) members
  | _ => false
  end.
Proof. intros Ht. destruct v; cbn [validateSchemaValue]; rewrite Ht; by rewrite decide_True. Qed.

Lemma validate_array definition v :
  schemaType definition = "array" ->
  validateSchemaValue definition v =
  match v with
  | JArray items =>
      atLeast (numericInt (field "minItems" definition)) (Z.of_nat (length items)) &&
      match field "items" definition with
      | Some (JObject child) => forallb (validateSchemaValue child) items
      | _ => true
      end
  | _ => false
  end.
Proof. intros Ht. destruct v; cbn [validateSchemaValue]; rewrite Ht; reflexivity. Qed.

Lemma requiredPresent_spec definition members :
  requiredPresent definition members = true <->
  forall name, name ∈ requiredOf definition -> is_Some (member name members).
Proof.
  unfold requiredPresent, requiredOf. destruct (field "required" definition) as [[| | | |required|]|];
    try (split; [by intros _ ? ?%elem_of_nil|done]).
  unfold stringsOf. rewrite forallb_forall. setoid_rewrite <- list_elem_of_In. split.
  - intros Hr name (raw & -> & Hi)%list_elem_of_fmap. by apply Hr, bool_decide_eq_true in Hi.
  - intros Hr raw Hi. apply bool_decide_eq_true, Hr, list_elem_of_fmap. eauto.
Qed.

(** A well-formed schema, one level down. *)
Lemma definition_object n definition :
  validateSchemaDefinition (S n) definition = true -> schemaType definition = "object" ->
  exists properties, propertiesOf definition = Some properties /\ schemaProperties definition = properties /\
    forall m, live m properties -> exists child, snd m = JObject child /\ validateSchemaDefinition n child = true.
Proof.
  unfold schemaType. cbn [validateSchemaDefinition]. destruct (field "type" definition) as [[| | |text| |]|]; try done.
  intros Hv Ht. rewrite Ht, decide_True in Hv by done.
  destruct (propertiesOf definition) as [properties|] eqn:Hp; [|by rewrite andb_false_r in Hv].
  exists properties. split; [done|]. split.
  - unfold propertiesOf in Hp. unfold schemaProperties. by destruct (field "properties" definition) as [[]|]; simplify_eq.
  - rewrite !andb_true_iff in Hv. destruct Hv as [[_ [_ Hall]] _]. rewrite forallb_forall in Hall.
    intros m Hl. apply live_members_spec, list_elem_of_In, Hall in Hl. destruct (snd m); try done. eauto.
Qed.

Lemma definition_array n definition :
  validateSchemaDefinition (S n) definition = true -> schemaType definition = "array" ->
  exists child, field "items" definition = Some (JObject child) /\ validateSchemaDefinition n child = true.
Proof.
  unfold schemaType. cbn [validateSchemaDefinition]. destruct (field "type" definition) as [[| | |text| |]|]; try done.
  intros Hv Ht. rewrite Ht in Hv. rewrite decide_False, decide_True in Hv by done.
  rewrite !andb_true_iff in Hv. destruct Hv as [[_ Hi] _].
  destruct (field "items" definition) as [[]|]; try done. eauto.
Qed.

Lemma definition_type n definition :
  validateSchemaDefinition n definition = true ->
  schemaType definition ∈ ["object"; "array"; "string"; "integer"; "boolean"].
Proof.
  destruct n as [|n]; [done|]. unfold schemaType. cbn [validateSchemaDefinition].
  destruct (field "type" definition) as [[| | |text| |]|]; try done.
  generalize (string_of_bytes text) as t. intros t.
  repeat (case_decide; [intros _; subst t; by_computation|]).
  intros [->%bool_decide_eq_true _]%andb_true_iff. by_computation.
Qed.

(** The names a well-formed schema requires are texts. *)
Lemma requiredNames_texts properties seen required :
  requiredNames properties seen required = true -> forall raw, raw ∈ required -> exists name, raw = JString name.
Proof.
  revert seen. induction required as [|v rest IH]; intros seen; cbn; [by intros _ ? ?%elem_of_nil|].
  destruct v as [| | |name| |]; try done. intros [_ Hr]%andb_true_iff raw [->|Hi]%elem_of_cons; [eauto|by apply (IH _ Hr)].
Qed.

Lemma definition_required n definition required :
  validateSchemaDefinition (S n) definition = true -> schemaType definition = "object" ->
  field "required" definition = Some (JArray required) -> forall raw, raw ∈ required -> exists name, raw = JString name.
Proof.
  unfold schemaType. cbn [validateSchemaDefinition]. destruct (field "type" definition) as [[| | |text| |]|]; try done.
  intros Hv Ht Hq. rewrite Ht, decide_True in Hv by done. rewrite Hq in Hv.
  destruct (propertiesOf definition) as [properties|]; [|by rewrite andb_false_r in Hv].
  rewrite !andb_true_iff in Hv. destruct Hv as [[_ [Hr _]] _]. by apply (requiredNames_texts _ _ _ Hr).
Qed.

Lemma required_told n definition members :
  validateSchemaDefinition (S n) definition = true -> schemaType definition = "object" ->
  requiredPresent definition members = true <->
  forall required name, field "required" definition = Some (JArray required) -> JString name ∈ required ->
    is_Some (member name members).
Proof.
  intros Hv Ht. rewrite requiredPresent_spec. unfold requiredOf.
  destruct (field "required" definition) as [[| | | |required|]|] eqn:Hq;
    try (split; [by intros|by intros _ ? ?%elem_of_nil]).
  pose proof (definition_required n definition required Hv Ht Hq) as Htexts. split.
  - intros Hr required' name [= <-] Hi. apply Hr, list_elem_of_fmap. by exists (JString name).
  - intros Hr name (raw & -> & Hi)%list_elem_of_fmap. destruct (Htexts raw Hi) as [name ->]. by apply (Hr required).
Qed.

(** One member against the schema. *)
Lemma member_told n definition name value :
  validateSchemaDefinition (S n) definition = true -> schemaType definition = "object" ->
  (forall child w, validateSchemaDefinition n child = true -> validateSchemaValue child w = true <-> typed child w) ->
  checkMember definition (name, value) = true <->
  (exists properties child, field "properties" definition = Some (JObject properties) /\
     live (name, JObject child) properties /\ typed child value) \/
  (field "additionalProperties" definition <> Some (JBool false) /\
     forall properties, field "properties" definition = Some (JObject properties) -> name ∉ map fst properties).
Proof.
  intros Hv Ht IH. destruct (definition_object n definition Hv Ht) as (properties & Hp & Hs & Hchild).
  unfold checkMember. cbn [fst snd]. rewrite Hs. destruct (member name properties) as [u|] eqn:Hu.
  - pose proof (proj1 (member_live _ _ _) Hu) as Hl. destruct (Hchild _ Hl) as (child & Hc & Hvc). cbn in Hc. subst u.
    assert (field "properties" definition = Some (JObject properties)) as ->.
    { unfold propertiesOf in Hp. destruct (field "properties" definition) as [[]|]; congruence || (injection Hp as <-; done). }
    rewrite IH by done. split; [left; by exists properties, child|].
    intros [(ps & c & [= <-] & Hc & Hty)|[_ Hno]]; [apply member_live in Hc; by simplify_eq|].
    exfalso. specialize (Hno _ eq_refl). apply member_None in Hno. congruence.
  - unfold additionalRefused. split.
    + intros Hn. right. split; [by intros E; rewrite E in Hn|]. intros ps Hps. unfold propertiesOf in Hp. rewrite Hps in Hp.
      injection Hp as ->. by apply member_None.
    + intros [(ps & c & Hps & Hc & _)|[Ha _]].
      * unfold propertiesOf in Hp. rewrite Hps in Hp. injection Hp as ->. apply member_live in Hc. congruence.
      * destruct (field "additionalProperties" definition) as [[|[]| | | |]|]; done.
Qed.

Lemma checker_object n definition v :
  validateSchemaDefinition (S n) definition = true -> schemaType definition = "object" ->
  (forall child w, validateSchemaDefinition n child = true -> validateSchemaValue child w = true <-> typed child w) ->
  validateSchemaValue definition v = true <-> typed definition v.
Proof.
  intros Hv Ht IH. rewrite validate_object by done. pose proof (proj2 (saysType_schemaType definition "object" ltac:(done)) Ht) as Hsays.
  destruct v as [| | | | |members];
    try other_type.
  rewrite andb_true_iff, (required_told n) , check_members_spec by done. split.
  - intros [Hr Hm]. constructor; [done|done|]. intros name value Hl. apply (member_told n); [done..|]. by apply Hm.
  - inversion 1 as [? _ Hr Hm| | | |]; subst. split; [done|]. intros [name value] Hl. apply (member_told n); [done..|]. by apply Hm.
Qed.

Lemma checker_array n definition v :
  validateSchemaDefinition (S n) definition = true -> schemaType definition = "array" ->
  (forall child w, validateSchemaDefinition n child = true -> validateSchemaValue child w = true <-> typed child w) ->
  validateSchemaValue definition v = true <-> typed definition v.
Proof.
  intros Hv Ht IH. destruct (definition_array n definition Hv Ht) as (child & Hi & Hc).
  rewrite validate_array by done. rewrite Hi. pose proof (proj2 (saysType_schemaType definition "array" ltac:(done)) Ht) as Hsays.
  destruct v as [| | | |values|];
    try other_type.
  rewrite andb_true_iff, atLeast_spec, forallb_forall. setoid_rewrite <- list_elem_of_In.
  rewrite <- Forall_forall. split.
  - intros [Hl Ha]. constructor; [done|done|]. exists child. split; [done|]. eapply Forall_impl; [exact Ha|]. intros w. by apply IH.
  - inversion 1 as [|? _ Hl (items & Hi' & Ha)| | |]; subst. rewrite Hi in Hi'. injection Hi' as <-. split; [done|].
    eapply Forall_impl; [exact Ha|]. intros w. by apply IH.
Qed.

Lemma checker_leaf definition v type :
  schemaType definition = type -> type ∈ ["string"; "integer"; "boolean"] ->
  validateSchemaValue definition v = true <-> typed definition v.
Proof.
  intros Ht Hin. apply elem_of_cons in Hin as [->|[->| ->%list_elem_of_singleton]%elem_of_cons];
    lazymatch type of Ht with _ = ?type =>
      pose proof (proj2 (saysType_schemaType definition type ltac:(discriminate)) Ht) as Hsays end;
    destruct v; cbn [validateSchemaValue]; rewrite Ht; try other_type;
    rewrite !decide_False, ?decide_True by done.
  - rewrite atLeast_spec. split; [by constructor|by inversion 1].
  - destruct (number_Int64 _) as [n|] eqn:Hn; [|split; [done|inversion 1; congruence]].
    rewrite atLeast_spec. split; [by econstructor|]. inversion 1; by simplify_eq.
  - split; [by constructor|done].
Qed.

Lemma checker_sound n definition v :
  validateSchemaDefinition n definition = true -> validateSchemaValue definition v = true <-> typed definition v.
Proof.
  revert definition v. induction n as [|n IH]; intros definition v Hv; [done|].
  pose proof (definition_type _ _ Hv) as Ht.
  apply elem_of_cons in Ht as [Ht|Ht]; [by apply (checker_object n)|].
  apply elem_of_cons in Ht as [Ht|Ht]; [by apply (checker_array n)|]. by eapply checker_leaf.
Qed.

(** ** The fuel is enough *)

Lemma depth_member m members : m ∈ members -> json_depth (snd m) < json_depth (JObject members).
Proof.
  cbn [json_depth]. intros Hi. apply Nat.lt_succ_r. induction members as [|x rest IH]; [by apply elem_of_nil in Hi|].
  cbn [foldr]. apply elem_of_cons in Hi as [->|Hi]; [lia|]. specialize (IH Hi). lia.
Qed.

Lemma live_elem m members : live m members -> m ∈ members.
Proof. intros (e & l & -> & _). apply elem_of_app. right. left. Qed.

Lemma field_depth name definition v : field name definition = Some v -> json_depth v < json_depth (JObject definition).
Proof. intros Hf%member_live%live_elem. by apply (depth_member (bytes_of name, v)). Qed.

Lemma validateSchemaDefinition_fuel n m definition :
  json_depth (JObject definition) <= n -> json_depth (JObject definition) <= m ->
  validateSchemaDefinition n definition = validateSchemaDefinition m definition.
Proof.
  revert m definition. induction n as [|n IH]; intros m definition Hn Hm; [cbn [json_depth] in Hn; lia|].
  destruct m as [|m]; [cbn [json_depth] in Hm; lia|]. cbn [validateSchemaDefinition].
  destruct (field "type" definition) as [[| | |text| |]|]; try done.
  case_decide.
  - f_equal. f_equal. unfold propertiesOf. destruct (field "properties" definition) as [[| | | | |ps]|] eqn:Hp; try done.
    f_equal. apply eq_iff_eq_true. rewrite !forallb_forall.
    assert (forall x, List.In x (live_members ps) ->
      match snd x with JObject child => validateSchemaDefinition n child | _ => false end =
      match snd x with JObject child => validateSchemaDefinition m child | _ => false end) as Heq.
    { intros x Hx%list_elem_of_In%live_members_spec%live_elem%depth_member. apply field_depth in Hp.
      destruct (snd x); try done. apply IH; lia. }
    split; intros Hall x Hx; [rewrite <- Heq|rewrite Heq]; auto.
  - case_decide; [|done]. f_equal. f_equal. destruct (field "items" definition) as [[| | | | |child]|] eqn:Hi; try done.
    apply field_depth in Hi. apply IH; lia.
Qed.

(** ** Contracts *)

Lemma rootSchema_spec schema :
  rootSchema schema = true ->
  exists definition n, unmarshal_map schema = Some definition /\ schemaType definition = "object" /\
    validateSchemaDefinition n definition = true.
Proof.
  unfold rootSchema. destruct (unmarshal_map schema) as [definition|]; [|done].
  intros [Ht%bool_decide_eq_true Hv]%andb_true_iff. by eexists _, _.
Qed.

Lemma root_typed schema :
  rootSchema schema = true ->
  exists definition, unmarshal_map schema = Some definition /\ saysType definition "object" /\
    forall payload, validateJSONSchema schema payload = Ok tt <->
      exists v, parse_bytes (bytes_of payload) = Some v /\ typed definition v.
Proof.
  intros (definition & n & Hd & Ht & Hv)%rootSchema_spec. exists definition. split; [done|].
  split; [by apply saysType_schemaType|]. intros payload. unfold validateJSONSchema. rewrite Hd.
  destruct (parse_bytes (bytes_of payload)) as [v|]; [|by split; [|intros (? & ? & _)]].
  rewrite guard_err_Ok, negb_false_iff, (checker_sound n) by done. split; [eauto|by intros (? & [= ->] & ?)].
Qed.

(** C21: a valid contract is a type: each of its two schemas is the text of a JSON object
    that describes a type of objects, and a payload is accepted exactly when it is one JSON
    value, followed by nothing, that has the type the members of that schema tell - the
    required members are there, the declared ones have their declared types down to the
    bounds on lengths and numbers, and others occur only where the schema admits them. *)
Theorem valid_contract_is_typed contract :
  ValidateContract contract = Ok tt ->
  (exists schema, unmarshal_map (ct_InputSchema contract) = Some schema /\ saysType schema "object" /\
     forall input, ValidateInput contract input = Ok tt <->
       exists v, parse_bytes (bytes_of input) = Some v /\ typed schema v) /\
  (exists schema, unmarshal_map (ct_OutputSchema contract) = Some schema /\ saysType schema "object" /\
     forall output, ValidateOutput contract output = Ok tt <->
       exists v, parse_bytes (bytes_of output) = Some v /\ typed schema v).
Proof.
  unfold ValidateContract. rewrite guard_err_Ok. intros [[_ Hi]%orb_false_iff Ho]%orb_false_iff.
  apply negb_false_iff in Hi, Ho. split; by apply root_typed.
Qed.

(** ** Contract sets *)

Lemma byName_Some contracts index index' :
  byName contracts index = Some index' ->
  NoDup (map ct_Name contracts) /\
  (forall c, c ∈ contracts -> index !! ct_Name c = None) /\
  forall name, index' !! name = match find (fun c => bool_decide (ct_Name c = name)) contracts with
                                | Some c => Some c | None => index !! name end.
Proof.
  revert index. induction contracts as [|c rest IH]; intros index; cbn [byName map find].
  - intros [= ->]. split; [constructor|]. split; [by intros ? ?%elem_of_nil|done].
  - case_decide as Hs; [done|]. apply eq_None_not_Some in Hs. intros (Hn & Hf & Hl)%IH.
    assert (forall d, d ∈ rest -> ct_Name d <> ct_Name c) as Hne.
    { intros d Hd Heq. apply Hf in Hd. rewrite Heq, lookup_insert_eq in Hd. done. }
    split.
    { constructor; [|done]. intros (d & Heq & Hd)%list_elem_of_fmap. by apply (Hne d). }
    split.
    + intros d [->|Hd]%elem_of_cons; [done|]. pose proof (Hf d Hd) as Hx. by rewrite lookup_insert_ne in Hx by (intros ?; by apply (Hne d)).
    + intros name. rewrite Hl. case_bool_decide as Hc.
      * subst name. destruct (find _ rest) as [d|] eqn:Hd; [|by rewrite lookup_insert_eq].
        apply find_some in Hd as [Hd Hk]. apply bool_decide_eq_true in Hk. exfalso.
        by apply (Hne d); [apply list_elem_of_In|].
      * destruct (find _ rest); [done|]. by rewrite lookup_insert_ne.
Qed.

Lemma byName_NoDup contracts index :
  NoDup (map ct_Name contracts) -> (forall c, c ∈ contracts -> index !! ct_Name c = None) ->
  is_Some (byName contracts index).
Proof.
  revert index. induction contracts as [|c rest IH]; intros index; cbn [byName map]; [by eexists|].
  intros [Hc Hn]%NoDup_cons Hf. rewrite decide_False by (rewrite Hf by left; by intros []).
  apply IH; [done|]. intros d Hd. rewrite lookup_insert_ne; [by apply Hf; right|].
  intros Heq. apply Hc. rewrite Heq. by apply list_elem_of_fmap_2.
Qed.

Lemma allFound_spec contracts seen index :
  allFound contracts seen index = true <->
  NoDup (map ct_Name contracts) /\ (forall c, c ∈ contracts -> ct_Name c ∉ seen) /\
  forall c, c ∈ contracts -> index !! ct_Name c = Some c.
Proof.
  revert seen. induction contracts as [|c rest IH]; intros seen; cbn [allFound map].
  - split; [|done]. intros _. split; [constructor|]. by split; intros ? ?%elem_of_nil.
  - case_decide as Hs.
    { split; [done|]. intros (_ & Hf & _). by destruct (Hf c ltac:(left)). }
    destruct (index !! ct_Name c) as [other|] eqn:Ho.
    2:{ split; [done|]. intros (_ & _ & Hf). specialize (Hf c ltac:(left)). congruence. }
    unfold contractsEqual. rewrite andb_true_iff, bool_decide_eq_true, IH, NoDup_cons. split.
    + intros (-> & Hn & Hf & Hx). split; [split; [|done]|split].
      * intros (d & Heq & Hd)%list_elem_of_fmap. apply Hf in Hd. apply Hd, elem_of_union. left. by apply elem_of_singleton.
      * intros d [->|Hd]%elem_of_cons; [done|]. apply Hf in Hd. intros Hin. apply Hd, elem_of_union. by right.
      * intros d [->|Hd]%elem_of_cons; [done|by apply Hx].
    + intros ([Hc Hn] & Hf & Hx). pose proof (Hx c ltac:(left)) as Hxc. split; [congruence|]. split; [done|]. split.
      * intros d Hd Hin. apply elem_of_union in Hin as [Hin|Hin].
        -- apply elem_of_singleton in Hin. apply Hc. rewrite <- Hin. by apply list_elem_of_fmap_2.
        -- by apply (Hf d ltac:(by right)).
      * intros d Hd. apply Hx. by right.
Qed.

Lemma find_by_name contracts c :
  NoDup (map ct_Name contracts) -> c ∈ contracts ->
  find (fun d => bool_decide (ct_Name d = ct_Name c)) contracts = Some c.
Proof.
  induction contracts as [|d rest IH]; cbn [find map]; [by intros _ ?%elem_of_nil|].
  intros [Hd Hn]%NoDup_cons [->|Hc]%elem_of_cons; [by rewrite bool_decide_true|].
  rewrite bool_decide_false; [by apply IH|]. intros Heq. apply Hd. rewrite Heq. by apply list_elem_of_fmap_2.
Qed.

(** [ContractSetsEqual] decides equality of contract sets: it holds exactly when
    no name occurs twice and the two lists are permutations of one another, every field
    of every contract included. *)
Theorem contract_sets_equal left right :
  ContractSetsEqual left right = true <-> NoDup (map ct_Name left) /\ left ≡ₚ right.
Proof.
  unfold ContractSetsEqual. case_decide as Hlen.
  { split; [done|]. intros [_ HP]. by apply Permutation_length in HP. }
  split.
  - destruct (byName right ∅) as [index|] eqn:Hb; [|done]. apply byName_Some in Hb as (Hn & _ & Hl).
    rewrite allFound_spec. intros (Hnl & _ & Hx). split; [done|].
    assert (left ⊆ right) as Hsub.
    { intros c Hc%Hx. rewrite Hl in Hc. destruct (find _ right) as [d|] eqn:Hd; [|done].
      apply find_some in Hd as [Hd _]. injection Hc as ->. by apply list_elem_of_In. }
    apply NoDup_fmap_1 in Hnl. apply submseteq_length_Permutation; [|lia].
    by apply NoDup_submseteq.
  - intros [Hn HP]. assert (NoDup (map ct_Name right)) as Hnr by by rewrite <- HP.
    destruct (byName_NoDup right ∅ Hnr) as [index Hi]; [done|]. rewrite Hi.
    apply byName_Some in Hi as (_ & _ & Hl). apply allFound_spec. split; [done|]. split; [intros c _; apply not_elem_of_empty|].
    intros c Hc. rewrite Hl, find_by_name; [done|done|]. by rewrite <- HP.
Qed.
