(* ===== verification/AuditLog.v ===== *)
(** * Audit records: internal/policy/audit.go

    Events of the policy and the sandbox, and the two recorders: in memory, and as
    one JSON document per line of a file. *)
From S2P Require Import Prelude Sha256 GoLib Effect.

(** ** Events

    An [AuditKind] is a string. *)
Definition AuditPolicyAllowed : string := "policy_allowed".
Definition AuditPolicyDenied : string := "policy_denied".
Definition AuditExecutionCompleted : string := "execution_completed".
Definition AuditExecutionFailed : string := "execution_failed".
Definition AuditExecutionTimedOut : string := "execution_timed_out".
Definition AuditExecutionCanceled : string := "execution_canceled".
Definition AuditOutputTruncated : string := "output_truncated".
Definition AuditSandboxCreated : string := "sandbox_created".
Definition AuditSandboxCreateFailed : string := "sandbox_create_failed".
Definition AuditSandboxDestroyed : string := "sandbox_destroyed".
Definition AuditSandboxDestroyFailed : string := "sandbox_destroy_failed".

Record AuditEvent : Type := MkAuditEvent {
  au_Kind : string;
  au_RunID : string;
  au_AttemptID : string;
  au_RequestedRunID : string;
  au_RequestedAttemptID : string;
  au_ToolName : string;
  au_ContractVersion : string;
  au_PolicyVersion : string;
  au_Capability : string;
  au_ReadOnly : bool;
  au_AllowedPaths : list string;
  au_Network : bool;
  au_Environment : list string;
  au_TimeoutMillis : Z;
  au_OutputLimit : Z;
  au_ImageID : string;
  au_CPU : string;
  au_Memory : string;
  au_PIDs : Z;
  au_Reason : string;
  au_ExitCode : Z;
  au_OutputBytes : Z;
  au_Timestamp : string
}.

#[export] Instance AuditEvent_eq_dec : EqDecision AuditEvent.
Proof. solve_decision. Defined.

Definition emptyAudit : AuditEvent :=
  MkAuditEvent "" "" "" "" "" "" "" "" "" false [] false [] 0 0 "" "" "" 0 "" 0 0 "".

#[export] Instance set_au_Kind : Setter au_Kind := fun v e =>
  MkAuditEvent v (au_RunID e) (au_AttemptID e) (au_RequestedRunID e) (au_RequestedAttemptID e)
  (au_ToolName e) (au_ContractVersion e) (au_PolicyVersion e) (au_Capability e) (au_ReadOnly e)
  (au_AllowedPaths e) (au_Network e) (au_Environment e) (au_TimeoutMillis e) (au_OutputLimit e)
  (au_ImageID e) (au_CPU e) (au_Memory e) (au_PIDs e) (au_Reason e) (au_ExitCode e) (au_OutputBytes e)
  (au_Timestamp e).
#[export] Instance set_au_RunID : Setter au_RunID := fun v e =>
  MkAuditEvent (au_Kind e) v (au_AttemptID e) (au_RequestedRunID e) (au_RequestedAttemptID e)
  (au_ToolName e) (au_ContractVersion e) (au_PolicyVersion e) (au_Capability e) (au_ReadOnly e)
  (au_AllowedPaths e) (au_Network e) (au_Environment e) (au_TimeoutMillis e) (au_OutputLimit e)
  (au_ImageID e) (au_CPU e) (au_Memory e) (au_PIDs e) (au_Reason e) (au_ExitCode e) (au_OutputBytes e)
  (au_Timestamp e).
#[export] Instance set_au_AttemptID : Setter au_AttemptID := fun v e =>
  MkAuditEvent (au_Kind e) (au_RunID e) v (au_RequestedRunID e) (au_RequestedAttemptID e) (au_ToolName
  e) (au_ContractVersion e) (au_PolicyVersion e) (au_Capability e) (au_ReadOnly e) (au_AllowedPaths e)
  (au_Network e) (au_Environment e) (au_TimeoutMillis e) (au_OutputLimit e) (au_ImageID e) (au_CPU e)
  (au_Memory e) (au_PIDs e) (au_Reason e) (au_ExitCode e) (au_OutputBytes e) (au_Timestamp e).
#[export] Instance set_au_RequestedRunID : Setter au_RequestedRunID := fun v e =>
  MkAuditEvent (au_Kind e) (au_RunID e) (au_AttemptID e) v (au_RequestedAttemptID e) (au_ToolName e)
  (au_ContractVersion e) (au_PolicyVersion e) (au_Capability e) (au_ReadOnly e) (au_AllowedPaths e)
  (au_Network e) (au_Environment e) (au_TimeoutMillis e) (au_OutputLimit e) (au_ImageID e) (au_CPU e)
  (au_Memory e) (au_PIDs e) (au_Reason e) (au_ExitCode e) (au_OutputBytes e) (au_Timestamp e).
#[export] Instance set_au_RequestedAttemptID : Setter au_RequestedAttemptID := fun v e =>
  MkAuditEvent (au_Kind e) (au_RunID e) (au_AttemptID e) (au_RequestedRunID e) v (au_ToolName e)
  (au_ContractVersion e) (au_PolicyVersion e) (au_Capability e) (au_ReadOnly e) (au_AllowedPaths e)
  (au_Network e) (au_Environment e) (au_TimeoutMillis e) (au_OutputLimit e) (au_ImageID e) (au_CPU e)
  (au_Memory e) (au_PIDs e) (au_Reason e) (au_ExitCode e) (au_OutputBytes e) (au_Timestamp e).
#[export] Instance set_au_ToolName : Setter au_ToolName := fun v e =>
  MkAuditEvent (au_Kind e) (au_RunID e) (au_AttemptID e) (au_RequestedRunID e) (au_RequestedAttemptID
  e) v (au_ContractVersion e) (au_PolicyVersion e) (au_Capability e) (au_ReadOnly e) (au_AllowedPaths
  e) (au_Network e) (au_Environment e) (au_TimeoutMillis e) (au_OutputLimit e) (au_ImageID e) (au_CPU
  e) (au_Memory e) (au_PIDs e) (au_Reason e) (au_ExitCode e) (au_OutputBytes e) (au_Timestamp e).
#[export] Instance set_au_ContractVersion : Setter au_ContractVersion := fun v e =>
  MkAuditEvent (au_Kind e) (au_RunID e) (au_AttemptID e) (au_RequestedRunID e) (au_RequestedAttemptID
  e) (au_ToolName e) v (au_PolicyVersion e) (au_Capability e) (au_ReadOnly e) (au_AllowedPaths e)
  (au_Network e) (au_Environment e) (au_TimeoutMillis e) (au_OutputLimit e) (au_ImageID e) (au_CPU e)
  (au_Memory e) (au_PIDs e) (au_Reason e) (au_ExitCode e) (au_OutputBytes e) (au_Timestamp e).
#[export] Instance set_au_PolicyVersion : Setter au_PolicyVersion := fun v e =>
  MkAuditEvent (au_Kind e) (au_RunID e) (au_AttemptID e) (au_RequestedRunID e) (au_RequestedAttemptID
  e) (au_ToolName e) (au_ContractVersion e) v (au_Capability e) (au_ReadOnly e) (au_AllowedPaths e)
  (au_Network e) (au_Environment e) (au_TimeoutMillis e) (au_OutputLimit e) (au_ImageID e) (au_CPU e)
  (au_Memory e) (au_PIDs e) (au_Reason e) (au_ExitCode e) (au_OutputBytes e) (au_Timestamp e).
#[export] Instance set_au_Capability : Setter au_Capability := fun v e =>
  MkAuditEvent (au_Kind e) (au_RunID e) (au_AttemptID e) (au_RequestedRunID e) (au_RequestedAttemptID
  e) (au_ToolName e) (au_ContractVersion e) (au_PolicyVersion e) v (au_ReadOnly e) (au_AllowedPaths e)
  (au_Network e) (au_Environment e) (au_TimeoutMillis e) (au_OutputLimit e) (au_ImageID e) (au_CPU e)
  (au_Memory e) (au_PIDs e) (au_Reason e) (au_ExitCode e) (au_OutputBytes e) (au_Timestamp e).
#[export] Instance set_au_ReadOnly : Setter au_ReadOnly := fun v e =>
  MkAuditEvent (au_Kind e) (au_RunID e) (au_AttemptID e) (au_RequestedRunID e) (au_RequestedAttemptID
  e) (au_ToolName e) (au_ContractVersion e) (au_PolicyVersion e) (au_Capability e) v (au_AllowedPaths
  e) (au_Network e) (au_Environment e) (au_TimeoutMillis e) (au_OutputLimit e) (au_ImageID e) (au_CPU
  e) (au_Memory e) (au_PIDs e) (au_Reason e) (au_ExitCode e) (au_OutputBytes e) (au_Timestamp e).
#[export] Instance set_au_AllowedPaths : Setter au_AllowedPaths := fun v e =>
  MkAuditEvent (au_Kind e) (au_RunID e) (au_AttemptID e) (au_RequestedRunID e) (au_RequestedAttemptID
  e) (au_ToolName e) (au_ContractVersion e) (au_PolicyVersion e) (au_Capability e) (au_ReadOnly e) v
  (au_Network e) (au_Environment e) (au_TimeoutMillis e) (au_OutputLimit e) (au_ImageID e) (au_CPU e)
  (au_Memory e) (au_PIDs e) (au_Reason e) (au_ExitCode e) (au_OutputBytes e) (au_Timestamp e).
#[export] Instance set_au_Network : Setter au_Network := fun v e =>
  MkAuditEvent (au_Kind e) (au_RunID e) (au_AttemptID e) (au_RequestedRunID e) (au_RequestedAttemptID
  e) (au_ToolName e) (au_ContractVersion e) (au_PolicyVersion e) (au_Capability e) (au_ReadOnly e)
  (au_AllowedPaths e) v (au_Environment e) (au_TimeoutMillis e) (au_OutputLimit e) (au_ImageID e)
  (au_CPU e) (au_Memory e) (au_PIDs e) (au_Reason e) (au_ExitCode e) (au_OutputBytes e) (au_Timestamp
  e).
#[export] Instance set_au_Environment : Setter au_Environment := fun v e =>
  MkAuditEvent (au_Kind e) (au_RunID e) (au_AttemptID e) (au_RequestedRunID e) (au_RequestedAttemptID
  e) (au_ToolName e) (au_ContractVersion e) (au_PolicyVersion e) (au_Capability e) (au_ReadOnly e)
  (au_AllowedPaths e) (au_Network e) v (au_TimeoutMillis e) (au_OutputLimit e) (au_ImageID e) (au_CPU
  e) (au_Memory e) (au_PIDs e) (au_Reason e) (au_ExitCode e) (au_OutputBytes e) (au_Timestamp e).
#[export] Instance set_au_TimeoutMillis : Setter au_TimeoutMillis := fun v e =>
  MkAuditEvent (au_Kind e) (au_RunID e) (au_AttemptID e) (au_RequestedRunID e) (au_RequestedAttemptID
  e) (au_ToolName e) (au_ContractVersion e) (au_PolicyVersion e) (au_Capability e) (au_ReadOnly e)
  (au_AllowedPaths e) (au_Network e) (au_Environment e) v (au_OutputLimit e) (au_ImageID e) (au_CPU e)
  (au_Memory e) (au_PIDs e) (au_Reason e) (au_ExitCode e) (au_OutputBytes e) (au_Timestamp e).
#[export] Instance set_au_OutputLimit : Setter au_OutputLimit := fun v e =>
  MkAuditEvent (au_Kind e) (au_RunID e) (au_AttemptID e) (au_RequestedRunID e) (au_RequestedAttemptID
  e) (au_ToolName e) (au_ContractVersion e) (au_PolicyVersion e) (au_Capability e) (au_ReadOnly e)
  (au_AllowedPaths e) (au_Network e) (au_Environment e) (au_TimeoutMillis e) v (au_ImageID e) (au_CPU
  e) (au_Memory e) (au_PIDs e) (au_Reason e) (au_ExitCode e) (au_OutputBytes e) (au_Timestamp e).
#[export] Instance set_au_ImageID : Setter au_ImageID := fun v e =>
  MkAuditEvent (au_Kind e) (au_RunID e) (au_AttemptID e) (au_RequestedRunID e) (au_RequestedAttemptID
  e) (au_ToolName e) (au_ContractVersion e) (au_PolicyVersion e) (au_Capability e) (au_ReadOnly e)
  (au_AllowedPaths e) (au_Network e) (au_Environment e) (au_TimeoutMillis e) (au_OutputLimit e) v
  (au_CPU e) (au_Memory e) (au_PIDs e) (au_Reason e) (au_ExitCode e) (au_OutputBytes e) (au_Timestamp
  e).
#[export] Instance set_au_CPU : Setter au_CPU := fun v e =>
  MkAuditEvent (au_Kind e) (au_RunID e) (au_AttemptID e) (au_RequestedRunID e) (au_RequestedAttemptID
  e) (au_ToolName e) (au_ContractVersion e) (au_PolicyVersion e) (au_Capability e) (au_ReadOnly e)
  (au_AllowedPaths e) (au_Network e) (au_Environment e) (au_TimeoutMillis e) (au_OutputLimit e)
  (au_ImageID e) v (au_Memory e) (au_PIDs e) (au_Reason e) (au_ExitCode e) (au_OutputBytes e)
  (au_Timestamp e).
#[export] Instance set_au_Memory : Setter au_Memory := fun v e =>
  MkAuditEvent (au_Kind e) (au_RunID e) (au_AttemptID e) (au_RequestedRunID e) (au_RequestedAttemptID
  e) (au_ToolName e) (au_ContractVersion e) (au_PolicyVersion e) (au_Capability e) (au_ReadOnly e)
  (au_AllowedPaths e) (au_Network e) (au_Environment e) (au_TimeoutMillis e) (au_OutputLimit e)
  (au_ImageID e) (au_CPU e) v (au_PIDs e) (au_Reason e) (au_ExitCode e) (au_OutputBytes e)
  (au_Timestamp e).
#[export] Instance set_au_PIDs : Setter au_PIDs := fun v e =>
  MkAuditEvent (au_Kind e) (au_RunID e) (au_AttemptID e) (au_RequestedRunID e) (au_RequestedAttemptID
  e) (au_ToolName e) (au_ContractVersion e) (au_PolicyVersion e) (au_Capability e) (au_ReadOnly e)
  (au_AllowedPaths e) (au_Network e) (au_Environment e) (au_TimeoutMillis e) (au_OutputLimit e)
  (au_ImageID e) (au_CPU e) (au_Memory e) v (au_Reason e) (au_ExitCode e) (au_OutputBytes e)
  (au_Timestamp e).
#[export] Instance set_au_Reason : Setter au_Reason := fun v e =>
  MkAuditEvent (au_Kind e) (au_RunID e) (au_AttemptID e) (au_RequestedRunID e) (au_RequestedAttemptID
  e) (au_ToolName e) (au_ContractVersion e) (au_PolicyVersion e) (au_Capability e) (au_ReadOnly e)
  (au_AllowedPaths e) (au_Network e) (au_Environment e) (au_TimeoutMillis e) (au_OutputLimit e)
  (au_ImageID e) (au_CPU e) (au_Memory e) (au_PIDs e) v (au_ExitCode e) (au_OutputBytes e)
  (au_Timestamp e).
#[export] Instance set_au_ExitCode : Setter au_ExitCode := fun v e =>
  MkAuditEvent (au_Kind e) (au_RunID e) (au_AttemptID e) (au_RequestedRunID e) (au_RequestedAttemptID
  e) (au_ToolName e) (au_ContractVersion e) (au_PolicyVersion e) (au_Capability e) (au_ReadOnly e)
  (au_AllowedPaths e) (au_Network e) (au_Environment e) (au_TimeoutMillis e) (au_OutputLimit e)
  (au_ImageID e) (au_CPU e) (au_Memory e) (au_PIDs e) (au_Reason e) v (au_OutputBytes e) (au_Timestamp
  e).
#[export] Instance set_au_OutputBytes : Setter au_OutputBytes := fun v e =>
  MkAuditEvent (au_Kind e) (au_RunID e) (au_AttemptID e) (au_RequestedRunID e) (au_RequestedAttemptID
  e) (au_ToolName e) (au_ContractVersion e) (au_PolicyVersion e) (au_Capability e) (au_ReadOnly e)
  (au_AllowedPaths e) (au_Network e) (au_Environment e) (au_TimeoutMillis e) (au_OutputLimit e)
  (au_ImageID e) (au_CPU e) (au_Memory e) (au_PIDs e) (au_Reason e) (au_ExitCode e) v (au_Timestamp
  e).
#[export] Instance set_au_Timestamp : Setter au_Timestamp := fun v e =>
  MkAuditEvent (au_Kind e) (au_RunID e) (au_AttemptID e) (au_RequestedRunID e) (au_RequestedAttemptID
  e) (au_ToolName e) (au_ContractVersion e) (au_PolicyVersion e) (au_Capability e) (au_ReadOnly e)
  (au_AllowedPaths e) (au_Network e) (au_Environment e) (au_TimeoutMillis e) (au_OutputLimit e)
  (au_ImageID e) (au_CPU e) (au_Memory e) (au_PIDs e) (au_Reason e) (au_ExitCode e) (au_OutputBytes e)
  v.

(** ** Recorders *)

(** [AuditRecorder] *)
Definition AuditRecorder (W : Type) : Type := Context -> AuditEvent -> M W unit.

(** [RecordBounded]: a fresh context, which has not expired when the call is made. *)
Definition RecordBounded {W} (recorder : AuditRecorder W) (event : AuditEvent) : M W unit :=
  recorder background event.

Definition unavailableAuditRecorder {W} : AuditRecorder W :=
  fun _ _ => throw (Plain "audit recorder is required").

Definition recorderOrUnavailable {W} (recorder : option (AuditRecorder W)) : AuditRecorder W :=
  default unavailableAuditRecorder recorder.

(** The wall clock, formatted as the recorders do. *)
Class WallClock (W : Type) : Type := Now : W -> string.

Definition stampAudit (now : string) (event : AuditEvent) : AuditEvent :=
  if decide (au_Timestamp event = "") then event <| au_Timestamp := now |> else event.

(** *** In memory *)

(** The events in order. *)
Class MemoryAudit (W : Type) : Type := {
  audit_events : W -> list AuditEvent;
  set_audit_events : list AuditEvent -> W -> W
}.

Definition recordMemory `{WallClock W} `{MemoryAudit W} : AuditRecorder W := fun ctx event =>
  _ ← checkContext ctx;
  now ← gets Now;
  modify (fun w => set_audit_events (audit_events w ++ [stampAudit now event]) w).

(** *** In a file *)

Definition omit_zero (name : string) (n : Z) : list string :=
  if decide (n = 0%Z) then [] else [json_member name (pretty n)].
Definition omit_empty_list (name : string) (values : list string) : list string :=
  if decide (values = []) then [] else [json_member name (json_array (map json_string values))].

(** [json.Marshal] of an event *)
Definition auditMembers (e : AuditEvent) : list string :=
  [json_member "kind" (json_string (au_Kind e))] ++
  omitempty "run_id" (au_RunID e) ++
  omitempty "attempt_id" (au_AttemptID e) ++
  omitempty "requested_run_id" (au_RequestedRunID e) ++
  omitempty "requested_attempt_id" (au_RequestedAttemptID e) ++
  omitempty "tool_name" (au_ToolName e) ++
  omitempty "contract_version" (au_ContractVersion e) ++
  omitempty "policy_version" (au_PolicyVersion e) ++
  omitempty "capability" (au_Capability e) ++
  [json_member "read_only" (json_bool (au_ReadOnly e))] ++
  omit_empty_list "allowed_paths" (au_AllowedPaths e) ++
  [json_member "network" (json_bool (au_Network e))] ++
  omit_empty_list "environment" (au_Environment e) ++
  [json_member "timeout_millis" (pretty (au_TimeoutMillis e))] ++
  [json_member "output_limit_bytes" (pretty (au_OutputLimit e))] ++
  omitempty "image_id" (au_ImageID e) ++
  omitempty "cpu_limit" (au_CPU e) ++
  omitempty "memory_limit" (au_Memory e) ++
  omit_zero "pid_limit" (au_PIDs e) ++
  omitempty "reason" (au_Reason e) ++
  [json_member "exit_code" (pretty (au_ExitCode e))] ++
  [json_member "output_bytes" (pretty (au_OutputBytes e))] ++
  [json_member "timestamp" (json_string (au_Timestamp e))].

Definition marshalAudit (e : AuditEvent) : string := json_object (auditMembers e).

(** [FileAuditRecorder]: the contents of the file, its path, and whether it is open.
    Every record is flushed, so the buffer is empty between calls.  Failures of the
    operating system are left out, but for the use of a closed file. *)
Record FileAuditRecorder : Type := MkFileAuditRecorder {
  fa_content : string;
  fa_path : string;
  fa_open : bool
}.

Class FileAudit (W : Type) : Type := {
  audit_file : W -> FileAuditRecorder;
  set_audit_file : FileAuditRecorder -> W -> W
}.

Definition newlineByte : string := string_of_bytes [10%Z].

Definition auditLine (e : AuditEvent) : string := marshalAudit e +:+ newlineByte.

Definition recordFile `{WallClock W} `{FileAudit W} : AuditRecorder W := fun ctx event =>
  _ ← checkContext ctx;
  now ← gets Now;
  recorder ← gets audit_file;
  if fa_open recorder
  then modify (set_audit_file (MkFileAuditRecorder
         (fa_content recorder +:+ auditLine (stampAudit now event)) (fa_path recorder) true))
  else throw (Plain "file already closed").

Definition closeFile `{FileAudit W} : M W unit :=
  recorder ← gets audit_file;
  if fa_open recorder
  then modify (set_audit_file (MkFileAuditRecorder (fa_content recorder) (fa_path recorder) false))
  else mret tt.

Definition Phase4AuditArtifactType : string := "phase-4-audit-jsonl".

Record AuditArtifact : Type := MkAuditArtifact {
  aa_Type : string;
  aa_Path : string;
  aa_Digest : string;
  aa_Size : Z
}.

Definition auditArtifact `{FileAudit W} : M W AuditArtifact :=
  recorder ← gets audit_file;
  if negb (fa_open recorder) then throw (Plain "audit recorder is closed")
  else mret (MkAuditArtifact Phase4AuditArtifactType (fa_path recorder)
               ("sha256:" +:+ hex (sum256 (bytes_of (fa_content recorder))))
               (Z.of_nat (String.length (fa_content recorder)))).
