(* ===== verification/Policy.v ===== *)
(** * Policies: internal/policy/policy.go and path.go

    [time.ParseDuration], the policy engine with its decisions and their audit, and the
    resolution of paths inside a repository. *)
From S2P Require Import Prelude Sha256 GoLib Json Effect Regexp Float64 AuditLog.

Open Scope Z_scope.

(** * time.ParseDuration *)

(** [leadingInt]: the value of the leading digits; [None] on overflow. *)
Fixpoint leadingInt (x : Z) (s : list Z) : option (Z * list Z) :=
  match s with
  | c :: rest =>
      if digit c then
        if 2 ^ 63 / 10 <? x then None
        else
          let y := u64 (10 * x + (c - 48)) in
          if 2 ^ 63 <? y then None else leadingInt y rest
      else Some (x, s)
  | [] => Some (x, [])
  end.

(** [leadingFraction]: the digits that still fit, and ten to their number. *)
Fixpoint leadingFraction (x scale : Z) (overflow : bool) (s : list Z) : Z * Z * list Z :=
  match s with
  | c :: rest =>
      if digit c then
        if overflow || ((2 ^ 63 - 1) / 10 <? x) then leadingFraction x scale true rest
        else
          let y := u64 (10 * x + (c - 48)) in
          if 2 ^ 63 <? y then leadingFraction x scale true rest
          else leadingFraction y (10 * scale) false rest
      else (x, scale, s)
  | [] => (x, scale, [])
  end.

(** [unitMap]: nanoseconds. *)
Definition unitMap : list (list Z * Z) :=
  [ (bytes_of "ns", 1); ([194; 181; 115], 10 ^ 3); ([206; 188; 115], 10 ^ 3); (bytes_of "us", 10 ^ 3);
    (bytes_of "ms", 10 ^ 6); (bytes_of "s", 10 ^ 9); (bytes_of "m", 60 * 10 ^ 9);
    (bytes_of "h", 3600 * 10 ^ 9) ].

Fixpoint lookup_unit (u : list Z) (units : list (list Z * Z)) : option Z :=
  match units with
  | [] => None
  | (name, ns) :: rest => if decide (u = name) then Some ns else lookup_unit u rest
  end.

Fixpoint span_unit (s : list Z) : list Z * list Z :=
  match s with
  | c :: rest =>
      if (c =? 46) || digit c then ([], s) else let '(u, r) := span_unit rest in (c :: u, r)
  | [] => ([], [])
  end.

(** [uint64(float64(f) * (float64(unit) / scale))] *)
Definition fraction_ns (f unit scale : Z) : option Z :=
  f ← float_of_Z f; u ← float_of_Z unit; s ← float_of_Z scale;
  q ← float_div u s; p ← float_mul f q;
  let '(a, b) := ratio p in Some (Z.quot a b).

(** One number with its unit. *)
Definition parse_component (s : list Z) : option (Z * list Z) :=
  match s with
  | c :: _ =>
      if negb ((c =? 46) || digit c) then None
      else
        '(v, s1) ← leadingInt 0 s;
        let pre := negb (bool_decide (length s = length s1)) in
        let '(f, scale, s2, post) :=
          match s1 with
          | 46 :: r =>
              let '(f, scale, s2) := leadingFraction 0 1 false r in
              (f, scale, s2, negb (bool_decide (length r = length s2)))
          | _ => (0, 1, s1, false)
          end in
        if negb pre && negb post then None
        else
          let '(u, s3) := span_unit s2 in
          if decide (u = []) then None
          else
            unit ← lookup_unit u unitMap;
            if 2 ^ 63 / unit <? v then None
            else
              let v := u64 (v * unit) in
              v ← (if 0 <? f then
                     extra ← fraction_ns f unit scale;
                     let v := u64 (v + extra) in if 2 ^ 63 <? v then None else Some v
                   else Some v);
              Some (v, s3)
  | [] => None
  end.

(** The sum of the components; each one takes at least one byte. *)
Fixpoint parse_components (fuel : nat) (d : Z) (s : list Z) : option Z :=
  match s, fuel with
  | [], _ => Some d
  | _, O => None
  | _, S n =>
      '(v, rest) ← parse_component s;
      let d := u64 (d + v) in
      if 2 ^ 63 <? d then None else parse_components n d rest
  end.

(** [time.ParseDuration], in nanoseconds. *)
Definition ParseDuration (text : string) : option Z :=
  let s := bytes_of text in
  let '(neg, s) :=
    match s with
    | c :: rest => if (c =? 45) || (c =? 43) then (c =? 45, rest) else (false, s)
    | [] => (false, s)
    end in
  if decide (s = [48]) then Some 0
  else if decide (s = []) then None
  else
    d ← parse_components (length s) 0 s;
    if (neg : bool) then Some (i64 (- i64 d))
    else if 2 ^ 63 - 1 <? d then None else Some (i64 d).

(** ** Bounds *)

Lemma ParseDuration_bounds text d : ParseDuration text = Some d -> - 2 ^ 63 <= d < 2 ^ 63.
Proof.
  assert (forall z, - 2 ^ 63 <= i64 z < 2 ^ 63) as Hi.
  { intros z. unfold i64. pose proof (Z.mod_pos_bound (z + 2 ^ 63) (2 ^ 64)). lia. }
  unfold ParseDuration. destruct (match bytes_of text with [] => _ | _ => _ end) as [neg s].
  case_decide; [intros [= <-]; lia|]. case_decide; [done|].
  destruct (parse_components _ _ _) as [v|]; [|done]. cbn [mbind option_bind].
  destruct neg; [by intros [= <-]; apply Hi|]. destruct (2 ^ 63 - 1 <? v); [done|]. by intros [= <-]; apply Hi.
Qed.

Close Scope Z_scope.

Example duration_seconds : ParseDuration "1m30.5s" = Some 90500000000%Z.
Proof. vm_compute. reflexivity. Qed.
Example duration_bare : ParseDuration "10" = None.
Proof. vm_compute. reflexivity. Qed.
Example duration_negative : ParseDuration "-1.5h" = Some (-5400000000000)%Z.
Proof. vm_compute. reflexivity. Qed.

(** * The policy engine: internal/policy/policy.go *)

(** ** Configuration *)

(** [EnvironmentPolicy] is its one list. *)
Record Rule : Type := MkRule {
  rl_Tool : string;
  rl_Capability : string;
  rl_ReadOnly : bool;
  rl_Paths : list string;
  rl_Network : bool;
  rl_MaxTimeout : Z;
  rl_MaxOutputBytes : Z
}.

Record Config : Type := MkConfig {
  cf_Version : string;
  cf_Default : string;
  cf_Environment : list string;
  cf_Rules : list Rule
}.

Record rawRule : Type := MkRawRule {
  raw_Tool : string;
  raw_Capability : string;
  raw_ReadOnly : bool;
  raw_Paths : list string;
  raw_Network : bool;
  raw_MaxTimeout : string;
  raw_MaxOutputBytes : Z
}.

Record rawConfig : Type := MkRawConfig {
  raw_Version : string;
  raw_Default : string;
  raw_Environment : list string;
  raw_Rules : list rawRule
}.

(** The YAML decoder, a package of its own: the first document with known fields
    only, and what a second call of [Decode] answers. *)
Inductive Trailing : Type :=
  | EndOfInput
  | AnotherDocument
  | TrailingError (e : error).

Class YAML : Type := {
  decodeFirst : string -> result rawConfig;
  decodeNext : string -> Trailing
}.

Definition parseRule (candidate : rawRule) : result Rule :=
  match ParseDuration (raw_MaxTimeout candidate) with
  | None => Err (Plain "invalid maxTimeout")
  | Some timeout =>
      if (timeout <=? 0)%Z then Err (Plain "invalid maxTimeout")
      else if decide (raw_Tool candidate = "" \/ raw_Capability candidate = "" \/
                      raw_Paths candidate = [] \/ (raw_MaxOutputBytes candidate <= 0)%Z)
      then Err (Plain "rule is incomplete")
      else Ok (MkRule (raw_Tool candidate) (raw_Capability candidate) (raw_ReadOnly candidate)
                 (raw_Paths candidate) (raw_Network candidate) timeout (raw_MaxOutputBytes candidate))
  end.

Fixpoint parseRules (candidates : list rawRule) : result (list Rule) :=
  match candidates with
  | [] => Ok []
  | candidate :: rest => rule ← parseRule candidate; rules ← parseRules rest; Ok (rule :: rules)
  end.

(** [Parse] *)
Definition Parse `{YAML} (content : string) : result Config :=
  raw ← wrap (decodeFirst content);
  match decodeNext content with
  | AnotherDocument => Err (Plain "policy YAML must contain exactly one document")
  | TrailingError e => Err (Wrap e)
  | EndOfInput =>
      if decide (raw_Version raw = "" \/ raw_Default raw <> "deny")
      then Err (Plain "policy version is required and default must be deny")
      else
        rules ← parseRules (raw_Rules raw);
        Ok (MkConfig (raw_Version raw) (raw_Default raw) (raw_Environment raw) rules)
  end.

(** ** Paths *)

(** [normalizeLogicalPath], where the separator is a slash and there are no volumes. *)
Definition normalizeLogicalPath (candidate : string) : result string :=
  if bool_decide (candidate = "") || rooted candidate || existsb (Z.eqb 0) (bytes_of candidate)
  then Err (Sentinel ErrUnsafePath)
  else
    let clean := filepath_Clean candidate in
    if bool_decide (clean = "..") || HasPrefix clean "../" then Err (Sentinel ErrUnsafePath)
    else
      let first := fst (split_slash clean) in
      if EqualFold first ".git" || EqualFold first ".agentdock" then Err (Sentinel ErrUnsafePath)
      else Ok clean.

(** One candidate against the allowed prefixes. *)
Definition underPrefix (normalized prefix : string) : bool :=
  match normalizeLogicalPath prefix with
  | Err _ => false
  | Ok normalizedPrefix =>
      bool_decide (normalizedPrefix = "." \/ normalized = normalizedPrefix) ||
      HasPrefix normalized (normalizedPrefix +:+ "/")
  end.

Definition pathAllowed (allowed : list string) (candidate : string) : bool :=
  match normalizeLogicalPath candidate with
  | Err _ => false
  | Ok normalized => existsb (underPrefix normalized) allowed
  end.

Definition PathsAllowed (paths allowed : list string) : bool :=
  negb (bool_decide (paths = [])) && forallb (pathAllowed allowed) paths.

(** ** Decisions *)

Record PolicyRequest : Type := MkPolicyRequest {
  pr_RunID : string;
  pr_AttemptID : string;
  pr_ToolName : string;
  pr_ContractVersion : string;
  pr_Capability : string;
  pr_ReadOnly : bool;
  pr_Paths : list string;
  pr_Network : bool;
  pr_Timeout : Z;
  pr_OutputLimit : Z;
  pr_Environment : gmap string string
}.

Record PolicyDecision : Type := MkDecision {
  dec_Allowed : bool;
  dec_Err : option error
}.

Definition environmentAllowed (environment : gmap string string) (allowed : list string) : bool :=
  forallb (fun entry => bool_decide (fst entry ∈ (list_to_set allowed : gset string)))
    (map_to_list environment).

(** The [switch] on a rule for the requested tool: the reason of the first case that
    holds, [None] in the default case. *)
Definition refusal (environment : list string) (rule : Rule) (request : PolicyRequest) : option string :=
  if decide (rl_Capability rule <> pr_Capability request) then Some "capability is not allowed"
  else if decide (rl_ReadOnly rule <> pr_ReadOnly request)
  then Some "read-only property does not match policy"
  else if pr_Network request && negb (rl_Network rule) then Some "network is denied"
  else if decide ((pr_Timeout request <= 0)%Z \/ (rl_MaxTimeout rule < pr_Timeout request)%Z)
  then Some "timeout exceeds policy"
  else if decide ((pr_OutputLimit request <= 0)%Z \/ (rl_MaxOutputBytes rule < pr_OutputLimit request)%Z)
  then Some "output limit exceeds policy"
  else if negb (PathsAllowed (pr_Paths request) (rl_Paths rule)) then Some "path is outside policy allowlist"
  else if negb (environmentAllowed (pr_Environment request) environment)
  then Some "environment key is not allowlisted"
  else None.

(** The loop over the rules: [None] when a rule allows, else the last reason;
    [matched] is [matchedTool]. *)
Fixpoint ruleLoop (environment : list string) (request : PolicyRequest) (reason : string) (matched : bool)
    (rules : list Rule) : option (string * bool) :=
  match rules with
  | [] => Some (reason, matched)
  | rule :: rest =>
      if decide (rl_Tool rule <> pr_ToolName request)
      then ruleLoop environment request reason matched rest
      else match refusal environment rule request with
      | None => None
      | Some reason' => ruleLoop environment request reason' true rest
      end
  end.

(** Go's [Policy.Milliseconds]: truncation toward zero. *)
Definition Milliseconds (d : Z) : Z := Z.quot d (10 ^ 6).

Definition auditEventForRequest (kind policyVersion : string) (request : PolicyRequest) (reason : string)
    : AuditEvent :=
  emptyAudit <| au_Kind := kind |> <| au_RunID := pr_RunID request |>
    <| au_AttemptID := pr_AttemptID request |> <| au_ToolName := pr_ToolName request |>
    <| au_ContractVersion := pr_ContractVersion request |> <| au_PolicyVersion := policyVersion |>
    <| au_Capability := pr_Capability request |> <| au_ReadOnly := pr_ReadOnly request |>
    <| au_AllowedPaths := pr_Paths request |> <| au_Network := pr_Network request |>
    <| au_Environment := sorted_keys (pr_Environment request) |>
    <| au_TimeoutMillis := Milliseconds (pr_Timeout request) |>
    <| au_OutputLimit := pr_OutputLimit request |> <| au_Reason := reason |>.

Record Engine (W : Type) : Type := MkEngine {
  en_config : Config;
  en_audit : AuditRecorder W
}.
Arguments en_config {W}. Arguments en_audit {W}. Arguments MkEngine {W}.

Definition NewEngine {W} (config : Config) (recorder : option (AuditRecorder W)) : Engine W :=
  MkEngine config (recorderOrUnavailable recorder).

Section engine.
Context {W : Type} (engine : Engine W).

Definition Version : string := cf_Version (en_config engine).

(** [Decide] *)
Definition DecidePolicy (request : PolicyRequest) : M W PolicyDecision :=
  let config := en_config engine in
  match ruleLoop (cf_Environment config) request "no matching allow rule" false (cf_Rules config) with
  | None =>
      recorded ← try (RecordBounded (en_audit engine)
                        (auditEventForRequest AuditPolicyAllowed (cf_Version config) request ""));
      match recorded with
      | Ok _ => mret (MkDecision true None)
      | Err _ => mret (MkDecision false (Some (Sentinel ErrDenied)))
      end
  | Some (reason, matched) =>
      let reason := if (matched : bool) then reason else "no matching allow rule" in
      _ ← try (RecordBounded (en_audit engine)
                 (auditEventForRequest AuditPolicyDenied (cf_Version config) request reason));
      mret (MkDecision false (Some (Sentinel ErrDenied)))
  end.
End engine.

(** * Repository paths on the file system: internal/policy/path.go *)

(** What the operating system answers about a path. *)
Inductive LstatResult : Type :=
  | Exists
  | NotExist
  | LstatError (e : error).

(** The file system is not the program's: [Lstat], the resolution of symbolic links
    and the working directory are parameters. *)
Class FileSystem : Type := {
  os_Lstat : string -> LstatResult;
  EvalSymlinks : string -> result string;
  os_Getwd : result string
}.

(** [filepath.Abs] *)
Definition filepath_Abs `{FileSystem} (path : string) : result string :=
  if rooted path then Ok (filepath_Clean path)
  else wd ← os_Getwd; Ok (filepath_Join [wd; path]).

(** [withinRoot] *)
Definition withinRoot (root candidate : string) : bool :=
  match filepath_Rel root candidate with
  | None => false
  | Some relative =>
      negb (rooted relative) && negb (bool_decide (relative = "..")) && negb (HasPrefix relative "../")
  end.

(** [errors.Join(ErrUnsafePath, err)] *)
Definition unsafe {A} (r : result A) : result A :=
  match r with Ok a => Ok a | Err e => Err (Wrap2 (Sentinel ErrUnsafePath) e) end.

(** The loop over the parts of the logical path. *)
Fixpoint walkParts `{FileSystem} (canonicalRoot current : string) (parts : list string) : result unit :=
  match parts with
  | [] => Ok tt
  | part :: rest =>
      if decide (part = "." \/ part = "") then walkParts canonicalRoot current rest
      else
        let current := filepath_Join [current; part] in
        match os_Lstat current with
        | NotExist => Ok tt
        | LstatError e => unsafe (Err e)
        | Exists =>
            resolved ← unsafe (EvalSymlinks current);
            if negb (withinRoot canonicalRoot resolved) then Err (Sentinel ErrUnsafePath)
            else walkParts canonicalRoot resolved rest
        end
  end.

(** [NormalizePath] *)
Definition NormalizePath `{FileSystem} (root candidate : string) : result string :=
  logical ← normalizeLogicalPath candidate;
  absoluteRoot ← unsafe (filepath_Abs root);
  canonicalRoot ← unsafe (EvalSymlinks absoluteRoot);
  _ ← walkParts canonicalRoot canonicalRoot (components logical);
  Ok logical.
