(* ===== verification/PathFacts.v ===== *)
(** * Lexical paths

    What [filepath.Clean] leaves: upward components first, then plain names; and the
    correspondence between paths as text and paths as lists of components. *)
From S2P Require Import Prelude Sha256 GoLib.

(** ** Components *)

Definition slash_free (c : string) : Prop := split_slash c = (c, []).

Definition plain (c : string) : Prop := c <> "" /\ c <> "." /\ c <> ".." /\ slash_free c.

Lemma components_eq s : components s = fst (split_slash s) :: snd (split_slash s).
Proof. unfold components. by destruct (split_slash s). Qed.

Lemma split_slash_free s : slash_free (fst (split_slash s)) /\ Forall slash_free (snd (split_slash s)).
Proof.
  unfold slash_free. induction s as [|c s [IH1 IH2]]; [by split|]. cbn [split_slash].
  destruct (split_slash s) as [w ws]. cbn [fst snd] in *. case_decide as Hc; cbn [fst snd].
  - split; [done|]. by constructor.
  - split; [|done]. cbn [split_slash]. by rewrite IH1, decide_False.
Qed.

Lemma components_free s : Forall slash_free (components s).
Proof. rewrite components_eq. destruct (split_slash_free s). by constructor. Qed.

Lemma split_slash_app a b :
  split_slash (a +:+ "/" +:+ b) =
  (fst (split_slash a), snd (split_slash a) ++ components b).
Proof.
  induction a as [|c a IH].
  - change ("" +:+ "/" +:+ b) with (String slash b). cbn [split_slash]. rewrite components_eq.
    destruct (split_slash b). by rewrite decide_True.
  - change (String c a +:+ "/" +:+ b) with (String c (a +:+ "/" +:+ b)). cbn [split_slash]. rewrite IH.
    destruct (split_slash a) as [w ws]. cbn [fst snd]. by case_decide.
Qed.

Lemma components_app a b : components (a +:+ "/" +:+ b) = components a ++ components b.
Proof. rewrite !(components_eq (_ +:+ _)), split_slash_app, (components_eq a). done. Qed.

Lemma components_single c : slash_free c -> components c = [c].
Proof. intros Hc. by rewrite components_eq, Hc. Qed.

Lemma concat_cons c d rest : String.concat "/" (c :: d :: rest) = c +:+ "/" +:+ String.concat "/" (d :: rest).
Proof. done. Qed.

(** Joining by slashes is undone by splitting. *)
Lemma components_concat names :
  names <> [] -> Forall slash_free names -> components (String.concat "/" names) = names.
Proof.
  induction names as [|c [|d rest] IH]; intros Hne Hf; [done|..]; apply Forall_cons in Hf as [Hc Hf].
  - by apply components_single.
  - rewrite concat_cons, components_app, components_single by done. by rewrite IH.
Qed.

Lemma concat_inj xs ys :
  xs <> [] -> ys <> [] -> Forall slash_free xs -> Forall slash_free ys ->
  String.concat "/" xs = String.concat "/" ys -> xs = ys.
Proof. intros Hx Hy Hfx Hfy Heq. by rewrite <- (components_concat xs), Heq, components_concat. Qed.

Lemma plain_free c : plain c -> slash_free c.
Proof. by intros (_ & _ & _ & ?). Qed.

(** ** Prefixes *)

Lemma prefix_spec a s : String.prefix a s = true <-> exists t, s = a +:+ t.
Proof.
  revert s. induction a as [|c a IH]; intros s; [split; [by exists s|by destruct s]|].
  destruct s as [|d s]; cbn [String.prefix]; [split; [done|by intros [t [=]]]|].
  destruct (Ascii.ascii_dec c d) as [->|Hc].
  - rewrite IH. split; intros [t Ht]; exists t; [by rewrite Ht|by injection Ht].
  - split; [done|]. by intros [t [= ?]].
Qed.

(** A path followed by a slash is a textual prefix of another exactly when its
    components are a proper prefix of the other's. *)
Lemma prefix_concat xs ys :
  xs <> [] -> ys <> [] -> Forall slash_free xs -> Forall slash_free ys ->
  String.prefix (String.concat "/" xs +:+ "/") (String.concat "/" ys) = true <->
  exists zs, zs <> [] /\ ys = xs ++ zs.
Proof.
  intros Hx Hy Hfx Hfy. rewrite prefix_spec. split.
  - intros [t Ht]. exists (components t). split; [by rewrite components_eq|].
    rewrite str_app_assoc in Ht. apply (f_equal components) in Ht.
    by rewrite components_app, !components_concat in Ht.
  - intros (zs & Hz & ->). exists (String.concat "/" zs). rewrite str_app_assoc.
    apply Forall_app in Hfy as [_ Hfz]. clear Hy.
    induction xs as [|c [|d xs] IH]; [done|..].
    + by destruct zs.
    + cbn [app]. rewrite !concat_cons, !str_app_assoc. do 2 f_equal. apply IH; [done|].
      by apply Forall_cons in Hfx as [_ ?].
Qed.

(** ** Clean *)

(** Upward components, then plain names; a rooted path has no upward ones. *)
Definition Cleaned (root : bool) (l : list string) : Prop :=
  exists k names, l = replicate k ".." ++ names /\ Forall plain names /\ (root = true -> k = 0).

Lemma dotdot_free : slash_free "..". Proof. done. Qed.

Lemma Cleaned_free root l : Cleaned root l -> Forall slash_free l.
Proof.
  intros (k & names & -> & Hp & _). apply Forall_app. split; [by apply Forall_replicate|].
  eapply Forall_impl; [exact Hp|apply plain_free].
Qed.

Lemma Cleaned_nonempty root l : Cleaned root l -> Forall (fun c => c <> "") l.
Proof.
  intros (k & names & -> & Hp & _). apply Forall_app. split; [by apply Forall_replicate|].
  eapply Forall_impl; [exact Hp|]. by intros c (? & _).
Qed.

Lemma clean_stack_shape root parts k names :
  Forall slash_free parts -> Forall plain names -> (root = true -> k = 0) ->
  Cleaned root (clean_stack root (reverse names ++ replicate k "..") parts).
Proof.
  revert k names. induction parts as [|part rest IH]; intros k names Hf Hp Hk; cbn [clean_stack].
  - exists k, names. split; [|done]. by rewrite reverse_app, reverse_involutive, reverse_replicate.
  - apply Forall_cons in Hf as [Hpart Hf]. case_decide as Hskip; [by apply IH|].
    case_decide as Hup.
    + subst part. destruct names as [|c names _] using rev_ind.
      * change (reverse [] ++ replicate k "..") with (replicate k ".."). destruct k as [|k]; cbn [replicate].
        -- destruct root; [by apply (IH 0 [])|]. apply (IH 1 []); done.
        -- rewrite decide_True by done. destruct root; [by discriminate Hk|]. apply (IH (S (S k)) []); done.
      * rewrite reverse_app. cbn [reverse rev_append app].
        apply Forall_app in Hp as [Hp Hc]. apply Forall_singleton in Hc as (_ & _ & Hc & _).
        rewrite decide_False by done. by apply IH.
    + change (part :: reverse names ++ replicate k "..") with ([part] ++ reverse names ++ replicate k "..").
      rewrite app_assoc. change ([part] ++ reverse names) with (part :: reverse names).
      rewrite <- reverse_snoc. apply IH; [done| |done].
      apply Forall_app. split; [done|]. apply Forall_singleton. split_and!; [tauto..|done|done].
Qed.

Lemma clean_components_shape path : Cleaned (rooted path) (clean_components path).
Proof. apply (clean_stack_shape _ _ 0 []); [apply components_free|constructor|done]. Qed.

Lemma clean_stack_names root stack names :
  Forall plain names -> clean_stack root stack names = reverse stack ++ names.
Proof.
  revert stack. induction names as [|c names IH]; intros stack Hp; cbn [clean_stack]; [by rewrite app_nil_r|].
  apply Forall_cons in Hp as [(H1 & H2 & H3 & _) Hp]. rewrite !decide_False by tauto.
  rewrite IH by done. by rewrite reverse_cons, <- app_assoc.
Qed.

Lemma clean_stack_ups j k names :
  Forall plain names ->
  clean_stack false (replicate j "..") (replicate k ".." ++ names) = replicate (j + k) ".." ++ names.
Proof.
  intros Hp. revert j. induction k as [|k IH]; intros j; cbn [replicate app].
  - rewrite clean_stack_names by done. by rewrite reverse_replicate, Nat.add_0_r.
  - cbn [clean_stack]. rewrite decide_False by (by intros []). rewrite decide_True by done.
    specialize (IH (S j)). cbn [replicate] in IH. replace (j + S k) with (S j + k) by lia.
    destruct j as [|j]; cbn [replicate] in *; [exact IH|]. by rewrite decide_True.
Qed.

Lemma clean_stack_Cleaned root l : Cleaned root l -> clean_stack root [] l = l.
Proof.
  intros (k & names & -> & Hp & Hk). destruct root.
  - rewrite Hk by done. by rewrite clean_stack_names.
  - by apply (clean_stack_ups 0).
Qed.

Lemma concat_nonempty l : Forall (fun c => c <> "") l -> l <> [] -> String.concat "/" l <> "".
Proof.
  destruct l as [|c [|d l]]; [done|..]; intros Hf _; apply Forall_cons in Hf as [Hc Hf].
  - done.
  - rewrite concat_cons. by destruct c.
Qed.

Lemma rooted_app c s : slash_free c -> c <> "" -> rooted (c +:+ s) = false.
Proof.
  unfold slash_free. destruct c as [|x c]; [done|]. intros Hs _. cbn in *. destruct (split_slash c).
  apply bool_decide_eq_false. intros ->. by rewrite decide_True in Hs.
Qed.

Lemma rooted_concat l :
  Forall slash_free l -> Forall (fun c => c <> "") l -> l <> [] -> rooted (String.concat "/" l) = false.
Proof.
  destruct l as [|c [|d l]]; [done|..]; intros Hf Hn _;
    apply Forall_cons in Hf as [Hc Hf]; apply Forall_cons in Hn as [Hcn Hn].
  - rewrite <- (str_app_nil c). by apply rooted_app.
  - rewrite concat_cons. by apply rooted_app.
Qed.

(** The text of a relative clean path. *)
Lemma Clean_relative path :
  rooted path = false ->
  filepath_Clean path = (if decide (clean_components path = []) then "." else String.concat "/" (clean_components path)).
Proof.
  intros Hr. unfold filepath_Clean. rewrite Hr.
  destruct (decide (clean_components path = [])) as [Hd|Hd]; [by rewrite Hd|]. cbv zeta. rewrite decide_False; [done|]. apply concat_nonempty; [|done]. eapply Cleaned_nonempty, clean_components_shape.
Qed.

(** Cleaning is idempotent on relative paths. *)
Lemma Clean_idempotent path :
  rooted path = false ->
  rooted (filepath_Clean path) = false /\ clean_components (filepath_Clean path) = clean_components path.
Proof.
  intros Hr. pose proof (clean_components_shape path) as Hs. rewrite Clean_relative by done.
  case_decide as Hd; [by rewrite Hd|]. pose proof (Cleaned_free _ _ Hs) as Hf.
  assert (rooted (String.concat "/" (clean_components path)) = false) as Hr'.
  { apply rooted_concat; [done|by eapply Cleaned_nonempty|done]. }
  split; [done|]. unfold clean_components at 1. rewrite Hr', components_concat by done.
  apply clean_stack_Cleaned. by rewrite Hr in Hs.
Qed.
