(* ===== verification/PolicyTheorems.v ===== *)
(** * What the policy guarantees

    Normalised paths stay inside the repository, textual prefix tests are containment
    of directories, no symbolic link leads out, and a request is allowed only by a rule
    that grants all of it and only with its audit record written. *)
From stdpp Require Import sorting.
From S2P Require Import Prelude Sha256 GoLib Regexp Policy Effect AuditLog PathFacts.

(** ** Normal paths *)

(** The first component, up to case, of a protected directory. *)
Definition protected (first : string) : bool := EqualFold first ".git" || EqualFold first ".agentdock".

(** The directories of a repository path: none for the root itself. *)
Definition directories (path : string) : list string := clean_components path.

(** The textual test for a path that leads upwards. *)
Definition upward (clean : string) : bool := bool_decide (clean = "..") || HasPrefix clean "../".

Lemma upward_text k names :
  Forall plain names -> replicate k ".." ++ names <> [] ->
  upward (String.concat "/" (replicate k ".." ++ names)) = true <-> k <> 0.
Proof.
  intros Hp Hne. set (l := replicate k ".." ++ names) in *.
  assert (Forall slash_free l) as Hf by (apply (Cleaned_free false); by exists k, names).
  assert (Forall slash_free [".."]) as Hd by by apply Forall_singleton.
  unfold upward. rewrite orb_true_iff, bool_decide_eq_true, (prefix_concat [".."] l) by done.
  assert (forall zs, l = ".." :: zs -> k <> 0) as Hk.
  { intros zs Hl ->. subst l. cbn in Hl. subst names. by apply Forall_cons in Hp as [(_ & _ & [] & _) _]. }
  split.
  - intros [Heq|(zs & _ & Hl)]; [|by eapply Hk]. apply (Hk []). by apply (concat_inj l [".."]).
  - intros Hk0. destruct k as [|k]; [done|]. subst l. cbn [replicate app] in *.
    destruct (replicate k ".." ++ names) as [|c rest]; [by left|right]. by exists (c :: rest).
Qed.

(** What a path must satisfy to be normalised. *)
Definition Normal (p : string) : Prop :=
  p <> "" /\ rooted p = false /\ existsb (Z.eqb 0) (bytes_of p) = false /\
  Forall plain (directories p) /\ protected (fst (split_slash (filepath_Clean p))) = false.

Lemma Cleaned_plain l : Cleaned false l -> Forall plain l \/ exists k names, k <> 0 /\ l = replicate k ".." ++ names /\ Forall plain names.
Proof.
  intros ([|k] & names & -> & Hp & _); [by left|right]. by exists (S k), names.
Qed.

Lemma upward_clean p :
  rooted p = false -> upward (filepath_Clean p) = false <-> Forall plain (directories p).
Proof.
  intros Hr. pose proof (clean_components_shape p) as Hs. rewrite Hr in Hs.
  rewrite Clean_relative by done. unfold directories. case_decide as Hd.
  - rewrite Hd. split; [by constructor|done].
  - destruct (Cleaned_plain _ Hs) as [Hp|(k & names & Hk & Hl & Hp)].
    + split; [done|intros _]. apply not_true_iff_false. intros Hu.
      by apply (upward_text 0 (clean_components p) Hp Hd) in Hu.
    + rewrite Hl in *. split.
      * intros Hu. apply not_true_iff_false in Hu. exfalso. apply Hu. by apply upward_text.
      * intros Hall. destruct k as [|k]; [done|]. by apply Forall_cons in Hall as [(_ & _ & [] & _) _].
Qed.

Lemma normalize_spec p q : normalizeLogicalPath p = Ok q <-> Normal p /\ q = filepath_Clean p.
Proof.
  unfold normalizeLogicalPath, Normal, protected. fold (upward (filepath_Clean p)).
  case_bool_decide as He; [by split; [|intros [[]]]|].
  destruct (rooted p) eqn:Hr; [by split; [|intros [(_ & [=] & _) _]]|].
  destruct (existsb _ _); [by split; [|intros [(_ & _ & [=] & _) _]]|]. cbn [orb].
  pose proof (upward_clean p Hr) as Hu. destruct (upward (filepath_Clean p)).
  - split; [done|]. intros [(_ & _ & _ & Hp & _) _]. by apply Hu in Hp.
  - destruct (EqualFold _ _ || _); [by split; [|intros [(_ & _ & _ & _ & [=]) _]]|].
    split; [intros [= <-]; split; [|done]; split_and!; [done..|by apply Hu|done]|by intros [_ ->]].
Qed.

Lemma plain_directories p : Forall plain (directories p) -> rooted p = false ->
  directories p = [] /\ filepath_Clean p = "." \/
  directories p <> [] /\ filepath_Clean p = String.concat "/" (directories p).
Proof.
  intros Hp Hr. rewrite Clean_relative by done. unfold directories. case_decide; [by left|by right].
Qed.

(** *** Normalising twice *)

Definition nul_free (s : string) : Prop := existsb (Z.eqb 0) (bytes_of s) = false.

Lemma nul_free_app a b : nul_free (a +:+ b) <-> nul_free a /\ nul_free b.
Proof.
  unfold nul_free. induction a as [|c a IH]; [by split; [|intros []]|].
  change (bytes_of (String c a +:+ b)) with (Z.of_N (Ascii.N_of_ascii c) :: bytes_of (a +:+ b)).
  change (bytes_of (String c a)) with (Z.of_N (Ascii.N_of_ascii c) :: bytes_of a). cbn [existsb].
  rewrite !orb_false_iff, IH. tauto.
Qed.

Lemma nul_free_split s :
  nul_free s -> nul_free (fst (split_slash s)) /\ Forall nul_free (snd (split_slash s)).
Proof.
  induction s as [|c s IH]; [by split|]. change (String c s) with (String c "" +:+ s).
  rewrite nul_free_app. intros [Hc Hs]. change (String c "" +:+ s) with (String c s). cbn [split_slash].
  destruct (IH Hs) as [H1 H2]. destruct (split_slash s) as [w ws]. cbn [fst snd] in *. case_decide; cbn [fst snd].
  - split; [done|]. by constructor.
  - split; [|done]. change (String c w) with (String c "" +:+ w). by apply nul_free_app.
Qed.

Lemma nul_free_components s : nul_free s -> Forall nul_free (components s).
Proof. intros Hs. rewrite components_eq. destruct (nul_free_split s Hs). by constructor. Qed.

Lemma clean_stack_sub (P : string -> Prop) root stack parts :
  P ".." -> Forall P stack -> Forall P parts -> Forall P (clean_stack root stack parts).
Proof.
  intros Hd. revert stack. induction parts as [|part rest IH]; intros stack Hs Hp; cbn [clean_stack].
  - by apply Forall_reverse.
  - apply Forall_cons in Hp as [Hp Hr]. case_decide; [by apply IH|]. case_decide as Hu; [|by apply IH; [constructor|]].
    subst part. destruct stack as [|top below].
    + destruct root; apply IH; try done; by repeat constructor.
    + apply Forall_cons in Hs as [Ht Hb]. case_decide; apply IH; try done. by repeat constructor.
Qed.

Lemma nul_free_concat l : Forall nul_free l -> nul_free (String.concat "/" l).
Proof.
  induction l as [|c [|d l] IH]; [done|..]; intros Hf; apply Forall_cons in Hf as [Hc Hf]; [done|].
  rewrite concat_cons. apply nul_free_app. split; [done|]. apply nul_free_app. split; [done|]. by apply IH.
Qed.

Lemma Normal_clean p : Normal p -> Normal (filepath_Clean p).
Proof.
  intros (Hne & Hr & Hn & Hp & Hx). destruct (Clean_idempotent p Hr) as [Hr' Hc].
  assert (directories (filepath_Clean p) = directories p) as Hd by exact Hc.
  assert (nul_free (filepath_Clean p)) as Hn'.
  { rewrite Clean_relative by done. case_decide; [done|]. apply nul_free_concat, clean_stack_sub; [done|constructor|].
    by apply nul_free_components. }
  assert (filepath_Clean (filepath_Clean p) = filepath_Clean p) as Hcc.
  { rewrite (Clean_relative (filepath_Clean p)), Hc by done. by rewrite (Clean_relative p). }
  split_and!; [|done|done|by rewrite Hd|by rewrite Hcc].
  destruct (plain_directories p Hp Hr) as [[_ ->]|[Hne' ->]]; [done|]. apply concat_nonempty; [|done].
  eapply Forall_impl; [exact Hp|]. by intros c (? & _).
Qed.

(** normalisation accepts exactly the relative paths that, cleaned lexically, lead
    to a place below the repository - every component a plain name, none of them
    upwards - and not into a directory named like [.git] or [.agentdock] in any case.
    Its result is the cleaned path, and is itself normal. *)
Theorem normalized_paths_stay_inside p :
  ((exists q, normalizeLogicalPath p = Ok q) <->
   p <> "" /\ rooted p = false /\ nul_free p /\ Forall plain (directories p) /\
   protected (fst (split_slash (filepath_Clean p))) = false) /\
  forall q, normalizeLogicalPath p = Ok q ->
    q = filepath_Clean p /\ directories q = directories p /\ normalizeLogicalPath q = Ok q.
Proof.
  split.
  - split; [by intros (q & [Hn _]%normalize_spec)|]. intros Hn. exists (filepath_Clean p). by apply normalize_spec.
  - intros q [Hn ->]%normalize_spec. split; [done|]. split; [by apply Clean_idempotent, Hn|].
    pose proof (Normal_clean p Hn) as Hn'. apply normalize_spec. split; [done|].
    destruct Hn as (_ & Hr & _). destruct (Clean_idempotent p Hr) as [Hr' Hc].
    rewrite (Clean_relative (filepath_Clean p)), Hc by done. by rewrite (Clean_relative p).
Qed.

(** *** Prefixes of directories *)

Lemma plain_frees l : Forall plain l -> Forall slash_free l.
Proof. intros Hp. eapply Forall_impl; [exact Hp|apply plain_free]. Qed.

Lemma not_dot l : Forall plain l -> l <> [] -> String.concat "/" l <> ".".
Proof.
  intros Hp Hne Heq. assert (l = ["."]) as ->.
  { apply concat_inj; [done|done|by apply plain_frees|by apply Forall_singleton|done]. }
  by apply Forall_cons in Hp as [(_ & [] & _) _].
Qed.

Lemma underPrefix_spec p prefix :
  Normal p -> underPrefix (filepath_Clean p) prefix = true <->
  Normal prefix /\ directories prefix `prefix_of` directories p.
Proof.
  intros (_ & Hr & _ & Hp & _). unfold underPrefix.
  destruct (normalizeLogicalPath prefix) as [pf|e] eqn:Hpf.
  2:{ split; [done|]. intros [Hn _]. rewrite (proj2 (normalize_spec prefix (filepath_Clean prefix))) in Hpf; done. }
  apply normalize_spec in Hpf as [Hn ->]. pose proof Hn as (_ & Hr' & _ & Hp' & _).
  rewrite orb_true_iff, bool_decide_eq_true.
  destruct (plain_directories prefix Hp' Hr') as [[Hd ->]|[Hd ->]].
  { rewrite Hd. split; [|by intros _; left; left]. intros _. split; [done|]. by exists (directories p). }
  pose proof (not_dot _ Hp' Hd) as Hnd.
  destruct (plain_directories p Hp Hr) as [[He ->]|[He ->]].
  - rewrite He. split.
    + intros [[?|Heq]|Hx]; [done|by destruct Hnd|].
      apply (prefix_concat (directories prefix) ["."]) in Hx as (zs & Hz & Hx); [|done|done|by apply plain_frees|by apply Forall_singleton].
      destruct (directories prefix) as [|c [|d rest]]; [done| |]; [|done]. by destruct zs.
    + intros [_ [zs Hz]]. by destruct (directories prefix).
  - unfold HasPrefix. rewrite prefix_concat by (try done; by apply plain_frees). split.
    + intros [[?|Heq]|(zs & _ & Hz)]; [done| |by split; [|exists zs]].
      split; [done|]. apply concat_inj in Heq as ->; [done|done|done|by apply plain_frees|by apply plain_frees].
    + intros [_ [[|z zs] Hz]]; [left; right; by rewrite Hz, app_nil_r|right]. by exists (z :: zs).
Qed.

(** the textual test of path prefixes is containment of directories: a candidate
    is allowed exactly when it is normal and one of the allowed prefixes is normal and
    its directories are the first directories of the candidate.  So "src" admits
    "src/a" and "./src//a/../b" but neither "srcs" nor "src/../x". *)
Theorem path_containment allowed candidate :
  pathAllowed allowed candidate = true <->
  (exists q, normalizeLogicalPath candidate = Ok q) /\
  exists prefix, prefix ∈ allowed /\ (exists pf, normalizeLogicalPath prefix = Ok pf) /\
    directories prefix `prefix_of` directories candidate.
Proof.
  assert (forall p, (exists q, normalizeLogicalPath p = Ok q) <-> Normal p) as Hex.
  { intros p. split; [by intros (q & [? _]%normalize_spec)|]. intros Hn. exists (filepath_Clean p). by apply normalize_spec. }
  rewrite Hex. unfold pathAllowed. destruct (normalizeLogicalPath candidate) as [q|e] eqn:Hq.
  - apply normalize_spec in Hq as [Hn ->]. rewrite existsb_exists. setoid_rewrite <- list_elem_of_In.
    split.
    + intros (prefix & Hi & Hu). apply underPrefix_spec in Hu as [Hp Hd]; [|done]. split; [done|].
      exists prefix. split; [done|]. by rewrite Hex.
    + intros [_ (prefix & Hi & Hp & Hd)]. exists prefix. split; [done|]. apply underPrefix_spec; [done|]. by apply Hex in Hp.
  - split; [done|]. intros [Hn _]. rewrite (proj2 (normalize_spec candidate (filepath_Clean candidate))) in Hq; done.
Qed.

(** ** The file system *)

Lemma strip_common_spec base target :
  let '(b, t) := strip_common base target in
  (exists p, base = p ++ b /\ target = p ++ t) /\ (b = [] <-> base `prefix_of` target).
Proof.
  revert target. induction base as [|x base IH]; intros [|y target]; cbn [strip_common].
  - split; [by exists []|done].
  - split; [by exists []|]. split; [intros _; apply prefix_nil|done].
  - split; [by exists []|]. split; [done|]. by intros [? [=]].
  - case_decide as Hxy.
    + subst y. specialize (IH target). destruct (strip_common base target) as [b t].
      destruct IH as [(p & -> & ->) Hb]. split; [by exists (x :: p)|]. rewrite Hb.
      split; [apply prefix_cons|]. by intros Hp%prefix_cons_inv_2.
    + split; [by exists []|]. split; [done|]. by intros Hp%prefix_cons_inv_1.
Qed.

Lemma rooted_plain p : rooted p = true -> Forall plain (clean_components p).
Proof.
  intros Hr. destruct (clean_components_shape p) as (k & names & -> & Hp & Hk). by rewrite (Hk Hr).
Qed.

Lemma rooted_Clean p : rooted p = true -> filepath_Clean p = "/" +:+ String.concat "/" (clean_components p).
Proof. intros Hr. unfold filepath_Clean. by rewrite Hr. Qed.

Lemma rooted_Clean_inj p q :
  rooted p = true -> rooted q = true -> filepath_Clean p = filepath_Clean q <-> clean_components p = clean_components q.
Proof.
  intros Hp Hq. rewrite !rooted_Clean by done. split; [|by intros ->]. intros Heq.
  change (String slash (String.concat "/" (clean_components p)) = String slash (String.concat "/" (clean_components q))) in Heq.
  injection Heq as Heq. pose proof (rooted_plain p Hp) as Pp. pose proof (rooted_plain q Hq) as Pq.
  assert (forall l, Forall plain l -> String.concat "/" l = "" -> l = []) as Hnil.
  { intros l Hl Hc. destruct l as [|c l]; [done|]. exfalso. revert Hc. apply concat_nonempty; [|done].
    eapply Forall_impl; [exact Hl|]. by intros ? (? & _). }
  destruct (decide (clean_components p = [])) as [E|E].
  { rewrite E in *. symmetry. by apply Hnil. }
  destruct (decide (clean_components q = [])) as [F|F].
  { rewrite F in *. by apply Hnil. }
  apply concat_inj; [done|done|by apply plain_frees|by apply plain_frees|done].
Qed.

Lemma not_upward (b : list string) (x y : option string) :
  Forall plain b -> match b with ".." :: _ => x | _ => y end = y.
Proof.
  intros Hp. destruct b as [|c b]; [done|]. apply Forall_cons in Hp as [(_ & _ & Hc & _) _].
  repeat case_match; congruence.
Qed.

(** [withinRoot] is containment of directories. *)
Lemma withinRoot_spec root candidate :
  rooted root = true -> rooted candidate = true ->
  withinRoot root candidate = true <-> clean_components root `prefix_of` clean_components candidate.
Proof.
  intros Hr Hc. pose proof (rooted_plain root Hr) as Pr. pose proof (rooted_plain candidate Hc) as Pc.
  unfold withinRoot, filepath_Rel. case_decide as Heq.
  { apply rooted_Clean_inj in Heq; [|done|done]. rewrite Heq. by split. }
  rewrite bool_decide_false by (rewrite Hr, Hc; by intros []).
  pose proof (strip_common_spec (clean_components root) (clean_components candidate)) as Hs.
  destruct (strip_common _ _) as [b t]. destruct Hs as [(p & Eb & Et) Hb]. rewrite <- Hb.
  assert (Forall plain b /\ Forall plain t) as [Pb Pt].
  { rewrite Eb in Pr. rewrite Et in Pc. by apply Forall_app in Pr as [_ ?], Pc as [_ ?]. }
  rewrite not_upward by done.
  assert (replicate (length b) ".." ++ t <> []) as Hne.
  { destruct b; [|done]. cbn. intros ->. apply Heq, rooted_Clean_inj; [done|done|].
    by rewrite Eb, Et. }
  pose proof (upward_text (length b) t Pt Hne) as Hu. unfold upward in Hu.
  assert (rooted (String.concat "/" (replicate (length b) ".." ++ t)) = false) as ->.
  { apply rooted_concat; [| |done]; [apply (Cleaned_free false)|apply (Cleaned_nonempty false)]; by exists (length b), t. }
  rewrite <- andb_assoc, <- negb_orb. cbn [negb andb]. rewrite negb_true_iff, <- not_true_iff_false, Hu.
  destruct b as [|c b]; cbn [length].
  - split; [done|]. intros _ Hx. by apply Hx.
  - split; [|done]. intros Hx. exfalso. by apply Hx.
Qed.

Section walk.
Context `{FileSystem}.

(** What resolving symbolic links means: the result is resolved; a path resolves
    through the resolution of its parent, and only if the parent resolves; and what
    resolves exists, but for the empty path, which resolves and names nothing. *)
Class FileSystemLaws : Prop := {
  resolved_again : forall p q, EvalSymlinks p = Ok q -> EvalSymlinks q = Ok q;
  resolved_rooted : forall p q, EvalSymlinks p = Ok q -> rooted p = true -> rooted q = true;
  resolve_parent : forall p q c, plain c -> EvalSymlinks p = Ok q ->
    EvalSymlinks (filepath_Join [q; c]) = EvalSymlinks (filepath_Join [p; c]);
  parent_resolves : forall p c r, plain c -> EvalSymlinks (filepath_Join [p; c]) = Ok r ->
    exists q, EvalSymlinks p = Ok q;
  resolved_exists : forall p q, p <> "" -> EvalSymlinks p = Ok q -> os_Lstat p <> NotExist
}.

Lemma Clean_nonempty path : filepath_Clean path <> "".
Proof. unfold filepath_Clean. destruct (rooted path); [done|]. by case_decide. Qed.

Lemma Join_nonempty parent c : plain c -> filepath_Join [parent; c] <> "".
Proof.
  intros (Hc & _). cbn [filepath_Join]. case_decide; [apply Clean_nonempty|]. rewrite decide_True by done. apply Clean_nonempty.
Qed.

(** The path of a directory below another. *)
Definition descend (root : string) (parts : list string) : string :=
  foldl (fun current part => filepath_Join [current; part]) root parts.

Lemma descend_snoc root parts c : descend root (parts ++ [c]) = filepath_Join [descend root parts; c].
Proof. unfold descend. by rewrite foldl_app. Qed.

Context `{!FileSystemLaws}.

Lemma ancestor_resolves root pre parts r :
  Forall plain parts -> EvalSymlinks (descend root (pre ++ parts)) = Ok r ->
  exists q, EvalSymlinks (descend root pre) = Ok q.
Proof.
  revert r. induction parts as [|c parts IH] using rev_ind; intros r Hp Hr; [rewrite app_nil_r in Hr; eauto|].
  apply Forall_app in Hp as [Hp Hc]. apply (proj1 (Forall_singleton _ _)) in Hc.
  rewrite app_assoc, descend_snoc in Hr. destruct (parent_resolves _ _ _ Hc Hr) as [q Hq]. by apply (IH q).
Qed.

Lemma walkParts_inside root current pre parts k r :
  Forall plain parts -> EvalSymlinks (descend root pre) = Ok current -> withinRoot root current = true ->
  walkParts root current parts = Ok tt ->
  EvalSymlinks (descend root (pre ++ take k parts)) = Ok r -> withinRoot root r = true.
Proof.
  revert current pre k. induction parts as [|c parts IH]; intros current pre k Hp He Hw Hwalk Hr.
  - rewrite take_nil, app_nil_r, He in Hr. by injection Hr as <-.
  - destruct k as [|k]; [cbn [take] in Hr; rewrite app_nil_r, He in Hr; by injection Hr as <-|].
    apply Forall_cons in Hp as [Hc Hp]. cbn [take] in Hr.
    replace (pre ++ c :: take k parts) with ((pre ++ [c]) ++ take k parts) in Hr by by rewrite <- app_assoc.
    destruct (ancestor_resolves _ _ _ _ (Forall_take _ _ _ Hp) Hr) as [q Hq].
    cbn [walkParts] in Hwalk. rewrite decide_False in Hwalk by (destruct Hc as (? & ? & _); tauto).
    pose proof Hq as Hq'. rewrite descend_snoc, <- (resolve_parent _ current) in Hq' by done.
    pose proof (resolved_exists _ _ (Join_nonempty _ _ Hc) Hq') as Hx. destruct (os_Lstat _); [|done|done].
    rewrite Hq' in Hwalk. cbn [unsafe mbind result_bind] in Hwalk.
    destruct (withinRoot root q) eqn:Hwq; [|done]. by apply (IH q (pre ++ [c]) k).
Qed.

(** C12: a normalised path cannot leave the repository through a symbolic link: when
    [NormalizePath] succeeds, the path and every directory on the way to it, as far
    as they resolve at all, resolve to places inside the resolved root. *)
Theorem no_symlink_escape root candidate logical :
  rooted root = true ->
  NormalizePath root candidate = Ok logical ->
  exists canonicalRoot, EvalSymlinks (filepath_Clean root) = Ok canonicalRoot /\
    forall k r, EvalSymlinks (descend canonicalRoot (take k (directories candidate))) = Ok r ->
      rooted r = true -> clean_components canonicalRoot `prefix_of` clean_components r.
Proof.
  intros Hroot Hok. unfold NormalizePath, filepath_Abs in Hok. rewrite Hroot in Hok.
  apply bind_Ok in Hok as (l & Hn & Hok). apply bind_Ok in Hok as (absolute & [= <-] & Hok).
  apply bind_Ok in Hok as (canonicalRoot & He & Hok). apply bind_Ok in Hok as ([] & Hwalk & _).
  unfold unsafe in He. destruct (EvalSymlinks (filepath_Clean root)) as [c|] eqn:He0; [|done].
  injection He as ->. rename He0 into He. exists canonicalRoot. split; [done|].
  apply normalize_spec in Hn as [(_ & Hr & _ & Hp & _) ->].
  assert (rooted canonicalRoot = true) as Hrc.
  { apply (resolved_rooted _ _ He). unfold filepath_Clean. by rewrite Hroot. }
  assert (withinRoot canonicalRoot canonicalRoot = true) as Hw by by apply withinRoot_spec.
  pose proof (resolved_again _ _ He) as He'.
  intros k r Hk Hrr. apply withinRoot_spec; [done|done|].
  destruct (plain_directories candidate Hp Hr) as [[Hd Hc]|[Hd Hc]].
  - rewrite Hd, take_nil in Hk. cbn in Hk. rewrite He' in Hk. by injection Hk as <-.
  - rewrite Hc, components_concat in Hwalk; [|done|by apply plain_frees].
    by apply (walkParts_inside canonicalRoot canonicalRoot [] (directories candidate) k r).
Qed.
End walk.

(** ** Decisions *)

(** [Permits config request rule]: the rule grants everything the request asks for. *)
Record Permits (config : Config) (request : PolicyRequest) (rule : Rule) : Prop := {
  pm_rule : rule ∈ cf_Rules config;
  pm_tool : rl_Tool rule = pr_ToolName request;
  pm_capability : rl_Capability rule = pr_Capability request;
  pm_readonly : rl_ReadOnly rule = pr_ReadOnly request;
  pm_network : pr_Network request = true -> rl_Network rule = true;
  pm_timeout : (0 < pr_Timeout request <= rl_MaxTimeout rule)%Z;
  pm_output : (0 < pr_OutputLimit request <= rl_MaxOutputBytes rule)%Z;
  pm_some_path : pr_Paths request <> [];
  pm_paths : forall p, p ∈ pr_Paths request -> pathAllowed (rl_Paths rule) p = true;
  pm_environment : forall key, is_Some (pr_Environment request !! key) -> key ∈ cf_Environment config
}.

Lemma environmentAllowed_spec environment allowed :
  environmentAllowed environment allowed = true <-> forall key, is_Some (environment !! key) -> key ∈ allowed.
Proof.
  unfold environmentAllowed. rewrite forallb_forall. setoid_rewrite <- list_elem_of_In. split.
  - intros Ha key [value Hk]. apply elem_of_map_to_list, Ha, bool_decide_eq_true in Hk.
    by apply elem_of_list_to_set in Hk.
  - intros Ha [key value] Hk%elem_of_map_to_list. apply bool_decide_eq_true, elem_of_list_to_set, Ha. by exists value.
Qed.

Lemma PathsAllowed_spec paths allowed :
  PathsAllowed paths allowed = true <-> paths <> [] /\ forall p, p ∈ paths -> pathAllowed allowed p = true.
Proof.
  unfold PathsAllowed. rewrite andb_true_iff, negb_true_iff, bool_decide_eq_false, forallb_forall.
  by setoid_rewrite <- list_elem_of_In.
Qed.

Lemma refusal_spec config request rule :
  rule ∈ cf_Rules config -> rl_Tool rule = pr_ToolName request ->
  refusal (cf_Environment config) rule request = None <-> Permits config request rule.
Proof.
  intros Hi Ht. unfold refusal. split.
  - repeat (case_decide; [done|]). destruct (pr_Network request && negb (rl_Network rule)) eqn:Hn; [done|].
    repeat (case_decide; [done|]). destruct (PathsAllowed _ _) eqn:Hp; [|done].
    destruct (environmentAllowed _ _) eqn:He; [|done]. intros _.
    apply PathsAllowed_spec in Hp as [Hp1 Hp2]. pose proof (proj1 (environmentAllowed_spec _ _) He).
    simp_not. split; try done; [|lia|lia]. intros Hnet. rewrite Hnet in Hn. by destruct (rl_Network rule).
  - intros []. rewrite !decide_False by tauto.
    assert (pr_Network request && negb (rl_Network rule) = false) as ->.
    { destruct (pr_Network request); [|done]. by rewrite pm_network0. }
    rewrite !decide_False by lia. rewrite (proj2 (PathsAllowed_spec _ _)) by done.
    by rewrite (proj2 (environmentAllowed_spec _ _)).
Qed.

Lemma ruleLoop_spec environment request reason matched rules :
  ruleLoop environment request reason matched rules = None <->
  exists rule, rule ∈ rules /\ rl_Tool rule = pr_ToolName request /\ refusal environment rule request = None.
Proof.
  revert reason matched. induction rules as [|rule rest IH]; intros reason matched; cbn [ruleLoop].
  - split; [done|]. by intros (? & ?%elem_of_nil & _).
  - setoid_rewrite elem_of_cons. case_decide as Ht.
    + rewrite IH. split; [intros (r & ? & ? & ?); eauto|]. intros (r & [->|?] & ? & ?); [done|eauto].
    + destruct (refusal environment rule request) eqn:Hr; [|split; [|done]; eauto].
      rewrite IH. split; [intros (r' & ? & ? & ?); eauto|]. intros (r' & [->|?] & ? & ?); [congruence|eauto].
Qed.

(** A request is permitted by some rule, or the loop gives a reason. *)
Lemma ruleLoop_permits config request reason matched :
  ruleLoop (cf_Environment config) request reason matched (cf_Rules config) = None <->
  exists rule, Permits config request rule.
Proof.
  rewrite ruleLoop_spec. split; intros (rule & Hr).
  - destruct Hr as (Hi & Ht & Hn). exists rule. by apply refusal_spec.
  - pose proof Hr as []. exists rule. split; [done|]. split; [done|]. by apply refusal_spec.
Qed.

#[export] Instance permitted_dec config request : Decision (exists rule, Permits config request rule).
Proof.
  destruct (ruleLoop (cf_Environment config) request "" false (cf_Rules config)) eqn:Hl; [right|left].
  - intros Hp. by rewrite (proj2 (ruleLoop_permits config request "" false) Hp) in Hl.
  - by apply (ruleLoop_permits config request "" false).
Defined.

Section decisions.
Context {W : Type}.

(** The audit of a decision. *)
Definition decisionAudit (engine : Engine W) (request : PolicyRequest) (kind reason : string) : M W unit :=
  RecordBounded (en_audit engine) (auditEventForRequest kind (cf_Version (en_config engine)) request reason).

Definition permission (engine : Engine W) (request : PolicyRequest) : M W unit :=
  decisionAudit engine request AuditPolicyAllowed "".

Lemma DecidePolicy_permitted (engine : Engine W) request w :
  (exists rule, Permits (en_config engine) request rule) ->
  DecidePolicy engine request w =
    (Ok match fst (permission engine request w) with
        | Ok _ => MkDecision true None | Err _ => MkDecision false (Some (Sentinel ErrDenied)) end,
     snd (permission engine request w)).
Proof.
  intros Hp. unfold DecidePolicy. rewrite (proj2 (ruleLoop_permits _ _ _ _) Hp).
  unfold permission, decisionAudit, mbind, M_bind, try, RecordBounded.
  by destruct (en_audit _ _ _ _) as [[[]|e] w'].
Qed.

Lemma DecidePolicy_refused (engine : Engine W) request w :
  ~ (exists rule, Permits (en_config engine) request rule) ->
  exists reason, DecidePolicy engine request w =
    (Ok (MkDecision false (Some (Sentinel ErrDenied))), snd (decisionAudit engine request AuditPolicyDenied reason w)).
Proof.
  intros Hn. unfold DecidePolicy.
  pose proof (ruleLoop_permits (en_config engine) request "no matching allow rule" false) as Hl.
  destruct (ruleLoop _ _ _ _ _) as [[reason matched]|]; [|by destruct Hn; apply Hl].
  exists (if matched then reason else "no matching allow rule").
  unfold decisionAudit, mbind, M_bind, try, RecordBounded. by destruct (en_audit _ _ _ _) as [[[]|e] w'].
Qed.

(** C13: the policy denies by default.  [Decide] always answers; it allows exactly
    when some rule permits the whole request and the audit record of the permission
    was written; otherwise its error is [ErrDenied].  Either way the recorder is called
    once, with the matching kind, and nothing else happens. *)
Theorem policy_denies_by_default (engine : Engine W) request w :
  let permitted := exists rule, Permits (en_config engine) request rule in
  let granted := decisionAudit engine request AuditPolicyAllowed "" w in
  exists d w', DecidePolicy engine request w = (Ok d, w') /\
    (dec_Allowed d = true <-> permitted /\ fst granted = Ok tt) /\
    dec_Err d = (if dec_Allowed d then None else Some (Sentinel ErrDenied)) /\
    (permitted /\ w' = snd granted \/
     ~ permitted /\ exists reason, w' = snd (decisionAudit engine request AuditPolicyDenied reason w)).
Proof.
  intros permitted granted. destruct (decide permitted) as [Hp|Hn].
  - rewrite (DecidePolicy_permitted engine request w Hp). change (permission engine request w) with granted.
    eexists _, _. split; [done|].
    destruct (fst granted) as [[]|e]; cbn; (split; [|split; [done|by left]]).
    + done.
    + split; [done|]. by intros [_ ?].
  - destruct (DecidePolicy_refused engine request w Hn) as [reason ->]. eexists _, _. split; [done|].
    cbn. split; [by split; [|intros [? _]]|]. split; [done|]. right. eauto.
Qed.
End decisions.

(** ** Environment values *)

#[export] Instance string_le_trans : Transitive string_le.
Proof.
  intros a b c. unfold string_le, String.leb. revert b c. induction a as [|x a IH]; intros [|y b] [|z c]; cbn; try done.
  unfold Ascii.compare. intros Hab Hbc.
  destruct (N.compare_spec (Ascii.N_of_ascii x) (Ascii.N_of_ascii y)) as [Exy|Lxy|Gxy]; [| |done];
    destruct (N.compare_spec (Ascii.N_of_ascii y) (Ascii.N_of_ascii z)) as [Eyz|Lyz|Gyz]; try done.
  - rewrite Exy, Eyz, N.compare_refl. by apply (IH b).
  - rewrite Exy. by rewrite (proj2 (N.compare_lt_iff _ _)).
  - rewrite <- Eyz. by rewrite (proj2 (N.compare_lt_iff _ _)).
  - rewrite (proj2 (N.compare_lt_iff _ _)) by (by etrans). done.
Qed.

#[export] Instance string_le_total : Total string_le.
Proof. intros a b. unfold string_le. apply String.leb_total. Qed.

#[export] Instance string_le_antisymm : AntiSymm eq string_le.
Proof. intros a b. apply String.leb_antisym. Qed.

Lemma sorted_keys_dom {A} (m m' : gmap string A) :
  (forall key, is_Some (m !! key) <-> is_Some (m' !! key)) -> sorted_keys m = sorted_keys m'.
Proof.
  intros Hd. unfold sorted_keys, sort_Strings.
  apply (StronglySorted_unique string_le); [apply (StronglySorted_merge_sort string_le)..|].
  rewrite !merge_sort_Permutation. apply NoDup_Permutation; [apply NoDup_fst_map_to_list..|].
  assert (forall (n : gmap string A) key, key ∈ map fst (map_to_list n) <-> is_Some (n !! key)) as Hk.
  { intros n key. split.
    - intros ([k v] & -> & Hi)%list_elem_of_fmap. exists v. by apply elem_of_map_to_list.
    - intros [v Hv]. apply list_elem_of_fmap. exists (key, v). split; [done|]. by apply elem_of_map_to_list. }
  intros key. by rewrite !Hk.
Qed.

Lemma environmentAllowed_dom m m' allowed :
  (forall key, is_Some (m !! key) <-> is_Some (m' !! key)) -> environmentAllowed m allowed = environmentAllowed m' allowed.
Proof.
  intros Hd. apply eq_iff_eq_true. rewrite !environmentAllowed_spec.
  split; intros Ha key Hk; by apply Ha, Hd.
Qed.

(** environment values are never looked at: a decision and all that it records are
    the same for two requests that differ only in the values of the environment
    variables, whatever the recorder does. *)
Theorem audit_omits_environment_values {W} (engine : Engine W) request environment w :
  (forall key, is_Some (environment !! key) <-> is_Some (pr_Environment request !! key)) ->
  DecidePolicy engine (MkPolicyRequest (pr_RunID request) (pr_AttemptID request) (pr_ToolName request)
    (pr_ContractVersion request) (pr_Capability request) (pr_ReadOnly request) (pr_Paths request)
    (pr_Network request) (pr_Timeout request) (pr_OutputLimit request) environment) w =
  DecidePolicy engine request w.
Proof.
  intros Hd. set (other := MkPolicyRequest _ _ _ _ _ _ _ _ _ _ _).
  assert (forall kind version reason,
    auditEventForRequest kind version other reason = auditEventForRequest kind version request reason) as Ha.
  { intros. unfold auditEventForRequest. cbn [pr_Environment other]. by rewrite (sorted_keys_dom _ _ Hd). }
  assert (forall allow reason matched rules,
    ruleLoop allow other reason matched rules = ruleLoop allow request reason matched rules) as Hl.
  { intros allow reason matched rules. revert reason matched. induction rules as [|rule rest IH]; intros; [done|].
    cbn [ruleLoop]. assert (refusal allow rule other = refusal allow rule request) as ->.
    { unfold refusal. cbn [pr_Environment other]. by rewrite (environmentAllowed_dom _ _ _ Hd). }
    rewrite IH. by destruct (refusal allow rule request); rewrite ?IH. }
  unfold DecidePolicy. rewrite Hl. destruct (ruleLoop _ _ _ _ _) as [[reason matched]|]; by rewrite Ha.
Qed.

(** ** Parsed configurations *)

Lemma parseRule_Ok candidate rule :
  parseRule candidate = Ok rule ->
  rl_Tool rule <> "" /\ rl_Capability rule <> "" /\ rl_Paths rule <> [] /\
  (0 < rl_MaxTimeout rule < 2 ^ 63)%Z /\ (0 < rl_MaxOutputBytes rule)%Z.
Proof.
  unfold parseRule. destruct (ParseDuration _) as [timeout|] eqn:Hd; [|done].
  apply ParseDuration_bounds in Hd. destruct (timeout <=? 0)%Z eqn:Ht; [done|]. apply Z.leb_gt in Ht.
  case_decide; [done|]. intros [= <-]. simp_not. cbn. split_and!; try done; lia.
Qed.

Lemma parseRules_Ok candidates rules :
  parseRules candidates = Ok rules -> forall rule, rule ∈ rules -> exists candidate, parseRule candidate = Ok rule.
Proof.
  revert rules. induction candidates as [|candidate rest IH]; intros rules; cbn [parseRules].
  - intros [= <-] ? Hi. by apply elem_of_nil in Hi.
  - intros (rule & Hr & (rules' & Hrs & [= <-])%bind_Ok)%bind_Ok r [->|Hi]%elem_of_cons; [eauto|by apply (IH rules')].
Qed.

(** an accepted policy denies by default and is complete: it has a version, and
    every rule names a tool, a capability and at least one path, and bounds the time by
    a positive number of nanoseconds of 63 bits and the output by a positive size.  So
    every request it permits is bounded by them. *)
Theorem parsed_policy_is_bounded `{YAML} content config :
  Parse content = Ok config ->
  cf_Version config <> "" /\ cf_Default config = "deny" /\
  (forall rule, rule ∈ cf_Rules config ->
     rl_Tool rule <> "" /\ rl_Capability rule <> "" /\ rl_Paths rule <> [] /\
     (0 < rl_MaxTimeout rule < 2 ^ 63)%Z /\ (0 < rl_MaxOutputBytes rule)%Z) /\
  forall request rule, Permits config request rule ->
    (0 < pr_Timeout request < 2 ^ 63)%Z /\ (0 < pr_OutputLimit request <= rl_MaxOutputBytes rule)%Z.
Proof.
  unfold Parse. intros (raw & _ & Hc)%bind_Ok. destruct (decodeNext content); [|done..].
  case_decide as Hv; [done|]. apply bind_Ok in Hc as (rules & Hr & [= <-]). simp_not. cbn.
  assert (forall rule, rule ∈ rules -> rl_Tool rule <> "" /\ rl_Capability rule <> "" /\ rl_Paths rule <> [] /\
     (0 < rl_MaxTimeout rule < 2 ^ 63)%Z /\ (0 < rl_MaxOutputBytes rule)%Z) as Hall.
  { intros rule Hi. destruct (parseRules_Ok _ _ Hr rule Hi) as [candidate Hc]. by apply (parseRule_Ok candidate). }
  split; [done|]. split; [done|]. split; [done|].
  intros request rule HP. pose proof HP as []. destruct (Hall rule) as (_ & _ & _ & ? & ?); [done|]. lia.
Qed.
