(* ===== verification/ToolService.v ===== *)
(** * The tool service: internal/tools/service.go

    One invocation: scope, contract, input, command, paths, policy, sandbox, output,
    audit, in this order. *)
From S2P Require Import Prelude Sha256 GoLib Json Float64 Effect Contract AuditLog Policy Controller.

(** ** The sandbox port: internal/sandbox/sandbox.go *)

Record Scope : Type := MkScope {
  sc_RunID : string;
  sc_AttemptID : string
}.

Record SandboxRequest : Type := MkSandboxRequest {
  sq_Command : list string;
  sq_Stdin : option string;
  sq_Environment : gmap string string;
  sq_Timeout : Z;
  sq_OutputLimit : Z;
  sq_ToolName : string;
  sq_ContractVersion : string
}.

Record SandboxResult : Type := MkSandboxResult {
  sr_Stdout : string;
  sr_Stderr : string;
  sr_ExitCode : Z;
  sr_TimedOut : bool;
  sr_Truncated : bool
}.

(** [Sandbox]: an execution gives a result and, besides, perhaps an error. *)
Record Sandbox (W : Type) : Type := MkSandbox {
  sb_Execute : Context -> SandboxRequest -> W -> (SandboxResult * option error) * W;
  sb_Scope : Scope;
  sb_Workspace : string
}.
Arguments sb_Execute {W}. Arguments sb_Scope {W}. Arguments sb_Workspace {W}. Arguments MkSandbox {W}.

(** ** The service *)

Record Invocation : Type := MkInvocation {
  in_RunID : string;
  in_AttemptID : string;
  in_ToolName : string;
  in_Input : string;
  in_Environment : gmap string string
}.

Record Response : Type := MkResponse {
  rs_Stdout : string;
  rs_Stderr : string;
  rs_ExitCode : Z;
  rs_TimedOut : bool;
  rs_Truncated : bool
}.

Definition emptyResponse : Response := MkResponse "" "" 0 false false.

(** The two results of [Invoke]. *)
Record Reply : Type := MkReply {
  rp_Response : Response;
  rp_Err : option error
}.

(** The fields of [Service], each possibly nil. *)
Record Service (W : Type) : Type := MkService {
  sv_registry : option Registry;
  sv_policy : option (Engine W);
  sv_sandbox : option (Sandbox W);
  sv_audit : option (AuditRecorder W)
}.
Arguments sv_registry {W}. Arguments sv_policy {W}. Arguments sv_sandbox {W}. Arguments sv_audit {W}.
Arguments MkService {W}.

(** [Service.Contracts] *)
Definition ServiceContracts {W} (service : Service W) : result (list Contract) :=
  match sv_registry service with
  | None => Err (Plain "tool service registry is not configured")
  | Some registry =>
      if decide (Contracts registry = []) then Err (Plain "tool service registry has no contracts")
      else Ok (Contracts registry)
  end.

(** ** Commands *)

Definition helper : string := "agentdock-sandbox-helper".

Definition stringField (name : string) (o : object) : option string :=
  match field name o with Some (JString s) => Some (string_of_bytes s) | _ => None end.
Definition floatField (name : string) (o : object) : option float64 :=
  match field name o with Some (JNumber t) => float_of_text t | _ => None end.

Definition schemaError {A} : result A := Err (Sentinel ErrSchemaValidation).

(** [pathValue] *)
Definition pathValue (o : object) : result string :=
  match stringField "path" o with
  | Some value => if decide (value = "") then schemaError else Ok value
  | None => schemaError
  end.

(** Command, standard input and the paths to check. *)
Definition ToolCommand : Type := list string * option string * list string.

Definition readCommand (o : object) : result ToolCommand :=
  path ← pathValue o;
  let command := [helper; "read"; path] in
  match floatField "startLine" o, floatField "endLine" o with
  | None, Some _ => schemaError
  | None, None => Ok (command, None, [path])
  | Some start, None => Ok (command ++ [format_whole start], None, [path])
  | Some start, Some stop =>
      if float_ltb stop start then schemaError
      else Ok (command ++ [format_whole start; format_whole stop], None, [path])
  end.

Definition searchCommand (o : object) : result ToolCommand :=
  path ← pathValue o;
  match stringField "pattern" o with
  | Some pattern =>
      if decide (pattern = "") then schemaError
      else Ok ([helper; "search"; pattern; path], None, [path])
  | None => schemaError
  end.

Definition patchCommand (input : string) (o : object) : result ToolCommand :=
  path ← pathValue o;
  match stringField "old" o, stringField "new" o with
  | Some old, Some new =>
      if bool_decide (old = "") || Contains new old then schemaError
      else Ok ([helper; "apply-patch"], Some input, [path])
  | _, _ => schemaError
  end.

(** [strings.TrimSuffix] *)
Definition TrimSuffix (s suffix : string) : string :=
  let n := String.length s - String.length suffix in
  if (String.length suffix <=? String.length s)%nat &&
     bool_decide (String.substring n (String.length suffix) s = suffix)
  then String.substring 0 n s else s.

Definition packagePath (name : string) : string :=
  let candidate := TrimSuffix name "/..." in if decide (candidate = "") then "." else candidate.

(** The loop over the packages. *)
Fixpoint packagePaths `{FileSystem} (workspace : string) (packages : list json) : result (list string) :=
  match packages with
  | [] => Ok []
  | JString s :: rest =>
      let name := string_of_bytes s in
      if negb (bool_decide (name = ".")) && negb (HasPrefix name "./") || HasPrefix name "-" || rooted name
      then schemaError
      else
        _ ← NormalizePath workspace (packagePath name);
        paths ← packagePaths workspace rest;
        Ok (packagePath name :: paths)
  | _ :: _ => schemaError
  end.

Definition unsafeRun (o : object) : bool :=
  match stringField "run" o with
  | Some run => negb (bool_decide (run = "")) && (HasPrefix run "-" || existsb (Z.eqb 0) (bytes_of run))
  | None => false
  end.

Definition testCommand `{FileSystem} (workspace input : string) (o : object) : result ToolCommand :=
  match field "packages" o with
  | Some (JArray packages) =>
      if bool_decide (packages = []) || unsafeRun o then schemaError
      else
        paths ← packagePaths workspace packages;
        Ok ([helper; "test"], Some input, sort_Strings paths)
  | _ => schemaError
  end.

(** [buildRequest] *)
Definition buildRequest `{FileSystem} (workspace : string) (contract : Contract) (input : string)
    : result ToolCommand :=
  match unmarshal_map input with
  | None => Err (Plain "invalid JSON object")
  | Some o =>
      let name := ct_Name contract in
      if decide (name = "repo.list") then path ← pathValue o; Ok ([helper; "list"; path], None, [path])
      else if decide (name = "repo.read") then readCommand o
      else if decide (name = "repo.search") then searchCommand o
      else if decide (name = "repo.apply_patch") then patchCommand input o
      else if decide (name = "repo.test") then testCommand workspace input o
      else Err (Sentinel ErrUnknownTool)
  end.

(** ** Invocation *)

(** [errors.Join] of an error and the outcome of an audit. *)
Definition joinAudit (e : error) (recorded : result unit) : error :=
  match recorded with Ok _ => Wrap e | Err a => Wrap2 e a end.

(** [json.Marshal] of a response *)
Definition marshalResponse (r : Response) : string :=
  json_object [ json_member "stdout" (json_string (rs_Stdout r));
                json_member "stderr" (json_string (rs_Stderr r));
                json_member "exitCode" (pretty (rs_ExitCode r));
                json_member "timedOut" (json_bool (rs_TimedOut r));
                json_member "truncated" (json_bool (rs_Truncated r)) ].

Section invoke.
Context {W : Type} `{FileSystem} `{ErrorText}.

(** An audited refusal. *)
Definition refuse (audit : AuditRecorder W) (event : AuditEvent) (err : error) : M W Reply :=
  recorded ← try (RecordBounded audit event);
  mret (MkReply emptyResponse (Some (joinAudit err recorded))).

Definition deniedEvent (scope : Scope) (tool version policyVersion reason : string) : AuditEvent :=
  emptyAudit <| au_Kind := AuditPolicyDenied |> <| au_RunID := sc_RunID scope |>
    <| au_AttemptID := sc_AttemptID scope |> <| au_ToolName := tool |>
    <| au_ContractVersion := version |> <| au_PolicyVersion := policyVersion |> <| au_Reason := reason |>.

Definition policyRequest (scope : Scope) (contract : Contract) (paths : list string)
    (environment : gmap string string) : PolicyRequest :=
  MkPolicyRequest (sc_RunID scope) (sc_AttemptID scope) (ct_Name contract) (ct_Version contract)
    (ct_Capability contract) (ct_ReadOnly contract) paths (ct_Network contract) (ct_Timeout contract)
    (ct_OutputLimit contract) environment.

Definition executionEvent (scope : Scope) (contract : Contract) (tool policyVersion : string)
    (paths : list string) (result : SandboxResult) (failed : bool) : AuditEvent :=
  emptyAudit <| au_Kind := if failed then AuditExecutionFailed else AuditExecutionCompleted |>
    <| au_RunID := sc_RunID scope |> <| au_AttemptID := sc_AttemptID scope |> <| au_ToolName := tool |>
    <| au_ContractVersion := ct_Version contract |> <| au_PolicyVersion := policyVersion |>
    <| au_Capability := ct_Capability contract |> <| au_ReadOnly := ct_ReadOnly contract |>
    <| au_AllowedPaths := paths |> <| au_Network := ct_Network contract |>
    <| au_TimeoutMillis := Milliseconds (ct_Timeout contract) |>
    <| au_OutputLimit := ct_OutputLimit contract |> <| au_ExitCode := sr_ExitCode result |>
    <| au_OutputBytes := i64 (Z.of_nat (String.length (sr_Stdout result)) +
                              Z.of_nat (String.length (sr_Stderr result))) |>
    <| au_Reason := if failed then "sandbox execution failed" else "" |>.

Definition responseOf (result : SandboxResult) : Response :=
  MkResponse (sr_Stdout result) (sr_Stderr result) (sr_ExitCode result) (sr_TimedOut result)
    (sr_Truncated result).

Definition sandboxRequest (contract : Contract) (command : list string) (stdin : option string)
    (environment : gmap string string) : SandboxRequest :=
  MkSandboxRequest command stdin environment (ct_Timeout contract) (ct_OutputLimit contract)
    (ct_Name contract) (ct_Version contract).

(** What follows the permission. *)
Definition executeTool (sandbox : Sandbox W) (audit : AuditRecorder W) (policyVersion : string)
    (contract : Contract) (ctx : Context) (invocation : Invocation) (command : list string)
    (stdin : option string) (paths : list string) : M W Reply := fun w =>
  let scope := sb_Scope sandbox in
  let tool := in_ToolName invocation in
  let '((result, executeErr), w1) :=
    sb_Execute sandbox ctx (sandboxRequest contract command stdin (in_Environment invocation)) w in
  let response := responseOf result in
  match ValidateOutput contract (marshalResponse response) with
  | Err e =>
      refuse audit
        ((deniedEvent scope tool (ct_Version contract) policyVersion "output JSON Schema validation failed")
           <| au_Kind := AuditExecutionFailed |>) e w1
  | Ok _ =>
      let failed := bool_decide (is_Some executeErr) in
      (recorded ← try (RecordBounded audit
                         (executionEvent scope contract tool policyVersion paths result failed));
       mret match recorded with
            | Ok _ => MkReply response executeErr
            | Err a => MkReply response (Some match executeErr with
                                              | Some e => Wrap2 e (Wrap a) | None => Wrap (Wrap a) end)
            end) w1
  end.

(** The first path that does not normalise inside the workspace. *)
Fixpoint checkPaths (workspace : string) (paths : list string) : result unit :=
  match paths with
  | [] => Ok tt
  | candidate :: rest => _ ← NormalizePath workspace candidate; checkPaths workspace rest
  end.

(** The body for a matching scope and a registered tool. *)
Definition invokeContract (engine : Engine W) (sandbox : Sandbox W) (audit : AuditRecorder W)
    (contract : Contract) (ctx : Context) (invocation : Invocation) : M W Reply :=
  let scope := sb_Scope sandbox in
  let policyVersion := Version engine in
  let denied := deniedEvent scope (in_ToolName invocation) (ct_Version contract) policyVersion in
  match ValidateInput contract (in_Input invocation) with
  | Err e => refuse audit (denied "input JSON Schema validation failed") e
  | Ok _ =>
      match buildRequest (sb_Workspace sandbox) contract (in_Input invocation) with
      | Err e => refuse audit (denied (Error e)) e
      | Ok (command, stdin, paths) =>
          match checkPaths (sb_Workspace sandbox) paths with
          | Err e =>
              refuse audit ((denied "path normalization or symlink boundary rejected the request")
                              <| au_AllowedPaths := paths |>) e
          | Ok _ =>
              if negb (PathsAllowed paths (ct_AllowedPaths contract))
              then refuse audit ((denied "path is outside Tool Contract allowlist")
                                   <| au_AllowedPaths := paths |>) (Sentinel ErrDenied)
              else
                decision ← DecidePolicy engine
                             (policyRequest scope contract paths (in_Environment invocation));
                if negb (dec_Allowed decision) then mret (MkReply emptyResponse (dec_Err decision))
                else executeTool sandbox audit policyVersion contract ctx invocation command stdin paths
          end
      end
  end.

(** [Service.Invoke] *)
Definition Invoke (service : Service W) (ctx : Context) (invocation : Invocation) : M W Reply :=
  match sv_registry service, sv_policy service, sv_sandbox service, sv_audit service with
  | Some registry, Some engine, Some sandbox, Some audit =>
      let scope := sb_Scope sandbox in
      if decide (sc_RunID scope = "" \/ sc_AttemptID scope = "")
      then mret (MkReply emptyResponse (Some (Plain "sandbox scope is not configured")))
      else if decide (in_RunID invocation <> sc_RunID scope \/ in_AttemptID invocation <> sc_AttemptID scope)
      then
        refuse audit
          ((deniedEvent scope (in_ToolName invocation) "" (Version engine)
             "invocation scope does not match the bound sandbox scope")
             <| au_RequestedRunID := in_RunID invocation |>
             <| au_RequestedAttemptID := in_AttemptID invocation |>)
          (Sentinel ErrScopeMismatch)
      else match GetContract registry (in_ToolName invocation) with
      | None =>
          refuse audit
            (deniedEvent scope (in_ToolName invocation) "" (Version engine)
               "tool has no registered phase-4 contract") (Sentinel ErrUnknownTool)
      | Some contract => invokeContract engine sandbox audit contract ctx invocation
      end
  | _, _, _, _ => mret (MkReply emptyResponse (Some (Plain "tool service is not configured")))
  end.
End invoke.
