(* ===== verification/JsonPrint.v ===== *)
(** * Printing JSON and reading it back

    What the encoder of [GoLib] writes is read by the parser of [Json] as the same
    value, up to the replacement of invalid text. *)
From S2P Require Import Prelude Sha256 GoLib Json.
Open Scope Z_scope.

(** ** Strings

    A text with every byte that starts no valid encoding replaced. *)
Fixpoint sanitize (bs : list Z) : list Z :=
  match bs with
  | [] => []
  | b1 :: r1 =>
      if b1 <? 128 then b1 :: sanitize r1
      else match r1 with
      | [] => RuneError
      | b2 :: r2 =>
          if utf8_2 b1 b2 then [b1; b2] ++ sanitize r2
          else match r2 with
          | [] => RuneError ++ sanitize r1
          | b3 :: r3 =>
              if utf8_3 b1 b2 b3 then [b1; b2; b3] ++ sanitize r3
              else match r3 with
              | [] => RuneError ++ sanitize r1
              | b4 :: r4 =>
                  if utf8_4 b1 b2 b3 b4 then [b1; b2; b3; b4] ++ sanitize r4
                  else RuneError ++ sanitize r1
              end
          end
      end
  end.

(** Texts of bytes. *)
Definition byte (b : Z) : Prop := 0 <= b < 256.
#[global] Instance byte_decision b : Decision (byte b).
Proof. unfold byte. apply _. Defined.

(** The pieces the scanner sees of one escaped ASCII byte. *)
Definition ascii_piece (b : Z) : piece :=
  if (b =? 34) || (b =? 92) || (b =? 8) || (b =? 12) || (b =? 10) || (b =? 13) || (b =? 9) then Raw b
  else if (b <? 32) || (b =? 60) || (b =? 62) || (b =? 38) then Escaped b else Raw b.

Lemma small_byte_ind (P : Z -> Prop) : Forall P (seqZ 0 128) -> forall b, 0 <= b < 128 -> P b.
Proof. intros Hall b Hb. apply (proj1 (Forall_forall _ _) Hall). apply elem_of_seqZ. lia. Qed.

Lemma escape_ascii_scan rest b :
  0 <= b < 128 ->
  string_pieces (escape_ascii b ++ rest) = '(ps, k) ← string_pieces rest; Some (ascii_piece b :: ps, k).
Proof.
  revert b. apply small_byte_ind. vm_compute seqZ. repeat (constructor; [reflexivity|]). constructor.
Qed.

Lemma unquote_ascii ps b : 0 <= b < 128 -> unquote (ascii_piece b :: ps) = b :: unquote ps.
Proof.
  revert b. apply small_byte_ind. vm_compute seqZ. repeat (constructor; [reflexivity|]). constructor.
Qed.

(** *** What the scanner makes of a printed text *)
Definition scans (xs : list Z) (ps : list piece) : Prop := forall rest,
  string_pieces (xs ++ rest) = '(qs, k) ← string_pieces rest; Some (ps ++ qs, k).

Lemma scans_app xs ys ps qs : scans xs ps -> scans ys qs -> scans (xs ++ ys) (ps ++ qs).
Proof.
  intros Hx Hy rest. rewrite <- app_assoc, Hx, Hy. destruct (string_pieces rest) as [[rs k]|]; [|done].
  cbn. by rewrite app_assoc.
Qed.

(** A byte of a longer encoding is copied. *)
Lemma copied_scan b rest :
  128 <= b -> string_pieces (b :: rest) = '(ps, k) ← string_pieces rest; Some (Raw b :: ps, k).
Proof.
  intros Hb. cbn [string_pieces]. 
  destruct b as [|p|p]; [lia| |lia].
  repeat (destruct p as [p|p|]; try lia; try reflexivity).
Qed.

Lemma scans_ascii b : 0 <= b < 128 -> scans (escape_ascii b) [ascii_piece b].
Proof. intros Hb rest. by rewrite escape_ascii_scan. Qed.

Lemma scans_copied bs : Forall (fun b => 128 <= b) bs -> scans bs (map Raw bs).
Proof.
  induction 1 as [|b bs Hb _ IH].
  - intros rest. cbn. by destruct (string_pieces rest) as [[]|].
  - apply (scans_app [b] bs [Raw b]); [|done]. intros rest. by apply copied_scan.
Qed.

Lemma scans_replacement : scans replacement [Escaped 65533].
Proof. intros rest. reflexivity. Qed.

Lemma utf8_2_bytes b1 b2 : utf8_2 b1 b2 = true -> 128 <= b1 /\ 128 <= b2.
Proof.
  unfold utf8_2, continuation, in_range. rewrite !andb_true_iff, !Z.leb_le. lia.
Qed.

Lemma utf8_3_bytes b1 b2 b3 : utf8_3 b1 b2 b3 = true -> 128 <= b1 /\ 128 <= b2 /\ 128 <= b3.
Proof.
  unfold utf8_3, continuation, in_range.
  rewrite !andb_true_iff, !orb_true_iff, !andb_true_iff, !orb_true_iff, !andb_true_iff, !Z.leb_le, !Z.eqb_eq. lia.
Qed.

Lemma utf8_4_bytes b1 b2 b3 b4 : utf8_4 b1 b2 b3 b4 = true -> 128 <= b1 /\ 128 <= b2 /\ 128 <= b3 /\ 128 <= b4.
Proof.
  unfold utf8_4, continuation, in_range.
  rewrite !andb_true_iff, !orb_true_iff, !andb_true_iff, !Z.leb_le, !Z.eqb_eq. lia.
Qed.

(** The line separators are escaped, other encodings of three bytes are copied. *)
Lemma scans_escape_3 b1 b2 b3 ps :
  utf8_2 b1 b2 = false -> utf8_3 b1 b2 b3 = true ->
  exists qs, scans (escape_3 b1 b2 b3) qs /\ unquote (qs ++ ps) = [b1; b2; b3] ++ unquote ps.
Proof.
  intros H2 H3. unfold escape_3. destruct (_ && _) eqn:Hs.
  - rewrite !andb_true_iff, orb_true_iff, !Z.eqb_eq in Hs. destruct Hs as [[-> ->] [->| ->]].
    + exists [Escaped 8232]. by split; [intros rest|].
    + exists [Escaped 8233]. by split; [intros rest|].
  - exists [Raw b1; Raw b2; Raw b3]. pose proof (utf8_3_bytes _ _ _ H3) as (L1 & L2 & L3). split.
    + by apply (scans_copied [b1; b2; b3]); repeat constructor.
    + cbn [app unquote]. rewrite (proj2 (Z.ltb_ge _ _)) by lia. by rewrite H2, H3.
Qed.

Lemma escape_scans n bs :
  (length bs <= n)%nat -> Forall byte bs -> exists ps, scans (escape bs) ps /\ unquote ps = sanitize bs.
Proof.
  assert (exists ps, scans (escape []) ps /\ unquote ps = sanitize []) as Hnil.
  { exists []. split; [|done]. apply (scans_copied []). constructor. }
  revert bs. induction n as [|n IH]; intros bs Hn Hb; [by destruct bs; [|cbn in Hn; lia]|].
  destruct bs as [|b1 r1]; [exact Hnil|].
  apply Forall_cons in Hb as [B1 Hb]. cbn [length] in Hn. cbn [escape sanitize].
  assert (forall r, (length r <= length r1)%nat -> Forall byte r ->
    exists ps, scans (escape r) ps /\ unquote ps = sanitize r) as IHr by (intros r Hr; apply IH; lia).
  assert (exists ps, scans (replacement ++ escape r1) ps /\ unquote ps = RuneError ++ sanitize r1) as Hbad.
  { destruct (IHr r1) as (ps & Hs & Hu); [lia|done|]. exists (Escaped 65533 :: ps).
    split; [by apply (scans_app _ _ [_]), Hs|]. cbn [unquote]. by rewrite Hu. }
  destruct (b1 <? 128) eqn:L1.
  { apply Z.ltb_lt in L1. destruct (IHr r1) as (ps & Hs & Hu); [lia|done|]. exists (ascii_piece b1 :: ps).
    unfold byte in B1. split; [by apply (scans_app _ _ [_]); [apply scans_ascii; lia|]|].
    rewrite unquote_ascii by lia. by rewrite Hu. }
  apply Z.ltb_ge in L1. destruct r1 as [|b2 r2].
  { exists [Escaped 65533]. by split; [apply scans_replacement|]. }
  apply Forall_cons in Hb as [B2 Hb]. cbn [length] in IHr.
  destruct (utf8_2 b1 b2) eqn:H2.
  { destruct (IHr r2) as (ps & Hs & Hu); [lia|done|]. pose proof (utf8_2_bytes _ _ H2) as [M1 M2].
    exists ([Raw b1; Raw b2] ++ ps). split; [apply (scans_app [b1; b2] _ [Raw b1; Raw b2]); [|done]; apply (scans_copied [b1; b2]); by repeat constructor|].
    cbn [app unquote]. rewrite (proj2 (Z.ltb_ge _ _)) by lia. by rewrite H2, Hu. }
  destruct r2 as [|b3 r3]; [exact Hbad|]. apply Forall_cons in Hb as [B3 Hb]. cbn [length] in IHr.
  destruct (utf8_3 b1 b2 b3) eqn:H3.
  { destruct (IHr r3) as (ps & Hs & Hu); [lia|done|].
    destruct (scans_escape_3 b1 b2 b3 ps H2 H3) as (qs & Hq & Hqu). exists (qs ++ ps).
    split; [by apply scans_app|]. by rewrite Hqu, Hu. }
  destruct r3 as [|b4 r4]; [exact Hbad|]. apply Forall_cons in Hb as [B4 Hb]. cbn [length] in IHr.
  destruct (utf8_4 b1 b2 b3 b4) eqn:H4; [|exact Hbad].
  destruct (IHr r4) as (ps & Hs & Hu); [lia|done|]. pose proof (utf8_4_bytes _ _ _ _ H4) as (M1 & M2 & M3 & M4).
  exists ([Raw b1; Raw b2; Raw b3; Raw b4] ++ ps).
  split; [apply (scans_app [b1; b2; b3; b4] _ [Raw b1; Raw b2; Raw b3; Raw b4]); [|done]; apply (scans_copied [b1; b2; b3; b4]); by repeat constructor|].
  cbn [app unquote]. rewrite (proj2 (Z.ltb_ge _ _)) by lia. by rewrite H2, H3, H4, Hu.
Qed.

(** A printed string is read as the sanitised text. *)
Definition print_string (s : list Z) : list Z := 34 :: escape s ++ [34].

Lemma parse_printed_string s rest :
  Forall byte s -> parse_string (escape s ++ 34 :: rest) = Some (sanitize s, rest).
Proof.
  intros Hb. destruct (escape_scans (length s) s (le_n _) Hb) as (ps & Hs & Hu).
  unfold parse_string. rewrite (Hs (34 :: rest)). cbn. by rewrite app_nil_r, Hu.
Qed.

(** What is valid text is unchanged. *)
Lemma sanitize_valid s : utf8_valid s = true -> sanitize s = s.
Proof.
  remember (length s) as n eqn:Hn. assert (length s <= n)%nat as Hle by lia. clear Hn. revert s Hle.
  induction n as [|n IH]; intros s Hn; [by destruct s; [|cbn in Hn; lia]|].
  destruct s as [|b1 r1]; [done|]. cbn [utf8_valid sanitize]. cbn [length] in Hn.
  destruct (b1 <? 128); [intros Hv; rewrite IH; [done|lia|done]|].
  destruct r1 as [|b2 r2]; [done|]. cbn [length] in Hn.
  destruct (utf8_2 b1 b2); [intros Hv; rewrite IH; [done|lia|done]|].
  destruct r2 as [|b3 r3]; [done|]. cbn [length] in Hn.
  destruct (utf8_3 b1 b2 b3); [intros Hv; rewrite IH; [done|lia|done]|].
  destruct r3 as [|b4 r4]; [done|]. cbn [length] in Hn.
  destruct (utf8_4 b1 b2 b3 b4); [|done]. intros Hv. rewrite IH; [done|lia|done].
Qed.

(** ** Values *)

Fixpoint commas (texts : list (list Z)) : list Z :=
  match texts with
  | [] => []
  | [text] => text
  | text :: rest => text ++ 44 :: commas rest
  end.

Fixpoint print (v : json) : list Z :=
  match v with
  | JNull => bytes_of "null"
  | JBool b => bytes_of (json_bool b)
  | JNumber t => t
  | JString s => print_string s
  | JArray items => 91 :: commas (map print items) ++ [93]
  | JObject members => 123 :: commas (map (fun m => print_string (fst m) ++ 58 :: print (snd m)) members) ++ [125]
  end.

(** The value that is read back. *)
Fixpoint sanitized (v : json) : json :=
  match v with
  | JString s => JString (sanitize s)
  | JArray items => JArray (map sanitized items)
  | JObject members => JObject (map (fun m => (sanitize (fst m), sanitized (snd m))) members)
  | _ => v
  end.

(** What may follow a number without continuing it. *)
Definition number_end (rest : list Z) : Prop :=
  match rest with b :: _ => digit b = false /\ b <> 46 /\ b <> 101 /\ b <> 69 | [] => True end.

Definition number_heads : list Z := [45; 48; 49; 50; 51; 52; 53; 54; 55; 56; 57].

Definition number_text (t : list Z) : Prop :=
  (exists b r, t = b :: r /\ b ∈ number_heads) /\
  forall rest, number_end rest -> parse_number (t ++ rest) = Some (t, rest).

Fixpoint printable (v : json) : Prop :=
  match v with
  | JNumber t => number_text t
  | JString s => Forall byte s
  | JArray items => foldr (fun v P => printable v /\ P) True items
  | JObject members => foldr (fun m P => (Forall byte (fst m) /\ printable (snd m)) /\ P) True members
  | _ => True
  end.

(** Fuel that is enough. *)
Fixpoint needed (v : json) : nat :=
  match v with
  | JArray items => S (Nat.max (length items) (foldr (fun v n => Nat.max (needed v) n) 0%nat items))
  | JObject members =>
      S (Nat.max (length members) (foldr (fun m n => Nat.max (needed (snd m)) n) 0%nat members))
  | _ => 1%nat
  end.

(** The first byte of a printed value tells its kind and is not white. *)
Lemma print_head v : printable v -> exists b r, print v = b :: r /\ white b = false /\ b <> 93.
Proof.
  destruct v as [|[]|t|s|items|members]; cbn -[white]; intros Hp; try (eexists _, _; split; [reflexivity|done]).
  destruct Hp as [(b & r & -> & Hb) _]. exists b, r. split; [done|]. revert b Hb. apply Forall_forall.
  by repeat constructor.
Qed.

Lemma skip_white_print v rest : printable v -> skip_white (print v ++ rest) = print v ++ rest.
Proof.
  intros Hp. destruct (print_head v Hp) as (b & r & -> & Hw & _). cbn [app skip_white]. by rewrite Hw.
Qed.

Lemma parse_number_value n d t rest :
  number_text t -> number_end rest -> parse_value (S n) d (t ++ rest) = Some (JNumber t, rest).
Proof.
  intros [(b & r & -> & Hb) Hp] He. specialize (Hp rest He).
  assert (forall b, b ∈ number_heads -> white b = false /\
    forall r, parse_value (S n) d (b :: r) = '(t, k) ← parse_number (b :: r); Some (JNumber t, k)) as Hd.
  { apply Forall_forall. repeat (constructor; [split; [done|reflexivity]|]). constructor. }
  destruct (Hd b Hb) as [_ Hv]. cbn [app] in *. rewrite Hv, Hp. done.
Qed.

Definition reads (v : json) : Prop := forall fuel depth rest,
  (needed v <= fuel)%nat -> (json_depth v <= depth)%nat -> number_end rest ->
  parse_value fuel depth (print v ++ rest) = Some (sanitized v, rest).

Lemma reads_items items n d rest :
  Forall (fun v => printable v /\ reads v) items -> items <> [] ->
  (foldr (fun v n => Nat.max (needed v) n) 0 items <= n)%nat ->
  (foldr (fun v m => Nat.max (json_depth v) m) 0 items <= d)%nat ->
  forall fuel, (length items <= fuel)%nat ->
  parse_items (parse_value n d) fuel (commas (map print items) ++ 93 :: rest) = Some (map sanitized items, rest).
Proof.
  induction items as [|v [|w items] IH]; [done|..]; intros Hall _ Hn Hd fuel Hf;
    apply Forall_cons in Hall as [[Hp Hr] Hall]; cbn [foldr length] in *; (destruct fuel as [|fuel]; [lia|]).
  - cbn [map commas parse_items]. rewrite Hr by (done || lia). reflexivity.
  - change (commas (map print (v :: w :: items))) with (print v ++ 44 :: commas (map print (w :: items))).
    rewrite <- app_assoc. cbn [parse_items]. rewrite Hr by (done || lia). cbn [mbind option_bind].
    change (skip_white ((44 :: commas (map print (w :: items))) ++ 93 :: rest)) with
      (44 :: commas (map print (w :: items)) ++ 93 :: rest). cbv iota beta.
    rewrite IH by (done || lia). reflexivity.
Qed.

Definition print_member (m : list Z * json) : list Z := print_string (fst m) ++ 58 :: print (snd m).

Lemma parse_printed_key m rest :
  Forall byte (fst m) ->
  parse_key (print_member m ++ rest) = Some (sanitize (fst m), print (snd m) ++ rest).
Proof.
  intros Hb. unfold print_member, print_string, parse_key. rewrite <- app_assoc.
  change ((34 :: escape (fst m) ++ [34]) ++ (58 :: print (snd m)) ++ rest) with
    (34 :: ((escape (fst m) ++ [34]) ++ 58 :: (print (snd m) ++ rest))).
  rewrite <- app_assoc. cbn [app].
  change (skip_white (34 :: escape (fst m) ++ 34 :: 58 :: print (snd m) ++ rest)) with
    (34 :: escape (fst m) ++ 34 :: 58 :: print (snd m) ++ rest). cbv iota beta.
  rewrite parse_printed_string by done. reflexivity.
Qed.

Lemma reads_members members n d rest :
  Forall (fun m => Forall byte (fst m) /\ reads (snd m)) members -> members <> [] ->
  (foldr (fun m n => Nat.max (needed (snd m)) n) 0 members <= n)%nat ->
  (foldr (fun m k => Nat.max (json_depth (snd m)) k) 0 members <= d)%nat ->
  forall fuel, (length members <= fuel)%nat ->
  parse_members (parse_value n d) fuel (commas (map print_member members) ++ 125 :: rest) =
  Some (map (fun m => (sanitize (fst m), sanitized (snd m))) members, rest).
Proof.
  induction members as [|v [|w members] IH]; [done|..]; intros Hall _ Hn Hd fuel Hf;
    apply Forall_cons in Hall as [[Hp Hr] Hall]; cbn [foldr length] in *; (destruct fuel as [|fuel]; [lia|]).
  - cbn [map commas parse_members]. rewrite parse_printed_key by done. cbn [mbind option_bind].
    rewrite Hr by (done || lia). reflexivity.
  - change (commas (map print_member (v :: w :: members))) with
      (print_member v ++ 44 :: commas (map print_member (w :: members))).
    rewrite <- app_assoc. cbn [parse_members]. rewrite parse_printed_key by done. cbn [mbind option_bind].
    rewrite Hr by (done || lia). cbn [mbind option_bind].
    change (skip_white ((44 :: commas (map print_member (w :: members))) ++ 125 :: rest)) with
      (44 :: commas (map print_member (w :: members)) ++ 125 :: rest). cbv iota beta.
    rewrite IH by (done || lia). reflexivity.
Qed.

Lemma literal_reads word v rest : literal word v (bytes_of word ++ rest) = Some (v, rest).
Proof. unfold literal. by rewrite take_app_length, drop_app_length, decide_True. Qed.

Lemma printable_items items : printable (JArray items) -> Forall printable items.
Proof. cbn. induction items as [|v items IH]; [constructor|]. intros [Hv Hi]. constructor; [done|by apply IH]. Qed.

Lemma printable_members members :
  printable (JObject members) -> Forall (fun m => Forall byte (fst m) /\ printable (snd m)) members.
Proof. cbn. induction members as [|m members IH]; [constructor|]. intros [Hm Hi]. constructor; [done|by apply IH]. Qed.

Lemma commas_head text rest b r : text = b :: r -> exists r', commas (text :: rest) = b :: r'.
Proof. intros ->. destruct rest; cbn; eauto. Qed.

(** What is printed is read. *)
Lemma printable_reads v : printable v -> reads v.
Proof.
  induction v as [|b|t|s|items IH|members IH] using json_nested_ind; intros Hp fuel depth rest Hf Hd He;
    (destruct fuel as [|n]; [cbn [needed] in Hf; lia|]).
  - exact (literal_reads "null" JNull rest).
  - destruct b; [exact (literal_reads "true" (JBool true) rest)|exact (literal_reads "false" (JBool false) rest)].
  - by apply parse_number_value.
  - cbn [print]. unfold print_string. cbn [app]. rewrite <- app_assoc. cbn [app].
    change (parse_value (S n) depth (34 :: escape s ++ 34 :: rest)) with
      ('(s, k) ← parse_string (escape s ++ 34 :: rest); Some (JString s, k)).
    by rewrite parse_printed_string.
  - cbn [needed json_depth] in Hf, Hd. destruct depth as [|d]; [lia|]. apply printable_items in Hp.
    cbn [print sanitized]. rewrite <- app_comm_cons, <- app_assoc. cbn [app].
    destruct items as [|v items]; [reflexivity|].
    assert (Forall (fun v => printable v /\ reads v) (v :: items)) as Hall.
    { rewrite Forall_forall in IH, Hp. apply Forall_forall. auto. }
    assert (exists b r, print v = b :: r /\ white b = false /\ b <> 93) as (b & r & Hb & Hw & H93).
    { apply print_head. by apply Forall_cons in Hp as [? _]. }
    destruct (commas_head (print v) (map print items) b r Hb) as [r' Hc].
    pose proof (reads_items (v :: items) n d rest Hall ltac:(done) ltac:(lia) ltac:(lia) n ltac:(lia)) as Hread.
    change (parse_value (S n) (S d) (91 :: commas (map print (v :: items)) ++ 93 :: rest)) with
      (match skip_white (commas (map print (v :: items)) ++ 93 :: rest) with
       | 93 :: k => Some (JArray [], k)
       | _ => '(vs, k) ← parse_items (parse_value n d) n (commas (map print (v :: items)) ++ 93 :: rest);
              Some (JArray vs, k) end).
    rewrite Hread. cbn [map] in *. rewrite Hc. cbn [app skip_white]. rewrite Hw.
    repeat case_match; simplify_eq; done.
  - cbn [needed json_depth] in Hf, Hd. destruct depth as [|d]; [lia|]. apply printable_members in Hp.
    cbn [print sanitized]. rewrite <- app_comm_cons, <- app_assoc. cbn [app].
    destruct members as [|m members]; [reflexivity|].
    assert (Forall (fun m => Forall byte (fst m) /\ reads (snd m)) (m :: members)) as Hall.
    { rewrite Forall_forall in IH, Hp. apply Forall_forall. intros x Hx. destruct (Hp x Hx). auto. }
    pose proof (reads_members (m :: members) n d rest Hall ltac:(done) ltac:(lia) ltac:(lia) n ltac:(lia)) as Hread.
    change (map (fun m => print_string (fst m) ++ 58 :: print (snd m)) (m :: members)) with
      (map print_member (m :: members)).
    destruct (commas_head (print_member m) (map print_member members) 34
      ((escape (fst m) ++ [34]) ++ 58 :: print (snd m)) eq_refl) as [r' Hc].
    change (parse_value (S n) (S d) (123 :: commas (map print_member (m :: members)) ++ 125 :: rest)) with
      (match skip_white (commas (map print_member (m :: members)) ++ 125 :: rest) with
       | 125 :: k => Some (JObject [], k)
       | _ => '(ms, k) ← parse_members (parse_value n d) n (commas (map print_member (m :: members)) ++ 125 :: rest);
              Some (JObject ms, k) end).
    rewrite Hread. cbn [map] in *. rewrite Hc. reflexivity.
Qed.
(** ** Decimal integers *)

Definition digits_of (n : Z) (ds : list Z) : Prop :=
  Forall (fun b => digit b = true) ds /\ digits_value ds = n.

Lemma digits_value_snoc ds c : digits_value (ds ++ [c]) = 10 * digits_value ds + (c - 48).
Proof. unfold digits_value. by rewrite fold_left_app. Qed.

Lemma pretty_char x :
  (x < 10)%N -> Z.of_N (Ascii.N_of_ascii (pretty_N_char x)) = 48 + Z.of_N x.
Proof.
  intros Hx. assert (x = 0 \/ x = 1 \/ x = 2 \/ x = 3 \/ x = 4 \/ x = 5 \/ x = 6 \/ x = 7 \/ x = 8 \/ x = 9)%N as Hc by lia.
  repeat (destruct Hc as [->|Hc]; [reflexivity|]). by subst x.
Qed.

Lemma pretty_go_digits x s :
  exists ds, bytes_of (pretty_N_go x s) = ds ++ bytes_of s /\ digits_of (Z.of_N x) ds /\
    (x <> 0%N -> exists b r, ds = b :: r /\ b <> 48).
Proof.
  revert s. induction (N.lt_wf_0 x) as [x _ IH]; intros s.
  destruct (decide (x = 0%N)) as [->|Hx].
  { exists []. rewrite pretty_N_go_0. split; [done|]. by split; [split; [constructor|]|]. }
  rewrite pretty_N_go_step by lia.
  destruct (IH (x `div` 10)%N ltac:(by apply N.div_lt; lia) (String (pretty_N_char (x `mod` 10)) s))
    as (ds & Hb & [Hd Hv] & Hh).
  assert ((x `mod` 10 < 10)%N) as Hm by (apply N.mod_lt; lia).
  exists (ds ++ [48 + Z.of_N (x `mod` 10)]). split; [|split; [split|]].
  - rewrite Hb, <- app_assoc. change (bytes_of (String ?c s)) with (Z.of_N (Ascii.N_of_ascii c) :: bytes_of s).
    by rewrite pretty_char.
  - apply Forall_app. split; [done|]. apply Forall_singleton. unfold digit, in_range.
    apply andb_true_iff. rewrite !Z.leb_le. revert Hm. generalize (x `mod` 10)%N. intros m Hm. lia.
  - rewrite digits_value_snoc, Hv. pose proof (N.div_mod x 10 ltac:(done)) as Hdm. revert Hdm.
    generalize (x `mod` 10)%N, (x `div` 10)%N. intros m q Hdm. lia.
  - intros _. destruct (decide ((x `div` 10)%N = 0%N)) as [E|E].
    + rewrite E in Hb, Hv. destruct ds as [|b r].
      * exists (48 + Z.of_N (x `mod` 10)), []. split; [done|]. pose proof (N.div_mod x 10 ltac:(done)) as Hdm. rewrite E in Hdm. revert Hdm.
        generalize (x `mod` 10)%N. intros m Hdm. lia.
      * rewrite pretty_N_go_0 in Hb. exfalso. apply (f_equal length) in Hb. rewrite length_app in Hb. cbn in Hb. lia.
    + destruct (Hh E) as (b & r & -> & Hb48). by exists b, (r ++ [48 + Z.of_N (x `mod` 10)]).
Qed.

Lemma span_digits_app ds rest :
  Forall (fun b => digit b = true) ds -> number_end rest -> span_digits (ds ++ rest) = (ds, rest).
Proof.
  intros Hd He. induction Hd as [|b ds Hb _ IH]; cbn [app span_digits].
  - destruct rest as [|b r]; [done|]. destruct He as [He _]. cbn. by rewrite He.
  - by rewrite Hb, IH.
Qed.

(** A run of digits without a leading zero is a number. *)
Definition decimal_digits (ds : list Z) : Prop :=
  Forall (fun b => digit b = true) ds /\ (ds = [48] \/ exists b r, ds = b :: r /\ b <> 48).

Lemma number_unsigned_digits ds rest :
  decimal_digits ds -> number_end rest -> number_unsigned (ds ++ rest) = Some (ds, rest).
Proof.
  intros [Hd Hh] He. unfold number_unsigned.
  assert (number_integer (ds ++ rest) = Some (ds, rest)) as ->.
  { unfold number_integer. rewrite span_digits_app by done.
    destruct Hh as [->|(b & r & -> & Hb)]; [done|]. repeat case_match; congruence. }
  cbn [mbind option_bind]. unfold number_fraction, number_exponent.
  destruct rest as [|c r]; [cbn; by rewrite !app_nil_r|]. destruct He as (_ & H46 & H101 & H69).
  assert (match c :: r with 46 :: r0 => match span_digits r0 with ([], _) => None | (ds0, r') => Some (46 :: ds0, r') end
          | _ => Some ([], c :: r) end = Some ([], c :: r)) as -> by (repeat case_match; congruence).
  cbn [mbind option_bind]. rewrite bool_decide_false by tauto. cbn. by rewrite !app_nil_r.
Qed.

Lemma digit_heads b : digit b = true -> b ∈ number_heads /\ b <> 45.
Proof.
  unfold digit, in_range. rewrite andb_true_iff, !Z.leb_le. intros Hb. split; [|lia].
  assert (b = 48 \/ b = 49 \/ b = 50 \/ b = 51 \/ b = 52 \/ b = 53 \/ b = 54 \/ b = 55 \/ b = 56 \/ b = 57) as Hc by lia.
  clear Hb. repeat (destruct Hc as [->|Hc]; [by_computation|]). subst b. by_computation.
Qed.

Lemma parse_number_digits ds rest :
  decimal_digits ds -> number_end rest -> parse_number (ds ++ rest) = Some (ds, rest).
Proof.
  intros Hd He. rewrite <- number_unsigned_digits by done. unfold parse_number.
  destruct Hd as [Hd Hh]. destruct ds as [|b r]; [by destruct Hh as [|(? & ? & ? & _)]|].
  apply Forall_cons in Hd as [[_ Hb]%digit_heads _]. cbn [app]. repeat case_match; congruence.
Qed.

Lemma decimal_text ds : decimal_digits ds -> number_text ds.
Proof.
  intros Hd. split; [|by intros; apply parse_number_digits].
  destruct Hd as [Hd Hh]. destruct ds as [|b r]; [by destruct Hh as [|(? & ? & ? & _)]|].
  apply Forall_cons in Hd as [[Hb _]%digit_heads _]. eauto.
Qed.

Lemma negative_text ds : decimal_digits ds -> number_text (45 :: ds).
Proof.
  intros Hd. split; [exists 45, ds; split; [done|left]|]. intros rest He. cbn [app parse_number].
  by rewrite number_unsigned_digits.
Qed.

(** The digits of a printed integer. *)
Lemma pretty_positive_digits p :
  decimal_digits (bytes_of (pretty (Npos p))) /\ digits_value (bytes_of (pretty (Npos p))) = Zpos p.
Proof.
  unfold pretty, pretty_N. rewrite decide_False by done.
  destruct (pretty_go_digits (Npos p) "") as (ds & -> & [Hd Hv] & Hh). rewrite app_nil_r.
  split; [|done]. split; [done|right]. by apply Hh.
Qed.

Lemma pretty_number (n : Z) : number_text (bytes_of (pretty n)).
Proof.
  destruct n as [|p|p].
  - apply decimal_text. split; [by repeat constructor|by left].
  - by apply decimal_text, (pretty_positive_digits p).
  - apply (negative_text (bytes_of (pretty (Npos p)))), pretty_positive_digits.
Qed.

(** ** Whole documents *)

(** The fuel the parser takes from the length of the text is enough. *)
Lemma commas_length texts : (foldr (fun t n => length t + n) 0 texts <= length (commas texts))%nat.
Proof.
  induction texts as [|t [|u texts] IH]; [done|cbn; lia|].
  change (commas (t :: u :: texts)) with (t ++ 44 :: commas (u :: texts)). rewrite length_app.
  cbn [foldr length] in *. lia.
Qed.

Lemma fold_max_le {A} (f : A -> nat) (g : A -> list Z) (l : list A) :
  Forall (fun x => f x <= length (g x) /\ 1 <= length (g x))%nat l ->
  (foldr (fun x n => Nat.max (f x) n) 0 l <= foldr (fun t n => length t + n) 0 (map g l))%nat /\
  (length l <= foldr (fun t n => length t + n) 0 (map g l))%nat.
Proof. induction 1 as [|x l [H1 H2] _ [IH1 IH2]]; [done|]. cbn. lia. Qed.

Lemma needed_length v : printable v -> (needed v <= length (print v))%nat.
Proof.
  induction v as [|b|t|s|items IH|members IH] using json_nested_ind; intros Hp; cbn [needed print].
  - cbn. lia.
  - destruct b; cbn; lia.
  - destruct Hp as [(b & r & -> & _) _]. cbn. lia.
  - unfold print_string. cbn. lia.
  - apply printable_items in Hp. cbn [length]. rewrite length_app. cbn [length].
    pose proof (commas_length (map print items)) as Hc.
    destruct (fold_max_le needed print items) as [H1 H2]; [|lia].
    rewrite Forall_forall in IH, Hp. apply Forall_forall. intros v Hv. specialize (IH v Hv (Hp v Hv)).
    split; [done|]. destruct (print_head v (Hp v Hv)) as (b & r & -> & _). cbn. lia.
  - apply printable_members in Hp. cbn [length]. rewrite length_app. cbn [length].
    change (map (fun m => print_string (fst m) ++ 58 :: print (snd m)) members) with (map print_member members).
    pose proof (commas_length (map print_member members)) as Hc.
    destruct (fold_max_le (fun m => needed (snd m)) print_member members) as [H1 H2]; [|lia].
    rewrite Forall_forall in IH, Hp. apply Forall_forall. intros m Hm. destruct (Hp m Hm) as [Hb Hs].
    specialize (IH m Hm Hs). unfold print_member, print_string. rewrite length_app. cbn. lia.
Qed.

(** Reading back a printed document. *)
Lemma parse_print v :
  printable v -> (json_depth v <= maxNestingDepth)%nat -> parse_bytes (print v) = Some (sanitized v).
Proof.
  intros Hp Hd. unfold parse_bytes. pose proof (needed_length v Hp) as Hn.
  pose proof (printable_reads v Hp (S (length (print v))) maxNestingDepth [] ltac:(lia) Hd I) as Hr.
  rewrite app_nil_r in Hr. rewrite Hr. cbn. done.
Qed.

(** ** Texts *)

Lemma bytes_of_app a b : bytes_of (a +:+ b) = bytes_of a ++ bytes_of b.
Proof. induction a as [|c a IH]; [done|]. exact (f_equal (cons _) IH). Qed.

Lemma bytes_of_byte s : Forall byte (bytes_of s).
Proof.
  induction s as [|c s IH]; [constructor|]. constructor; [|done]. unfold byte.
  pose proof (Ascii.N_ascii_bounded c). lia.
Qed.

Lemma ascii_of_Z_byte b : byte b -> Z.of_N (Ascii.N_of_ascii (ascii_of_Z b)) = b.
Proof.
  intros Hb. unfold ascii_of_Z, byte in *. rewrite Ascii.N_ascii_embedding; lia.
Qed.

Lemma bytes_of_string_of_bytes bs : Forall byte bs -> bytes_of (string_of_bytes bs) = bs.
Proof.
  induction 1 as [|b bs Hb _ IH]; [done|]. cbn [string_of_bytes].
  change (Z.of_N (Ascii.N_of_ascii (ascii_of_Z b)) :: bytes_of (string_of_bytes bs) = b :: bs).
  by rewrite IH, ascii_of_Z_byte.
Qed.

(** Bytes that are neither control characters nor one of the three of HTML. *)
Definition visible (b : Z) : Prop := 32 <= b < 256 /\ b <> 38 /\ b <> 60 /\ b <> 62.
#[global] Instance visible_decision b : Decision (visible b).
Proof. unfold visible. apply _. Defined.

Lemma visible_byte bs : Forall visible bs -> Forall byte bs.
Proof. intros Hv. apply (Forall_impl visible _ _ Hv). unfold visible, byte. lia. Qed.

Ltac all_visible :=
  repeat (apply List.Forall_cons; [unfold visible, byte in *; lia|]); apply List.Forall_nil.

Lemma escape_3_visible b1 b2 b3 :
  Forall visible [b1; b2; b3] -> Forall visible (escape_3 b1 b2 b3).
Proof.
  intros Hb. unfold escape_3. destruct (_ && _) eqn:Hs; [|done].
  rewrite !andb_true_iff, orb_true_iff, !Z.eqb_eq in Hs. destruct Hs as [[-> ->] [->| ->]]; cbn; all_visible.
Qed.

(** A printed text has no control characters and no markup. *)
Lemma escape_visible n bs : (length bs <= n)%nat -> Forall byte bs -> Forall visible (escape bs).
Proof.
  assert (forall b, 0 <= b < 128 -> Forall visible (escape_ascii b)) as Ha.
  { apply small_byte_ind. apply (bool_decide_unpack (Forall (fun b => Forall visible (escape_ascii b)) _)).
    vm_compute. exact I. }
  assert (Forall visible replacement) as Hr by (by apply (bool_decide_unpack (Forall visible replacement))).
  revert bs. induction n as [|n IH]; intros bs Hn Hb; [by destruct bs; [|cbn in Hn; lia]|].
  destruct bs as [|b1 r1]; [done|]. apply Forall_cons in Hb as [B1 Hb]. cbn [length] in Hn. cbn [escape].
  assert (forall r, (length r <= length r1)%nat -> Forall byte r -> Forall visible (escape r)) as IHr
    by (intros r Hl; apply IH; lia).
  assert (Forall visible (replacement ++ escape r1)) as Hbad
    by (apply Forall_app; split; [done|apply IHr; [lia|done]]).
  destruct (b1 <? 128) eqn:L1.
  { apply Z.ltb_lt in L1. apply Forall_app. unfold byte in B1. split; [apply Ha; lia|apply IHr; [lia|done]]. }
  destruct r1 as [|b2 r2]; [done|]. apply Forall_cons in Hb as [B2 Hb]. cbn [length] in IHr.
  destruct (utf8_2 b1 b2) eqn:H2.
  { apply utf8_2_bytes in H2. apply Forall_app. split; [all_visible|apply IHr; [lia|done]]. }
  destruct r2 as [|b3 r3]; [done|]. apply Forall_cons in Hb as [B3 Hb]. cbn [length] in IHr.
  destruct (utf8_3 b1 b2 b3) eqn:H3.
  { apply utf8_3_bytes in H3. apply Forall_app. split; [apply escape_3_visible; all_visible|apply IHr; [lia|done]]. }
  destruct r3 as [|b4 r4]; [done|]. apply Forall_cons in Hb as [B4 Hb]. cbn [length] in IHr.
  destruct (utf8_4 b1 b2 b3 b4) eqn:H4; [|done]. apply utf8_4_bytes in H4.
  apply Forall_app. split; [all_visible|apply IHr; [lia|done]].
Qed.

Lemma json_string_visible s : Forall visible (escape (bytes_of s)).
Proof. apply (escape_visible (length (bytes_of s))); [done|apply bytes_of_byte]. Qed.

Lemma json_string_print s : bytes_of (json_string s) = print (JString (bytes_of s)).
Proof.
  unfold json_string. rewrite !bytes_of_app, bytes_of_string_of_bytes; [done|].
  apply visible_byte, json_string_visible.
Qed.

Lemma json_member_print name value v :
  bytes_of value = print v -> bytes_of (json_member name value) = print_member (bytes_of name, v).
Proof.
  intros Hv. unfold json_member, print_member. rewrite !bytes_of_app, json_string_print, Hv. done.
Qed.

Lemma concat_commas texts : bytes_of (String.concat "," texts) = commas (map bytes_of texts).
Proof.
  induction texts as [|t [|u texts] IH]; [done|done|].
  change (String.concat "," (t :: u :: texts)) with (t +:+ "," +:+ String.concat "," (u :: texts)).
  rewrite !bytes_of_app, IH. done.
Qed.

Lemma json_object_print texts members :
  map bytes_of texts = map print_member members -> bytes_of (json_object texts) = print (JObject members).
Proof.
  intros Ht. unfold json_object. rewrite !bytes_of_app, concat_commas, Ht. done.
Qed.

Lemma json_array_print texts items :
  map bytes_of texts = map print items -> bytes_of (json_array texts) = print (JArray items).
Proof. intros Ht. unfold json_array. rewrite !bytes_of_app, concat_commas, Ht. done. Qed.

Lemma json_bool_print b : bytes_of (json_bool b) = print (JBool b).
Proof. done. Qed.

Lemma pretty_visible (n : Z) : Forall visible (bytes_of (pretty n)).
Proof.
  assert (forall p, Forall visible (bytes_of (pretty (Npos p)))) as Hp.
  { intros p. destruct (pretty_positive_digits p) as [[Hd _] _]. apply (Forall_impl _ _ _ Hd).
    unfold digit, in_range, visible. intros b. rewrite andb_true_iff, !Z.leb_le. lia. }
  destruct n as [|p|p]; [cbn; all_visible|apply Hp|].
  change (bytes_of (pretty (Zneg p))) with (45 :: bytes_of (pretty (Npos p))).
  apply List.Forall_cons; [done|apply Hp].
Qed.
Close Scope Z_scope.
