(* ===== verification/ServiceTheorems.v ===== *)
(** * What the tool service guarantees

    A sandbox executes only what every check has cleared, after the permission was
    written to the audit; each refusal is recorded; and the built-in contracts accept
    whatever a sandbox answers. *)
From S2P Require Import Prelude Sha256 GoLib Json Float64 Effect Contract ContractTheorems AuditLog Policy PolicyTheorems ToolService JsonPrint.
From S2P Require Import Controller.

Section invocations.
Context {W : Type} `{FileSystem} `{ErrorText}.
Variables (registry : Registry) (engine : Engine W) (sandbox : Sandbox W) (audit : AuditRecorder W).

(** An invocation that has passed every check, and what it is turned into. *)
Record Cleared (invocation : Invocation) (contract : Contract) (command : list string)
    (stdin : option string) (paths : list string) : Prop := {
  cl_configured : sc_RunID (sb_Scope sandbox) <> "" /\ sc_AttemptID (sb_Scope sandbox) <> "";
  cl_scope : in_RunID invocation = sc_RunID (sb_Scope sandbox) /\
             in_AttemptID invocation = sc_AttemptID (sb_Scope sandbox);
  cl_registered : GetContract registry (in_ToolName invocation) = Some contract;
  cl_input : ValidateInput contract (in_Input invocation) = Ok tt;
  cl_command : buildRequest (sb_Workspace sandbox) contract (in_Input invocation) = Ok (command, stdin, paths);
  cl_inside : forall p, p ∈ paths -> exists inside, NormalizePath (sb_Workspace sandbox) p = Ok inside;
  cl_allowlist : PathsAllowed paths (ct_AllowedPaths contract) = true;
  cl_policy : exists rule, Permits (en_config engine)
                (policyRequest (sb_Scope sandbox) contract paths (in_Environment invocation)) rule
}.

(** The record of the permission. *)
Definition granted (invocation : Invocation) (contract : Contract) (paths : list string) : M W unit :=
  permission engine (policyRequest (sb_Scope sandbox) contract paths (in_Environment invocation)).

(** The sandbox is run once, within the limits of the contract, and its result is
    recorded once. *)
Definition Executed (ctx : Context) (invocation : Invocation) (contract : Contract) (command : list string)
    (stdin : option string) (w : W) (reply : Reply) (w' : W) : Prop :=
  exists outcome failure w1 event,
    sb_Execute sandbox ctx (sandboxRequest contract command stdin (in_Environment invocation)) w =
      ((outcome, failure), w1) /\
    (au_Kind event = AuditExecutionCompleted \/ au_Kind event = AuditExecutionFailed) /\
    au_RunID event = in_RunID invocation /\ au_AttemptID event = in_AttemptID invocation /\
    w' = snd (audit background event w1) /\
    (rp_Err reply = None ->
       failure = None /\ rp_Response reply = responseOf outcome /\
       ValidateOutput contract (marshalResponse (responseOf outcome)) = Ok tt /\
       fst (audit background event w1) = Ok tt).

(** The sandbox is not run: an error, and at most one record, in the scope of the
    sandbox. *)
Definition Refused (w : W) (reply : Reply) (w' : W) : Prop :=
  rp_Response reply = emptyResponse /\ is_Some (rp_Err reply) /\
  ((sc_RunID (sb_Scope sandbox) = "" \/ sc_AttemptID (sb_Scope sandbox) = "") /\ w' = w \/
   exists recorder event, (recorder = audit \/ recorder = en_audit engine) /\
     au_RunID event = sc_RunID (sb_Scope sandbox) /\ au_AttemptID event = sc_AttemptID (sb_Scope sandbox) /\
     (au_Kind event = AuditPolicyDenied \/
      au_Kind event = AuditPolicyAllowed /\ fst (recorder background event w) <> Ok tt) /\
     w' = snd (recorder background event w)).

Lemma refuse_spec event e w :
  exists reply w', refuse audit event e w = (Ok reply, w') /\ rp_Response reply = emptyResponse /\
    is_Some (rp_Err reply) /\ w' = snd (audit background event w).
Proof.
  unfold refuse, RecordBounded, mbind, M_bind, try. destruct (audit background event w) as [r w'].
  eexists _, _. split; [done|]. split; [done|]. split; [eauto|done].
Qed.

Lemma refuse_Refused event e w :
  au_RunID event = sc_RunID (sb_Scope sandbox) -> au_AttemptID event = sc_AttemptID (sb_Scope sandbox) ->
  au_Kind event = AuditPolicyDenied ->
  exists reply w', refuse audit event e w = (Ok reply, w') /\ Refused w reply w'.
Proof.
  intros Hr Ha Hk. destruct (refuse_spec event e w) as (reply & w' & -> & Hp & He & Hw).
  exists reply, w'. split; [done|]. split; [done|]. split; [done|]. right. exists audit, event. eauto 10.
Qed.

Lemma executeTool_Executed ctx invocation contract command stdin paths w :
  in_RunID invocation = sc_RunID (sb_Scope sandbox) /\ in_AttemptID invocation = sc_AttemptID (sb_Scope sandbox) ->
  exists reply w',
    executeTool sandbox audit (Version engine) contract ctx invocation command stdin paths w = (Ok reply, w') /\
    Executed ctx invocation contract command stdin w reply w'.
Proof.
  intros [Hr Ha]. unfold executeTool, Executed.
  destruct (sb_Execute _ _ _ w) as [[outcome failure] w1] eqn:Hx.
  destruct (ValidateOutput _ _) as [[]|e] eqn:Ho.
  - unfold mbind, M_bind, try, RecordBounded. set (event := executionEvent _ _ _ _ _ _ _).
    destruct (audit background event w1) as [r w'] eqn:Hau.
    eexists _, _. split; [reflexivity|]. exists outcome, failure, w1, event. rewrite Hau.
    split; [done|]. split; [by destruct failure; [right|left]|].
    split; [done|]. split; [done|]. split; [done|]. destruct r as [[]|a]; [|done]. cbn. intros ->. done.
  - set (event := _ <| au_Kind := _ |>). destruct (refuse_spec event e w1) as (reply & w' & -> & _ & [e' He] & ->).
    eexists _, _. split; [done|]. exists outcome, failure, w1, event. split; [done|]. split; [by right|].
    split; [done|]. split; [done|]. split; [done|]. by rewrite He.
Qed.

Lemma checkPaths_Ok workspace paths :
  checkPaths workspace paths = Ok tt <->
  forall p, p ∈ paths -> exists inside, NormalizePath workspace p = Ok inside.
Proof.
  induction paths as [|p paths IH]; cbn [checkPaths]; [split; [by intros _ ? ?%elem_of_nil|done]|].
  setoid_rewrite elem_of_cons. split.
  - intros (inside & Hp & Hrest)%bind_Ok q [->|Hq]; [eauto|by apply IH].
  - intros Hall. destruct (Hall p) as [inside Hp]; [by left|]. rewrite Hp. apply IH. eauto.
Qed.

(** [run] is executed in the cleared case, once permitted; refused otherwise. *)
Definition Authorised (ctx : Context) (invocation : Invocation) (w : W) (reply : Reply) (w' : W) : Prop :=
  (exists contract command stdin paths, Cleared invocation contract command stdin paths /\
     fst (granted invocation contract paths w) = Ok tt /\
     Executed ctx invocation contract command stdin (snd (granted invocation contract paths w)) reply w') \/
  (forall contract command stdin paths, Cleared invocation contract command stdin paths ->
     fst (granted invocation contract paths w) <> Ok tt) /\ Refused w reply w'.

Lemma refused_Authorised ctx invocation w (run : M W Reply) :
  (forall contract command stdin paths, ~ Cleared invocation contract command stdin paths) ->
  (exists reply w', run w = (Ok reply, w') /\ Refused w reply w') ->
  exists reply w', run w = (Ok reply, w') /\ Authorised ctx invocation w reply w'.
Proof.
  intros Hn (reply & w' & Hrun & HR). exists reply, w'. split; [done|]. right. split; [|done].
  intros ? ? ? ? Hc. by destruct (Hn _ _ _ _ Hc).
Qed.

Lemma policy_step ctx invocation contract command stdin paths w :
  in_RunID invocation = sc_RunID (sb_Scope sandbox) /\ in_AttemptID invocation = sc_AttemptID (sb_Scope sandbox) ->
  let request := policyRequest (sb_Scope sandbox) contract paths (in_Environment invocation) in
  exists reply w',
    (decision ← DecidePolicy engine request;
     if negb (dec_Allowed decision) then mret (MkReply emptyResponse (dec_Err decision))
     else executeTool sandbox audit (Version engine) contract ctx invocation command stdin paths) w = (Ok reply, w') /\
    ((exists rule, Permits (en_config engine) request rule) /\ fst (permission engine request w) = Ok tt /\
       Executed ctx invocation contract command stdin (snd (permission engine request w)) reply w' \/
     ~ ((exists rule, Permits (en_config engine) request rule) /\ fst (permission engine request w) = Ok tt) /\
       Refused w reply w').
Proof.
  intros Hs request. unfold mbind, M_bind. destruct (decide (exists rule, Permits (en_config engine) request rule)) as [Hp|Hn].
  - rewrite (DecidePolicy_permitted engine request w Hp).
    destruct (fst (permission engine request w)) as [[]|e] eqn:Hg; cbn -[executeTool].
    + destruct (executeTool_Executed ctx invocation contract command stdin paths (snd (permission engine request w)) Hs)
        as (reply & w' & Hx & HE). eauto 10.
    + eexists _, _. split; [done|]. right. split; [by intros [_ ?]|]. split; [done|]. split; [eauto|]. right.
      exists (en_audit engine), (auditEventForRequest AuditPolicyAllowed (Version engine) request "").
      unfold permission, decisionAudit, RecordBounded in Hg |- *. unfold Version. rewrite Hg. split_and!; auto.
  - destruct (DecidePolicy_refused engine request w Hn) as [reason ->]. cbn -[executeTool].
    eexists _, _. split; [done|]. right. split; [by intros [? _]|]. split; [done|]. split; [eauto|]. right.
    exists (en_audit engine), (auditEventForRequest AuditPolicyDenied (Version engine) request reason).
    split_and!; auto.
Qed.

Lemma invokeContract_Authorised ctx invocation contract w :
  sc_RunID (sb_Scope sandbox) <> "" /\ sc_AttemptID (sb_Scope sandbox) <> "" ->
  in_RunID invocation = sc_RunID (sb_Scope sandbox) /\ in_AttemptID invocation = sc_AttemptID (sb_Scope sandbox) ->
  GetContract registry (in_ToolName invocation) = Some contract ->
  exists reply w', invokeContract engine sandbox audit contract ctx invocation w = (Ok reply, w') /\
    Authorised ctx invocation w reply w'.
Proof.
  intros Hc Hs Hr. unfold invokeContract.
  destruct (ValidateInput contract (in_Input invocation)) as [[]|e] eqn:Hi.
  2: { apply refused_Authorised; [intros ? ? ? ? []; congruence|by apply refuse_Refused]. }
  destruct (buildRequest _ _ _) as [[[command stdin] paths]|e] eqn:Hb.
  2: { apply refused_Authorised; [intros ? ? ? ? []; congruence|by apply refuse_Refused]. }
  destruct (checkPaths _ _) as [[]|e] eqn:Hp.
  2: { apply refused_Authorised; [|by apply refuse_Refused]. intros contract' command' stdin' paths' [].
       assert (contract' = contract) as -> by congruence. assert (paths' = paths) as -> by congruence.
       by rewrite (proj2 (checkPaths_Ok _ _)) in Hp. }
  destruct (PathsAllowed _ _) eqn:Hl; cbn [negb].
  2: { apply refused_Authorised; [|by apply refuse_Refused]. intros contract' command' stdin' paths' []. congruence. }
  destruct (policy_step ctx invocation contract command stdin paths w Hs) as (reply & w' & Hrun & Hcase).
  exists reply, w'. split; [exact Hrun|]. destruct Hcase as [(Hpm & Hg & HE)|[Hn HR]].
  - left. exists contract, command, stdin, paths. split; [|done]. split; try done. by apply checkPaths_Ok.
  - right. split; [|done]. intros contract' command' stdin' paths' [] Hg.
    assert (contract' = contract) as -> by congruence. assert (paths' = paths) as -> by congruence. by apply Hn.
Qed.

Lemma Invoke_Authorised ctx invocation w :
  exists reply w',
    Invoke (MkService (Some registry) (Some engine) (Some sandbox) (Some audit)) ctx invocation w = (Ok reply, w') /\
    Authorised ctx invocation w reply w'.
Proof.
  unfold Invoke. cbn. case_decide as Hc.
  { apply refused_Authorised; [intros ? ? ? ? [[? ?]]; by destruct Hc|].
    eexists _, _. split; [done|]. split; [done|]. split; [eauto|by left]. }
  destruct (decide (in_RunID invocation <> _ \/ _)) as [Hs|Hs].
  { apply refused_Authorised; [intros ? ? ? ? [? [? ?]]; by destruct Hs|by apply refuse_Refused]. }
  destruct (GetContract registry (in_ToolName invocation)) as [contract|] eqn:Hr.
  2: { apply refused_Authorised; [intros ? ? ? ? []; congruence|by apply refuse_Refused]. }
  apply invokeContract_Authorised; [naive_solver|..|done].
  split; apply dec_stable; naive_solver.
Qed.

(** C5: nothing runs unauthorised.  A configured service always answers.  Either the
    invocation is in the scope of the sandbox, names a registered tool, its input has
    the type of the contract and makes a command whose every path resolves inside the
    workspace, is on the contract's allowlist and is permitted, with the contract's
    limits, by a rule of the policy, and the permission is in the audit: then the
    sandbox runs that command once and the outcome is recorded once.  Or one of these
    fails: then the sandbox is not run, the reply is an error and the only effect is
    one record, in the sandbox's own scope. *)
Theorem execution_is_authorised ctx invocation w :
  exists reply w',
    Invoke (MkService (Some registry) (Some engine) (Some sandbox) (Some audit)) ctx invocation w = (Ok reply, w') /\
    Authorised ctx invocation w reply w'.
Proof. apply Invoke_Authorised. Qed.
End invocations.
