(* ===== verification/WireTheorems.v ===== *)
(** * What is written is read back

    The response of a tool and the lines of the audit file, as JSON documents; and the
    theorems on tools, policies and audits at concrete inputs. *)
From S2P Require Import Prelude Sha256 GoLib Json Effect Reasoner Controller Float64 Contract ContractTheorems.
From S2P Require Import Policy AuditLog PathFacts PolicyTheorems ToolService JsonPrint ServiceTheorems.

Definition jstring (s : string) : json := JString (bytes_of s).
Definition jinteger (n : Z) : json := JNumber (bytes_of (pretty n)).

(** A text, on one line, that prints a value of bounded depth. *)
Record shows (d : nat) (text : string) (v : json) : Prop := {
  sw_text : bytes_of text = print v;
  sw_printable : printable v;
  sw_depth : (json_depth v <= d)%nat;
  sw_visible : Forall visible (bytes_of text)
}.

(** A member of an object and the text that prints it. *)
Inductive prints (d : nat) : string -> list Z * json -> Prop :=
  | prints_member name text v : shows d text v -> prints d (json_member name text) (bytes_of name, v).

Create HintDb wire.
#[export] Hint Resolve bytes_of_byte prints_member : wire.

Lemma visible_app a b : Forall visible (bytes_of a) -> Forall visible (bytes_of b) -> Forall visible (bytes_of (a +:+ b)).
Proof. intros. rewrite bytes_of_app. by apply Forall_app. Qed.

Lemma visible_json_string s : Forall visible (bytes_of (json_string s)).
Proof.
  rewrite json_string_print. apply List.Forall_cons; [done|]. apply Forall_app.
  split; [apply json_string_visible|all_visible].
Qed.

Lemma visible_concat texts :
  Forall (fun t => Forall visible (bytes_of t)) texts -> Forall visible (bytes_of (String.concat "," texts)).
Proof.
  intros Hall. rewrite concat_commas. induction Hall as [|t texts Ht Hrest IH]; [constructor|].
  destruct texts as [|u texts]; [done|].
  change (commas (map bytes_of (t :: u :: texts))) with (bytes_of t ++ 44%Z :: commas (map bytes_of (u :: texts))).
  apply Forall_app. split; [done|]. by apply List.Forall_cons.
Qed.

Lemma shows_string d s : shows d (json_string s) (jstring s).
Proof. split; [apply json_string_print|apply bytes_of_byte|cbn; lia|apply visible_json_string]. Qed.

Lemma shows_integer d n : shows d (pretty n) (jinteger n).
Proof. split; [done|apply pretty_number|cbn; lia|apply pretty_visible]. Qed.

Lemma shows_bool d b : shows d (json_bool b) (JBool b).
Proof. split; [done|done|cbn; lia|destruct b; cbn; all_visible]. Qed.

Lemma shows_array d texts values :
  Forall2 (shows d) texts values -> shows (S d) (json_array texts) (JArray values).
Proof.
  intros Hall. split.
  - apply json_array_print. induction Hall as [|t v ts vs [Ht _ _ _] _ IH]; [done|]. cbn. by rewrite Ht, IH.
  - induction Hall as [|t v ts vs [_ Hp _ _] _ IH]; [done|]. by split.
  - cbn. apply le_n_S. induction Hall as [|t v ts vs [_ _ Hd _] _ IH]; [cbn; lia|]. cbn in *. lia.
  - apply List.Forall_cons; [done|]. apply visible_app; [|cbn; all_visible]. apply visible_concat.
    induction Hall as [|t v ts vs [_ _ _ Hv] _ IH]; by constructor.
Qed.

Lemma shows_object d texts members :
  Forall2 (prints d) texts members -> shows (S d) (json_object texts) (JObject members).
Proof.
  intros Hall. split.
  - apply json_object_print. induction Hall as [|t m ts ms [name text v [Ht _ _ _]] _ IH]; [done|].
    cbn [map]. by rewrite IH, (json_member_print name text v).
  - induction Hall as [|t m ts ms [name text v [_ Hp _ _]] _ IH]; [done|]. split; [split; [apply bytes_of_byte|done]|exact IH].
  - cbn. apply le_n_S. induction Hall as [|t m ts ms [name text v [_ _ Hd _]] _ IH]; [cbn; lia|]. cbn in *. lia.
  - apply List.Forall_cons; [done|]. apply visible_app; [|cbn; all_visible]. apply visible_concat.
    induction Hall as [|t m ts ms [name text v [_ _ _ Hv]] _ IH]; [constructor|]. constructor; [|done].
    apply visible_app; [apply visible_json_string|]. by apply List.Forall_cons.
Qed.

Lemma shows_strings d values : shows (S d) (json_array (map json_string values)) (JArray (map jstring values)).
Proof. apply shows_array. induction values; constructor; [apply shows_string|done]. Qed.

#[export] Hint Resolve shows_string shows_integer shows_bool shows_strings shows_array shows_object : wire.

(** Reading back what was printed. *)
Lemma parse_shown d text v : shows d text v -> (d <= maxNestingDepth)%nat -> parse_bytes (bytes_of text) = Some (sanitized v).
Proof. intros [-> Hp Hd _] Hle. apply parse_print; [done|lia]. Qed.

Lemma shallow : (9 <= maxNestingDepth)%nat.
Proof. unfold maxNestingDepth. lia. Qed.

(** ** Responses *)

Definition responseMembers (r : Response) : list (list Z * json) :=
  [ (bytes_of "stdout", jstring (rs_Stdout r)); (bytes_of "stderr", jstring (rs_Stderr r));
    (bytes_of "exitCode", jinteger (rs_ExitCode r)); (bytes_of "timedOut", JBool (rs_TimedOut r));
    (bytes_of "truncated", JBool (rs_Truncated r)) ].

Lemma response_parses r :
  parse_bytes (bytes_of (marshalResponse r)) = Some (sanitized (JObject (responseMembers r))).
Proof.
  apply (parse_shown 1); [|pose proof shallow; lia]. apply shows_object.
  repeat (constructor; [auto with wire|]). constructor.
Qed.

Lemma number_Int64_pretty n : (- 2 ^ 63 <= n < 2 ^ 63)%Z -> number_Int64 (bytes_of (pretty n)) = Some n.
Proof.
  intros Hn. assert (((- 2 ^ 63 <=? n) && (n <? 2 ^ 63))%Z = true) as Hb
    by (rewrite andb_true_iff, Z.leb_le, Z.ltb_lt; lia).
  assert (forall p, let ds := bytes_of (pretty (Npos p)) in
    forallb digit ds = true /\ digits_value ds = Zpos p /\ exists b r, ds = b :: r /\ b <> 45%Z) as Hp.
  { intros p ds. destruct (pretty_positive_digits p) as [[Hd Hh] Hv]. split; [|split; [done|]].
    - apply forallb_forall. intros b Hi%list_elem_of_In. rewrite Forall_forall in Hd. by apply Hd.
    - assert (exists b r, ds = b :: r) as (b & r & E) by (destruct Hh as [E|(? & ? & E & _)]; eauto).
      exists b, r. split; [done|]. fold ds in Hd. rewrite E in Hd. apply Forall_cons in Hd as [Hd _].
      by apply digit_heads. }
  destruct n as [|p|p]; [done| |]; unfold number_Int64; destruct (Hp p) as (Hd & Hv & b & r & E & H45);
    [change (bytes_of (pretty (Zpos p))) with (bytes_of (pretty (Npos p)))
    |change (bytes_of (pretty (Zneg p))) with (45%Z :: bytes_of (pretty (Npos p)))].
  - rewrite E in *. assert (match b :: r with 45%Z :: r0 => (true, r0) | _ => (false, b :: r) end = (false, b :: r)) as ->
      by (repeat case_match; congruence).
    rewrite Hd, bool_decide_false by done. cbn [negb andb]. rewrite Hv. by rewrite Hb.
  - rewrite E in *. rewrite Hd, bool_decide_false by done. cbn [negb andb]. rewrite Hv.
    change (- Zpos p)%Z with (Zneg p). by rewrite Hb.
Qed.

(** The schema every built-in contract has for its output. *)
Definition outputDefinition : object := Eval vm_compute in default [] (unmarshal_map outputSchema).

Lemma outputSchema_definition : unmarshal_map outputSchema = Some outputDefinition.
Proof. vm_compute. reflexivity. Qed.

Lemma output_accepted out err code timedOut truncated :
  is_Some (number_Int64 code) ->
  validateSchemaValue outputDefinition
    (JObject [ (bytes_of "stdout", JString out); (bytes_of "stderr", JString err);
               (bytes_of "exitCode", JNumber code); (bytes_of "timedOut", JBool timedOut);
               (bytes_of "truncated", JBool truncated) ]) = true.
Proof. intros [n Hn]. lazy -[number_Int64]. by rewrite Hn. Qed.

(** no answer of a sandbox is lost to the output schema of a built-in tool:
    a response with any output, valid text or not, and any exit code of 64 bits is one
    JSON document that reads back with the same members and that every built-in
    contract accepts. *)
Theorem builtin_output_is_valid contract r :
  contract ∈ builtinContracts -> (- 2 ^ 63 <= rs_ExitCode r < 2 ^ 63)%Z ->
  parse_bytes (bytes_of (marshalResponse r)) = Some (sanitized (JObject (responseMembers r))) /\
  ValidateOutput contract (marshalResponse r) = Ok tt.
Proof.
  intros Hc Hn. split; [apply response_parses|]. unfold ValidateOutput, validateJSONSchema.
  assert (ct_OutputSchema contract = outputSchema) as ->.
  { revert contract Hc. apply Forall_forall. by repeat constructor. }
  rewrite outputSchema_definition, response_parses.
  assert (validateSchemaValue outputDefinition (sanitized (JObject (responseMembers r))) = true) as ->; [|done].
  apply output_accepted. rewrite number_Int64_pretty by done. eauto.
Qed.

(** ** The audit file *)

Definition opt_string (name s : string) : list (list Z * json) :=
  if decide (s = "") then [] else [(bytes_of name, jstring s)].
Definition opt_integer (name : string) (n : Z) : list (list Z * json) :=
  if decide (n = 0%Z) then [] else [(bytes_of name, jinteger n)].
Definition opt_strings (name : string) (values : list string) : list (list Z * json) :=
  if decide (values = []) then [] else [(bytes_of name, JArray (map jstring values))].

(** The document an event stands for. *)
Definition auditDocument (e : AuditEvent) : list (list Z * json) :=
  [(bytes_of "kind", jstring (au_Kind e))] ++
  opt_string "run_id" (au_RunID e) ++
  opt_string "attempt_id" (au_AttemptID e) ++
  opt_string "requested_run_id" (au_RequestedRunID e) ++
  opt_string "requested_attempt_id" (au_RequestedAttemptID e) ++
  opt_string "tool_name" (au_ToolName e) ++
  opt_string "contract_version" (au_ContractVersion e) ++
  opt_string "policy_version" (au_PolicyVersion e) ++
  opt_string "capability" (au_Capability e) ++
  [(bytes_of "read_only", JBool (au_ReadOnly e))] ++
  opt_strings "allowed_paths" (au_AllowedPaths e) ++
  [(bytes_of "network", JBool (au_Network e))] ++
  opt_strings "environment" (au_Environment e) ++
  [(bytes_of "timeout_millis", jinteger (au_TimeoutMillis e))] ++
  [(bytes_of "output_limit_bytes", jinteger (au_OutputLimit e))] ++
  opt_string "image_id" (au_ImageID e) ++
  opt_string "cpu_limit" (au_CPU e) ++
  opt_string "memory_limit" (au_Memory e) ++
  opt_integer "pid_limit" (au_PIDs e) ++
  opt_string "reason" (au_Reason e) ++
  [(bytes_of "exit_code", jinteger (au_ExitCode e))] ++
  [(bytes_of "output_bytes", jinteger (au_OutputBytes e))] ++
  [(bytes_of "timestamp", jstring (au_Timestamp e))].

Lemma prints_omitempty d name s : Forall2 (prints d) (omitempty name s) (opt_string name s).
Proof. unfold omitempty, opt_string. case_decide; [constructor|]. constructor; [auto with wire|constructor]. Qed.
Lemma prints_omit_zero d name n : Forall2 (prints d) (omit_zero name n) (opt_integer name n).
Proof. unfold omit_zero, opt_integer. case_decide; [constructor|]. constructor; [auto with wire|constructor]. Qed.
Lemma prints_omit_list d name values : Forall2 (prints (S d)) (omit_empty_list name values) (opt_strings name values).
Proof. unfold omit_empty_list, opt_strings. case_decide; [constructor|]. constructor; [auto with wire|constructor]. Qed.
Lemma prints_one d text m : prints d text m -> Forall2 (prints d) [text] [m].
Proof. intros Hp. constructor; [done|constructor]. Qed.
#[export] Hint Resolve prints_omitempty prints_omit_zero prints_omit_list prints_one : wire.

Lemma auditMembers_prints e : Forall2 (prints 1) (auditMembers e) (auditDocument e).
Proof. unfold auditMembers, auditDocument. repeat (apply Forall2_app; [by auto with wire|]). auto with wire. Qed.

Lemma marshalAudit_shows e : shows 2 (marshalAudit e) (JObject (auditDocument e)).
Proof. apply shows_object, auditMembers_prints. Qed.

Lemma marshalAudit_visible e : Forall visible (bytes_of (marshalAudit e)).
Proof. apply (sw_visible _ _ _ (marshalAudit_shows e)). Qed.

(** The lines of a file: what precedes each newline, and the rest. *)
Fixpoint file_lines (current : list Z) (bs : list Z) : list (list Z) :=
  match bs with
  | [] => if decide (current = []) then [] else [rev current]
  | b :: rest => if decide (b = 10%Z) then rev current :: file_lines [] rest else file_lines (b :: current) rest
  end.

Lemma file_lines_line current line rest :
  Forall visible line ->
  file_lines current (line ++ 10%Z :: rest) = (rev current ++ line) :: file_lines [] rest.
Proof.
  intros Hv. revert current. induction Hv as [|b line Hb _ IH]; intros current; cbn [app file_lines].
  - by rewrite decide_True, app_nil_r.
  - rewrite decide_False by (unfold visible in Hb; lia). rewrite IH. cbn. by rewrite <- app_assoc.
Qed.

(** What a reader of the file gets: one document per line. *)
Definition documents (content : string) : list (option json) := map parse_bytes (file_lines [] (bytes_of content)).

Lemma auditLine_bytes e : bytes_of (auditLine e) = bytes_of (marshalAudit e) ++ [10%Z].
Proof. unfold auditLine. by rewrite bytes_of_app. Qed.

(** A file that holds the lines of some events. *)
Definition holds_lines (content : string) (events : list AuditEvent) : Prop :=
  bytes_of content = concat (map (fun e => bytes_of (marshalAudit e) ++ [10%Z]) events).

Lemma holds_lines_snoc content events e :
  holds_lines content events -> holds_lines (content +:+ auditLine e) (events ++ [e]).
Proof.
  unfold holds_lines. intros Hc.
  by rewrite bytes_of_app, auditLine_bytes, Hc, map_app, concat_app; cbn; rewrite app_nil_r.
Qed.

Lemma documents_lines content events :
  holds_lines content events ->
  documents content = map (fun e => Some (sanitized (JObject (auditDocument e)))) events.
Proof.
  unfold documents, holds_lines. intros ->. induction events as [|e events IH]; [done|].
  cbn [map concat]. rewrite <- app_assoc. cbn [app].
  rewrite file_lines_line by apply marshalAudit_visible. cbn [map]. rewrite IH. f_equal. cbn [rev app].
  apply (parse_shown 2); [apply marshalAudit_shows|pose proof shallow; lia].
Qed.

Section file.
Context {W : Type} `{WallClock W} `{FileAudit W}.

(** The calls on one recorder, and the events of those that succeeded, as stamped. *)
Inductive recorded (w : W) : list AuditEvent -> W -> Prop :=
  | recorded_none : recorded w [] w
  | recorded_written events w1 ctx e w2 :
      recorded w events w1 -> recordFile ctx e w1 = (Ok tt, w2) ->
      recorded w (events ++ [stampAudit (Now w1) e]) w2
  | recorded_failed events w1 ctx e err w2 :
      recorded w events w1 -> recordFile ctx e w1 = (Err err, w2) -> recorded w events w2
  | recorded_closed events w1 r w2 :
      recorded w events w1 -> closeFile w1 = (r, w2) -> recorded w events w2.

Hypothesis file_set : forall recorder w, audit_file (set_audit_file recorder w) = recorder.

Lemma recordFile_content ctx e w r w' :
  recordFile ctx e w = (r, w') ->
  match r with
  | Ok _ => fa_content (audit_file w') = fa_content (audit_file w) +:+ auditLine (stampAudit (Now w) e)
  | Err _ => w' = w
  end.
Proof.
  unfold recordFile, mbind, M_bind, gets, modify, throw. unfold checkContext. destruct (ctx_Err ctx); cbn; [by intros [= <- <-]|].
  destruct (fa_open (audit_file w)); intros [= <- <-]; [|done]. by rewrite file_set.
Qed.

Lemma closeFile_content w r w' : closeFile w = (r, w') -> fa_content (audit_file w') = fa_content (audit_file w).
Proof.
  unfold closeFile, mbind, M_bind, gets, modify. destruct (fa_open (audit_file w)); intros [= <- <-]; [|done].
  by rewrite file_set.
Qed.

(** C37: the audit file is readable, whatever was recorded: after any calls on a
    recorder whose file was empty, its lines are, in order, one JSON document for each
    event of a successful call - stamped, if it bore no time, with the time of the
    call - and each reads back as the members of that event; no text in an event can
    break a line or add one. *)
Theorem audit_log_roundtrip w events w' :
  fa_content (audit_file w) = "" -> recorded w events w' ->
  documents (fa_content (audit_file w')) = map (fun e => Some (sanitized (JObject (auditDocument e)))) events.
Proof.
  intros Hw Hr. apply documents_lines. induction Hr as [|events w1 ctx e w2 _ IH Hc|events w1 ctx e err w2 _ IH Hc|events w1 r w2 _ IH Hc].
  - by rewrite Hw.
  - apply recordFile_content in Hc as ->. by apply holds_lines_snoc.
  - by apply recordFile_content in Hc as ->.
  - by apply closeFile_content in Hc as ->.
Qed.
End file.

(** * The theorems on tools, policies and audits, at concrete inputs *)

(** ** Contracts *)

Definition listContract : Contract := default (MkContract "" "" "" "" "" true 0 0 [] false "") (head builtinContracts).

Lemma listContract_valid : ValidateContract listContract = Ok tt.
Proof. vm_compute. reflexivity. Qed.

Lemma valid_contract_is_typed_witness :
  exists schema, unmarshal_map listSchema = Some schema /\ saysType schema "object" /\
    forall input, ValidateInput listContract input = Ok tt <->
      exists v, parse_bytes (bytes_of input) = Some v /\ typed schema v.
Proof. destruct (valid_contract_is_typed listContract listContract_valid) as [Hi _]. exact Hi. Defined.

(** ** A file system without links *)

#[local] Instance plainFiles : FileSystem := {
  os_Lstat := fun _ => Exists; EvalSymlinks := fun p => Ok p; os_Getwd := Ok "/" }.

#[local] Instance plainFiles_laws : FileSystemLaws.
Proof.
  split; cbn; [by intros p q [= ->]|by intros p q [= ->]|by intros p q c _ [= ->]|eauto|done].
Qed.

Lemma normalized_sample : NormalizePath "/repo" "./pkg//main.go" = Ok "pkg/main.go".
Proof. vm_compute. reflexivity. Qed.

Lemma no_symlink_escape_witness :
  NormalizePath "/repo" "./pkg//main.go" = Ok "pkg/main.go" /\
  exists canonicalRoot, EvalSymlinks (filepath_Clean "/repo") = Ok canonicalRoot /\
    forall k r, EvalSymlinks (descend canonicalRoot (take k (directories "./pkg//main.go"))) = Ok r ->
      rooted r = true -> clean_components canonicalRoot `prefix_of` clean_components r.
Proof.
  split; [exact normalized_sample|].
  apply (no_symlink_escape "/repo" "./pkg//main.go" "pkg/main.go"); [exact eq_refl|exact normalized_sample].
Defined.

(** A link that leaves the repository is refused. *)
Definition linkedFiles : FileSystem := {|
  os_Lstat := fun _ => Exists;
  EvalSymlinks := fun p => Ok (if decide (p = "/repo/link") then "/etc" else p);
  os_Getwd := Ok "/" |}.

Example link_refused : is_ok (@NormalizePath linkedFiles "/repo" "link/passwd") = false.
Proof. vm_compute. reflexivity. Qed.
Example file_accepted : @NormalizePath linkedFiles "/repo" "pkg/passwd" = Ok "pkg/passwd".
Proof. vm_compute. reflexivity. Qed.

(** ** Policies *)

(** A decoder that accepts one text, the policy of the demonstration. *)
#[local] Instance sampleYAML : YAML := {
  decodeFirst := fun content =>
    if decide (content = "policy")
    then Ok (MkRawConfig "v1" "deny" ["GOFLAGS"]
               [MkRawRule "repo.read" "repo:read" true ["."] false "10s" 262144])
    else Err (Plain "yaml");
  decodeNext := fun _ => EndOfInput
}.

Definition sampleConfig : Config :=
  MkConfig "v1" "deny" ["GOFLAGS"] [MkRule "repo.read" "repo:read" true ["."] false (10 * 10 ^ 9) 262144].

Lemma sample_parsed : Parse "policy" = Ok sampleConfig.
Proof. vm_compute. reflexivity. Qed.

Lemma parsed_policy_is_bounded_witness :
  Parse "policy" = Ok sampleConfig /\ cf_Default sampleConfig = "deny" /\
  forall rule, rule ∈ cf_Rules sampleConfig -> (0 < rl_MaxTimeout rule < 2 ^ 63)%Z.
Proof.
  split; [exact sample_parsed|].
  destruct (parsed_policy_is_bounded "policy" sampleConfig sample_parsed) as (_ & Hd & Hr & _).
  split; [exact Hd|]. intros rule Hi. apply (Hr rule Hi).
Defined.

(** ** Audits *)

(** A world that is a log and a file. *)
Record Journal : Type := MkJournal { jr_events : list AuditEvent; jr_file : FileAuditRecorder }.

#[local] Instance journalClock : WallClock Journal := fun _ => "2024-01-01T00:00:00Z".
#[local] Instance journalMemory : MemoryAudit Journal := {
  audit_events := jr_events; set_audit_events := fun events w => MkJournal events (jr_file w) }.
#[local] Instance journalFile : FileAudit Journal := {
  audit_file := jr_file; set_audit_file := fun file w => MkJournal (jr_events w) file }.

Lemma journal_set (recorder : FileAuditRecorder) (w : Journal) : audit_file (set_audit_file recorder w) = recorder.
Proof. reflexivity. Qed.

Definition emptyJournal : Journal := MkJournal [] (MkFileAuditRecorder "" "audit.jsonl" true).

Definition sampleEngine : Engine Journal := NewEngine sampleConfig (Some recordMemory).

Definition policySample (environment : gmap string string) : PolicyRequest :=
  MkPolicyRequest "run-1" "attempt-1" "repo.read" "v1" "repo:read" true ["pkg/main.go"] false
    (10 * 10 ^ 9) 262144 environment.

(** The sample is permitted. *)
Example sample_allowed :
  dec_Allowed <$> fst (DecidePolicy sampleEngine (policySample {["GOFLAGS" := "-mod=mod"]}) emptyJournal) = Ok true.
Proof. vm_compute. reflexivity. Qed.

Lemma audit_omits_environment_values_witness :
  DecidePolicy sampleEngine (policySample {["GOFLAGS" := "secret"]}) emptyJournal =
  DecidePolicy sampleEngine (policySample {["GOFLAGS" := "-mod=mod"]}) emptyJournal.
Proof.
  apply (audit_omits_environment_values sampleEngine (policySample {["GOFLAGS" := "-mod=mod"]})
    {["GOFLAGS" := "secret"]} emptyJournal).
  intros key. cbn [policySample pr_Environment]. destruct (decide ("GOFLAGS" = key)) as [<-|Hk].
  - rewrite !lookup_singleton_eq. split; eauto.
  - rewrite !lookup_singleton_ne by exact Hk. split; intros [? [=]].
Defined.

Definition sampleEvent : AuditEvent :=
  auditEventForRequest AuditPolicyAllowed "v1" (policySample ∅) "two
lines".

Definition recordedJournal : Journal := snd (recordFile background sampleEvent emptyJournal).

Lemma audit_log_roundtrip_witness :
  documents (fa_content (audit_file recordedJournal)) =
  [Some (sanitized (JObject (auditDocument (stampAudit "2024-01-01T00:00:00Z" sampleEvent))))].
Proof.
  apply (audit_log_roundtrip journal_set emptyJournal
    [stampAudit "2024-01-01T00:00:00Z" sampleEvent] recordedJournal); [exact eq_refl|].
  change (recorded emptyJournal ([] ++ [stampAudit (Now emptyJournal) sampleEvent]) recordedJournal).
  apply (recorded_written emptyJournal [] emptyJournal background sampleEvent recordedJournal);
    [apply recorded_none|reflexivity].
Defined.

Lemma builtin_output_is_valid_witness :
  ValidateOutput listContract (marshalResponse (MkResponse "out" "err" (-1) false true)) = Ok tt.
Proof.
  apply (builtin_output_is_valid listContract (MkResponse "out" "err" (-1) false true)).
  - left.
  - split; [discriminate|reflexivity].
Defined.

(** ** Line numbers

    A line number above 2^53 is accepted by the schema and passed on rounded. *)
Definition readContract : Contract := default listContract (nth_error builtinContracts 1).
Definition farLine : string := double_quoted "{'path':'main.go','startLine':9007199254740993}".

Lemma far_line_is_rounded :
  ValidateInput readContract farLine = Ok tt /\
  buildRequest "/repo" readContract farLine =
    Ok ([helper; "read"; "main.go"; "9007199254740992"], None, ["main.go"]).
Proof. vm_compute. split; reflexivity. Qed.
