(* ===== verification/Decode.v ===== *)
(** * Decoding JSON into structs

    [encoding/json] into a struct: members match fields by name, case folded; null
    leaves a field as it is; later members overwrite earlier ones; an unknown member is
    an error when the decoder disallows it; and any mismatch is an error in the end. *)
From S2P Require Import Prelude Sha256 GoLib Json Float64 Regexp Contract.

(** A field of a struct [R]: its name and how a value is stored. *)
Record FieldDecoder (R : Type) : Type := MkFieldDecoder {
  fd_name : string;
  fd_set : json -> R -> option R
}.
Arguments fd_name {R}. Arguments fd_set {R}. Arguments MkFieldDecoder {R}.

Definition find_field {R} (fields : list (FieldDecoder R)) (key : list Z) : option (FieldDecoder R) :=
  List.find (fun f => EqualFold (string_of_bytes key) (fd_name f)) fields.

Fixpoint decode_members {R} (strict : bool) (fields : list (FieldDecoder R)) (members : list (list Z * json))
    (r : R) : option R :=
  match members with
  | [] => Some r
  | (key, v) :: rest =>
      match find_field fields key with
      | Some f => r' ← fd_set f v r; decode_members strict fields rest r'
      | None => if strict then None else decode_members strict fields rest r
      end
  end.

Definition decode_struct {R} (strict : bool) (fields : list (FieldDecoder R)) (v : json) (r : R) : option R :=
  match v with
  | JNull => Some r
  | JObject members => decode_members strict fields members r
  | _ => None
  end.

(** [Decoder.Decode]: the first value of the input; what follows is not read. *)
Definition first_value (bs : list Z) : option json := fst <$> parse_value (S (length bs)) maxNestingDepth bs.

(** ** Values *)

Definition decode_string (v : json) (old : string) : option string :=
  match v with JNull => Some old | JString s => Some (string_of_bytes s) | _ => None end.

Definition decode_bool (v : json) (old : bool) : option bool :=
  match v with JNull => Some old | JBool b => Some b | _ => None end.

(** The elements of an array into a slice that was [old] before, elements beyond its
    length included: an element is decoded into what was there. *)
Fixpoint decode_items {A} (decode : json -> A -> option A) (zero : A) (items : list json) (old : list A)
    : option (list A) :=
  match items with
  | [] => Some []
  | v :: rest =>
      a ← decode v (default zero (head old));
      more ← decode_items decode zero rest (tail old);
      Some (a :: more)
  end.

Definition decode_strings : list json -> list string -> option (list string) := decode_items decode_string "".

(** A slice and the elements of its array beyond its length. *)
Record GoSlice (A : Type) : Type := MkGoSlice { gs_elements : list A; gs_beyond : list A }.
Arguments gs_elements {A}. Arguments gs_beyond {A}. Arguments MkGoSlice {A}.

Definition nilSlice {A} : GoSlice A := MkGoSlice [] [].

Definition decode_slice {A} (decode : json -> A -> option A) (zero : A) (v : json) (old : GoSlice A)
    : option (GoSlice A) :=
  match v with
  | JNull | JArray [] => Some nilSlice
  | JArray items =>
      elements ← decode_items decode zero items (gs_elements old ++ gs_beyond old);
      Some (MkGoSlice elements (drop (length elements) (gs_elements old ++ gs_beyond old)))
  | _ => None
  end.

(** Into a pointer: null is nil; otherwise into what it points to, or a new zero. *)
Definition decode_pointer {A} (decode : json -> A -> option A) (zero : A) (v : json) (old : option A)
    : option (option A) :=
  match v with JNull => Some None | _ => a ← decode v (default zero old); Some (Some a) end.

(** Into an int. *)
Definition decode_int (v : json) (old : Z) : option Z :=
  match v with JNull => Some old | JNumber text => number_Int64 text | _ => None end.

Lemma string_of_bytes_of s : string_of_bytes (bytes_of s) = s.
Proof.
  induction s as [|c s IH]; [done|]. change (bytes_of (String c s)) with (Z.of_N (Ascii.N_of_ascii c) :: bytes_of s).
  cbn [string_of_bytes]. rewrite IH. f_equal. unfold ascii_of_Z. by rewrite N2Z.id, Ascii.ascii_N_embedding.
Qed.

Lemma EqualFold_refl s : EqualFold s s = true.
Proof. by apply bool_decide_eq_true. Qed.

(** ** One field

    The value of a field after decoding is that of the last member with its name,
    when no other name that occurs folds to it and that value is stored as [val] says. *)
Lemma decode_members_field {R A} (fields : list (FieldDecoder R)) (name : list Z) (f : FieldDecoder R)
    (get : R -> A) (good : json -> Prop) (val : json -> A) members r r' :
  find_field fields name = Some f ->
  (forall v r r', fd_set f v r = Some r' -> good v -> get r' = val v) ->
  (forall key g, key ∈ map fst members -> key <> name -> find_field fields key = Some g ->
     forall v r r', fd_set g v r = Some r' -> get r' = get r) ->
  decode_members true fields members r = Some r' ->
  (member name members = None -> get r' = get r) /\
  (forall v, member name members = Some v -> good v -> get r' = val v).
Proof.
  intros Hf Hset Hother. revert r. induction members as [|[key v] rest IH]; intros r; cbn [decode_members member].
  - intros [= ->]. done.
  - destruct (find_field fields key) as [g|] eqn:Hg; [|done]. cbn.
    destruct (fd_set g v r) as [r1|] eqn:H1; [|done]. cbn. intros Hd.
    destruct (IH (fun key g Hi => Hother key g (list_elem_of_further _ _ _ Hi)) r1 Hd) as [Hn Hs].
    destruct (member name rest) as [v'|] eqn:Hm; [split; [done|]; by intros ? [= <-]; apply Hs|].
    specialize (Hn eq_refl). destruct (decide (key = name)) as [->|Hk].
    + split; [done|]. intros ? [= <-] Hv. rewrite Hn. replace g with f in H1 by congruence. by apply (Hset v r).
    + split; [intros _|done]. rewrite Hn. apply (Hother key g (list_elem_of_here _ _) Hk Hg v r r1 H1).
Qed.

Lemma first_value_parse bs v : parse_bytes bs = Some v -> first_value bs = Some v.
Proof.
  unfold parse_bytes, first_value. destruct (parse_value _ _ bs) as [[u rest]|]; [|done].
  case_decide; [|done]. by intros [= <-].
Qed.

Lemma json_Unmarshal_parse s v : json_Unmarshal s = Some v -> parse_bytes (bytes_of s) = Some v.
Proof. unfold json_Unmarshal. destruct (parse_bytes _); [|done]. by case_match. Qed.
