(* ===== verification/Host.v ===== *)
(** * The machine the sandbox runs on, and what the parts of internal/sandbox share

    The texts and numbers of commands and limits ([strings], [strconv]); processes, files,
    clock and randomness as a class; the bounded buffers a process writes to; the
    specification, the names and the worktree interface of sandbox.go. *)
From S2P Require Import Prelude Sha256 GoLib Json Effect Regexp Url Credentials Float64.

(** * Texts and numbers *)

Abbreviation chunk := (Z * list Z)%type.

Fixpoint drop_spaces (cs : list chunk) : list chunk :=
  match cs with c :: rest => if IsSpace (fst c) then drop_spaces rest else cs | [] => [] end.

Definition text_of_chunks (cs : list chunk) : string := string_of_bytes (concat (map snd cs)).

(** [strings.TrimSpace] *)
Definition TrimSpace (s : string) : string :=
  text_of_chunks (reverse (drop_spaces (reverse (drop_spaces (chunks_of (bytes_of s)))))).

(** [strings.Fields] *)
Definition strings_Fields (s : string) : list string := map string_of_bytes (Fields s).

(** [strings.Split] at a character *)
Fixpoint split_on (sep : Ascii.ascii) (s : string) : string * list string :=
  match s with
  | EmptyString => ("", [])
  | String c rest =>
      let '(w, ws) := split_on sep rest in
      if decide (c = sep) then ("", w :: ws) else (String c w, ws)
  end.

Definition strings_Split (s : string) (sep : Ascii.ascii) : list string := let '(w, ws) := split_on sep s in w :: ws.

Definition newline : Ascii.ascii := ascii_of_Z 10.
Definition tab : Ascii.ascii := ascii_of_Z 9.
Definition nul : Ascii.ascii := ascii_of_Z 0.

(** [strings.Cut] at a character *)
Fixpoint cut_at (sep : Ascii.ascii) (s : string) : option (string * string) :=
  match s with
  | EmptyString => None
  | String c rest =>
      if decide (c = sep) then Some ("", rest)
      else '(before, after) ← cut_at sep rest; Some (String c before, after)
  end.

(** [strings.SplitN] at a character, for a positive [n] *)
Fixpoint strings_SplitN (n : nat) (s : string) (sep : Ascii.ascii) : list string :=
  match n with
  | O => []
  | 1 => [s]
  | S m => match cut_at sep s with Some (before, after) => before :: strings_SplitN m after sep | None => [s] end
  end.

(** [strings.CutPrefix] *)
Definition CutPrefix (s prefix : string) : option string :=
  if HasPrefix s prefix
  then Some (String.substring (String.length prefix) (String.length s - String.length prefix) s) else None.

(** [strings.ContainsAny], for ASCII characters *)
Fixpoint ContainsAny (s : string) (chars : list Ascii.ascii) : bool :=
  match s with EmptyString => false | String c rest => bool_decide (c ∈ chars) || ContainsAny rest chars end.

(** [s[:n]] *)
Fixpoint str_take (n : nat) (s : string) : string :=
  match n, s with S m, String c rest => String c (str_take m rest) | _, _ => "" end.

(** ** strconv *)

(** [strconv.ParseUint(s, 10, 64)], of the runes of the text *)
Definition ParseUint (ds : list Z) : option Z :=
  if forallb digit ds && negb (bool_decide (ds = [])) && (digits_value ds <? 2 ^ 64)%Z then Some (digits_value ds) else None.

(** [strconv.ParseInt(s, 10, 64)] *)
Definition ParseInt (s : string) : option Z :=
  let '(sign, ds) := match bytes_of s with 45%Z :: r => ((-1)%Z, r) | 43%Z :: r => (1%Z, r) | r => (1%Z, r) end in
  let n := (sign * digits_value ds)%Z in
  if forallb digit ds && negb (bool_decide (ds = [])) && (- 2 ^ 63 <=? n)%Z && (n <? 2 ^ 63)%Z then Some n else None.

(** [strconv.ParseFloat(s, 64)]: an error, an infinity, not a number, or a number. *)
Inductive ParsedFloat : Type :=
  | FloatError
  | FloatInf
  | FloatNaN
  | FloatOf (x : float64).

Open Scope Z_scope.

Definition hexadecimal_digit (b : Z) : bool := digit b || in_range 97 102 (lower_byte b).
Definition hex_value (b : Z) : Z := if digit b then b - 48 else lower_byte b - 87.

(** The mantissa: its value, the number of digits behind the point, whether there was a
    point, a digit and an underscore, and what follows. *)
Record Mantissa : Type := MkMantissa {
  mn_value : Z; mn_fraction : Z; mn_dot : bool; mn_digits : bool; mn_underscore : bool
}.

Fixpoint read_mantissa (hexadecimal : bool) (m : Mantissa) (bs : list Z) : Mantissa * list Z :=
  match bs with
  | [] => (m, [])
  | b :: rest =>
      if b =? 95 then
        read_mantissa hexadecimal (MkMantissa (mn_value m) (mn_fraction m) (mn_dot m) (mn_digits m) true) rest
      else if (b =? 46) && negb (mn_dot m) then
        read_mantissa hexadecimal (MkMantissa (mn_value m) (mn_fraction m) true (mn_digits m) (mn_underscore m)) rest
      else if (if hexadecimal then hexadecimal_digit b else digit b) then
        read_mantissa hexadecimal
          (MkMantissa ((if hexadecimal then 16 else 10) * mn_value m + hex_value b)
             (if mn_dot m then mn_fraction m + 1 else mn_fraction m) (mn_dot m) true (mn_underscore m)) rest
      else (m, bs)
  end.

(** The digits of an exponent; it grows no more from ten thousand on. *)
Fixpoint read_exponent (e : Z) (underscore : bool) (bs : list Z) : Z * bool * list Z :=
  match bs with
  | [] => (e, underscore, [])
  | b :: rest =>
      if b =? 95 then read_exponent e true rest
      else if digit b then read_exponent (if e <? 10000 then 10 * e + (b - 48) else e) underscore rest
      else (e, underscore, bs)
  end.

(** The exponent behind the mantissa, which a hexadecimal number must have; [None] is
    malformed. *)
Definition exponent_part (hexadecimal : bool) (bs : list Z) : option (Z * bool * list Z) :=
  match bs with
  | b :: rest =>
      if lower_byte b =? (if hexadecimal then 112 else 101) then
        let '(sign, ds) := match rest with 43 :: r => (1, r) | 45 :: r => (-1, r) | r => (1, r) end in
        match ds with
        | d :: _ => if digit d then let '(e, u, k) := read_exponent 0 false ds in Some (sign * e, u, k) else None
        | [] => None
        end
      else if hexadecimal then None else Some (0, false, bs)
  | [] => if hexadecimal then None else Some (0, false, [])
  end.

(** [underscoreOK]: what was seen last is a digit, an underscore, or something else. *)
Inductive Seen : Type := SeenDigit | SeenUnderscore | SeenOther.

Fixpoint underscores_ok (hexadecimal : bool) (seen : Seen) (bs : list Z) : bool :=
  match bs with
  | [] => match seen with SeenUnderscore => false | _ => true end
  | b :: rest =>
      if (if hexadecimal then hexadecimal_digit b else digit b) then underscores_ok hexadecimal SeenDigit rest
      else if b =? 95 then
        match seen with SeenDigit => underscores_ok hexadecimal SeenUnderscore rest | _ => false end
      else match seen with SeenUnderscore => false | _ => underscores_ok hexadecimal SeenOther rest end
  end.

Definition unsigned_part (bs : list Z) : Z * list Z :=
  match bs with 43 :: r => (1, r) | 45 :: r => (-1, r) | r => (1, r) end.

Definition special_float (bs : list Z) : option ParsedFloat :=
  let '(_, r) := unsigned_part bs in
  let word := map lower_byte r in
  if decide (word = bytes_of "inf" \/ word = bytes_of "infinity") then Some FloatInf
  else if decide (map lower_byte bs = bytes_of "nan") then Some FloatNaN else None.

(** [mantissa * base ^ -fraction * radix ^ exponent] *)
Definition scaled (hexadecimal : bool) (sign : Z) (m : Mantissa) (e : Z) : ParsedFloat :=
  let exponent := if hexadecimal then e - 4 * mn_fraction m else e - mn_fraction m in
  let radix := if hexadecimal then 2 else 10 in
  match (if 0 <=? exponent then round_ratio (sign * mn_value m * radix ^ exponent) 1
         else round_ratio (sign * mn_value m) (radix ^ (- exponent))) with
  | Some x => FloatOf x
  | None => FloatError
  end.

Definition ParseFloat (s : string) : ParsedFloat :=
  let bs := bytes_of s in
  match special_float bs with
  | Some f => f
  | None =>
      let '(sign, r) := unsigned_part bs in
      let '(hexadecimal, ds) :=
        match r with
        | 48 :: x :: (_ :: _) as k => if lower_byte x =? 120 then (true, tail (tail r)) else (false, r)
        | _ => (false, r)
        end in
      let '(m, k) := read_mantissa hexadecimal (MkMantissa 0 0 false false false) ds in
      if negb (mn_digits m) then FloatError
      else match exponent_part hexadecimal k with
      | Some (e, u, []) =>
          if (mn_underscore m || u) && negb (underscores_ok hexadecimal (if hexadecimal then SeenDigit else SeenOther) ds)
          then FloatError else scaled hexadecimal sign m e
      | _ => FloatError
      end
  end.
Close Scope Z_scope.

Definition float_positive (x : float64) : bool := (0 <? fl_mantissa x)%Z.

Example parse_half : ParseFloat "0.5" = FloatOf (MkFloat (2 ^ 52) (-53)).
Proof. vm_compute. reflexivity. Qed.
Example parse_underscores : ParseFloat "1_5e-1" = ParseFloat "+0x1.8p+0".
Proof. vm_compute. reflexivity. Qed.
Example parse_bad : map ParseFloat [""; "_1"; "1__0"; "1."; "."; "0x1"; "1e"; "1e400"; "1 "] =
  [FloatError; FloatError; FloatError; ParseFloat "1"; FloatError; FloatError; FloatError; FloatError; FloatError].
Proof. vm_compute. reflexivity. Qed.
Example parse_special : map ParseFloat ["-InF"; "infinity"; "nan"; "+nan"] = [FloatInf; FloatInf; FloatNaN; FloatError].
Proof. vm_compute. reflexivity. Qed.
Example trimmed : TrimSpace (string_of_bytes [32; 194; 160; 97; 32; 98; 10]%Z) = "a b".
Proof. reflexivity. Qed.
Example fields_example : strings_Fields " 100644  blob x " = ["100644"; "blob"; "x"].
Proof. reflexivity. Qed.

(** * The machine the sandbox runs on

    Processes, files, clock and randomness, as [os], [os/exec], [context] and
    [crypto/rand] give them to internal/sandbox, and the bounded buffers a process
    writes to. *)

(** ** Effects with both results *)

(** [err := call(...)]: the error, which the code keeps. *)
Definition attempt {W A} (m : M W A) : M W (option error) := fun w =>
  match m w with (Ok _, w') => (Ok None, w') | (Err e, w') => (Ok (Some e), w') end.

(** [return err], perhaps nil *)
Definition return_err {W} (e : option error) : M W unit := match e with Some e => throw e | None => mret tt end.

Fixpoint for_each {W A} (body : A -> M W unit) (l : list A) : M W unit :=
  match l with [] => mret tt | a :: rest => _ ← body a; for_each body rest end.

(** A loop that joins the errors of its rounds. *)
Fixpoint join_each {W A} (body : A -> M W (list (option error))) (joined : option error) (l : list A) : M W (option error) :=
  match l with
  | [] => mret joined
  | a :: rest => errs ← body a; join_each body (foldl (fun j e => errors_Join [j; e]) joined errs) rest
  end.

(** ** Contexts *)

(** The caller's context, or one that ends with another or after some nanoseconds. *)
Inductive Deadline : Type :=
  | ContextOf (ctx : Context)
  | Within (parent : Deadline) (timeout : Z).

Definition Background : Deadline := ContextOf background.

Definition second : Z := 1000000000.

(** ** Processes *)

Record Cmd : Type := MkCmd {
  cm_Name : string;
  cm_Args : list string;
  cm_Dir : string;
  cm_Env : option (list string);
  cm_Stdin : string
}.

(** What a process did: its writes in order, to standard error or not, and the error of
    [Run]. *)
Record Ran : Type := MkRan {
  rn_writes : list (bool * string);
  rn_err : option error
}.

(** ** Files *)

Inductive FileKind : Type := KindRegular | KindDirectory | KindSymlink | KindOther.

#[export] Instance FileKind_eq_dec : EqDecision FileKind.
Proof. solve_decision. Defined.

Record FileMode : Type := MkFileMode {
  md_kind : FileKind;
  md_perm : Z
}.

(** The operating system.  The error of a context is read at the time of the call; a
    directory is read as the names and kinds of its entries in order; [rand.Read] gives
    the bytes asked for. *)
Class Host (W : Type) : Type := {
  ctx_Error : Deadline -> W -> option error * W;
  exec : Deadline -> Cmd -> W -> Ran * W;
  sleep : Z -> W -> W;
  time_Now : W -> Z * W;
  rand_Read : nat -> M W (list Z);
  Lstat : string -> M W FileMode;
  Stat : string -> M W FileMode;
  ReadFile : string -> M W string;
  WriteFile : string -> string -> Z -> M W unit;
  Chmod : string -> Z -> M W unit;
  ReadDir : string -> M W (list (string * FileKind))
}.

(** A call that cannot fail. *)
Definition always {W A} (f : W -> A * W) : M W A := fun w => let '(a, w') := f w in (Ok a, w').

(** ** Bounded output: limitedBuffer and outputBudget of docker.go

    Two buffers may share a budget; [Write] is then serialised by its mutex.  The
    counters count bytes that were written. *)
Record outputBudget : Type := MkBudget {
  ob_limit : Z;
  ob_stored : Z;
  ob_total : Z;
  ob_truncated : bool
}.

Record limitedBuffer : Type := MkBuffer {
  lb_buffer : string;
  lb_limit : Z;
  lb_total : Z;
  lb_truncated : bool
}.

Definition newBudget (limit : Z) : outputBudget := MkBudget limit 0 0 false.
Definition newBuffer (limit : Z) : limitedBuffer := MkBuffer "" limit 0 false.

Definition len (s : string) : Z := Z.of_nat (String.length s).

(** [limitedBuffer.Write] with a budget *)
Definition writeShared (content : string) (writer : limitedBuffer) (budget : outputBudget)
    : limitedBuffer * outputBudget :=
  let original := len content in
  let total := (lb_total writer + original)%Z in
  let remaining := (ob_limit budget - ob_stored budget)%Z in
  let spent := (ob_total budget + original)%Z in
  if (0 <? remaining)%Z then
    if (remaining <? original)%Z then
      (MkBuffer (lb_buffer writer +:+ str_take (Z.to_nat remaining) content) (lb_limit writer) total true,
       MkBudget (ob_limit budget) (ob_stored budget + remaining) spent true)
    else
      (MkBuffer (lb_buffer writer +:+ content) (lb_limit writer) total (lb_truncated writer),
       MkBudget (ob_limit budget) (ob_stored budget + original) spent (ob_truncated budget))
  else if (0 <? original)%Z then
    (MkBuffer (lb_buffer writer) (lb_limit writer) total true,
     MkBudget (ob_limit budget) (ob_stored budget) spent true)
  else
    (MkBuffer (lb_buffer writer) (lb_limit writer) total (lb_truncated writer),
     MkBudget (ob_limit budget) (ob_stored budget) spent (ob_truncated budget)).

(** [limitedBuffer.Write] without one *)
Definition writeAlone (content : string) (writer : limitedBuffer) : limitedBuffer :=
  let original := len content in
  let total := (lb_total writer + original)%Z in
  let remaining := (lb_limit writer - len (lb_buffer writer))%Z in
  if (0 <? remaining)%Z then
    if (remaining <? original)%Z
    then MkBuffer (lb_buffer writer +:+ str_take (Z.to_nat remaining) content) (lb_limit writer) total true
    else MkBuffer (lb_buffer writer +:+ content) (lb_limit writer) total (lb_truncated writer)
  else MkBuffer (lb_buffer writer) (lb_limit writer) total ((0 <? original)%Z || lb_truncated writer).

(** Two buffers with a budget, and the writes of a process to them. *)
Record Outputs : Type := MkOutputs {
  ou_stdout : limitedBuffer;
  ou_stderr : limitedBuffer;
  ou_budget : outputBudget
}.

Definition newOutputs (limit : Z) : Outputs := MkOutputs (newBuffer 0) (newBuffer 0) (newBudget limit).

Definition receive (o : Outputs) (write : bool * string) : Outputs :=
  let '(toStderr, content) := write in
  if (toStderr : bool)
  then let '(b, budget) := writeShared content (ou_stderr o) (ou_budget o) in MkOutputs (ou_stdout o) b budget
  else let '(b, budget) := writeShared content (ou_stdout o) (ou_budget o) in MkOutputs b (ou_stderr o) budget.

Definition collect (limit : Z) (writes : list (bool * string)) : Outputs := foldl receive (newOutputs limit) writes.

Definition collectOne (limit : Z) (contents : list string) : limitedBuffer :=
  foldl (fun b c => writeAlone c b) (newBuffer limit) contents.

Definition concat_strings (l : list string) : string := foldr String.append "" l.

(** [Cmd.CombinedOutput] and [Cmd.Output] *)
Definition combined (ran : Ran) : string := concat_strings (map snd (rn_writes ran)).
Definition stdout_of (writes : list (bool * string)) : list string := map snd (filter (fun x => fst x = false) writes).
Definition stderr_of (writes : list (bool * string)) : list string := map snd (filter (fun x => fst x = true) writes).

Section commands.
Context {W : Type} `{Host W}.

(** [boundedCommandOutput] *)
Definition boundedCommandOutput (ctx : Deadline) (command : Cmd) (limit : Z) : M W (string * bool * option error) :=
  ran ← always (exec ctx command);
  let o := collect limit (rn_writes ran) in
  mret (lb_buffer (ou_stdout o) +:+ lb_buffer (ou_stderr o), ob_truncated (ou_budget o), rn_err ran).
End commands.

(** * What the parts of internal/sandbox share

    The specification of a sandbox, names and object identifiers, and what the docker
    provider expects of the provider of worktrees. *)

Record Spec : Type := MkSpec {
  sp_RunID : string;
  sp_AttemptID : string;
  sp_Repository : string;
  sp_Revision : string
}.

(** [isObjectID] *)
Definition isObjectID (value : string) : bool :=
  (bool_decide (String.length value = 40) || bool_decide (String.length value = 64)) &&
  forallb hexadecimal_digit (runes value).

(** [safeName]: the runes that are not kept become dashes, up to forty characters. *)
Definition safe_rune (r : Z) : bool :=
  in_range 97 122 r || in_range 65 90 r || in_range 48 57 r || (r =? 45)%Z || (r =? 95)%Z.

Definition safe_bytes (value : string) : list Z :=
  take 40 (map (fun r => if safe_rune r then r else 45%Z) (runes value)).

Definition safeName (value : string) : string :=
  if decide (safe_bytes value = []) then "scope" else string_of_bytes (safe_bytes value).

(** The worktree provider: a creation that fails may leave a worktree to be destroyed
    later. *)
Inductive CreateResult (H : Type) : Type :=
  | Created (worktree : H)
  | CreateFailed (worktree : option H) (e : error).
Arguments Created {H}. Arguments CreateFailed {H}.

Class Worktrees (W H : Type) : Type := {
  worktree_Create : Deadline -> Spec -> W -> CreateResult H * W;
  worktree_Destroy : Deadline -> H -> M W unit;
  worktree_Workspace : H -> string
}.

(** [newOwnerToken] *)
Definition newOwnerToken {W} `{Host W} : M W string := value ← wrapM (rand_Read 16); mret (hex value).

Example safe_example : safeName "run/1 a" = "run-1-a".
Proof. reflexivity. Qed.
