(* ===== verification/HostFacts.v ===== *)
(** * Facts on calls of the host

    Relations that calls respect, whatever they answer, and what a bounded buffer holds. *)
From S2P Require Import Prelude Sha256 GoLib Effect Host.

(** ** Relations on the world *)

(** [respects R m]: whatever [m] answers, the world changes by [R]. *)
Definition respects {W A} (R : W -> W -> Prop) (m : M W A) : Prop := forall w, R w (snd (m w)).

Definition ensures {W A} (m : M W A) (Q : A -> Prop) : Prop := forall w a w', m w = (Ok a, w') -> Q a.

Section ensures.
Context {W : Type}.

Lemma ensures_ret {A} (a : A) Q : Q a -> ensures (mret a : M W A) Q.
Proof. intros Hq w b w' [= <- _]. done. Qed.
Lemma ensures_throw {A} e Q : ensures (throw e : M W A) Q.
Proof. done. Qed.
Lemma ensures_bind {A B} (f : A -> M W B) (m : M W A) Q1 Q : ensures m Q1 -> (forall a, Q1 a -> ensures (f a) Q) -> ensures (m ≫= f) Q.
Proof.
  intros Hm Hf w b w' E. unfold mbind, M_bind in E. destruct (m w) as [[a|e] w1] eqn:Em; [|done].
  eapply Hf; [by eapply Hm|exact E].
Qed.
Lemma ensures_any {A B} (f : A -> M W B) (m : M W A) Q : (forall a, ensures (f a) Q) -> ensures (m ≫= f) Q.
Proof. intros Hf. by apply (ensures_bind f m (fun _ => True)). Qed.
Lemma ensures_wrapM {A} (m : M W A) Q : ensures m Q -> ensures (wrapM m) Q.
Proof. intros Hm w a w' E. apply wrapM_Ok in E. by eapply Hm. Qed.
End ensures.

Section respects.
Context {W : Type} (R : W -> W -> Prop) {HR : PreOrder R}.

Lemma respects_same {A} (m : M W A) : (forall w, snd (m w) = w) -> respects R m.
Proof. intros Hm w. by rewrite Hm. Qed.

Lemma respects_ret {A} (a : A) : respects R (mret a).
Proof. by intros w. Qed.
Lemma respects_throw {A} e : respects R (throw e : M W A).
Proof. by intros w. Qed.
Lemma respects_lift {A} (r : result A) : respects R (lift r).
Proof. by intros w. Qed.
Lemma respects_gets {A} (f : W -> A) : respects R (gets f).
Proof. by intros w. Qed.
Lemma respects_return_err e : respects R (return_err e).
Proof. by intros w; destruct e. Qed.

Lemma respects_bind {A B} (f : A -> M W B) (m : M W A) :
  respects R m -> (forall a, respects R (f a)) -> respects R (m ≫= f).
Proof.
  intros Hm Hf w. unfold mbind, M_bind. specialize (Hm w). destruct (m w) as [[a|e] w1]; cbn in *; [|done].
  etrans; [exact Hm|apply Hf].
Qed.

Lemma respects_try {A} (m : M W A) : respects R m -> respects R (try m).
Proof. intros Hm w. specialize (Hm w). unfold try. by destruct (m w) as [[?|?] ?]. Qed.
Lemma respects_attempt {A} (m : M W A) : respects R m -> respects R (attempt m).
Proof. intros Hm w. specialize (Hm w). unfold attempt. by destruct (m w) as [[?|?] ?]. Qed.
Lemma respects_wrapM {A} (m : M W A) : respects R m -> respects R (wrapM m).
Proof. intros Hm w. specialize (Hm w). unfold wrapM. by destruct (m w) as [[?|?] ?]. Qed.
Lemma respects_always {A} (f : W -> A * W) : (forall w, R w (snd (f w))) -> respects R (always f).
Proof. intros Hf w. specialize (Hf w). unfold always. by destruct (f w). Qed.

Lemma respects_for_each {A} (body : A -> M W unit) l : (forall a, respects R (body a)) -> respects R (for_each body l).
Proof.
  intros Hb. induction l as [|a l IH]; [apply respects_ret|]. by apply respects_bind.
Qed.

Lemma respects_join_each_in {A} (body : A -> M W (list (option error))) joined l :
  (forall a, a ∈ l -> respects R (body a)) -> respects R (join_each body joined l).
Proof.
  intros Hb. revert joined. induction l as [|a l IH]; intros joined; [apply respects_ret|].
  apply respects_bind; [apply Hb; by left|]. intros ?. apply IH. intros b Hi. apply Hb. by right.
Qed.

Lemma respects_join_each {A} (body : A -> M W (list (option error))) joined l :
  (forall a, respects R (body a)) -> respects R (join_each body joined l).
Proof.
  intros Hb. revert joined. induction l as [|a l IH]; intros joined; [apply respects_ret|].
  apply respects_bind; [done|]. intros ?. apply IH.
Qed.

(** [ensures m Q]: what [m] returns, if anything, satisfies [Q]. *)
Lemma respects_bind_ensured {A B} (Q : A -> Prop) (f : A -> M W B) (m : M W A) :
  respects R m -> ensures m Q -> (forall a, Q a -> respects R (f a)) -> respects R (m ≫= f).
Proof.
  intros Hm He Hf w. unfold mbind, M_bind. specialize (Hm w). specialize (He w).
  destruct (m w) as [[a|e] w1]; cbn in *; [|done]. etrans; [exact Hm|]. by eapply Hf, He.
Qed.
End respects.

Create HintDb respects.

(** The calls of a method one by one, up to those that are not structural. *)
Ltac respect_step :=
  lazymatch goal with
  | |- respects _ (mret _) => apply respects_ret; apply _
  | |- respects _ (throw _) => apply respects_throw; apply _
  | |- respects _ (lift _) => apply respects_lift; apply _
  | |- respects _ (gets _) => apply respects_gets; apply _
  | |- respects _ (return_err _) => apply respects_return_err; apply _
  | |- respects _ (mbind _ _) => apply respects_bind; [apply _| |intros ?]
  | |- respects _ (try _) => apply respects_try
  | |- respects _ (attempt _) => apply respects_attempt
  | |- respects _ (wrapM _) => apply respects_wrapM
  | |- respects _ (for_each _ _) => apply respects_for_each; [apply _|intros ?]
  | |- respects _ (join_each _ _ _) => apply respects_join_each; [apply _|intros ?]
  | |- respects _ _ => first [solve [eauto 3 with respects nocore] | progress cbv zeta | case_decide | case_match]
  end.

Ltac respect_steps := repeat respect_step.

(** ** Bounded output *)

(** The bytes of a process in order, each with the stream it was written to. *)
Definition tagged (write : bool * string) : list (bool * Ascii.ascii) :=
  map (pair (fst write)) (String.list_ascii_of_string (snd write)).

Definition stream (writes : list (bool * string)) : list (bool * Ascii.ascii) := concat (map tagged writes).

(** The text of one of the streams. *)
Definition text_of (toStderr : bool) (bytes : list (bool * Ascii.ascii)) : string :=
  String.string_of_list_ascii (map snd (filter (fun x => fst x = toStderr) bytes)).

Lemma length_list_ascii s : length (String.list_ascii_of_string s) = String.length s.
Proof. induction s as [|c s IH]; [done|]. cbn. by rewrite IH. Qed.

Lemma list_ascii_app a b :
  String.list_ascii_of_string (a +:+ b) = String.list_ascii_of_string a ++ String.list_ascii_of_string b.
Proof. induction a as [|c a IH]; [done|]. exact (f_equal (cons c) IH). Qed.

Lemma string_of_list_app a b :
  String.string_of_list_ascii (a ++ b) = String.string_of_list_ascii a +:+ String.string_of_list_ascii b.
Proof. induction a as [|c a IH]; [done|]. cbn [app String.string_of_list_ascii]. rewrite IH. done. Qed.

Lemma str_take_list n s : str_take n s = String.string_of_list_ascii (take n (String.list_ascii_of_string s)).
Proof. revert s. induction n as [|n IH]; intros [|c s]; cbn; [done..|]. by rewrite IH. Qed.

Lemma stream_snoc writes x : stream (writes ++ [x]) = stream writes ++ tagged x.
Proof. unfold stream. rewrite map_app, concat_app. cbn. by rewrite app_nil_r. Qed.

Lemma text_of_app t a b : text_of t (a ++ b) = text_of t a +:+ text_of t b.
Proof. unfold text_of. by rewrite filter_app, map_app, string_of_list_app. Qed.

Lemma text_of_tagged t n x :
  text_of t (take n (tagged x)) = if decide (fst x = t) then str_take n (snd x) else "".
Proof.
  destruct x as [u s]. unfold text_of, tagged. cbn. rewrite firstn_map. revert s.
  destruct (decide (u = t)) as [->|Hne].
  - intros s. rewrite str_take_list. f_equal. generalize (take n (String.list_ascii_of_string s)) as l.
    induction l as [|c l IH]; [done|].
    cbn [map]. rewrite filter_cons_True by done. cbn [map snd]. by rewrite IH.
  - intros s. generalize (take n (String.list_ascii_of_string s)) as l. induction l as [|c l IH]; [done|].
    cbn [map]. by rewrite filter_cons_False.
Qed.

Lemma str_take_all n s : String.length s <= n -> str_take n s = s.
Proof. revert n. induction s as [|c s IH]; intros [|n] Hn; cbn in *; [done|done|lia|]. f_equal. apply IH. lia. Qed.

Lemma str_take_0 s : str_take 0 s = "".
Proof. done. Qed.

(** What two buffers with a budget hold after a process wrote. *)
Record Holds (limit : Z) (writes : list (bool * string)) (o : Outputs) : Prop := {
  ho_stdout : lb_buffer (ou_stdout o) = text_of false (take (Z.to_nat limit) (stream writes));
  ho_stderr : lb_buffer (ou_stderr o) = text_of true (take (Z.to_nat limit) (stream writes));
  ho_limit : ob_limit (ou_budget o) = limit;
  ho_stored : ob_stored (ou_budget o) = Z.min limit (Z.of_nat (length (stream writes)));
  ho_total : ob_total (ou_budget o) = Z.of_nat (length (stream writes));
  ho_truncated : ob_truncated (ou_budget o) = (limit <? Z.of_nat (length (stream writes)))%Z
}.

Lemma length_tagged x : length (tagged x) = String.length (snd x).
Proof. unfold tagged. by rewrite length_map, length_list_ascii. Qed.

(** How much of a write a budget takes. *)
Definition accepted (budget : outputBudget) (content : string) : nat := Z.to_nat (ob_limit budget - ob_stored budget).

Lemma writeShared_spec content writer budget b budget' :
  (0 <= ob_stored budget <= ob_limit budget)%Z ->
  writeShared content writer budget = (b, budget') ->
  lb_buffer b = lb_buffer writer +:+ str_take (accepted budget content) content /\
  ob_limit budget' = ob_limit budget /\
  ob_stored budget' = Z.min (ob_limit budget) (ob_stored budget + len content) /\
  ob_total budget' = (ob_total budget + len content)%Z /\
  ob_truncated budget' = ob_truncated budget || (ob_limit budget <? ob_stored budget + len content)%Z.
Proof.
  intros Hs. unfold writeShared, accepted. assert (0 <= len content)%Z as Hl by (unfold len; lia).
  destruct (Z.ltb_spec 0 (ob_limit budget - ob_stored budget)) as [H1|H1];
    [destruct (Z.ltb_spec (ob_limit budget - ob_stored budget) (len content)) as [H2|H2]|
     destruct (Z.ltb_spec 0 (len content)) as [H2|H2]]; intros [= <- <-]; cbn; split_and!; try done; try lia;
    try (destruct (ob_truncated budget); lia).
  - rewrite str_take_all; [done|]. unfold len in H2. lia.
  - replace (ob_limit budget - ob_stored budget)%Z with 0%Z by lia. cbn. by rewrite str_app_nil.
  - assert (content = "") as -> by (destruct content; [done|unfold len in H2; cbn in H2; lia]).
    rewrite str_take_all by (cbn; lia). by rewrite str_app_nil.
Qed.

Lemma receive_holds limit writes o x : (0 <= limit)%Z -> Holds limit writes o -> Holds limit (writes ++ [x]) (receive o x).
Proof.
  intros Hpos [H1 H2 H3 H4 H5 H6]. destruct x as [t content].
  assert (0 <= len content)%Z as Hl by (unfold len; lia).
  assert (0 <= ob_stored (ou_budget o) <= ob_limit (ou_budget o))%Z as Hs by lia.
  assert (Z.of_nat (length (stream (writes ++ [(t, content)]))) = Z.of_nat (length (stream writes)) + len content)%Z as Hlen
    by (rewrite stream_snoc, length_app, length_tagged; unfold len; cbn; lia).
  assert (forall u, text_of u (take (Z.to_nat limit) (stream (writes ++ [(t, content)]))) =
    text_of u (take (Z.to_nat limit) (stream writes)) +:+
    (if decide (t = u) then str_take (accepted (ou_budget o) content) content else "")) as Htext.
  { intros u. rewrite stream_snoc, take_app, text_of_app, text_of_tagged. cbn. f_equal. case_decide; [|done]. f_equal.
    unfold accepted. lia. }
  unfold receive. destruct t.
  - destruct (writeShared content (ou_stderr o) (ou_budget o)) as [b budget] eqn:Hw.
    apply writeShared_spec in Hw as (W1 & W2 & W3 & W4 & W5); [|done].
    split; cbn; rewrite ?Htext, ?Hlen; cbn; [by rewrite str_app_nil|by rewrite W1, H2|by rewrite W2|lia|lia|].
    rewrite W5, H6. lia.
  - destruct (writeShared content (ou_stdout o) (ou_budget o)) as [b budget] eqn:Hw.
    apply writeShared_spec in Hw as (W1 & W2 & W3 & W4 & W5); [|done].
    split; cbn; rewrite ?Htext, ?Hlen; cbn; [by rewrite W1, H1|by rewrite str_app_nil|by rewrite W2|lia|lia|].
    rewrite W5, H6. lia.
Qed.

Lemma collect_holds limit writes : (0 <= limit)%Z -> Holds limit writes (collect limit writes).
Proof.
  intros Hpos. unfold collect. induction writes as [|x writes IH] using rev_ind.
  - split; cbn [foldl stream map concat]; rewrite ?take_nil; cbn; try done; [lia|].
    symmetry. apply Z.ltb_ge. lia.
  - rewrite foldl_app. by apply receive_holds.
Qed.
