(* ===== verification/Helper.v ===== *)
(** * The helper inside the sandbox: cmd/sandbox-helper/main.go

    The process that lists, reads, searches, patches and tests the workspace, and opens its
    permissions before it is removed.  It works
    through [os.Root], the operating system's view of one directory, which is a
    parameter; what it prints and how it fails are the model's. *)
From S2P Require Import Prelude Sha256 GoLib Json Regexp Decode Effect Float64 Contract Policy Host.

(** ** The root of the workspace *)

(** A directory entry, as [fs.WalkDir] meets it: what is not a directory and not regular
    is a link, a device or the like; a directory may fail to be read. *)
Inductive Entry : Type :=
  | RegularFile
  | OtherFile
  | Directory (read : result (list (string * Entry))).

(** What a directory says of an entry of its own. *)
Inductive EntryType : Type := DirectoryType | RegularType | OtherType.

(** An opened file: the bytes read from it until its end or an error. *)
Definition FileStream : Type := string * option error.

(** [os.Root] and the process around it.  [root_Stat] is what the walk of a name starts
    from; [root_Create] opens a new file for writing, under its name; [root_Type] is the
    kind of a name, links followed, and [root_Uid] the owner of a name, links not followed,
    [None] when the system does not tell; [run_go] is the exit code of the go command, an
    error when it cannot be run. *)
Class Root (W : Type) : Type := {
  root_OpenRoot : M W unit;
  root_Stat : string -> M W Entry;
  root_Open : string -> M W FileStream;
  root_ReadFile : string -> M W string;
  root_Perm : string -> M W Z;
  root_Create : string -> Z -> M W unit;
  root_WriteString : string -> string -> M W unit;
  root_Sync : string -> M W unit;
  root_Close : string -> M W unit;
  root_Remove : string -> M W unit;
  root_Rename : string -> string -> M W unit;
  root_MkdirAll : string -> Z -> M W unit;
  root_Chmod : string -> Z -> M W unit;
  run_go : list string -> M W Z;
  root_Type : string -> M W EntryType;
  root_ReadDir : string -> M W (list (string * EntryType));
  root_Uid : string -> M W (option Z);
  Geteuid : W -> Z;
  println : string -> W -> W;
  UnixNano : W -> Z
}.

(** What the probes try besides: the process, its environment and the rest of the file
    system.  A connection that is made is closed at once; a started process is known by a
    number, killed and waited for.  [toggles] is the schedule of the goroutine of the last
    probe. *)
Class ProbeHost (W : Type) : Type := {
  Getuid : W -> Z;
  Getgid : W -> Z;
  Environ : W -> list string;
  Getenv : string -> W -> string;
  probe_WriteFile : string -> string -> Z -> M W unit;
  probe_ReadFile : string -> M W string;
  probe_Remove : string -> M W unit;
  probe_Symlink : string -> string -> M W unit;
  probe_Mode : string -> M W (bool * Z);
  root_WriteFile : string -> string -> Z -> M W unit;
  DialTimeout : string -> string -> M W unit;
  Sleep : Z -> W -> W;
  start_process : list string -> M W nat;
  kill_process : nat -> W -> W;
  write_output : string -> W -> W;
  toggles : nat -> nat
}.

(** ** Texts *)

(** [strings.Cut] at the first occurrence. *)
Fixpoint strings_Cut (s sub : string) : option (string * string) :=
  if String.prefix sub s
  then Some ("", String.substring (String.length sub) (String.length s - String.length sub) s)
  else match s with
  | EmptyString => None
  | String c rest => '(before, after) ← strings_Cut rest sub; Some (String c before, after)
  end.

(** [strings.Count] of a non-empty text: occurrences that do not overlap. *)
Fixpoint count_from (fuel : nat) (s sub : string) : nat :=
  match fuel with
  | O => 0
  | S n => match strings_Cut s sub with Some (_, after) => S (count_from n after sub) | None => 0 end
  end.
Definition strings_Count (s sub : string) : nat := count_from (S (String.length s)) s sub.

(** [strings.Replace] of the first occurrence. *)
Definition strings_Replace (s old new : string) : string :=
  match strings_Cut s old with Some (before, after) => before +:+ new +:+ after | None => s end.

(** *** bufio.Scanner by lines *)

Definition maxLine : Z := 1024 * 1024 - 1.

Definition drop_cr (line : list Z) : list Z :=
  match rev line with 13%Z :: r => rev r | _ => line end.

(** The lines of a text, each with its end stripped, until one that is too long: whether
    there is one.  [current] is the line so far, reversed. *)
Fixpoint scan_lines (current : list Z) (room : Z) (bs : list Z) : list (list Z) * bool :=
  match bs with
  | [] => if decide (current = []) then ([], false) else ([drop_cr (rev current)], false)
  | b :: rest =>
      if decide (b = 10%Z)
      then let '(lines, long) := scan_lines [] maxLine rest in (drop_cr (rev current) :: lines, long)
      else if (room <=? 0)%Z then ([], true)
      else scan_lines (b :: current) (room - 1) rest
  end.

(** The lines of an opened file, and the error the scanner ends with. *)
Definition scanFile (file : FileStream) : list string * option error :=
  let '(lines, long) := scan_lines [] maxLine (bytes_of (fst file)) in
  (map string_of_bytes lines, if (long : bool) then Some (Plain "bufio.Scanner: token too long") else snd file).

(** ** Paths *)

Definition reservedPath (candidate : string) : bool :=
  let first := fst (split_slash candidate) in EqualFold first ".git" || EqualFold first ".agentdock".

(** [fs.ValidPath] *)
Definition ValidPath (name : string) : bool :=
  ValidString name &&
  (bool_decide (name = ".") ||
   forallb (fun c => negb (bool_decide (c = "" \/ c = "." \/ c = ".."))) (components name)).

Definition safeRelative (candidate : string) : result string :=
  if bool_decide (candidate = "") || rooted candidate || existsb (Z.eqb 0) (bytes_of candidate)
  then Err (Plain "unsafe path")
  else
    let clean := filepath_Clean candidate in
    if bool_decide (clean = "..") || HasPrefix clean "../" then Err (Plain "unsafe path")
    else if negb (ValidPath clean) then Err (Plain "unsafe path")
    else if reservedPath clean then Err (Plain "reserved runtime path")
    else Ok clean.

Section helper.
Context {W : Type} `{Root W} `{ProbeHost W}.

Definition Println (line : string) : M W unit := modify (println line).

(** ** list *)

(** The walk with a callback that collects the regular files that are not reserved. *)
Fixpoint listNode (name : string) (entry : Entry) : result (list string) :=
  if reservedPath name then Ok []
  else match entry with
  | RegularFile => Ok [name]
  | OtherFile => Ok []
  | Directory (Err e) => Err e
  | Directory (Ok entries) =>
      (fix each entries :=
         match entries with
         | [] => Ok []
         | (child, entry) :: rest =>
             found ← listNode (filepath_Join [name; child]) entry;
             more ← each rest;
             Ok (found ++ more)
         end) entries
  end.

Definition print_lines (lines : list string) : M W unit := modify (fun w => foldl (fun w l => println l w) w lines).

Definition runList (candidate : string) : M W unit :=
  clean ← lift (safeRelative candidate);
  entry ← root_Stat clean;
  paths ← lift (listNode clean entry);
  print_lines (sort_Strings paths).

(** ** read *)

(** The lines from [start] to [stop], all from [start] on when [stop] is 0; [long] tells
    whether the loop left before the end of the file. *)
Fixpoint readLines (start stop line : Z) (lines : list string) : list string * bool :=
  match lines with
  | [] => ([], false)
  | text :: rest =>
      if (line <? start)%Z then readLines start stop (line + 1) rest
      else if (0 <? stop)%Z && (stop <? line)%Z then ([], true)
      else let '(more, early) := readLines start stop (line + 1) rest in (text :: more, early)
  end.

Definition failWith (e : option error) : M W unit := match e with Some e => throw e | None => mret tt end.

Definition runRead (candidate : string) (start stop : Z) : M W unit :=
  clean ← lift (safeRelative candidate);
  file ← root_Open clean;
  let '(lines, scanErr) := scanFile file in
  let '(shown, early) := readLines start stop 1 lines in
  _ ← print_lines shown;
  if (early : bool) then mret tt else failWith scanErr.

(** ** search *)

Fixpoint matchLines (name pattern : string) (line : Z) (lines : list string) : list string :=
  match lines with
  | [] => []
  | text :: rest =>
      (if Contains text pattern then [name +:+ ":" +:+ pretty line +:+ ":" +:+ text] else []) ++
      matchLines name pattern (line + 1) rest
  end.

Definition searchFile (pattern name : string) : M W unit :=
  file ← root_Open name;
  let '(lines, scanErr) := scanFile file in
  _ ← print_lines (matchLines name pattern 1 lines);
  failWith scanErr.

Fixpoint searchNode (pattern name : string) (entry : Entry) : M W unit :=
  if reservedPath name then mret tt
  else match entry with
  | RegularFile => searchFile pattern name
  | OtherFile => mret tt
  | Directory (Err e) => throw e
  | Directory (Ok entries) =>
      (fix each entries :=
         match entries with
         | [] => mret tt
         | (child, entry) :: rest =>
             _ ← searchNode pattern (filepath_Join [name; child]) entry; each rest
         end) entries
  end.

Definition runSearch (pattern candidate : string) : M W unit :=
  clean ← lift (safeRelative candidate);
  entry ← root_Stat clean;
  searchNode pattern clean entry.

(** ** apply-patch *)

Record patchRequest : Type := MkPatchRequest { pq_Path : string; pq_Old : string; pq_New : string }.

Definition patchFields : list (FieldDecoder patchRequest) :=
  [ MkFieldDecoder "path" (fun v r => s ← decode_string v (pq_Path r); Some (MkPatchRequest s (pq_Old r) (pq_New r)));
    MkFieldDecoder "old" (fun v r => s ← decode_string v (pq_Old r); Some (MkPatchRequest (pq_Path r) s (pq_New r)));
    MkFieldDecoder "new" (fun v r => s ← decode_string v (pq_New r); Some (MkPatchRequest (pq_Path r) (pq_Old r) s)) ].

(** [io.LimitReader] *)
Definition LimitReader (limit : Z) (bs : list Z) : list Z :=
  if (Z.of_nat (length bs) <=? limit)%Z then bs else take (Z.to_nat limit) bs.

Definition patchLimit : Z := Z.shiftl 4 20.

Definition decodePatch (stdin : string) : option patchRequest :=
  v ← first_value (LimitReader patchLimit (bytes_of stdin));
  decode_struct true patchFields v (MkPatchRequest "" "" "").

(** [path.Dir] of a clean relative path *)
Definition path_Dir (clean : string) : string := filepath_Clean (String.concat "/" (removelast (components clean))).

Definition temporaryName (clean : string) (nano : Z) : string :=
  filepath_Join [path_Dir clean; ".agentdock-patch-" +:+ pretty nano].

(** A failing step after the creation removes the temporary file. *)
Definition orRemove (temporary : string) (close : bool) (m : M W unit) : M W unit :=
  done ← try m;
  match done with
  | Ok _ => mret tt
  | Err e =>
      _ ← (if close then try (root_Close temporary) else mret (Ok tt));
      _ ← try (root_Remove temporary);
      throw e
  end.

Definition publishPatch (clean updated : string) : M W unit :=
  perm ← root_Perm clean;
  nano ← gets UnixNano;
  let temporary := temporaryName clean nano in
  _ ← root_Create temporary perm;
  _ ← orRemove temporary true (root_WriteString temporary updated);
  _ ← orRemove temporary true (root_Sync temporary);
  _ ← orRemove temporary false (root_Close temporary);
  _ ← orRemove temporary false (root_Rename temporary clean);
  Println ("patched " +:+ clean).

Definition applyPatch (request : patchRequest) : M W unit :=
  clean ← lift (safeRelative (pq_Path request));
  if decide (pq_Old request = "") then throw (Plain "patch old text must be non-empty")
  else if Contains (pq_New request) (pq_Old request) then throw (Plain "patch new text must not retain old text")
  else
    content ← root_ReadFile clean;
    if decide (strings_Count content (pq_Old request) <> 1)
    then throw (Plain "patch old text must occur exactly once")
    else
      let updated := strings_Replace content (pq_Old request) (pq_New request) in
      if Contains updated (pq_Old request) then throw (Plain "patch result still contains old text")
      else publishPatch clean updated.

Definition runApplyPatch (stdin : string) : M W unit :=
  match decodePatch stdin with
  | None => throw (Plain "decode patch")
  | Some request => applyPatch request
  end.

(** ** test *)

Record testRequest : Type := MkTestRequest {
  tq_Packages : list string;
  tq_Run : string;
  tq_Verbose : bool
}.

(** While a request is decoded, the array behind the packages keeps the elements beyond
    their length. *)
Definition testFields : list (FieldDecoder (testRequest * list string)) :=
  [ MkFieldDecoder "packages" (fun v '(r, backing) =>
      match v with
      | JNull => Some (MkTestRequest [] (tq_Run r) (tq_Verbose r), [])
      | JArray items =>
          packages ← decode_strings items backing;
          Some (MkTestRequest packages (tq_Run r) (tq_Verbose r),
                if decide (packages = []) then [] else packages ++ drop (length packages) backing)
      | _ => None
      end);
    MkFieldDecoder "run" (fun v '(r, backing) =>
      s ← decode_string v (tq_Run r); Some (MkTestRequest (tq_Packages r) s (tq_Verbose r), backing));
    MkFieldDecoder "verbose" (fun v '(r, backing) =>
      b ← decode_bool v (tq_Verbose r); Some (MkTestRequest (tq_Packages r) (tq_Run r) b, backing)) ].

Definition testLimit : Z := Z.shiftl 1 20.

Definition decodeTest (stdin : string) : option testRequest :=
  v ← first_value (LimitReader testLimit (bytes_of stdin));
  fst <$> decode_struct true testFields v (MkTestRequest [] "" false, []).

Definition trimPackage (name : string) : string :=
  let n := String.length name - 4 in
  let clean := if (4 <=? String.length name)%nat && bool_decide (String.substring n 4 name = "/...")
               then String.substring 0 n name else name in
  if decide (clean = "") then "." else clean.

(** The arguments the packages add. *)
Fixpoint packageArguments (packages : list string) : result (list string) :=
  match packages with
  | [] => Ok []
  | name :: rest =>
      if negb (bool_decide (name = ".")) && negb (HasPrefix name "./")
      then Err (Plain "test package is outside the workspace")
      else _ ← safeRelative (trimPackage name); more ← packageArguments rest; Ok (name :: more)
  end.

Definition workspaceState : list string := [".agentdock"; ".agentdock/home"; ".agentdock/tmp"; ".agentdock/go-cache"].

Fixpoint prepareState (directories : list string) : M W unit :=
  match directories with
  | [] => mret tt
  | d :: rest => _ ← root_MkdirAll d 511; _ ← root_Chmod d 511; prepareState rest
  end.

Definition testArguments (request : testRequest) : result (list string) :=
  let verbose := if tq_Verbose request then ["-v"] else [] in
  if negb (bool_decide (tq_Run request = "")) &&
     (HasPrefix (tq_Run request) "-" || existsb (Z.eqb 0) (bytes_of (tq_Run request)))
  then Err (Plain "unsafe test run expression")
  else
    let run := if decide (tq_Run request = "") then [] else ["-run"; tq_Run request] in
    packages ← packageArguments (tq_Packages request);
    Ok (["test"; "-count=1"] ++ verbose ++ run ++ packages).

(** The exit code: that of go when it ran. *)
Definition runTest (stdin : string) : M W Z :=
  match decodeTest stdin with
  | None => throw (Plain "decode test request")
  | Some request =>
      if decide (tq_Packages request = []) then throw (Plain "at least one test package is required")
      else
        _ ← prepareState workspaceState;
        arguments ← lift (testArguments request);
        run_go arguments
  end.

(** ** cleanup *)

(** What the walk does with an entry outside of [.git]. *)
Definition cleanupEntry (name : string) (type : EntryType) : M W unit :=
  uid ← root_Uid name;
  euid ← gets Geteuid;
  if decide (uid <> Some (euid mod 2 ^ 32)%Z) then mret tt
  else match type with
  | DirectoryType => root_Chmod name 511
  | RegularType => root_Chmod name 438
  | OtherType => mret tt
  end.

(** [fs.WalkDir] with the function of [runCleanup].  A directory is read after its mode
    was set, so the walk is not over a tree known before; its depth is bounded. *)
Fixpoint cleanupWalk (fuel : nat) (name : string) (type : EntryType) : M W unit :=
  if EqualFold (fst (split_slash name)) ".git" then mret tt
  else
    _ ← cleanupEntry name type;
    match type, fuel with
    | DirectoryType, S n =>
        entries ← root_ReadDir name;
        (fix each entries :=
           match entries with
           | [] => mret tt
           | (child, type) :: rest => _ ← cleanupWalk n (filepath_Join [name; child]) type; each rest
           end) entries
    | DirectoryType, O => throw (Plain "file name too long")
    | _, _ => mret tt
    end.

(** A name the system accepts has at most 4096 bytes. *)
Definition cleanupDepth : nat := 4096.

Definition runCleanup : M W unit :=
  type ← root_Type ".";
  cleanupWalk cleanupDepth "." type.

(** ** probe *)

Definition say (line : string) : M W unit := modify (println line).
Definition bool_text (b : bool) : string := if b then "true" else "false".
Definition succeeds {A} (m : M W A) : M W bool := r ← try m; mret (match r with Ok _ => true | Err _ => false end).

(** A call whose failure is the failure of the process. *)
Definition must {A} (what : string) (m : M W A) : M W A :=
  r ← try m; match r with Ok a => mret a | Err _ => throw (Plain what) end.

Definition workspaceRoot : string := "/workspace".

Definition outsidePaths : list string :=
  ["/tmp/agentdock-write-probe"; "/run/agentdock-write-probe"; "/dev/shm/agentdock-write-probe"].

Fixpoint probeWritable (candidates : list string) : M W (list string) :=
  match candidates with
  | [] => mret []
  | candidate :: rest =>
      written ← succeeds (probe_WriteFile candidate "deny" 384);
      if (written : bool) then _ ← try (probe_Remove candidate); writable ← probeWritable rest; mret (candidate :: writable)
      else probeWritable rest
  end.

Definition limitFiles : list string :=
  ["/sys/fs/cgroup/cpu.max"; "/sys/fs/cgroup/memory.max"; "/sys/fs/cgroup/pids.max"].

(** [path.Base] of a clean path that is not the root *)
Definition base_name (path : string) : string := List.last (components path) "".

Fixpoint probeLimits (files : list string) : M W unit :=
  match files with
  | [] => mret tt
  | file :: rest =>
      content ← must "read cgroup limit" (probe_ReadFile file);
      _ ← say (base_name file +:+ "=" +:+ TrimSpace content);
      probeLimits rest
  end.

Definition expectedEnvironment : list (string * string) :=
  [("GOCACHE", "/workspace/.agentdock/go-cache"); ("GOENV", "off"); ("GOFLAGS", ""); ("GOTOOLCHAIN", "local");
   ("GOTMPDIR", "/workspace/.agentdock/tmp"); ("HOME", "/workspace/.agentdock/home"); ("TMPDIR", "/workspace/.agentdock/tmp")].

Definition probeEnvironment : M W unit :=
  matches ← gets (fun w => forallb (fun kv => bool_decide (Getenv (fst kv) w = snd kv)) expectedEnvironment);
  if (matches : bool) then say "fixed-environment-ok" else throw (Plain "fixed environment mismatch").

(** The keys of the environment, as [strings.Cut] finds them. *)
Definition environmentKey (entry : string) : string :=
  match strings_Cut entry "=" with Some (key, _) => key | None => entry end.

(** [runPIDsProbe]: the processes that started and the number that did not. *)
Definition requestedProcesses : nat := 256.

Fixpoint startProcesses (n : nat) : M W (list nat * nat) :=
  match n with
  | O => mret ([], 0)
  | S n =>
      started ← try (start_process ["sleep"; "5"]);
      '(processes, failures) ← startProcesses n;
      mret (match started with Ok p => (p :: processes, failures) | Err _ => (processes, S failures) end)
  end.

Definition runPIDsProbe : M W unit :=
  '(processes, failures) ← startProcesses requestedProcesses;
  _ ← modify (fun w => foldl (fun w p => kill_process p w) w processes);
  _ ← say ("pids-limited=" +:+ bool_text (0 <? failures)%nat +:+ " requested=" +:+ pretty requestedProcesses +:+
           " started=" +:+ pretty (length processes) +:+ " rejected=" +:+ pretty failures);
  if decide (failures = 0) then throw (Plain "PID limit was not observed") else mret tt.

(** [runTOCTOUProbe]: while the link is turned to and fro, reading it through the root
    never shows the outside.  The other goroutine takes some steps before each read, and
    some at the end, when it finishes its round: the schedule says how many. *)
Definition toctouSafe : string := ".agentdock-toctou-safe".
Definition toctouLink : string := ".agentdock-toctou-link".

Definition toggleStep (step : nat) : M W unit :=
  let link := filepath_Join [workspaceRoot; toctouLink] in
  _ ← try (match step mod 4 with
           | 1 => probe_Symlink toctouSafe link
           | 3 => probe_Symlink "/etc/passwd" link
           | _ => probe_Remove link
           end);
  mret tt.

Fixpoint toggle (n step : nat) : M W nat :=
  match n with O => mret step | S n => _ ← toggleStep step; toggle n (S step) end.

Definition toctouReads : nat := 2000.

(** The reads that are left: whether an unexpected one was seen. *)
Fixpoint watchLink (reads step : nat) : M W bool :=
  match reads with
  | O => _ ← toggle (toggles 0) step; mret false
  | S reads =>
      step ← toggle (toggles (S reads)) step;
      content ← try (root_ReadFile toctouLink);
      match content with
      | Ok content =>
          if decide (content <> "safe") then _ ← toggle (toggles 0) step; mret true else watchLink reads step
      | Err _ => watchLink reads step
      end
  end.

(** A failure exits, so that the deferred removals are not run. *)
Definition runTOCTOUProbe : M W unit :=
  _ ← must "create TOCTOU safe file" (root_WriteFile toctouSafe "safe" 384);
  escaped ← watchLink toctouReads 0;
  if (escaped : bool) then throw (Plain "TOCTOU escape observed unexpected bytes")
  else
    _ ← say "toctou-escape-observed=false";
    _ ← try (root_Remove toctouLink);
    _ ← try (root_Remove toctouSafe);
    mret tt.

Definition largeOutput : string := string_of_bytes (repeat 120%Z (Z.to_nat (2 ^ 20))).

Definition runProbe (name : string) : M W unit :=
  if decide (name = "user") then
    uid ← gets Getuid; gid ← gets Getgid; say ("uid=" +:+ pretty uid +:+ " gid=" +:+ pretty gid)
  else if decide (name = "rootfs-write") then
    _ ← must "rootfs-write-denied" (probe_WriteFile "/agentdock-rootfs-probe" "deny" 384);
    say "rootfs-write-unexpectedly-succeeded"
  else if decide (name = "nonworkspace-write") then
    writable ← probeWritable outsidePaths;
    if decide (writable <> []) then throw (Plain "non-workspace paths were writable") else say "non-workspace-write-denied"
  else if decide (name = "workspace-write") then
    _ ← must "create workspace state" (root_MkdirAll ".agentdock" 511);
    _ ← must "set workspace state permissions" (root_Chmod ".agentdock" 511);
    _ ← must "write workspace" (root_WriteFile ".agentdock/write-probe" "ok" 384);
    say "workspace-write-ok"
  else if decide (name = "workspace-directory-mode") then
    '(sticky, perm) ← must "stat workspace directory" (probe_Mode workspaceRoot);
    say ("workspace-sticky=" +:+ bool_text sticky +:+ " workspace-other-write=" +:+ bool_text (negb (Z.land perm 2 =? 0)%Z))
  else if decide (name = "git-pointer-delete") then
    removed ← succeeds (root_Remove ".git");
    if (removed : bool) then throw (Plain "sanitized Git pointer was removable")
    else _ ← must "sanitized Git pointer disappeared" (root_Stat ".git"); say "git-pointer-delete-denied"
  else if decide (name = "restrict-workspace") then
    _ ← must "create restricted workspace directory" (root_MkdirAll "locked/by-test" 448);
    _ ← must "write restricted workspace file" (root_WriteFile "locked/by-test/file" "cleanup" 384);
    _ ← must "restrict workspace directory" (root_Chmod "locked/by-test" 448);
    _ ← must "restrict workspace parent" (root_Chmod "locked" 448);
    say "workspace-restricted"
  else if decide (name = "network") then
    _ ← must "network-denied" (DialTimeout "tcp" "1.1.1.1:80");
    say "network-unexpectedly-succeeded"
  else if decide (name = "sleep") then modify (Sleep (10 * 1000000000))
  else if decide (name = "pids") then runPIDsProbe
  else if decide (name = "large-output") then modify (write_output largeOutput)
  else if decide (name = "limits") then probeLimits limitFiles
  else if decide (name = "environment-keys") then
    environ ← gets Environ;
    modify (fun w => foldl (fun w key => println key w) w (sort_Strings (map environmentKey environ)))
  else if decide (name = "fixed-environment") then probeEnvironment
  else if decide (name = "toctou") then runTOCTOUProbe
  else throw (Plain "unknown probe").

(** ** The command line *)

(** [strconv.Atoi] *)
Definition Atoi (s : string) : option Z :=
  match bytes_of s with 43%Z :: 45%Z :: _ => None | 43%Z :: r => number_Int64 r | bs => number_Int64 bs end.

Definition optionalPositiveInt (argument : option string) (fallback : Z) : result Z :=
  match argument with
  | None => Ok fallback
  | Some text =>
      match Atoi text with
      | Some value => if (value <? 0)%Z then Err (Plain "line number is invalid") else Ok value
      | None => Err (Plain "line number is invalid")
      end
  end.

Definition ok (m : M W unit) : M W Z := _ ← m; mret 0%Z.

(** [main], for the arguments after the program's name: the exit code, or the failure,
    whose exit code is 1. *)
Definition helperMain (arguments : list string) (stdin : string) : M W Z :=
  match arguments with
  | [] => throw (Plain "subcommand is required")
  | subcommand :: rest =>
      _ ← root_OpenRoot;
      if decide (subcommand = "list") then ok (runList (default "." (head rest)))
      else if decide (subcommand = "read") then
        match rest with
        | [] | _ :: _ :: _ :: _ :: _ => throw (Plain "read requires path and optional start/end line")
        | path :: lines =>
            start ← lift (optionalPositiveInt (lines !! 0) 1);
            stop ← lift (optionalPositiveInt (lines !! 1) 0);
            ok (runRead path start stop)
        end
      else if decide (subcommand = "search") then
        match rest with
        | [pattern; path] => ok (runSearch pattern path)
        | _ => throw (Plain "search requires pattern and relative path")
        end
      else if decide (subcommand = "apply-patch") then ok (runApplyPatch stdin)
      else if decide (subcommand = "test") then runTest stdin
      else if decide (subcommand = "probe") then
        match rest with [name] => ok (runProbe name) | _ => throw (Plain "probe name is required") end
      else if decide (subcommand = "cleanup") then
        match rest with [] => ok runCleanup | _ => throw (Plain "cleanup does not accept arguments") end
      else throw (Plain "unknown subcommand")
  end.
End helper.
