(* ===== verification/HelperTheorems.v ===== *)
(** * What the helper guarantees

    It opens the paths the policy has checked; a patch replaces its one occurrence, once,
    and leaves every other file alone; reading prints the lines asked for. *)
From S2P Require Import Prelude Sha256 GoLib Json Regexp Decode Effect Float64 Contract Policy PathFacts PolicyTheorems Helper.

(** ** Cutting texts *)

Lemma substring_drop a b : String.substring (String.length a) (String.length (a +:+ b) - String.length a) (a +:+ b) = b.
Proof.
  induction a as [|c a IH]; [|exact IH]. change (String.substring 0 (String.length b - 0) b = b). rewrite Nat.sub_0_r.
  induction b as [|d b IHb]; [done|]. cbn. by rewrite IHb.
Qed.

Lemma cut_prefix sub t : strings_Cut (sub +:+ t) sub = Some ("", t).
Proof.
  assert (String.prefix sub (sub +:+ t) = true) as Hp by (apply prefix_spec; eauto).
  destruct (sub +:+ t) as [|c r] eqn:E; unfold strings_Cut; fold strings_Cut; rewrite Hp, <- E;
    by rewrite substring_drop.
Qed.

Lemma strings_Cut_Some s sub before after :
  strings_Cut s sub = Some (before, after) -> s = before +:+ sub +:+ after.
Proof.
  assert (forall w, String.prefix sub w = true -> forall b a, strings_Cut w sub = Some (b, a) -> w = b +:+ sub +:+ a) as Hpre.
  { intros w [t ->]%prefix_spec b a. rewrite cut_prefix. by intros [= <- <-]. }
  revert before after. induction s as [|c s IH]; intros before after.
  - destruct (String.prefix sub "") eqn:Hp; [by apply Hpre|]. unfold strings_Cut. by rewrite Hp.
  - destruct (String.prefix sub (String c s)) eqn:Hp; [by apply Hpre|]. cbn [strings_Cut]. rewrite Hp.
    destruct (strings_Cut s sub) as [[a b]|]; [|done]. cbn. intros [= <- <-]. by rewrite (IH a b).
Qed.

Lemma strings_Cut_Contains s sub : Contains s sub = true <-> is_Some (strings_Cut s sub).
Proof.
  induction s as [|c s IH]; cbn [Contains strings_Cut]; destruct (String.prefix sub _); cbn [orb];
    try (split; [intros _; exact (mk_is_Some _ _ eq_refl)|done]); try (split; [done|by intros [? [=]]]).
  rewrite IH. destruct (strings_Cut s sub) as [[a b]|]; cbn; [by split; intros _; exact (mk_is_Some _ _ eq_refl)|].
  by split; intros [? [=]].
Qed.

Lemma strings_Cut_None s sub : strings_Cut s sub = None <-> Contains s sub = false.
Proof.
  pose proof (strings_Cut_Contains s sub) as Hc. destruct (strings_Cut s sub), (Contains s sub); try done; split; try done.
  - by pose proof (proj2 Hc (mk_is_Some _ _ eq_refl)).
  - by destruct (proj1 Hc eq_refl) as [? [=]].
Qed.

Lemma count_one s sub :
  sub <> "" -> strings_Count s sub = 1 ->
  exists before after, strings_Cut s sub = Some (before, after) /\ Contains after sub = false.
Proof.
  intros Hsub. unfold strings_Count. cbn [count_from].
  destruct (strings_Cut s sub) as [[before after]|] eqn:Hc; [|done].
  intros [= Hn]. exists before, after. split; [done|]. apply strings_Cut_None.
  destruct s as [|c s]; [by destruct sub|]. cbn [count_from String.length] in Hn.
  by destruct (strings_Cut after sub) as [[]|].
Qed.

(** ** Paths *)

Lemma plain_valid c : plain c -> negb (bool_decide (c = "" \/ c = "." \/ c = "..")) = true.
Proof. intros (H1 & H2 & H3 & _). rewrite negb_true_iff, bool_decide_eq_false. tauto. Qed.

Lemma ValidPath_Normal p : Normal p -> ValidPath (filepath_Clean p) = ValidString (filepath_Clean p).
Proof.
  intros (_ & Hr & _ & Hp & _). unfold ValidPath.
  destruct (plain_directories p Hp Hr) as [[_ ->]|[Hne ->]]; [by rewrite andb_true_r|].
  assert (forallb (fun c => negb (bool_decide (c = "" \/ c = "." \/ c = "..")))
            (components (String.concat "/" (directories p))) = true) as ->.
  { rewrite components_concat; [|done|exact (Forall_impl _ _ _ Hp plain_free)].
    apply forallb_forall. intros c Hc%list_elem_of_In. apply plain_valid. by apply (proj1 (Forall_forall _ _) Hp). }
  by rewrite orb_true_r, andb_true_r.
Qed.

(** The helper's test of paths is the policy's, and that the path is UTF-8 text. *)
Lemma safeRelative_spec candidate q :
  safeRelative candidate = Ok q <-> normalizeLogicalPath candidate = Ok q /\ ValidString q = true.
Proof.
  assert (forall P, normalizeLogicalPath candidate = Ok (filepath_Clean candidate) /\ P <-> Normal candidate /\ P) as Hn
    by (intros P; rewrite normalize_spec; tauto).
  split.
  - unfold safeRelative. intros Hs. assert (q = filepath_Clean candidate) as ->.
    { destruct (_ || _ || _); [done|]. destruct (_ || _); [done|]. destruct (negb _); [done|].
      destruct (reservedPath _); [done|]. by injection Hs. }
    rewrite Hn. unfold normalizeLogicalPath in *. assert (Normal candidate) as HN.
    { apply (normalize_spec candidate (filepath_Clean candidate)). unfold normalizeLogicalPath.
      destruct (_ || _ || _); [done|]. destruct (_ || _); [done|]. destruct (negb _); [done|].
      unfold reservedPath in Hs. by destruct (_ || _). }
    split; [done|]. rewrite <- ValidPath_Normal by done.
    destruct (_ || _ || _); [done|]. destruct (_ || _); [done|]. by destruct (ValidPath _).
  - intros [Hq Hv]. pose proof Hq as [HN ->]%normalize_spec. rewrite <- ValidPath_Normal in Hv by done.
    unfold safeRelative, normalizeLogicalPath, reservedPath in *.
    destruct (_ || _ || _); [done|]. destruct (_ || _) eqn:Hu; [done|]. rewrite Hv. cbn [negb].
    by destruct (EqualFold _ _ || _).
Qed.

(** ** Patches *)

(** What is relied on of [os.Root], for a workspace where no two names denote one file:
    the contents of the files by name; an operation that fails leaves them alone, except
    that a failed write may leave a part. *)
Class RootLaws (W : Type) `{Root W} : Type := {
  files : W -> gmap string string;
  readfile_law : forall p w r w', root_ReadFile p w = (r, w') ->
    files w' = files w /\ forall c, r = Ok c -> files w !! p = Some c;
  perm_law : forall p w r w', root_Perm p w = (r, w') -> files w' = files w;
  create_law : forall p perm w r w', root_Create p perm w = (r, w') ->
    match r with Ok _ => files w !! p = None /\ files w' = <[p := ""]> (files w) | Err _ => files w' = files w end;
  write_law : forall p s w r w', root_WriteString p s w = (r, w') ->
    exists part, files w' = <[p := part]> (files w) /\ (r = Ok tt -> part = s);
  sync_law : forall p w r w', root_Sync p w = (r, w') -> files w' = files w;
  close_law : forall p w r w', root_Close p w = (r, w') -> files w' = files w;
  remove_law : forall p w r w', root_Remove p w = (r, w') ->
    files w' = match r with Ok _ => delete p (files w) | Err _ => files w end;
  rename_law : forall p q w r w', root_Rename p q w = (r, w') ->
    match r with
    | Ok _ => exists c, files w !! p = Some c /\ files w' = <[q := c]> (delete p (files w))
    | Err _ => files w' = files w
    end;
  println_law : forall l w, files (println l w) = files w
}.

Section patches.
Context {W : Type} `{RootLaws W}.

(** The files after a failure: as before, but for a temporary file that was not there. *)
Definition undisturbed (before after : gmap string string) : Prop :=
  after = before \/ exists t, before !! t = None /\ delete t after = before.

Lemma orRemove_law t close (m : M W unit) w r w' (base : gmap string string) :
  (forall r w1, m w = (r, w1) -> delete t (files w1) = base) ->
  orRemove t close m w = (r, w') -> delete t (files w') = base /\ forall u, r = Ok u -> m w = (Ok u, w').
Proof.
  unfold orRemove, mbind, M_bind, try. intros Hm. destruct (m w) as [[[]|e] w1] eqn:E.
  - intros [= <- <-]. split; [by apply (Hm (Ok tt))|]. intros [] _. done.
  - specialize (Hm (Err e) w1 eq_refl). intros Hrun. split; [|].
    + destruct close.
      * destruct (root_Close t w1) as [r2 w2] eqn:E2. cbn in Hrun. destruct (root_Remove t w2) as [r3 w3] eqn:E3.
        injection Hrun as <- <-. apply close_law in E2. apply remove_law in E3. rewrite E3, E2.
        destruct r3; [by rewrite delete_delete_eq|done].
      * cbn in Hrun. destruct (root_Remove t w1) as [r3 w3] eqn:E3. injection Hrun as <- <-. apply remove_law in E3.
        rewrite E3. destruct r3; [by rewrite delete_delete_eq|done].
    + intros u ->. destruct close; cbn in Hrun;
        [destruct (root_Close t w1) as [r2 w2]; cbn in Hrun; destruct (root_Remove t w2)|destruct (root_Remove t w1)]; done.
Qed.

Lemma publishPatch_law clean updated w r w' :
  publishPatch clean updated w = (r, w') ->
  match r with
  | Ok _ => files w' = <[clean := updated]> (files w)
  | Err _ => undisturbed (files w) (files w')
  end.
Proof.
  unfold publishPatch, mbind, M_bind. destruct (root_Perm clean w) as [[perm|e] w1] eqn:E1; apply perm_law in E1.
  2: { intros [= <- <-]. by left. }
  cbn [gets]. set (t := temporaryName _ _). clearbody t. destruct (root_Create t perm w1) as [[[]|e] w2] eqn:E2; apply create_law in E2.
  2: { intros [= <- <-]. left. congruence. }
  destruct E2 as [Hnew E2]. rewrite E1 in Hnew, E2.
  assert (delete t (files w2) = files w) as Hd by (rewrite E2, delete_insert_eq; by apply delete_id).
  set (m3 := orRemove t true _). destruct (m3 w2) as [r3 w3] eqn:E3.
  apply (orRemove_law _ _ _ _ _ _ (files w)) in E3 as [Hd3 H3].
  2: { intros r0 w0 (part & -> & _)%write_law. by rewrite delete_insert_eq. }
  destruct r3 as [[]|e]; [|intros [= <- <-]; right; eauto].
  pose proof (write_law _ _ _ _ _ (H3 tt eq_refl)) as (part & Hw & Hpart). rewrite (Hpart eq_refl) in Hw. clear Hpart H3.
  set (m4 := orRemove t true _). destruct (m4 w3) as [r4 w4] eqn:E4.
  apply (orRemove_law _ _ _ _ _ _ (files w)) in E4 as [Hd4 H4]; [|by intros r0 w0 ->%sync_law].
  destruct r4 as [[]|e]; [|intros [= <- <-]; right; eauto].
  pose proof (sync_law _ _ _ _ (H4 tt eq_refl)) as Hs.
  set (m5 := orRemove t false _). destruct (m5 w4) as [r5 w5] eqn:E5.
  apply (orRemove_law _ _ _ _ _ _ (files w)) in E5 as [Hd5 H5]; [|by intros r0 w0 ->%close_law].
  destruct r5 as [[]|e]; [|intros [= <- <-]; right; eauto].
  pose proof (close_law _ _ _ _ (H5 tt eq_refl)) as Hc.
  unfold orRemove, mbind, M_bind, try. destruct (root_Rename t clean w5) as [[[]|e] w6] eqn:E6; apply rename_law in E6.
  - intros [= <- <-]. cbn. rewrite println_law. destruct E6 as (c & Hc6 & ->).
    rewrite Hc, Hs, Hw, lookup_insert_eq in Hc6. injection Hc6 as <-. by rewrite Hd5.
  - cbn. destruct (root_Remove t w6) as [r7 w7] eqn:E7. apply remove_law in E7. cbn. intros [= <- <-]. right. exists t.
    split; [done|]. rewrite E7, E6. destruct r7; [by rewrite delete_delete_eq|done].
Qed.

(** C14: a patch is an exact replacement that cannot happen twice.  When the helper
    applies one, the path was contained, the file held the old text - counting
    occurrences that do not overlap - exactly once, afterwards the file is what was
    before it, the new text, and what was behind it, every other file is as it was, and
    the same request is from then on refused without effect.  When it fails, every file
    is as it was, except that a temporary file that was not there may be left. *)
Theorem patch_applies_once request w r w' :
  applyPatch request w = (r, w') ->
  match r with
  | Ok _ =>
      exists clean before after,
        normalizeLogicalPath (pq_Path request) = Ok clean /\
        files w !! clean = Some (before +:+ pq_Old request +:+ after) /\ Contains after (pq_Old request) = false /\
        files w' = <[clean := before +:+ pq_New request +:+ after]> (files w) /\
        forall r2 w2, applyPatch request w' = (r2, w2) -> is_ok r2 = false /\ files w2 = files w'
  | Err _ => undisturbed (files w) (files w')
  end.
Proof.
  unfold applyPatch, mbind, M_bind, lift.
  destruct (safeRelative (pq_Path request)) as [clean|e] eqn:Hsafe; [|intros [= <- <-]; by left].
  destruct (decide (pq_Old request = "")) as [|Hold]; [intros [= <- <-]; by left|].
  destruct (Contains (pq_New request) (pq_Old request)); [intros [= <- <-]; by left|].
  destruct (root_ReadFile clean w) as [[content|e] w1] eqn:Hread; apply readfile_law in Hread as [Hw1 Hc].
  2: { intros [= <- <-]. left. done. }
  specialize (Hc content eq_refl). destruct (decide (strings_Count _ _ <> 1)) as [|Hcount]; [intros [= <- <-]; by left|].
  apply dec_stable in Hcount. destruct (count_one _ _ Hold Hcount) as (before & after & Hcut & Hafter).
  unfold strings_Replace. rewrite Hcut. set (updated := before +:+ pq_New request +:+ after).
  destruct (Contains updated (pq_Old request)) eqn:Hupd; [intros [= <- <-]; by left|].
  intros Hp. apply publishPatch_law in Hp. rewrite Hw1 in Hp. destruct r as [u|e]; [|done].
  exists clean, before, after. split; [by apply safeRelative_spec in Hsafe as [? _]|].
  split; [by rewrite <- (strings_Cut_Some _ _ _ _ Hcut)|]. split; [done|]. split; [done|].
  intros r2 w2. destruct (root_ReadFile clean w') as [[content2|e] w3] eqn:Hread2; apply readfile_law in Hread2 as [Hw3 Hc2].
  2: { by intros [= <- <-]. }
  specialize (Hc2 content2 eq_refl). rewrite Hp, lookup_insert_eq in Hc2. injection Hc2 as <-.
  rewrite decide_True; [by intros [= <- <-]|].
  apply strings_Cut_None in Hupd. unfold strings_Count. cbn [count_from]. by rewrite Hupd.
Qed.
End patches.

(** ** Cleaning up *)

Section cleanup.
Context {W : Type} `{Root W}.
Variables (R : W -> W -> Prop) (HR : PreOrder R).
Hypothesis looking : forall w,
  (forall name, R w (snd (root_Type name w))) /\ (forall name, R w (snd (root_ReadDir name w))) /\
  (forall name, R w (snd (root_Uid name w))).
Hypothesis opening : forall name mode w w1,
  EqualFold (fst (split_slash name)) ".git" = false -> mode ∈ [511; 438]%Z ->
  root_Uid name w = (Ok (Some (Geteuid w1 mod 2 ^ 32)%Z), w1) -> R w1 (snd (root_Chmod name mode w1)).

Lemma walk_bind {A B} (m : M W A) (f : A -> M W B) w :
  R w (snd (m w)) -> (forall a w1, m w = (Ok a, w1) -> R w1 (snd (f a w1))) -> R w (snd ((m ≫= f) w)).
Proof.
  unfold mbind, M_bind. intros Hm Hf. destruct (m w) as [[a|e] w1]; [|exact Hm].
  etransitivity; [exact Hm|]. by apply Hf.
Qed.

Lemma cleanupEntry_confined name type w :
  EqualFold (fst (split_slash name)) ".git" = false -> R w (snd (cleanupEntry name type w)).
Proof.
  intros Hname. apply walk_bind; [apply looking|]. intros uid w1 Huid. apply walk_bind; [done|].
  intros euid w2 [= <- <-]. case_decide as Hown; [done|]. subst uid.
  destruct type; [eapply opening; [done| |exact Huid]|eapply opening; [done| |exact Huid]|done]; repeat constructor.
Qed.

(** A cleanup does nothing but look around and open the permissions of what it has just
    found to belong to the user it runs as, outside of [.git]: to 0777 or 0666. *)
Theorem cleanup_is_confined w : R w (snd (runCleanup w)).
Proof.
  apply walk_bind; [apply looking|]. intros type w1 _. generalize "." as name. revert w1 type.
  induction cleanupDepth as [|n IH]; intros w1 type name; cbn [cleanupWalk];
    destruct (EqualFold _ _) eqn:Hname; try done; (apply walk_bind; [by apply cleanupEntry_confined|]);
    intros _ w2 _; destruct type; try done.
  apply walk_bind; [apply looking|]. intros entries w3 _. revert w3.
  induction entries as [|[child type] entries IHe]; intros w3; [done|].
  apply walk_bind; [apply IH|]. intros _ w4 _. apply IHe.
Qed.
End cleanup.
