(* ===== verification/HelperPaths.v ===== *)
(** * The helper does what the tools ask of it

    It acts on the paths the policy has checked, and on nothing else: the service and the
    helper read the same request with different decoders, a map and a struct, and for what a
    built-in contract accepts they see the same paths.  Reading prints the lines of the
    request.  At the end, the theorems on the helper at a concrete workspace. *)
From stdpp Require Import sorting.
From S2P Require Import Prelude Sha256 GoLib Json Effect Controller Regexp Float64 Contract ContractTheorems Policy.
From S2P Require Import PathFacts PolicyTheorems ToolService JsonPrint WireTheorems Decode Helper HostFacts HelperTheorems.

(** What the schema of a closed object says about every member. *)
Lemma closed_members definition members :
  schemaType definition = "object" -> additionalRefused definition = true ->
  validateSchemaValue definition (JObject members) = true ->
  (forall name, name ∈ requiredOf definition -> is_Some (member name members)) /\
  forall m, live m members -> exists child, member (fst m) (schemaProperties definition) = Some (JObject child) /\
    validateSchemaValue child (snd m) = true.
Proof.
  intros Ht Ha Hv. rewrite validate_object in Hv by done. apply andb_true_iff in Hv as [Hr Hc].
  split; [by apply requiredPresent_spec|]. intros m Hl. rewrite check_members_spec in Hc. specialize (Hc m Hl).
  unfold checkMember in Hc. rewrite Ha in Hc. destruct (member (fst m) _) as [[| | | | |child]|]; try done. eauto.
Qed.

Lemma member_key name members : name ∈ map fst members -> exists v, live (name, v) members.
Proof.
  intros Hi. destruct (member name members) as [v|] eqn:Hm; [|by apply member_None in Hm].
  exists v. by apply member_live.
Qed.

Lemma string_value definition v :
  schemaType definition = "string" -> validateSchemaValue definition v = true -> exists s, v = JString s.
Proof. intros Ht. destruct v; cbn [validateSchemaValue]; rewrite Ht; try done. eauto. Qed.

(** The request as the service and the checker see it. *)
Lemma accepted_request schema input definition o :
  unmarshal_map schema = Some definition -> schemaType definition = "object" ->
  validateJSONSchema schema input = Ok tt -> unmarshal_map input = Some o ->
  parse_bytes (bytes_of input) = Some (JObject o) /\ validateSchemaValue definition (JObject o) = true.
Proof.
  intros Hd Ht. unfold validateJSONSchema. rewrite Hd. unfold unmarshal_map.
  destruct (json_Unmarshal input) as [v|] eqn:Hu; [|done]. apply json_Unmarshal_parse in Hu. rewrite Hu.
  rewrite guard_err_Ok, negb_false_iff. intros Hv. rewrite validate_object in Hv by done.
  destruct v as [| | | | |members]; try done. intros [= <-]. split; [done|]. by rewrite validate_object.
Qed.

(** ** apply-patch *)

Definition patchDefinition : object := Eval vm_compute in default [] (unmarshal_map applyPatchSchema).
Definition patchNames : list (list Z) := Eval vm_compute in map bytes_of ["path"; "old"; "new"].

Lemma patchDefinition_eq : unmarshal_map applyPatchSchema = Some patchDefinition.
Proof. vm_compute. reflexivity. Qed.

Lemma patch_child key child :
  member key (schemaProperties patchDefinition) = Some (JObject child) ->
  key ∈ patchNames /\ schemaType child = "string".
Proof.
  intros Hm. apply member_live, live_members_spec in Hm. revert Hm.
  assert (Forall (fun m => forall child, snd m = JObject child -> fst m ∈ patchNames /\ schemaType child = "string")
            (live_members (schemaProperties patchDefinition))) as Hall.
  { repeat (constructor; [cbn; intros ? [= <-]; split; [by apply (bool_decide_unpack (_ ∈ patchNames))|reflexivity]|]).
    constructor. }
  intros Hm. by apply (proj1 (Forall_forall _ _) Hall _ Hm).
Qed.

Lemma patch_members o :
  validateSchemaValue patchDefinition (JObject o) = true ->
  (forall key, key ∈ map fst o -> key ∈ patchNames) /\ exists s, member (bytes_of "path") o = Some (JString s).
Proof.
  intros Hv. destruct (closed_members patchDefinition o eq_refl eq_refl Hv) as [Hr Hl]. split.
  - intros key (v & Hk)%member_key. destruct (Hl _ Hk) as (child & Hc & _). by apply patch_child in Hc as [? _].
  - destruct (Hr (bytes_of "path")) as [v Hm]; [by apply (bool_decide_unpack (_ ∈ requiredOf patchDefinition))|].
    destruct (Hl (bytes_of "path", v)) as (child & Hc & Hs); [by apply member_live|].
    apply patch_child in Hc as [_ Ht]. cbn [snd] in Hs. apply (string_value _ _ Ht) in Hs as [s ->]. eauto.
Qed.

Definition json_text (v : json) : string := match v with JString s => string_of_bytes s | _ => "" end.

Lemma decode_patch_path o request :
  (forall key, key ∈ map fst o -> key ∈ patchNames) ->
  decode_struct true patchFields (JObject o) (MkPatchRequest "" "" "") = Some request ->
  forall s, member (bytes_of "path") o = Some (JString s) -> pq_Path request = string_of_bytes s.
Proof.
  intros Hk Hd s Hm.
  destruct (decode_members_field patchFields (bytes_of "path")
    (MkFieldDecoder "path" (fun v r => s ← decode_string v (pq_Path r); Some (MkPatchRequest s (pq_Old r) (pq_New r))))
    pq_Path (fun v => exists s, v = JString s) json_text o (MkPatchRequest "" "" "") request eq_refl) as [_ Hs];
    [..|exact Hd|].
  - intros v r r' Hset [t ->]. cbn in Hset. by injection Hset as <-.
  - intros key g Hi Hne Hg v r r' Hset. specialize (Hk key Hi).
    apply elem_of_cons in Hk as [->|Hk]; [done|].
    repeat (apply elem_of_cons in Hk as [->|Hk]; [injection Hg as <-; cbn in Hset; destruct (decode_string v _); [|done]; by injection Hset as <-|]).
    by apply elem_of_nil in Hk.
  - by apply (Hs (JString s) Hm); eauto.
Qed.

(** ** test *)

Definition testDefinition : object := Eval vm_compute in default [] (unmarshal_map testSchema).
Definition testNames : list (list Z) := Eval vm_compute in map bytes_of ["packages"; "run"; "verbose"].

Lemma testDefinition_eq : unmarshal_map testSchema = Some testDefinition.
Proof. vm_compute. reflexivity. Qed.

Lemma test_child key child :
  member key (schemaProperties testDefinition) = Some (JObject child) ->
  key ∈ testNames /\
  (key = bytes_of "packages" -> schemaType child = "array" /\
     exists item, field "items" child = Some (JObject item) /\ schemaType item = "string").
Proof.
  intros Hm. apply member_live, live_members_spec in Hm. revert Hm.
  assert (Forall (fun m => forall child, snd m = JObject child -> fst m ∈ testNames /\
            (fst m = bytes_of "packages" -> schemaType child = "array" /\
               exists item, field "items" child = Some (JObject item) /\ schemaType item = "string"))
            (live_members (schemaProperties testDefinition))) as Hall.
  { repeat (constructor; [cbn; intros ? [= <-]; split; [by apply (bool_decide_unpack (_ ∈ testNames))|]|]).
    - intros _. split; [reflexivity|]. by eexists.
    - done.
    - done.
    - constructor. }
  intros Hm. by apply (proj1 (Forall_forall _ _) Hall _ Hm).
Qed.

Definition packages_value (v : json) : Prop := exists names, v = JArray (map JString names).

Lemma string_items item items :
  schemaType item = "string" -> forallb (validateSchemaValue item) items = true -> exists names, items = map JString names.
Proof.
  intros Ht. induction items as [|v items IH]; [by exists []|]. cbn. intros [Hv Hi]%andb_true_iff.
  apply (string_value _ _ Ht) in Hv as [s ->]. destruct (IH Hi) as [names ->]. by exists (s :: names).
Qed.

Lemma test_members o :
  validateSchemaValue testDefinition (JObject o) = true ->
  (forall key, key ∈ map fst o -> key ∈ testNames) /\
  exists names, member (bytes_of "packages") o = Some (JArray (map JString names)).
Proof.
  intros Hv. destruct (closed_members testDefinition o eq_refl eq_refl Hv) as [Hr Hl]. split.
  - intros key (v & Hk)%member_key. destruct (Hl _ Hk) as (child & Hc & _). by apply test_child in Hc as [? _].
  - destruct (Hr (bytes_of "packages")) as [v Hm]; [by apply (bool_decide_unpack (_ ∈ requiredOf testDefinition))|].
    destruct (Hl (bytes_of "packages", v)) as (child & Hc & Hs); [by apply member_live|].
    apply test_child in Hc as [_ Ht]. destruct (Ht eq_refl) as (Ha & item & Hi & Hst). cbn [snd] in Hs.
    rewrite validate_array, Hi in Hs by done. destruct v as [| | | |items|]; try done.
    apply andb_true_iff in Hs as [_ Hs]. apply (string_items _ _ Hst) in Hs as [names ->]. eauto.
Qed.

Lemma decode_strings_all names old :
  decode_strings (map JString names) old = Some (map string_of_bytes names).
Proof. revert old. induction names as [|s names IH]; intros old; [done|].
  unfold decode_strings in *. cbn [map decode_items]. by rewrite IH. Qed.

Definition json_texts (v : json) : list string := match v with JArray items => map json_text items | _ => [] end.

Lemma json_texts_strings names : json_texts (JArray (map JString names)) = map string_of_bytes names.
Proof. unfold json_texts. by rewrite map_map. Qed.

Lemma decode_test_packages o request names :
  (forall key, key ∈ map fst o -> key ∈ testNames) ->
  fst <$> decode_struct true testFields (JObject o) (MkTestRequest [] "" false, []) = Some request ->
  member (bytes_of "packages") o = Some (JArray (map JString names)) ->
  tq_Packages request = map string_of_bytes names.
Proof.
  intros Hk Hd Hm. destruct (decode_struct _ _ _ _) as [[q backing]|] eqn:Hq; [|done]. injection Hd as <-.
  assert (exists f, find_field testFields (bytes_of "packages") = Some f /\
    forall v r r', fd_set f v r = Some r' -> packages_value v -> tq_Packages (fst r') = json_texts v) as (f & Hf & Hset).
  { eexists. split; [reflexivity|]. intros v [r b] r' Hset [ns ->]. cbn in Hset.
    rewrite decode_strings_all in Hset. cbn in Hset. injection Hset as <-. by rewrite json_texts_strings. }
  destruct (decode_members_field testFields (bytes_of "packages") f (fun r => tq_Packages (fst r)) packages_value
    json_texts o (MkTestRequest [] "" false, []) (q, backing) Hf Hset) as [_ Hs]; [|exact Hq|].
  - intros key g Hi Hne Hg v [r b] r' Hs. specialize (Hk key Hi).
    apply elem_of_cons in Hk as [->|Hk]; [done|].
    repeat (apply elem_of_cons in Hk as [->|Hk];
      [injection Hg as <-; cbn in Hs; destruct (_ v _); [|done]; by injection Hs as <-|]).
    by apply elem_of_nil in Hk.
  - rewrite <- json_texts_strings. apply (Hs _ Hm). by exists names.
Qed.

Lemma trimPackage_path name : trimPackage name = packagePath name.
Proof. reflexivity. Qed.

Lemma packagePaths_names `{FileSystem} workspace names paths :
  packagePaths workspace (map JString names) = Ok paths -> paths = map packagePath (map string_of_bytes names).
Proof.
  revert paths. induction names as [|s names IH]; intros paths; cbn [map packagePaths]; [by intros [= <-]|].
  destruct (_ || _ || _); [done|]. intros (x & _ & (rest & Hr & [= <-])%bind_Ok)%bind_Ok. by rewrite (IH rest).
Qed.

(** ** All tools *)

Lemma NormalizePath_logical `{FileSystem} root p q : NormalizePath root p = Ok q -> normalizeLogicalPath p = Ok q.
Proof.
  unfold NormalizePath. intros (l & Hl & (a & _ & (c & _ & (u & _ & [= <-])%bind_Ok)%bind_Ok)%bind_Ok)%bind_Ok. done.
Qed.

Lemma builtin_cases contract :
  contract ∈ builtinContracts ->
  ct_Name contract = "repo.list" \/ ct_Name contract = "repo.read" \/ ct_Name contract = "repo.search" \/
  ct_Name contract = "repo.apply_patch" /\ ct_InputSchema contract = applyPatchSchema \/
  ct_Name contract = "repo.test" /\ ct_InputSchema contract = testSchema.
Proof.
  revert contract. apply Forall_forall. unfold builtinContracts. repeat (constructor; [cbn; tauto|]). constructor.
Qed.

Lemma decodePatch_value input v :
  parse_bytes (bytes_of input) = Some v -> (Z.of_nat (length (bytes_of input)) <= patchLimit)%Z ->
  decodePatch input = decode_struct true patchFields v (MkPatchRequest "" "" "").
Proof.
  intros Hp Hl. unfold decodePatch. unfold LimitReader. rewrite (proj2 (Z.leb_le _ _) Hl), (first_value_parse _ _ Hp). reflexivity.
Qed.

Lemma decodeTest_value input v :
  parse_bytes (bytes_of input) = Some v -> (Z.of_nat (length (bytes_of input)) <= testLimit)%Z ->
  decodeTest input = fst <$> decode_struct true testFields v (MkTestRequest [] "" false, []).
Proof.
  intros Hp Hl. unfold decodeTest. unfold LimitReader. rewrite (proj2 (Z.leb_le _ _) Hl), (first_value_parse _ _ Hp). reflexivity.
Qed.

Lemma limits : (testLimit <= patchLimit)%Z.
Proof. done. Qed.

(** The command of a request: the paths of its arguments or of its standard input, as the
    helper decodes them, are among those that are checked. *)
Inductive Asks (paths : list string) : string -> list string -> string -> Prop :=
  | AsksList stdin path : path ∈ paths -> Asks paths "repo.list" [helper; "list"; path] stdin
  | AsksRead stdin path lines : path ∈ paths -> Asks paths "repo.read" (helper :: "read" :: path :: lines) stdin
  | AsksSearch stdin pattern path : path ∈ paths -> Asks paths "repo.search" [helper; "search"; pattern; path] stdin
  | AsksPatch stdin :
      (forall request, decodePatch stdin = Some request -> pq_Path request ∈ paths) ->
      Asks paths "repo.apply_patch" [helper; "apply-patch"] stdin
  | AsksTest stdin :
      (forall request, decodeTest stdin = Some request ->
         forall package, package ∈ tq_Packages request -> packagePath package ∈ paths) ->
      Asks paths "repo.test" [helper; "test"] stdin.

Lemma patch_asked input o command stdin paths :
  validateJSONSchema applyPatchSchema input = Ok tt -> unmarshal_map input = Some o ->
  (Z.of_nat (length (bytes_of input)) <= testLimit)%Z -> patchCommand input o = Ok (command, stdin, paths) ->
  Asks paths "repo.apply_patch" command (default "" stdin).
Proof.
  intros Hv Ho Hlen Hb. destruct (accepted_request _ _ _ _ patchDefinition_eq eq_refl Hv Ho) as [Hp Hvo].
  destruct (patch_members o Hvo) as [Hk (s & Hm)]. unfold patchCommand in Hb.
  apply bind_Ok in Hb as (p & Hpath & Hb). destruct (stringField "old" o), (stringField "new" o); try done.
  destruct (_ || _); [done|]. injection Hb as <- <- <-. change (default "" (Some input)) with input. constructor. intros request Hd.
  rewrite (decodePatch_value input _ Hp) in Hd by (etrans; [exact Hlen|exact limits]).
  rewrite (decode_patch_path o request Hk Hd s Hm). unfold pathValue, stringField, field in Hpath.
  rewrite Hm in Hpath. case_decide; [done|]. injection Hpath as <-. by left.
Qed.

Lemma test_asked `{FileSystem} workspace input o command stdin paths :
  validateJSONSchema testSchema input = Ok tt -> unmarshal_map input = Some o ->
  (Z.of_nat (length (bytes_of input)) <= testLimit)%Z -> testCommand workspace input o = Ok (command, stdin, paths) ->
  Asks paths "repo.test" command (default "" stdin).
Proof.
  intros Hv Ho Hlen Hb. destruct (accepted_request _ _ _ _ testDefinition_eq eq_refl Hv Ho) as [Hp Hvo].
  destruct (test_members o Hvo) as [Hk (names & Hm)]. unfold testCommand, field in Hb. rewrite Hm in Hb.
  destruct (_ || _); [done|]. apply bind_Ok in Hb as (ps & Hps & [= <- <- <-]). change (default "" (Some input)) with input.
  constructor. intros request Hd package Hi. rewrite (decodeTest_value input _ Hp Hlen) in Hd.
  rewrite (decode_test_packages o request names Hk Hd Hm) in Hi. apply packagePaths_names in Hps as ->.
  unfold sort_Strings. rewrite merge_sort_Permutation. by apply list_elem_of_fmap_2.
Qed.

Lemma request_asked `{FileSystem} workspace contract input command stdin paths :
  contract ∈ builtinContracts -> ValidateInput contract input = Ok tt ->
  buildRequest workspace contract input = Ok (command, stdin, paths) ->
  (Z.of_nat (length (bytes_of input)) <= testLimit)%Z ->
  Asks paths (ct_Name contract) command (default "" stdin).
Proof.
  intros Hc Hv Hb Hlen. unfold buildRequest in Hb. destruct (unmarshal_map input) as [o|] eqn:Ho; [|done].
  destruct (builtin_cases contract Hc) as [Hn|[Hn|[Hn|[[Hn Hs]|[Hn Hs]]]]]; rewrite Hn in Hb |- *; cbn -[testCommand patchCommand] in Hb.
  - apply bind_Ok in Hb as (p & _ & [= <- <- <-]). constructor. by left.
  - unfold readCommand in Hb. apply bind_Ok in Hb as (p & _ & Hb).
    destruct (floatField "startLine" o), (floatField "endLine" o); try done; [destruct (float_ltb _ _); [done|]|..];
      injection Hb as <- <- <-; constructor; by left.
  - unfold searchCommand in Hb. apply bind_Ok in Hb as (p & _ & Hb).
    destruct (stringField "pattern" o); [|done]. case_decide; [done|]. injection Hb as <- <- <-. constructor. by left.
  - unfold ValidateInput in Hv. rewrite Hs in Hv. by apply (patch_asked input o command stdin paths).
  - unfold ValidateInput in Hv. rewrite Hs in Hv. by apply (test_asked workspace input o command stdin paths).
Qed.

(** ** What the helper does *)

(** The files a walk meets: regular, and not reserved on the way. *)
Inductive met : string -> Entry -> string -> Prop :=
  | MetHere name : reservedPath name = false -> met name RegularFile name
  | MetBelow name entries child entry file :
      reservedPath name = false -> (child, entry) ∈ entries -> met (filepath_Join [name; child]) entry file ->
      met name (Directory (Ok entries)) file.

(** The go command of a test: its packages are [.] or start with [./], and each is at a
    path that was checked. *)
Definition TestArguments (checked : string -> Prop) (arguments : list string) : Prop :=
  exists verbose run packages, arguments = ["test"; "-count=1"] ++ verbose ++ run ++ packages /\
    verbose ∈ [[]; ["-v"]] /\ (run = [] \/ exists expression, run = ["-run"; expression] /\ HasPrefix expression "-" = false) /\
    forall package, package ∈ packages ->
      (package = "." \/ HasPrefix package "./" = true) /\
      exists q, normalizeLogicalPath (packagePath package) = Ok q /\ checked q.

Section acts.
Context {W : Type} `{Root W} `{ProbeHost W}.

(** What a tool is for, as a relation on worlds that its operations respect: each reads at
    the checked paths; a search opens the files it meets below; a patch writes beside a
    checked path and renames over it; a test prepares the state directories and runs go. *)
Record Confines (R : W -> W -> Prop) (tool : string) (checked : string -> Prop) : Prop := {
  cf_root : respects R root_OpenRoot;
  cf_print : forall line w, R w (println line w);
  cf_list : tool = "repo.list" -> forall q, checked q -> respects R (root_Stat q);
  cf_read : tool = "repo.read" -> forall q, checked q -> respects R (root_Open q);
  cf_search : tool = "repo.search" -> forall q, checked q -> respects R (root_Stat q) /\
    forall w entry w' file, root_Stat q w = (Ok entry, w') -> met q entry file -> respects R (root_Open file);
  cf_patch : tool = "repo.apply_patch" -> forall q, checked q ->
    respects R (root_ReadFile q) /\ respects R (root_Perm q) /\
    forall nano, let t := temporaryName q nano in
      (forall perm, respects R (root_Create t perm)) /\ (forall s, respects R (root_WriteString t s)) /\
      respects R (root_Sync t) /\ respects R (root_Close t) /\ respects R (root_Remove t) /\ respects R (root_Rename t q);
  cf_state : tool = "repo.test" -> forall d, d ∈ [".agentdock"; ".agentdock/home"; ".agentdock/tmp"; ".agentdock/go-cache"] ->
    respects R (root_MkdirAll d 511) /\ respects R (root_Chmod d 511);
  cf_go : tool = "repo.test" -> forall arguments, TestArguments checked arguments -> respects R (run_go arguments)
}.

(** Where a tool starts to read. *)
Definition reads (tool q : string) : M W unit :=
  if decide (tool = "repo.read") then _ ← root_Open q; mret tt
  else if decide (tool = "repo.apply_patch") then _ ← root_ReadFile q; mret tt
  else _ ← root_Stat q; mret tt.

Definition fails {A} (m : M W A) : Prop := forall w, is_ok (fst (m w)) = false.

Lemma fails_bind {A B} (m : M W A) (f : A -> M W B) : fails m -> fails (m ≫= f).
Proof. intros Hm w. specialize (Hm w). unfold mbind, M_bind. by destruct (m w) as [[?|?] ?]. Qed.
Lemma fails_then {A B} (m : M W A) (f : A -> M W B) : (forall a, fails (f a)) -> fails (m ≫= f).
Proof. intros Hf w. unfold mbind, M_bind. destruct (m w) as [[a|e] w']; [apply Hf|done]. Qed.
Lemma fails_throw {A} e : fails (throw e : M W A).
Proof. by intros w. Qed.
Lemma fails_lift {A B} (r : result A) (f : A -> M W B) : (forall a, r = Ok a -> fails (f a)) -> fails (lift r ≫= f).
Proof. intros Hf w. unfold mbind, M_bind, lift. destruct r as [a|e]; [by apply Hf|done]. Qed.
Lemma fails_first {A} (m : M W A) : fails (_ ← m; mret tt) -> fails m.
Proof. intros Hm w. specialize (Hm w). unfold mbind, M_bind in Hm. by destruct (m w) as [[?|?] ?]. Qed.

Lemma respects_lift_then (R : W -> W -> Prop) {HR : PreOrder R} {A B} (r : result A) (f : A -> M W B) :
  (forall a, r = Ok a -> respects R (f a)) -> respects R (lift r ≫= f).
Proof. intros Hf w. unfold mbind, M_bind, lift. destruct r as [a|e]; [by apply Hf|done]. Qed.

Context `{FileSystem}.
Variables (workspace : string) (paths : list string).
Hypothesis accepted : checkPaths workspace paths = Ok tt.

(** The normal forms of the checked paths *)
Definition checkedPath (q : string) : Prop := exists p, p ∈ paths /\ NormalizePath workspace p = Ok q.

Lemma accepted_path p : p ∈ paths -> exists q, NormalizePath workspace p = Ok q.
Proof.
  clear -accepted. induction paths as [|c ps IH]; [by intros ?%elem_of_nil|].
  apply bind_Ok in accepted as (q & Hc & Hr). intros [->|Hi]%elem_of_cons; eauto.
Qed.

Lemma safe_checked p q : p ∈ paths -> safeRelative p = Ok q -> checkedPath q.
Proof.
  intros Hi [Hq _]%safeRelative_spec. destruct (accepted_path p Hi) as [q' Hn]. exists p. split; [done|].
  rewrite Hn. pose proof (NormalizePath_logical _ _ _ Hn). congruence.
Qed.

Lemma checked_fails p (f : string -> M W unit) (g : string -> M W unit) :
  p ∈ paths -> (forall q, checkedPath q -> fails (f q)) -> (forall q, fails (f q) -> fails (g q)) ->
  fails (clean ← lift (safeRelative p); g clean).
Proof. intros Hi Hf Hg. apply fails_lift. intros q Hq. by apply Hg, Hf, (safe_checked p). Qed.

Lemma helper_fails tool command stdin :
  Asks paths tool command stdin -> tool <> "repo.test" -> (forall q, checkedPath q -> fails (reads tool q)) ->
  fails (helperMain (tail command) stdin).
Proof.
  destruct 1 as [s p Hi|s p lines Hi|s pattern p Hi|s Hi|s Hi]; intros Ht Hf; try done; unfold reads in Hf;
    rewrite ?decide_False, ?decide_True in Hf by done; (apply fails_then; intros _).
  - apply fails_bind, (checked_fails p (fun q => _ ← root_Stat q; mret tt)); [done|done|intros q Hq%fails_first; by apply fails_bind].
  - assert (forall start stop, fails (runRead p start stop)) as Hr.
    { intros start stop. apply (checked_fails p (fun q => _ ← root_Open q; mret tt)); [done|done|intros q Hq%fails_first; by apply fails_bind]. }
    destruct lines as [|start [|stop [|]]]; try by intros w.
    all: apply fails_lift; intros first _; apply fails_lift; intros last _; by apply fails_bind.
  - apply fails_bind, (checked_fails p (fun q => _ ← root_Stat q; mret tt)); [done|done|intros q Hq%fails_first; by apply fails_bind].
  - apply fails_bind. unfold runApplyPatch. destruct (decodePatch s) as [request|] eqn:Hd; [|by intros w].
    apply (checked_fails (pq_Path request) (fun q => _ ← root_ReadFile q; mret tt)); [by apply Hi|done|intros q Hq%fails_first].
    clear Hf. case_decide; [by intros w|]. destruct (Contains _ _); [by intros w|]. by apply fails_bind.
Qed.

Variables (R : W -> W -> Prop) (HR : PreOrder R) (tool : string).
Hypothesis confines : Confines R tool checkedPath.

Lemma prints lines : respects R (print_lines lines).
Proof.
  intros w. unfold print_lines, modify. cbn. revert w. induction lines as [|l lines IH]; intros w; [done|]. cbn.
  etrans; [apply (cf_print _ _ _ confines)|apply IH].
Qed.

Lemma list_confined p : p ∈ paths -> tool = "repo.list" -> respects R (runList p).
Proof.
  intros Hi Ht. apply (respects_lift_then R). intros q Hq. apply respects_bind; [done| |intros entry].
  - by apply (cf_list _ _ _ confines), (safe_checked p).
  - apply (respects_lift_then R). intros found _. apply prints.
Qed.

Lemma read_confined p start stop : p ∈ paths -> tool = "repo.read" -> respects R (runRead p start stop).
Proof.
  intros Hi Ht. apply (respects_lift_then R). intros q Hq. apply respects_bind; [done| |intros file].
  - by apply (cf_read _ _ _ confines), (safe_checked p).
  - destruct (scanFile file) as [lines e]. destruct (readLines _ _ _ _) as [shown early].
    apply respects_bind; [done|apply prints|intros _]. destruct early, e; by intros w.
Qed.

Lemma searchFile_confined pattern name : respects R (root_Open name) -> respects R (searchFile pattern name).
Proof.
  intros Ho. apply respects_bind; [done|done|intros file]. destruct (scanFile file) as [lines e].
  apply respects_bind; [done|apply prints|intros _]. destruct e; by intros w.
Qed.

Lemma searchNode_confined pattern : forall entry name,
  (forall file, met name entry file -> respects R (root_Open file)) -> respects R (searchNode pattern name entry).
Proof.
  fix IH 1. intros [| |[entries|e]] name Hm; cbn [searchNode]; destruct (reservedPath name) eqn:Hr; try by intros w.
  - by apply searchFile_confined, Hm, MetHere.
  - assert (forall child entry file, (child, entry) ∈ entries -> met (filepath_Join [name; child]) entry file ->
      respects R (root_Open file)) as Hall by (intros child entry file Hi Hf; apply Hm; by eapply MetBelow).
    clear Hm. revert Hall. induction entries as [|[child entry] rest IHe]; intros Hall; [by intros w|].
    apply respects_bind; [done| |intros _].
    + apply IH. intros file Hf. eapply Hall; [by left|exact Hf].
    + apply IHe. intros child' entry' file Hi Hf. eapply Hall; [right; exact Hi|exact Hf].
Qed.

Lemma search_confined pattern p : p ∈ paths -> tool = "repo.search" -> respects R (runSearch pattern p).
Proof.
  intros Hi Ht. apply (respects_lift_then R). intros q Hq. pose proof (safe_checked p q Hi Hq) as Hc.
  destruct (cf_search _ _ _ confines Ht q Hc) as [Hs Hm]. intros w. specialize (Hs w). unfold mbind, M_bind.
  destruct (root_Stat q w) as [[entry|e] w1] eqn:E; [|done]. etrans; [exact Hs|].
  apply searchNode_confined. intros file Hf. by eapply Hm.
Qed.

Lemma orRemove_confined t close m :
  respects R m -> respects R (root_Close t) -> respects R (root_Remove t) -> respects R (orRemove t close m).
Proof.
  intros Hm Hc Hr. unfold orRemove. apply respects_bind; [done|by apply respects_try|intros [?|e]]; [by intros w|].
  apply respects_bind; [done|destruct close; [by apply respects_try|by intros w]|intros _].
  apply respects_bind; [done|by apply respects_try|by intros _ w].
Qed.

Lemma patch_confined request : pq_Path request ∈ paths -> tool = "repo.apply_patch" -> respects R (applyPatch request).
Proof.
  intros Hi Ht. apply (respects_lift_then R). intros q Hq. pose proof (safe_checked _ q Hi Hq) as Hc.
  destruct (cf_patch _ _ _ confines Ht q Hc) as (Hread & Hperm & Hwrite).
  case_decide; [by intros w|]. destruct (Contains _ _); [by intros w|]. apply respects_bind; [done|done|intros content].
  cbv zeta. case_decide; [by intros w|]. destruct (Contains _ _); [by intros w|]. unfold publishPatch. cbv zeta.
  apply respects_bind; [done|done|intros perm]. apply respects_bind; [done|by intros w|intros nano].
  destruct (Hwrite nano) as (H1' & H2' & H3' & H4' & H5' & H6').
  repeat (apply respects_bind; [done|solve [done|by apply orRemove_confined]|intros _]). intros w. exact (cf_print _ _ _ confines _ w).
Qed.

Lemma packageArguments_spec packages more :
  packageArguments packages = Ok more ->
  more = packages /\ forall package, package ∈ packages ->
    (package = "." \/ HasPrefix package "./" = true) /\ exists q, safeRelative (packagePath package) = Ok q.
Proof.
  revert more. induction packages as [|name rest IH]; intros more; cbn [packageArguments].
  { intros [= <-]. split; [done|]. by intros ? ?%elem_of_nil. }
  destruct (negb _ && negb _) eqn:Hn; [done|]. intros (q & Hq & (l & Hl & [= <-])%bind_Ok)%bind_Ok.
  destruct (IH l Hl) as [-> Hall]. split; [done|]. intros package [->|Hi]%elem_of_cons; [|by apply Hall].
  split; [|exists q; by rewrite <- trimPackage_path]. apply andb_false_iff in Hn as [Hn|Hn]; apply negb_false_iff in Hn;
    [left; by apply bool_decide_eq_true in Hn|by right].
Qed.

Lemma testArguments_spec request arguments :
  (forall package, package ∈ tq_Packages request -> packagePath package ∈ paths) ->
  testArguments request = Ok arguments -> TestArguments checkedPath arguments.
Proof.
  intros Hp. unfold testArguments. destruct (negb _ && _) eqn:Hrun; [done|]. intros (packages & Hpk & [= <-])%bind_Ok.
  apply packageArguments_spec in Hpk as [-> Hall].
  exists (if tq_Verbose request then ["-v"] else []), (if decide (tq_Run request = "") then [] else ["-run"; tq_Run request]),
    (tq_Packages request). split; [done|]. split; [destruct (tq_Verbose request); [right; left|left]|]. split.
  - case_decide as Hr; [by left|]. right. eexists. split; [done|]. rewrite bool_decide_false in Hrun by done. cbn in Hrun.
    by apply orb_false_iff in Hrun as [? _].
  - intros package Hi. destruct (Hall package Hi) as [Hd [q Hq]]. split; [done|]. exists q.
    split; [by apply safeRelative_spec in Hq as [? _]|]. by apply (safe_checked (packagePath package)); [apply Hp|].
Qed.

Lemma test_confined stdin :
  (forall request, decodeTest stdin = Some request -> forall package, package ∈ tq_Packages request -> packagePath package ∈ paths) ->
  tool = "repo.test" -> respects R (runTest stdin).
Proof.
  intros Hp Ht. unfold runTest. destruct (decodeTest stdin) as [request|]; [|by intros w]. case_decide; [by intros w|].
  apply respects_bind; [done| |intros _].
  - pose proof (cf_state _ _ _ confines Ht) as Hs. unfold workspaceState.
    revert Hs. generalize [".agentdock"; ".agentdock/home"; ".agentdock/tmp"; ".agentdock/go-cache"]. intros ds Hs.
    induction ds as [|d ds IH]; [by intros w|]. destruct (Hs d ltac:(left)) as [Hm Hc].
    apply respects_bind; [done|done|intros _]. apply respects_bind; [done|done|intros _]. apply IH. intros d' Hd. apply Hs. by right.
  - apply (respects_lift_then R). intros arguments Ha. apply (cf_go _ _ _ confines Ht). by apply (testArguments_spec request); [apply Hp|].
Qed.

(** The helper, run with the command of a request. *)
Lemma helper_confined asked command stdin :
  tool = asked -> Asks paths asked command stdin -> respects R (helperMain (tail command) stdin).
Proof.
  intros Htool.
  assert (forall (m : M W unit) (m' : M W Z), respects R m' -> respects R m -> respects R (_ ← m; m')) as Hthen
    by (intros m m' Hm' Hm; by apply respects_bind; [done|done|intros _]).
  assert (forall m : M W unit, respects R m -> respects R (_ ← root_OpenRoot; ok m)) as Hok
    by (intros m Hm; apply Hthen; [apply Hthen; [by intros w|done]|apply confines]).
  destruct 1 as [s p Hi|s p lines Hi|s pattern p Hi|s Hi|s Hi].
  - by apply Hok, list_confined.
  - destruct lines as [|start [|stop [|]]]; (apply Hthen; [|apply confines]); try (by intros w);
      apply (respects_lift_then R); intros first _; apply (respects_lift_then R); intros last _;
      (apply Hthen; [by intros w|by apply read_confined]).
  - by apply Hok, search_confined.
  - apply Hok. unfold runApplyPatch. destruct (decodePatch s) as [request|]; [|by intros w]. apply patch_confined; [by apply Hi|done].
  - apply Hthen; [by apply test_confined|apply confines].
Qed.
End acts.



(** ** Reading lines, from the request to the output

    The line numbers of a request are decoded as floats, printed, parsed by the helper
    and select the lines of the file. *)

Open Scope Z_scope.

(** ** Line numbers *)

Lemma span_all_digits ds : forallb digit ds = true -> span_digits ds = (ds, []).
Proof.
  intros Hd. rewrite <- (app_nil_r ds) at 1. apply span_digits_app; [|done]. apply Forall_forall.
  intros b Hb. rewrite forallb_forall in Hd. apply Hd. by apply list_elem_of_In.
Qed.

Lemma number_Int64_inv text n :
  number_Int64 text = Some n ->
  exists ds, forallb digit ds = true /\
    (text = 45 :: ds /\ n = - digits_value ds \/
     match text with 45 :: _ => False | _ => True end /\ text = ds /\ n = digits_value ds).
Proof.
  unfold number_Int64. destruct text as [|b r]; [done|].
  destruct (decide (b = 45)) as [->|Hb].
  - destruct (forallb digit r) eqn:Hd; [|done]. cbn. destruct (bool_decide _); [done|]. cbn.
    case_match; [|done]. intros [= <-]. exists r. split; [done|by left].
  - assert (match b :: r with 45 :: r0 => (true, r0) | _ => (false, b :: r) end = (false, b :: r)) as ->
      by (repeat case_match; congruence).
    destruct (forallb digit (b :: r)) eqn:Hd; [|done]. cbn [andb negb]. destruct (bool_decide _); [done|]. cbn [negb].
    case_match; [|done]. intros [= <-]. exists (b :: r). split; [done|right]. split; [|done].
    repeat case_match; try done; congruence.
Qed.

(** An integer of a request is represented exactly below 2^53. *)
Lemma float_of_integer text n :
  number_Int64 text = Some n -> - 2 ^ 53 < n < 2 ^ 53 ->
  exists x, float_of_text text = Some x /\ 0 < snd (ratio x) /\ fst (ratio x) = n * snd (ratio x).
Proof.
  intros Hn Hb. destruct (round_ratio_integer n Hb) as (x & Hx & Hr). exists x. split; [|done].
  destruct (number_Int64_inv _ _ Hn) as (ds & Hd & [[-> ->]|(Hm & -> & ->)]).
  - unfold float_of_text, number_parts. rewrite (span_all_digits _ Hd). cbn [app length Z.of_nat].
    rewrite app_nil_r. change (0 <=? 0 - 0) with true. cbn [Z.sub]. change (10 ^ 0) with 1.
    rewrite <- Hx. f_equal. lia.
  - assert (number_parts ds = (ds, [], 0)) as Hp.
    { unfold number_parts. assert (match ds with 45 :: r => r | _ => ds end = ds) as ->
        by (repeat case_match; try done; by destruct Hm). by rewrite (span_all_digits _ Hd). }
    unfold float_of_text. rewrite Hp, app_nil_r. cbn [length Z.of_nat].
    assert (match ds with 45 :: _ => -1 | _ => 1 end = 1) as -> by (repeat case_match; try done; by destruct Hm).
    change (0 <=? 0 - 0) with true. cbn [Z.sub]. change (10 ^ 0) with 1. rewrite <- Hx. f_equal. lia.
Qed.

Lemma float_order x y n m :
  0 < snd (ratio x) -> fst (ratio x) = n * snd (ratio x) -> 0 < snd (ratio y) -> fst (ratio y) = m * snd (ratio y) ->
  float_ltb x y = (n <? m).
Proof.
  unfold float_ltb. destruct (ratio x) as [a b], (ratio y) as [c d]. cbn [fst snd]. intros Hb -> Hd ->.
  apply eq_iff_eq_true. rewrite !Z.ltb_lt. replace (n * b * d) with (n * (b * d)) by lia.
  replace (m * d * b) with (m * (b * d)) by lia. symmetry. apply Z.mul_lt_mono_pos_r. nia.
Qed.

Lemma pretty_head n : 0 <= n -> exists b r, bytes_of (pretty n) = b :: r /\ 48 <= b <= 57.
Proof.
  intros Hn. destruct n as [|p|p]; [by exists 48, []| |lia].
  change (pretty (Zpos p)) with (pretty (Npos p)). destruct (pretty_positive_digits p) as [[Hd Hh] _].
  assert (exists b r, bytes_of (pretty (Npos p)) = b :: r) as (b & r & E) by (destruct Hh as [E|(? & ? & E & _)]; eauto).
  exists b, r. split; [done|]. rewrite E in Hd. apply Forall_cons in Hd as [Hd _].
  unfold digit, in_range in Hd. by rewrite andb_true_iff, !Z.leb_le in Hd.
Qed.

Lemma Atoi_pretty n : 0 <= n < 2 ^ 63 -> Atoi (pretty n) = Some n.
Proof.
  intros Hn. rewrite <- (number_Int64_pretty n) by lia. unfold Atoi.
  destruct (pretty_head n) as (b & r & -> & Hb); [lia|]. repeat case_match; try done; lia.
Qed.

(** ** Lines *)

(** A file of terminated lines. *)
Definition text_of (lines : list (list Z)) : list Z := concat (map (fun l => l ++ [10]) lines).

Definition scannable (line : list Z) : Prop := Forall (fun b => b <> 10) line /\ Z.of_nat (length line) <= maxLine.

Lemma scan_line current room line rest :
  Forall (fun b => b <> 10) line -> Z.of_nat (length line) <= room ->
  scan_lines current room (line ++ 10 :: rest) =
  let '(lines, long) := scan_lines [] maxLine rest in (drop_cr (rev current ++ line) :: lines, long).
Proof.
  intros Hl. revert current room. induction Hl as [|b line Hb _ IH]; intros current room Hn; cbn [app scan_lines].
  - by rewrite decide_True, app_nil_r.
  - rewrite decide_False by done. cbn [length] in Hn. rewrite (proj2 (Z.leb_gt _ _)) by lia.
    rewrite IH by lia. cbn [rev]. by rewrite <- app_assoc.
Qed.

Lemma scan_lines_text lines : Forall scannable lines -> scan_lines [] maxLine (text_of lines) = (map drop_cr lines, false).
Proof.
  induction 1 as [|line lines [Hl Hn] _ IH]; [done|]. unfold text_of in *. cbn [map concat].
  rewrite <- app_assoc. cbn [app]. rewrite (scan_line [] maxLine line) by done. by rewrite IH.
Qed.

(** What the loop shows: the lines [start] to [stop]. *)
Lemma readLines_spec start stop line lines :
  0 < stop -> line <= start ->
  fst (readLines start stop line lines) =
  drop (Z.to_nat (start - line)) (take (Z.to_nat (stop - line + 1)) lines).
Proof.
  intros Hs. revert line. induction lines as [|text rest IH]; intros line Hl; cbn [readLines]; [by rewrite take_nil, drop_nil|].
  destruct (line <? start) eqn:Hlt.
  - apply Z.ltb_lt in Hlt. rewrite IH by lia. replace (Z.to_nat (start - line)) with (S (Z.to_nat (start - (line + 1)))) by lia.
    destruct (decide (stop < line)) as [Ho|Ho].
    + replace (Z.to_nat (stop - line + 1)) with 0%nat by lia. replace (Z.to_nat (stop - (line + 1) + 1)) with 0%nat by lia.
      by rewrite !take_0, !drop_nil.
    + by replace (Z.to_nat (stop - line + 1)) with (S (Z.to_nat (stop - (line + 1) + 1))) by lia.
  - apply Z.ltb_ge in Hlt. assert (start = line) as -> by lia. rewrite Z.sub_diag. clear Hl Hlt IH.
    change (drop (Z.to_nat 0) ?l) with l.
    assert (forall l ls, line <= l -> fst (readLines line stop l ls) = take (Z.to_nat (stop - l + 1)) ls) as Htail.
    { intros l ls. revert l. induction ls as [|x ls IH]; intros l Hl; cbn [readLines]; [by rewrite take_nil|].
      rewrite (proj2 (Z.ltb_ge l line)) by done. rewrite (proj2 (Z.ltb_lt 0 stop)) by done. cbn [andb].
      destruct (stop <? l) eqn:Ho.
      - apply Z.ltb_lt in Ho. by replace (Z.to_nat (stop - l + 1)) with 0%nat by lia.
      - apply Z.ltb_ge in Ho. specialize (IH (l + 1)). destruct (readLines line stop (l + 1) ls) as [more early].
        cbn [fst] in *. rewrite IH by lia. by replace (Z.to_nat (stop - l + 1)) with (S (Z.to_nat (stop - (l + 1) + 1))) by lia. }
    rewrite <- (Htail line (text :: rest)) by lia. cbn [readLines]. by rewrite (proj2 (Z.ltb_ge line line)) by lia.
Qed.

Lemma readLines_text start stop (lines : list string) :
  1 <= start <= stop ->
  fst (readLines start stop 1 lines) = take (Z.to_nat (stop - start + 1)) (drop (Z.to_nat (start - 1)) lines).
Proof. intros Hs. rewrite readLines_spec, skipn_firstn_comm by lia. f_equal. lia. Qed.

Lemma scanFile_text lines :
  Forall scannable lines -> Forall (Forall byte) lines ->
  scanFile (string_of_bytes (text_of lines), None) = (map (fun l => string_of_bytes (drop_cr l)) lines, None).
Proof.
  intros Hs Hb. unfold scanFile. cbn [fst snd]. rewrite bytes_of_string_of_bytes.
  - rewrite (scan_lines_text _ Hs). by rewrite map_map.
  - clear Hs. induction Hb as [|l ls Hl _ IH]; [constructor|]. unfold text_of in *. cbn [map concat].
    apply Forall_app. split; [|done]. apply Forall_app. split; [done|]. by constructor.
Qed.

(** The command of a request for a range of lines. *)
Lemma readCommand_range o path s n t m :
  stringField "path" o = Some path -> path <> "" ->
  field "startLine" o = Some (JNumber s) -> number_Int64 s = Some n ->
  field "endLine" o = Some (JNumber t) -> number_Int64 t = Some m -> 0 <= n <= m -> m < 2 ^ 53 ->
  readCommand o = Ok ([helper; "read"; path; pretty n; pretty m], None, [path]).
Proof.
  intros Hp Hne Hs Hn Ht Hm Hnm Hb. unfold readCommand, pathValue. rewrite Hp, decide_False by done.
  unfold floatField. rewrite Hs, Ht. cbn [mbind result_bind].
  destruct (float_of_integer s n Hn) as (x & -> & Hx & Hxn); [lia|].
  destruct (float_of_integer t m Hm) as (y & -> & Hy & Hym); [lia|].
  rewrite (float_order y x m n), (proj2 (Z.ltb_ge m n)) by (done || lia).
  rewrite (format_whole_integer x n), (format_whole_integer y m) by (done || lia). done.
Qed.

Section read.
Context {W : Type} `{Root W} `{ProbeHost W}.

Lemma runRead_prints path clean lines start stop (w w1 : W) :
  safeRelative path = Ok clean ->
  root_Open clean w = (Ok (string_of_bytes (text_of lines), None), w1) ->
  Forall scannable lines -> Forall (Forall byte) lines -> 1 <= start <= stop ->
  runRead path start stop w =
    (Ok tt, foldl (fun w l => println l w) w1
       (take (Z.to_nat (stop - start + 1)) (drop (Z.to_nat (start - 1)) (map (fun l => string_of_bytes (drop_cr l)) lines)))).
Proof.
  intros Hp Ho Hs Hb Hr. unfold runRead, mbind, M_bind, lift. rewrite Hp, Ho. rewrite (scanFile_text _ Hs Hb).
  pose proof (readLines_text start stop (map (fun l => string_of_bytes (drop_cr l)) lines) Hr) as Hl.
  destruct (readLines _ _ _ _) as [shown early]. cbn [fst] in Hl. subst shown.
  unfold print_lines, modify. by destruct early.
Qed.

(** a read is faithful from end to end.  When a request for the lines n to m of a
    path, below 2^53, is turned into a command by the service and the helper runs that
    command on a file of lines of less than a megabyte each, it exits with 0 and prints
    exactly the lines n to m, in order, each without its line end; the rounding of the
    numbers to floats and the printing and parsing on the way change nothing. *)
Theorem read_tool_prints_lines `{FileSystem} workspace contract input command stdin paths o path s n t m clean lines
    (w w0 w1 : W) :
  ct_Name contract = "repo.read" -> unmarshal_map input = Some o ->
  stringField "path" o = Some path ->
  field "startLine" o = Some (JNumber s) -> number_Int64 s = Some n ->
  field "endLine" o = Some (JNumber t) -> number_Int64 t = Some m -> 1 <= n <= m -> m < 2 ^ 53 ->
  buildRequest workspace contract input = Ok (command, stdin, paths) ->
  safeRelative path = Ok clean -> root_OpenRoot w = (Ok tt, w0) ->
  root_Open clean w0 = (Ok (string_of_bytes (text_of lines), None), w1) ->
  Forall scannable lines -> Forall (Forall byte) lines ->
  helperMain (tail command) (default "" stdin) w =
    (Ok 0, foldl (fun w l => println l w) w1
       (take (Z.to_nat (m - n + 1)) (drop (Z.to_nat (n - 1)) (map (fun l => string_of_bytes (drop_cr l)) lines)))).
Proof.
  intros Hname Ho Hpath Hs Hn Ht Hm Hnm Hb Hbuild Hclean Hroot Hopen Hsc Hby.
  assert (path <> "") as Hne by (intros ->; done).
  assert (command = [helper; "read"; path; pretty n; pretty m]) as ->.
  { unfold buildRequest in Hbuild. rewrite Ho, Hname in Hbuild. cbn -[readCommand] in Hbuild.
    rewrite (readCommand_range o path s n t m) in Hbuild by (done || lia). by injection Hbuild as <- _ _. }
  pose proof (runRead_prints path clean lines n m w0 w1 Hclean Hopen Hsc Hby Hnm) as Hrun.
  unfold helperMain. cbn [tail]. unfold mbind, M_bind, lift. rewrite Hroot. cbn -[Atoi runRead pretty].
  rewrite (Atoi_pretty n), (Atoi_pretty m) by lia. cbn -[Z.ltb runRead].
  rewrite (proj2 (Z.ltb_ge n 0)), (proj2 (Z.ltb_ge m 0)) by lia. unfold ok, mbind, M_bind. rewrite decide_False, decide_True by done. by rewrite Hrun.
Qed.
End read.
Close Scope Z_scope.

(** ** The theorems on the helper, at a concrete workspace *)

#[local] Existing Instance plainFiles.

(** Files by name, what was printed, and the arguments go was run with. *)
Record Workspace : Type := MkWorkspace {
  wk_files : gmap string string;
  wk_output : list string;
  wk_go : list (list string)
}.

Definition setFiles (files : gmap string string) (w : Workspace) : Workspace :=
  MkWorkspace files (wk_output w) (wk_go w).

Definition readWorkspace (p : string) : M Workspace string := fun w =>
  match wk_files w !! p with Some c => (Ok c, w) | None => (Err (Plain "no such file"), w) end.

Definition renameWorkspace (p q : string) : M Workspace unit := fun w =>
  match wk_files w !! p with
  | Some c => (Ok tt, setFiles (<[q := c]> (delete p (wk_files w))) w)
  | None => (Err (Plain "no such file"), w)
  end.

#[local] Instance sampleRoot : Root Workspace := {
  root_OpenRoot := mret tt;
  root_Stat := fun p => _ ← readWorkspace p; mret RegularFile;
  root_Open := fun p => c ← readWorkspace p; mret (c, None);
  root_ReadFile := readWorkspace;
  root_Perm := fun _ => mret 420%Z;
  root_Create := fun p _ w =>
    match wk_files w !! p with
    | Some _ => (Err (Plain "file exists"), w)
    | None => (Ok tt, setFiles (<[p := ""]> (wk_files w)) w)
    end;
  root_WriteString := fun p s w => (Ok tt, setFiles (<[p := s]> (wk_files w)) w);
  root_Sync := fun _ => mret tt;
  root_Close := fun _ => mret tt;
  root_Remove := fun p w => (Ok tt, setFiles (delete p (wk_files w)) w);
  root_Rename := renameWorkspace;
  root_MkdirAll := fun _ _ => mret tt;
  root_Chmod := fun _ _ => mret tt;
  run_go := fun arguments w => (Ok 0%Z, MkWorkspace (wk_files w) (wk_output w) (wk_go w ++ [arguments]));
  root_Type := fun _ => mret DirectoryType;
  root_ReadDir := fun p =>
    if decide (p = ".") then files ← gets wk_files; mret (map (fun q => (q, RegularType)) (elements (dom files)))
    else throw (Plain "not a directory");
  root_Uid := fun _ => mret (Some 1000%Z);
  Geteuid := fun _ => 1000%Z;
  println := fun l w => MkWorkspace (wk_files w) (wk_output w ++ [l]) (wk_go w);
  UnixNano := fun _ => 17%Z
}.

(** Nothing of the rest of the machine can be reached. *)
Definition unreachable {A} : M Workspace A := throw (Plain "permission denied").

#[local] Instance sampleProbes : ProbeHost Workspace := {
  Getuid := fun _ => 65532%Z;
  Getgid := fun _ => 65532%Z;
  Environ := fun _ => map (fun kv => fst kv +:+ "=" +:+ snd kv) expectedEnvironment;
  Getenv := fun key _ => from_option snd "" (List.find (fun kv => bool_decide (fst kv = key)) expectedEnvironment);
  probe_WriteFile := fun _ _ _ => unreachable;
  probe_ReadFile := fun _ => unreachable;
  probe_Remove := fun _ => unreachable;
  probe_Symlink := fun _ _ => unreachable;
  probe_Mode := fun _ => mret (true, 511%Z);
  root_WriteFile := fun p s _ w => (Ok tt, setFiles (<[p := s]> (wk_files w)) w);
  DialTimeout := fun _ _ => unreachable;
  Sleep := fun _ w => w;
  start_process := fun _ => unreachable;
  kill_process := fun _ w => w;
  write_output := fun _ w => w;
  toggles := fun n => n mod 3
}.

Lemma readWorkspace_law p w r w' :
  readWorkspace p w = (r, w') -> wk_files w' = wk_files w /\ forall c, r = Ok c -> wk_files w !! p = Some c.
Proof.
  unfold readWorkspace. destruct (wk_files w !! p); intros [= <- <-]; (split; [done|]); [by intros ? [= <-]|done].
Qed.

#[local] Instance sampleRoot_laws : RootLaws Workspace.
Proof.
  apply (Build_RootLaws _ _ wk_files).
  - exact readWorkspace_law.
  - by intros p w r w' [= _ <-].
  - intros p perm w r w'. cbn. destruct (wk_files w !! p) eqn:E; by intros [= <- <-].
  - intros p s w r w' [= <- <-]. by exists s.
  - by intros p w r w' [= _ <-].
  - by intros p w r w' [= _ <-].
  - by intros p w r w' [= <- <-].
  - intros p q w r w'. cbn. unfold renameWorkspace. destruct (wk_files w !! p) eqn:E; intros [= <- <-]; [eauto|done].
  - done.
Defined.

(** ** A patch *)

Definition sampleFiles : Workspace :=
  MkWorkspace {["main.go" := "one two three"; "other.go" := "two"]} [] [].

Definition samplePatch : patchRequest := MkPatchRequest "./main.go" "two" "2".

Definition patchedFiles : Workspace :=
  MkWorkspace {["main.go" := "one 2 three"; "other.go" := "two"]} ["patched main.go"] [].

Lemma sample_patched : applyPatch samplePatch sampleFiles = (Ok tt, patchedFiles).
Proof. vm_compute. reflexivity. Qed.

Lemma patch_applies_once_witness :
  exists clean before after,
    normalizeLogicalPath "./main.go" = Ok clean /\
    files sampleFiles !! clean = Some (before +:+ "two" +:+ after) /\ Contains after "two" = false /\
    files patchedFiles = <[clean := before +:+ "2" +:+ after]> (files sampleFiles) /\
    forall r2 w2, applyPatch samplePatch patchedFiles = (r2, w2) -> is_ok r2 = false /\ files w2 = files patchedFiles.
Proof. exact (patch_applies_once samplePatch sampleFiles (Ok tt) patchedFiles sample_patched). Defined.

(** Occurrences are counted without overlap: a text that occurs at two places that
    overlap is replaced. *)
Example overlapping_patch :
  strings_Count "aaa" "aa" = 1 /\ strings_Replace "aaa" "aa" "b" = "ba".
Proof. vm_compute. split; reflexivity. Qed.

(** ** Paths *)

Definition testContract : Contract := default listContract (nth_error builtinContracts 4).
Definition testInput : string := double_quoted "{'packages':['./pkg/...','./cmd'],'verbose':true}".

Lemma testContract_builtin : testContract ∈ builtinContracts.
Proof. right. right. right. right. left. Qed.

Lemma test_accepted : ValidateInput testContract testInput = Ok tt.
Proof. vm_compute. reflexivity. Qed.

Lemma test_built :
  @buildRequest plainFiles "/repo" testContract testInput = Ok ([helper; "test"], Some testInput, ["./cmd"; "./pkg"]).
Proof. vm_compute. reflexivity. Qed.

Lemma test_checked : @checkPaths plainFiles "/repo" ["./cmd"; "./pkg"] = Ok tt.
Proof. vm_compute. reflexivity. Qed.

(** Go runs on the checked packages only. *)
Definition goes (w w' : Workspace) : Prop :=
  exists runs, wk_go w' = wk_go w ++ runs /\ Forall (TestArguments (@checkedPath plainFiles "/repo" ["./cmd"; "./pkg"])) runs.

Lemma goes_preorder : PreOrder goes.
Proof.
  split.
  - intros w. exists []. by rewrite app_nil_r.
  - intros w1 w2 w3 (l1 & E1 & F1) (l2 & E2 & F2). exists (l1 ++ l2). by rewrite E2, E1, (assoc_L (++)), Forall_app.
Qed.

Lemma goes_confines : Confines goes "repo.test" (@checkedPath plainFiles "/repo" ["./cmd"; "./pkg"]).
Proof.
  pose proof goes_preorder. split; try discriminate.
  - by intros w.
  - intros line w. exists []. by rewrite app_nil_r.
  - by intros _ d _; split; intros w.
  - intros _ arguments Ha w. exists [arguments]. split; [done|]. by constructor.
Qed.


(** ** Reading *)

Definition readInput : string := double_quoted "{'path':'./main.go','startLine':2,'endLine':3}".
Definition readObject : object := Eval vm_compute in default [] (unmarshal_map readInput).
Definition sampleLines : list (list Z) := map bytes_of ["package main"; ""; "func main() {}"; "end"].
Definition sampleText : Workspace := MkWorkspace {["main.go" := string_of_bytes (text_of sampleLines)]} [] [].

Lemma read_built :
  @buildRequest plainFiles "/repo" readContract readInput =
    Ok ([helper; "read"; "./main.go"; "2"; "3"], None, ["./main.go"]).
Proof. vm_compute. reflexivity. Qed.

Lemma readObject_eq : unmarshal_map readInput = Some readObject.
Proof. vm_compute. reflexivity. Qed.

Lemma sampleText_opened : root_Open "main.go" sampleText = (Ok (string_of_bytes (text_of sampleLines), None), sampleText).
Proof. vm_compute. reflexivity. Qed.

Lemma sampleLines_scannable : Forall scannable sampleLines.
Proof.
  assert (Forall (fun l => Forall (fun b => b <> 10%Z) l) sampleLines) as H1
    by (apply (bool_decide_unpack (Forall (fun l => Forall (fun b => b <> 10%Z) l) sampleLines)); vm_compute; exact I).
  assert (Forall (fun l => (Z.of_nat (length l) <= maxLine)%Z) sampleLines) as H2
    by (apply (bool_decide_unpack (Forall (fun l => (Z.of_nat (length l) <= maxLine)%Z) sampleLines)); vm_compute; exact I).
  apply Forall_and. by split.
Qed.

Lemma sampleLines_bytes : Forall (Forall byte) sampleLines.
Proof. apply (bool_decide_unpack (Forall (Forall byte) sampleLines)). vm_compute. exact I. Qed.

Lemma read_tool_prints_lines_witness :
  helperMain ["read"; "./main.go"; "2"; "3"] "" sampleText =
    (Ok 0%Z, foldl (fun w l => println l w) sampleText
       (take (Z.to_nat (3 - 2 + 1)) (drop (Z.to_nat (2 - 1)) (map (fun l => string_of_bytes (drop_cr l)) sampleLines)))).
Proof.
  exact (read_tool_prints_lines (W := Workspace) "/repo" readContract readInput [helper; "read"; "./main.go"; "2"; "3"] None
    ["./main.go"] readObject "./main.go" (bytes_of "2") 2 (bytes_of "3") 3 "main.go" sampleLines sampleText sampleText sampleText
    eq_refl readObject_eq eq_refl eq_refl eq_refl eq_refl eq_refl ltac:(split; discriminate) eq_refl read_built
    eq_refl eq_refl sampleText_opened sampleLines_scannable sampleLines_bytes).
Defined.

(** What it prints. *)
Example sample_read_output :
  wk_output (snd (helperMain ["read"; "./main.go"; "2"; "3"] "" sampleText)) = [""; "func main() {}"].
Proof. vm_compute. reflexivity. Qed.

(** ** The probes *)

(** Probes of an isolated process: what is printed, and whether the exit code is 0. *)
Definition probed (name : string) : bool * list string :=
  let '(r, w) := helperMain ["probe"; name] "" sampleText in (is_ok r, wk_output w).

Example probes_when_isolated :
  probed "user" = (true, ["uid=65532 gid=65532"]) /\
  probed "rootfs-write" = (false, []) /\
  probed "nonworkspace-write" = (true, ["non-workspace-write-denied"]) /\
  probed "network" = (false, []) /\
  probed "pids" = (true, ["pids-limited=true requested=256 started=0 rejected=256"]) /\
  probed "workspace-directory-mode" = (true, ["workspace-sticky=true workspace-other-write=true"]) /\
  probed "environment-keys" = (true, ["GOCACHE"; "GOENV"; "GOFLAGS"; "GOTMPDIR"; "GOTOOLCHAIN"; "HOME"; "TMPDIR"]) /\
  probed "fixed-environment" = (true, ["fixed-environment-ok"]) /\
  probed "toctou" = (true, ["toctou-escape-observed=false"]) /\
  probed "unknown" = (false, []).
Proof. split_and!; vm_compute; reflexivity. Qed.
