(* ===== verification/AgentTheorems.v ===== *)
(** * What the coding agent guarantees

    It ends within its turns; what it returns is the given conversation followed by
    well-formed exchanges, every call answered; and it stays within the token budget. *)
From S2P Require Import Prelude Sha256 GoLib Json Types Effect Float64 Contract Reasoner ReasonerTheorems Policy.
From S2P Require Import AuditLog Controller ToolService WireTheorems Agent.

(** ** The usage and the calls of a turn *)

Lemma shaped_usage event : validateEventShape event = None -> sv_Type event <> EventUsage -> sv_Usage event = None.
Proof.
  intros [_ _ _ Hu _ _]%validateEventShape_Shaped Hne. destruct (sv_Usage event); [|done].
  destruct Hne. by apply Hu; eexists.
Qed.

Lemma shaped_call event : validateEventShape event = None -> sv_Type event <> EventToolCall -> sv_ToolCall event = None.
Proof.
  intros [_ _ Hu _ _ _]%validateEventShape_Shaped Hne. destruct (sv_ToolCall event); [|done].
  destruct Hne. by apply Hu; eexists.
Qed.

Lemma usage_nonnegative event u :
  validateEventShape event = None -> sv_Type event = EventUsage -> sv_Usage event = Some u -> (0 <= us_TotalTokens u)%Z.
Proof.
  intros Hs Ht Hu. unfold validateEventShape in Hs. case_decide; [done|]. rewrite Ht in Hs.
  do 2 (rewrite decide_False in Hs by done). rewrite decide_True in Hs by done.
  unfold usageShape in Hs. rewrite Hu in Hs. case_decide; [done|]. lia.
Qed.

Section turns.
Context {C : Type} `{ToolContract C}.

Lemma omap_usage event rest : omap sv_Usage (event :: rest) = match sv_Usage event with Some u => [u] | None => [] end ++ omap sv_Usage rest.
Proof. cbn. by destruct (sv_Usage event). Qed.

(** A finished turn of a request with tools has exactly one usage record, within the
    budget of the request. *)
Lemma Turn_usage request seen turn :
  Turn request seen turn -> finished turn = true -> rq_Tools request <> [] ->
  if seen then omap sv_Usage turn = []
  else exists u, omap sv_Usage turn = [u] /\ (0 <= us_TotalTokens u)%Z /\
         ((0 < rq_TokenLimit request)%Z -> (us_TotalTokens u <= rq_TokenLimit request)%Z).
Proof.
  intros HT Hf Ht. induction HT as [seen e Hty HS Hseen|seen e Hty|seen e r Hty HS HT IH|seen e call r Hty HS Hc Hv HT IH
    |e u r Hty HS Hu Hlim HT IH].
  - rewrite (Hseen Ht), omap_usage, (shaped_usage e HS) by by rewrite Hty. done.
  - unfold finished in Hf. cbn in Hf. by rewrite Hty in Hf.
  - rewrite finished_cons in Hf by by eapply Turn_nonempty.
    rewrite omap_usage, (shaped_usage e HS) by by rewrite Hty. by apply IH.
  - rewrite finished_cons in Hf by by eapply Turn_nonempty.
    rewrite omap_usage, (shaped_usage e HS) by by rewrite Hty. by apply IH.
  - rewrite finished_cons in Hf by by eapply Turn_nonempty.
    exists u. rewrite omap_usage, Hu. cbn [app]. rewrite (IH Hf).
    split; [done|]. split; [by eapply usage_nonnegative|]. intros Hpos. lia.
Qed.

(** Every call of a turn is accepted by the request. *)
Lemma Turn_calls request seen turn :
  Turn request seen turn -> finished turn = true ->
  forall call, call ∈ omap sv_ToolCall turn -> validateToolCall request call = None.
Proof.
  intros HT Hf. induction HT as [seen e Hty HS Hseen|seen e Hty|seen e r Hty HS HT IH|seen e call r Hty HS Hc Hv HT IH
    |e u r Hty HS Hu Hlim HT IH]; intros c Hi; apply list_elem_of_omap in Hi as (x & Hx & Hxc).
  - apply list_elem_of_singleton in Hx as ->. by rewrite (shaped_call e HS) in Hxc by by rewrite Hty.
  - unfold finished in Hf. cbn in Hf. by rewrite Hty in Hf.
  - rewrite finished_cons in Hf by by eapply Turn_nonempty. apply elem_of_cons in Hx as [->|Hx].
    + by rewrite (shaped_call e HS) in Hxc by by rewrite Hty.
    + apply IH; [done|]. apply list_elem_of_omap. eauto.
  - rewrite finished_cons in Hf by by eapply Turn_nonempty. apply elem_of_cons in Hx as [->|Hx]; [congruence|].
    apply IH; [done|]. apply list_elem_of_omap. eauto.
  - rewrite finished_cons in Hf by by eapply Turn_nonempty. apply elem_of_cons in Hx as [->|Hx].
    + by rewrite (shaped_call e HS) in Hxc by by rewrite Hty.
    + apply IH; [done|]. apply list_elem_of_omap. eauto.
Qed.

(** What is read comes from the source, or is a failure. *)
Lemma Recv_source stream event stream' :
  Recv stream = (Some event, stream') ->
  sl_events (ns_source stream') = sl_events (ns_source stream) /\
  (event ∈ sl_events (ns_source stream) \/ sv_Usage event = None).
Proof.
  unfold Recv, sliceRecv. destruct (ns_terminal stream); [done|].
  destruct (sl_closed (ns_source stream)); [by intros [= <- <-]; split; [|right]|].
  destruct (sl_events (ns_source stream) !! sl_index (ns_source stream)) as [e|] eqn:He.
  - destruct (validateEvent stream e); [by intros [= <- <-]; split; [|right]|].
    apply list_elem_of_lookup_2 in He. case_decide; intros [= <- <-]; by split; [|left].
  - destruct (sl_err (ns_source stream)) as [[]|]; intros [= <- <-]; by split; [|right].
Qed.

Lemma drain_source n stream event u :
  event ∈ drain n stream -> sv_Usage event = Some u -> event ∈ sl_events (ns_source stream).
Proof.
  revert stream. induction n as [|n IH]; intros stream Hi Hu; [by apply elem_of_nil in Hi|]. cbn [drain] in Hi.
  destruct (Recv stream) as [[e|] stream'] eqn:Hr; [|by apply elem_of_nil in Hi].
  apply Recv_source in Hr as [Hs He]. apply elem_of_cons in Hi as [->|Hi].
  - destruct He; [done|congruence].
  - rewrite <- Hs. by apply IH.
Qed.

(** A collected turn of a request with tools. *)
Lemma Collect_turn request source result :
  rq_Tools request <> [] ->
  (forall e u, e ∈ sl_events source -> sv_Usage e = Some u -> (us_TotalTokens u < 2 ^ 63)%Z) ->
  Collect (NewNormalizedStream request source) = Ok result ->
  (0 <= us_TotalTokens (res_Usage result) < 2 ^ 63)%Z /\
  ((0 < rq_TokenLimit request)%Z -> (us_TotalTokens (res_Usage result) <= rq_TokenLimit request)%Z) /\
  forall call, call ∈ res_ToolCalls result -> validateToolCall request call = None.
Proof.
  intros Ht Hint. set (stream := NewNormalizedStream request source).
  assert (remaining stream + 3 <= collectFuel stream) as Hn by (unfold remaining, collectFuel, stream; cbn; lia).
  unfold Collect. rewrite collectLoop_turn by (done || lia). destruct (finished _) eqn:Hf; [|done]. intros [= <-].
  pose proof (drain_turn (collectFuel stream) stream eq_refl ltac:(lia)) as HT.
  change (ns_request stream) with request in HT. change (ns_usageSeen stream) with false in HT.
  destruct (Turn_usage _ _ _ HT Hf Ht) as (u & Hu & H0 & Hlim).
  unfold assembleFrom. cbn [res_Usage res_ToolCalls emptyResult app]. unfold turnUsage. rewrite Hu. cbn [last default].
  assert (u ∈ omap sv_Usage (drain (collectFuel stream) stream)) as (e & He & Hue)%list_elem_of_omap by (rewrite Hu; left).
  split; [|split; [done|by eapply Turn_calls]]. split; [done|]. apply (Hint e); [|done].
  by apply (drain_source (collectFuel stream) stream e u).
Qed.
End turns.

(** ** Conversations *)

(** The calls of a message are of registered tools, with arguments their contracts
    accept. *)
Definition accepted_call (tools : list Contract) (call : ToolCall) : Prop :=
  exists contract, contract ∈ tools /\ ct_Name contract = tc_Name call /\
    ValidateInput contract (tc_Arguments call) = Ok tt.

(** [Exchanges tools turns calls messages]: so many assistant messages, each but the
    last followed by one answer for each of its calls, in order. *)
Inductive Exchanges (tools : list Contract) : nat -> nat -> list Message -> Prop :=
  | ExchangeLast turn :
      res_ToolCalls turn = [] -> Exchanges tools 1 0 [assistantMessage turn]
  | ExchangeCalls turn responses n k rest :
      res_ToolCalls turn <> [] -> Forall (accepted_call tools) (res_ToolCalls turn) ->
      length responses = length (res_ToolCalls turn) -> Exchanges tools n k rest ->
      Exchanges tools (S n) (length responses + k)
        (assistantMessage turn :: zip_with toolMessage (res_ToolCalls turn) responses ++ rest).

Lemma accepted_valid request call :
  ag_Tools request <> [] -> validateToolCall (streamRequest request) call = None -> accepted_call (ag_Tools request) call.
Proof.
  intros Hne. unfold validateToolCall. cbn [rq_Tools streamRequest].
  destruct (findContract (ag_Tools request) (tc_Name call)) as [contract|] eqn:Hf.
  - apply find_some in Hf as [Hi Hn%bool_decide_eq_true]. destruct (contract_ValidateInput contract _) eqn:Hv; [|done].
    intros _. exists contract. split; [by apply list_elem_of_In|]. split; [exact Hn|].
    cbn in Hv. apply is_ok_true in Hv as [[] Hv]. exact Hv.
  - by destruct (ag_Tools request).
Qed.

Section run.
Context {W : Type} `{FileSystem} `{ErrorText}.
Variables (agent : CodingAgent W) (ctx : Context) (runID attemptID : string).

(** What the Reasoner interface promises: normalised streams of the request, with token
    counts of a machine's width. *)
Definition Provides (reason : AgentReasoner W) : Prop := forall ctx r w s w',
  reason ctx r w = (Ok s, w') ->
  exists source, s = NewNormalizedStream (streamRequest r) source /\
    forall e u, e ∈ sl_events source -> sv_Usage e = Some u -> (us_TotalTokens u < 2 ^ 63)%Z.

Lemma invokeCalls_spec calls acc w result w' :
  invokeCalls agent ctx runID attemptID calls acc w = (Ok result, w') ->
  exists responses, length responses = length calls /\
    ar_Messages result = ar_Messages acc ++ zip_with toolMessage calls responses /\
    ar_Usage result = ar_Usage acc /\ ar_Turns result = ar_Turns acc /\
    ar_ToolCallCount result = (foldr (fun _ n => i64 (n + 1)) (ar_ToolCallCount acc) calls).
Proof.
  revert acc w. induction calls as [|call calls IH]; intros acc w; cbn [invokeCalls].
  - intros [= <- _]. exists []. rewrite app_nil_r. done.
  - intros (reply & w1 & _ & Hr)%M_bind_Ok. destruct (rp_Err reply); [done|].
    destruct (IH _ _ Hr) as (responses & Hl & Hm & Hu & Ht & Hc). exists (rp_Response reply :: responses).
    cbn [length zip_with foldr]. cbn in Hm, Hu, Ht, Hc. rewrite Hl, Hm, <- app_assoc, Hu, Ht. split_and!; try done.
    rewrite Hc. clear. generalize (ar_ToolCallCount acc). intros z. revert z.
    induction calls as [|c calls IH]; intros z; [done|]. cbn [foldr]. by rewrite IH.
Qed.

Lemma i64_add x y : i64 (i64 x + y) = i64 (x + y).
Proof.
  unfold i64. replace ((x + 2 ^ 63) mod 2 ^ 64 - 2 ^ 63 + y + 2 ^ 63)%Z with ((x + 2 ^ 63) mod 2 ^ 64 + y)%Z by lia.
  rewrite Z.add_mod_idemp_l by done. do 2 f_equal. lia.
Qed.

Lemma count_calls {A} (calls : list A) z :
  foldr (fun _ n => i64 (n + 1)) (i64 z) calls = i64 (z + Z.of_nat (length calls)).
Proof.
  induction calls as [|c calls IH]; cbn [foldr length]; [by rewrite Z.add_0_r|].
  rewrite IH, i64_add. f_equal. lia.
Qed.

Definition tokens (r : CodingAgentResult) : Z := us_TotalTokens (ar_Usage r).

Lemma runTurns_spec budget turn request limit remaining acc z w result w' :
  Provides (ca_reasoner agent) -> ag_Tools request <> [] ->
  (0 <= tokens acc)%Z -> (0 <= remaining)%Z -> (tokens acc + remaining = limit)%Z -> (limit < 2 ^ 63)%Z ->
  ar_ToolCallCount acc = i64 z ->
  runTurns agent ctx runID attemptID budget turn request remaining acc w = (Ok result, w') ->
  exists added n k, Exchanges (ag_Tools request) n k added /\ (n <= budget)%nat /\
    ar_Messages result = ar_Messages acc ++ added /\ ar_Turns result = (turn + Z.of_nat n - 1)%Z /\
    ar_ToolCallCount result = i64 (z + Z.of_nat k) /\ (0 <= tokens result <= limit)%Z.
Proof.
  intros HP Hne. revert turn remaining acc z w.
  induction budget as [|budget IH]; intros turn remaining acc z w Hacc Hr Hsum Hlim Hz; cbn [runTurns]; [done|].
  intros (u & w1 & _ & (stream & w2 & Hs & (res & w3 & [Hc ->]%lift_Ok & Hrun)%M_bind_Ok)%M_bind_Ok)%M_bind_Ok.
  destruct (HP _ _ _ _ _ Hs) as (source & -> & Hint).
  destruct (Collect_turn (streamRequest (MkAgentRequest (ar_Messages acc) (ag_Tools request) (ag_TaskSummary request)
    (ag_FailureEvidence request) remaining)) source res Hne Hint Hc) as ((Ht0 & Htm) & Htl & Hcalls). cbn [rq_TokenLimit streamRequest ag_TokenLimit] in Htl.
  assert (i64 (remaining - us_TotalTokens (res_Usage res)) = remaining - us_TotalTokens (res_Usage res))%Z as Hi
    by (apply i64_small; lia).
  rewrite Hi in Hrun. destruct (remaining - us_TotalTokens (res_Usage res) <? 0)%Z eqn:Hneg; [done|]. apply Z.ltb_ge in Hneg.
  assert (tokens (addTurn turn acc res) = tokens acc + us_TotalTokens (res_Usage res))%Z as Htok
    by (unfold tokens, addTurn, addUsage; cbn; apply i64_small; unfold tokens in *; lia).
  destruct (decide (res_ToolCalls res = [])) as [Hnil|Hsome].
  - destruct (decide (res_FinishReason res = _)); [done|]. injection Hrun as <- _.
    exists [assistantMessage res], 1%nat, 0%nat. split; [by constructor|]. split; [lia|]. split; [done|].
    split; [cbn; lia|]. split; [cbn; rewrite Hz; f_equal; lia|]. rewrite Htok. lia.
  - apply M_bind_Ok in Hrun as (acc2 & w4 & Hinv & Hrun).
    apply invokeCalls_spec in Hinv as (responses & Hl & Hm & Hu & Hturn & Hcount).
    assert (tokens acc2 = tokens acc + us_TotalTokens (res_Usage res))%Z as Htok2 by (unfold tokens in *; by rewrite Hu).
    assert (ar_ToolCallCount acc2 = i64 (z + Z.of_nat (length (res_ToolCalls res)))) as Hz2
      by (rewrite Hcount; cbn [addTurn ar_ToolCallCount]; by rewrite Hz, count_calls).
    destruct (IH _ _ acc2 _ w4 ltac:(lia) Hneg ltac:(lia) Hlim Hz2 Hrun) as (added & n & k & HE & Hn & Hmsg & Hturns & Hcalls2 & Hb).
    eexists _, (S n), _. split; [|split; [lia|split; [|split; [rewrite Hturns; lia|split; [|done]]]]].
    + apply (ExchangeCalls _ res responses n k added); [done| |done|done]. apply Forall_forall. intros call Hi2.
      by apply (accepted_valid request), Hcalls.
    + rewrite Hmsg, Hm. cbn [addTurn ar_Messages]. by rewrite <- !app_assoc.
    + rewrite Hcalls2, Hl. f_equal. lia.
Qed.

(** C27: the agent's result is a well-formed conversation within its budgets.  When
    [Run] succeeds, the messages are the ones it was given followed by at least one and
    at most [maxTurns] model turns; every turn but the last called tools, each call
    names a tool of the request, has arguments its contract accepts and is answered, in
    order, by a tool result of that call; the counters are those of the conversation
    and the tokens used are within the limit of the request. *)
Theorem agent_conversation request w result w' :
  Provides (ca_reasoner agent) -> (ag_TokenLimit request < 2 ^ 63)%Z ->
  RunAgent agent ctx runID attemptID request w = (Ok result, w') ->
  exists added n k, Exchanges (ag_Tools request) n k added /\
    ar_Messages result = ag_Messages request ++ added /\
    ar_Turns result = Z.of_nat n /\ (Z.of_nat n <= ca_maxTurns agent)%Z /\
    ar_ToolCallCount result = i64 (Z.of_nat k) /\
    (0 <= us_TotalTokens (ar_Usage result) <= ag_TokenLimit request)%Z.
Proof.
  intros HP Hlim. unfold RunAgent. case_decide; [done|].
  intros (u & w1 & [Hv ->]%lift_Ok & Hrun)%M_bind_Ok. apply wrap_Ok in Hv.
  destruct (negb _); [done|]. unfold ValidatePhase5Request in Hv.
  destruct (decide (ag_TaskSummary request = "")); [done|].
  destruct (ag_TokenLimit request <=? 0)%Z eqn:Hpos; [done|]. apply Z.leb_gt in Hpos.
  destruct (decide (ag_Tools request = [])) as [|Hne]; [done|].
  destruct (runTurns_spec _ _ request (ag_TokenLimit request) (ag_TokenLimit request)
    (MkCodingAgentResult "" (ag_Messages request) (MkUsage 0 0 0) 0 0) 0 _ _ _ HP Hne ltac:(done) ltac:(lia) ltac:(done) Hlim
    ltac:(done) Hrun) as (added & turns & k & HE & Hn & Hm & Ht & Hk & Hb).
  exists added, turns, k. split; [done|]. split; [done|]. split; [rewrite Ht; lia|].
  split; [|split; [by rewrite Hk|done]]. inversion HE; lia.
Qed.
End run.

(** * The coding agent at a concrete service *)

#[local] Existing Instance plainFiles.
#[local] Existing Instance journalClock.
#[local] Existing Instance journalMemory.
#[local] Instance agentErrors : ErrorText := fun _ => "error".

Definition agentRegistry : Registry := match NewBuiltinRegistry with Ok r => r | Err _ => MkRegistry ∅ end.

Definition agentConfig : Config :=
  MkConfig "v1" "deny" [] [MkRule "repo.list" "repo:read" true ["."] false (10 * 10 ^ 9) 262144].

Definition agentSandbox : Sandbox Journal :=
  MkSandbox (fun _ _ w => ((MkSandboxResult "main.go" "" 0 false false, None), w))
    (MkScope "run-1" "attempt-1") "/repo".

Definition agentService : Service Journal :=
  MkService (Some agentRegistry) (Some (NewEngine agentConfig (Some recordMemory))) (Some agentSandbox)
    (Some recordMemory).

(** A model that lists the repository and then stops. *)
Definition listTurn : list StreamEvent :=
  [ toolCallEvent (MkToolCall "call-1" "repo.list" (double_quoted "{'path':'.'}"));
    usageEvent (MkUsage 10 5 15); finishEvent "tool_calls" ].
Definition stopTurn : list StreamEvent :=
  [ textEvent "done"; usageEvent (MkUsage 20 5 25); finishEvent "stop" ].

Definition scriptOf (r : AgentRequest) : list StreamEvent :=
  match ag_Messages r with [] => listTurn | _ => stopTurn end.

Definition agentModel : AgentReasoner Journal := fun _ r =>
  mret (NewNormalizedStream (streamRequest r) (MkSliceStream (scriptOf r) None 0 false)).

Lemma agentModel_provides : Provides agentModel.
Proof.
  intros ctx r w s w' [= <- _]. eexists. split; [done|]. cbn [sl_events].
  assert (forall turn, turn ∈ [listTurn; stopTurn] -> forall e u, e ∈ turn -> sv_Usage e = Some u ->
    (us_TotalTokens u < 2 ^ 63)%Z) as Hall.
  { intros turn Ht e u He Hu. repeat (apply elem_of_cons in Ht as [->|Ht]); [..|by apply elem_of_nil in Ht];
      repeat (apply elem_of_cons in He as [->|He]; [try done; by injection Hu as <-|]); by apply elem_of_nil in He. }
  apply Hall. unfold scriptOf. destruct (ag_Messages r); [left|right; left].
Qed.

Definition agentRequest : AgentRequest := MkAgentRequest [] builtinContracts "look around" "" 40.

Definition sampleAgent : CodingAgent Journal :=
  match NewCodingAgent (Some agentModel) (Some agentService) 3 with
  | Ok agent => agent
  | Err _ => MkCodingAgent agentModel agentService [] 0
  end.

Lemma sampleAgent_provides : Provides (ca_reasoner sampleAgent).
Proof. exact agentModel_provides. Qed.

Definition agentOutcome : result CodingAgentResult * Journal :=
  RunAgent sampleAgent background "run-1" "attempt-1" agentRequest emptyJournal.

Definition agentResult : CodingAgentResult :=
  match fst agentOutcome with Ok r => r | Err _ => MkCodingAgentResult "" [] (MkUsage 0 0 0) 0 0 end.

Lemma agent_runs :
  RunAgent sampleAgent background "run-1" "attempt-1" agentRequest emptyJournal = (Ok agentResult, snd agentOutcome).
Proof. vm_compute. reflexivity. Qed.

Example agent_counts : ar_Text agentResult = "done" /\ ar_Turns agentResult = 2%Z /\ ar_ToolCallCount agentResult = 1%Z /\
  us_TotalTokens (ar_Usage agentResult) = 40%Z.
Proof. vm_compute. split_and!; reflexivity. Qed.

Lemma agent_conversation_witness :
  exists added n k, Exchanges (ag_Tools agentRequest) n k added /\
    ar_Messages agentResult = ag_Messages agentRequest ++ added /\
    ar_Turns agentResult = Z.of_nat n /\ (Z.of_nat n <= ca_maxTurns sampleAgent)%Z /\
    ar_ToolCallCount agentResult = i64 (Z.of_nat k) /\
    (0 <= us_TotalTokens (ar_Usage agentResult) <= ag_TokenLimit agentRequest)%Z.
Proof.
  exact (agent_conversation sampleAgent background "run-1" "attempt-1" agentRequest emptyJournal agentResult
    (snd agentOutcome) sampleAgent_provides eq_refl agent_runs).
Defined.

(** ** An exhausted budget

    A turn that uses up the budget exactly is followed by a request with a limit of 0,
    for which the stream checks no limit at all; [ValidatePhase5Request] refuses such a
    request. *)
Definition exhaustedRequest : AgentRequest := MkAgentRequest [] builtinContracts "look around" "" 15.

Lemma exhausted_budget_is_unlimited :
  validateUsage (NewNormalizedStream (streamRequest (MkAgentRequest [] builtinContracts "look around" "" 0))
                   (MkSliceStream [] None 0 false)) (MkUsage 0 0 (2 ^ 62)) = None /\
  fst (RunAgent sampleAgent background "run-1" "attempt-1" exhaustedRequest emptyJournal) =
    Err (Plain "Coding Agent cumulative token budget exceeded").
Proof. vm_compute. split; reflexivity. Qed.
