(* ===== verification/Cassette.v ===== *)
(** * Recorded turns: internal/reasoner/replay.go and provider_error.go

    A cassette is a JSON document of recorded turns; replaying it answers each request
    with the next turn.  Provider errors are classified into the normalised ones. *)
From S2P Require Import Prelude Sha256 GoLib Json Types Effect Float64 Regexp Contract Reasoner Decode Url Credentials Agent.

(** ** Provider errors *)

Definition ErrorInvalidRequest : ErrorClass := "invalid_request".
Definition ErrorProviderAuthentication : ErrorClass := "provider_authentication".
Definition ErrorProviderRateLimited : ErrorClass := "provider_rate_limited".
Definition ErrorProviderInvalidRequest : ErrorClass := "provider_invalid_request".
Definition ErrorProviderUnavailable : ErrorClass := "provider_unavailable".
Definition ErrorInternal : ErrorClass := "internal".

(** What [errors.Is], [errors.As] and [Error] see of an error: whether it is one of the
    two context errors, the status codes it carries, and its text. *)
Record ProviderError : Type := MkProviderError {
  pe_Canceled : bool;
  pe_DeadlineExceeded : bool;
  pe_StatusCode : option Z;
  pe_HTTPStatus : option Z;
  pe_Text : string
}.

(** [providerStatus] *)
Definition providerStatus (err : ProviderError) : Z :=
  match pe_StatusCode err, pe_HTTPStatus err with Some s, _ => s | None, Some s => s | None, None => 0%Z end.

Definition authenticationFailed : StreamError :=
  MkStreamError ErrorProviderAuthentication "provider authentication failed" false.
Definition rateLimited : StreamError := MkStreamError ErrorProviderRateLimited "provider rate limit exceeded" true.
Definition providerUnavailable : StreamError :=
  MkStreamError ErrorProviderUnavailable "provider is temporarily unavailable" true.
Definition requestRejected : StreamError :=
  MkStreamError ErrorProviderInvalidRequest "provider rejected the request" false.

Definition mentions (err : ProviderError) (texts : list string) : bool :=
  existsb (fun t => contains_runes (ToLower (pe_Text err)) (runes t)) texts.

(** [ClassifyProviderError]; a status code of 0 falls through to the other one. *)
Definition ClassifyProviderError (err : ProviderError) : StreamError :=
  if pe_Canceled err then MkStreamError ErrorCanceled "reasoner request was canceled" false
  else if pe_DeadlineExceeded err
  then MkStreamError ErrorProviderUnavailable "provider request deadline exceeded" true
  else
    let first := default 0%Z (pe_StatusCode err) in
    let status := if (first =? 0)%Z then default 0%Z (pe_HTTPStatus err) else first in
    if ((status =? 401) || (status =? 403))%Z then authenticationFailed
    else if (status =? 429)%Z then rateLimited
    else if ((status =? 408) || (500 <=? status))%Z then providerUnavailable
    else if (400 <=? status)%Z then requestRejected
    else if mentions err ["rate limit"; "too many requests"] then rateLimited
    else if mentions err ["unauthorized"; "authentication"; "invalid api key"] then authenticationFailed
    else if mentions err ["invalid request"; "bad request"] then requestRejected
    else providerUnavailable.

(** [ClassifyProviderStreamError] *)
Definition ClassifyProviderStreamError (err : ProviderError) : StreamError :=
  let failure := ClassifyProviderError err in
  if bool_decide (se_Class failure = ErrorProviderUnavailable) && negb (pe_DeadlineExceeded err) &&
     (providerStatus err =? 0)%Z
  then MkStreamError ErrorStreamingInterrupted "model stream was interrupted" true
  else failure.

(** ** Cassettes *)

Definition CurrentCassetteVersion : string := "agentdock-reasoner-cassette/v1".

Record Cassette : Type := MkCassette {
  cs_Version : string;
  cs_SystemContractVersion : string;
  cs_ScenarioID : string;
  cs_RecordingMode : string;
  cs_Redacted : bool;
  cs_Turns : list (list StreamEvent)
}.

(** *** json.Marshal *)

Definition marshalToolCall (c : ToolCall) : string :=
  json_object (omitempty "id" (tc_ID c) ++
    [json_member "name" (json_string (tc_Name c)); json_member "arguments" (json_string (tc_Arguments c))]).
Definition marshalUsage (u : Usage) : string :=
  json_object [json_member "input_tokens" (pretty (us_InputTokens u));
               json_member "output_tokens" (pretty (us_OutputTokens u));
               json_member "total_tokens" (pretty (us_TotalTokens u))].
Definition marshalFinish (f : Finish) : string := json_object [json_member "reason" (json_string (fin_Reason f))].
Definition marshalStreamError (e : StreamError) : string :=
  json_object [json_member "class" (json_string (se_Class e)); json_member "message" (json_string (se_Message e));
               json_member "retryable" (json_bool (se_Retryable e))].

(** A pointer field tagged [omitempty]. *)
Definition omit_nil {A} (name : string) (marshal : A -> string) (o : option A) : list string :=
  match o with Some a => [json_member name (marshal a)] | None => [] end.

Definition marshalEvent (e : StreamEvent) : string :=
  json_object ([json_member "type" (json_string (sv_Type e))] ++ omitempty "text" (sv_Text e) ++
    omit_nil "tool_call" marshalToolCall (sv_ToolCall e) ++ omit_nil "usage" marshalUsage (sv_Usage e) ++
    omit_nil "finish" marshalFinish (sv_Finish e) ++ omit_nil "error" marshalStreamError (sv_Error e)).

Definition marshalTurn (turn : list StreamEvent) : string := json_array (map marshalEvent turn).

Definition marshalCassette (c : Cassette) : string :=
  json_object [json_member "version" (json_string (cs_Version c));
               json_member "system_contract_version" (json_string (cs_SystemContractVersion c));
               json_member "scenario_id" (json_string (cs_ScenarioID c));
               json_member "recording_mode" (json_string (cs_RecordingMode c));
               json_member "redacted" (json_bool (cs_Redacted c));
               json_member "turns" (json_array (map marshalTurn (cs_Turns c)))].

(** *** Secrets *)

Definition quoted (name : string) : string := quote +:+ name +:+ quote.

Definition secretMarkers : list string :=
  map quoted ["api_key"; "apikey"; "access_key"; "authorization"; "password"; "client_secret"; "private_key"; "token"] ++
  ["-----begin private key-----"; "-----begin rsa private key-----"].

Definition dotted_alnum (c : Z) : bool := lower_alnum c || existsb (Z.eqb c) [46; 95; 45]%Z.
Definition dashed_alnum (c : Z) : bool := lower_alnum c || existsb (Z.eqb c) [95; 45]%Z.

Definition bearerPattern : regexp :=
  cat (fold "bearer") (cat (at_least 1 (Rune space_rune)) (at_least 8 (Rune (folds dotted_alnum)))).
Definition tokenPattern : regexp :=
  cat (choice [fold "sk-"; fold "ghp_"; fold "github_pat_";
               cat (fold "xox") (cat (Rune (folds (fun c => (c =? 98) || (c =? 112))%Z)) (fold "-"))])
    (at_least 8 (Rune (folds dashed_alnum))).
Definition cloudKeyPattern : regexp := cat (literal_of false "AKIA") (power 16 (Rune upper_alnum)).

(** [containsSecretMarker] *)
Definition containsSecretMarker (value : string) : bool :=
  existsb (fun marker => contains_runes (ToLower value) (runes marker)) secretMarkers ||
  existsb (fun pattern => MatchString pattern value) [bearerPattern; tokenPattern; cloudKeyPattern].

(** *** Validation *)

(** The loop of [validateRecordedTurn]. *)
Fixpoint recordedLoop (terminal : bool) (usageCount : Z) (turn : list StreamEvent) : result unit :=
  match turn with
  | [] => if terminal then Ok tt else Err (Plain "turn is missing a terminal Finish or Error event")
  | event :: rest =>
      if terminal then Err (Plain "event appears after a terminal event")
      else match validateEventShape event with
      | Some failure => Err (Plain (se_Message failure))
      | None =>
          if decide (sv_Type event = EventUsage) then
            if (1 <? usageCount + 1)%Z then Err (Plain "turn contains multiple Usage events")
            else recordedLoop false (usageCount + 1) rest
          else if decide (sv_Type event = EventFinish) then
            if decide (usageCount <> 1%Z) then Err (Plain "successful turn requires exactly one Usage event before Finish")
            else recordedLoop true usageCount rest
          else if decide (sv_Type event = EventError) then recordedLoop true usageCount rest
          else recordedLoop false usageCount rest
      end
  end.

Definition validateRecordedTurn (turn : list StreamEvent) : result unit := recordedLoop false 0 turn.

Fixpoint validateTurns (turns : list (list StreamEvent)) : result unit :=
  match turns with
  | [] => Ok tt
  | turn :: rest =>
      if decide (turn = []) then Err (Plain "cassette turn is empty")
      else _ ← wrap (validateRecordedTurn turn); validateTurns rest
  end.

Definition validateCassette (c : Cassette) : result unit :=
  if decide (cs_Version c <> CurrentCassetteVersion) then Err (Plain "cassette version")
  else if decide (cs_SystemContractVersion c <> CodingAgentSystemContractVersion)
  then Err (Plain "cassette System Contract version")
  else if decide (cs_ScenarioID c = "" \/ cs_Turns c = []) then Err (Plain "cassette scenario_id and turns are required")
  else if bool_decide (cs_RecordingMode c <> "recorded") || negb (cs_Redacted c)
  then Err (Plain "cassette requires recording_mode=recorded and redacted=true evidence")
  else if containsSecretMarker (marshalCassette c)
  then Err (Plain "cassette contains a credential-shaped marker after decoding")
  else validateTurns (cs_Turns c).

(** ** Loading *)

Definition toolCallFields : list (FieldDecoder ToolCall) :=
  [ MkFieldDecoder "id" (fun v c => s ← decode_string v (tc_ID c); Some (MkToolCall s (tc_Name c) (tc_Arguments c)));
    MkFieldDecoder "name" (fun v c => s ← decode_string v (tc_Name c); Some (MkToolCall (tc_ID c) s (tc_Arguments c)));
    MkFieldDecoder "arguments" (fun v c => s ← decode_string v (tc_Arguments c); Some (MkToolCall (tc_ID c) (tc_Name c) s)) ].

Definition usageFields : list (FieldDecoder Usage) :=
  [ MkFieldDecoder "input_tokens" (fun v u => n ← decode_int v (us_InputTokens u); Some (MkUsage n (us_OutputTokens u) (us_TotalTokens u)));
    MkFieldDecoder "output_tokens" (fun v u => n ← decode_int v (us_OutputTokens u); Some (MkUsage (us_InputTokens u) n (us_TotalTokens u)));
    MkFieldDecoder "total_tokens" (fun v u => n ← decode_int v (us_TotalTokens u); Some (MkUsage (us_InputTokens u) (us_OutputTokens u) n)) ].

Definition finishFields : list (FieldDecoder Finish) :=
  [ MkFieldDecoder "reason" (fun v f => s ← decode_string v (fin_Reason f); Some (MkFinish s)) ].

Definition streamErrorFields : list (FieldDecoder StreamError) :=
  [ MkFieldDecoder "class" (fun v e => s ← decode_string v (se_Class e); Some (MkStreamError s (se_Message e) (se_Retryable e)));
    MkFieldDecoder "message" (fun v e => s ← decode_string v (se_Message e); Some (MkStreamError (se_Class e) s (se_Retryable e)));
    MkFieldDecoder "retryable" (fun v e => b ← decode_bool v (se_Retryable e); Some (MkStreamError (se_Class e) (se_Message e) b)) ].

Definition decodeToolCall := decode_struct true toolCallFields.
Definition decodeUsage := decode_struct true usageFields.
Definition decodeFinish := decode_struct true finishFields.
Definition decodeStreamError := decode_struct true streamErrorFields.

Definition zeroEvent : StreamEvent := MkStreamEvent "" "" None None None None.

Definition eventFields : list (FieldDecoder StreamEvent) :=
  [ MkFieldDecoder "type" (fun v e => s ← decode_string v (sv_Type e);
      Some (MkStreamEvent s (sv_Text e) (sv_ToolCall e) (sv_Usage e) (sv_Finish e) (sv_Error e)));
    MkFieldDecoder "text" (fun v e => s ← decode_string v (sv_Text e);
      Some (MkStreamEvent (sv_Type e) s (sv_ToolCall e) (sv_Usage e) (sv_Finish e) (sv_Error e)));
    MkFieldDecoder "tool_call" (fun v e => p ← decode_pointer decodeToolCall (MkToolCall "" "" "") v (sv_ToolCall e);
      Some (MkStreamEvent (sv_Type e) (sv_Text e) p (sv_Usage e) (sv_Finish e) (sv_Error e)));
    MkFieldDecoder "usage" (fun v e => p ← decode_pointer decodeUsage (MkUsage 0 0 0) v (sv_Usage e);
      Some (MkStreamEvent (sv_Type e) (sv_Text e) (sv_ToolCall e) p (sv_Finish e) (sv_Error e)));
    MkFieldDecoder "finish" (fun v e => p ← decode_pointer decodeFinish (MkFinish "") v (sv_Finish e);
      Some (MkStreamEvent (sv_Type e) (sv_Text e) (sv_ToolCall e) (sv_Usage e) p (sv_Error e)));
    MkFieldDecoder "error" (fun v e => p ← decode_pointer decodeStreamError (MkStreamError "" "" false) v (sv_Error e);
      Some (MkStreamEvent (sv_Type e) (sv_Text e) (sv_ToolCall e) (sv_Usage e) (sv_Finish e) p)) ].

Definition decodeEvent := decode_struct true eventFields.
Definition decodeTurn : json -> GoSlice StreamEvent -> option (GoSlice StreamEvent) := decode_slice decodeEvent zeroEvent.

(** A cassette while it is decoded: its turns are slices. *)
Definition RawCassette : Type := Cassette * GoSlice (GoSlice StreamEvent).
Definition withTurns (r : RawCassette) : Cassette :=
  let '(c, turns) := r in
  MkCassette (cs_Version c) (cs_SystemContractVersion c) (cs_ScenarioID c) (cs_RecordingMode c) (cs_Redacted c)
    (map gs_elements (gs_elements turns)).

Definition cassetteFields : list (FieldDecoder RawCassette) :=
  [ MkFieldDecoder "version" (fun v '(c, t) => s ← decode_string v (cs_Version c);
      Some (MkCassette s (cs_SystemContractVersion c) (cs_ScenarioID c) (cs_RecordingMode c) (cs_Redacted c) [], t));
    MkFieldDecoder "system_contract_version" (fun v '(c, t) => s ← decode_string v (cs_SystemContractVersion c);
      Some (MkCassette (cs_Version c) s (cs_ScenarioID c) (cs_RecordingMode c) (cs_Redacted c) [], t));
    MkFieldDecoder "scenario_id" (fun v '(c, t) => s ← decode_string v (cs_ScenarioID c);
      Some (MkCassette (cs_Version c) (cs_SystemContractVersion c) s (cs_RecordingMode c) (cs_Redacted c) [], t));
    MkFieldDecoder "recording_mode" (fun v '(c, t) => s ← decode_string v (cs_RecordingMode c);
      Some (MkCassette (cs_Version c) (cs_SystemContractVersion c) (cs_ScenarioID c) s (cs_Redacted c) [], t));
    MkFieldDecoder "redacted" (fun v '(c, t) => b ← decode_bool v (cs_Redacted c);
      Some (MkCassette (cs_Version c) (cs_SystemContractVersion c) (cs_ScenarioID c) (cs_RecordingMode c) b [], t));
    MkFieldDecoder "turns" (fun v '(c, t) => t' ← decode_slice decodeTurn nilSlice v t; Some (c, t')) ].

Definition zeroCassette : Cassette := MkCassette "" "" "" "" false [].

Definition cassetteLimit : Z := Z.shiftl 4 20.

(** [LoadCassette] on the content of the reader *)
Definition LoadCassette (payload : string) : result Cassette :=
  if (cassetteLimit <? Z.of_nat (String.length payload))%Z then Err (Plain "cassette exceeds 4 MiB")
  else if containsSecretMarker payload then Err (Plain "cassette contains a credential-shaped marker")
  else match parse_bytes (bytes_of payload) with
  | None => Err (Plain "decode cassette")
  | Some v =>
      match decode_struct true cassetteFields v (zeroCassette, nilSlice) with
      | None => Err (Plain "decode cassette")
      | Some raw => _ ← validateCassette (withTurns raw); Ok (withTurns raw)
      end
  end.

(** ** Replaying *)

Record ReplayReasoner : Type := MkReplayReasoner {
  rp_cassette : Cassette;
  rp_nextTurn : nat
}.

(** [NewReplayReasoner] *)
Definition NewReplayReasoner (c : Cassette) : result ReplayReasoner :=
  _ ← validateCassette c; Ok (MkReplayReasoner c 0).

Definition NewErrorStream {C} (request : Request C) (failure : StreamError) : normalizedStream C :=
  NewNormalizedStream request (MkSliceStream [failureEvent failure] None 0 false).

(** [ReplayReasoner.Reason]; its mutex makes the call atomic. *)
Definition replayReason {C} (cancelled : option ProviderError) (request : Request C) (replay : ReplayReasoner)
    : normalizedStream C * ReplayReasoner :=
  match cancelled with
  | Some err => (NewErrorStream request (ClassifyProviderError err), replay)
  | None =>
      match cs_Turns (rp_cassette replay) !! rp_nextTurn replay with
      | None =>
          (NewErrorStream request (MkStreamError ErrorInternal "recorded cassette has no remaining turn" false), replay)
      | Some events =>
          (NewNormalizedStream request (MkSliceStream events None 0 false),
           MkReplayReasoner (rp_cassette replay) (S (rp_nextTurn replay)))
      end
  end.
