(* ===== verification/CassetteTheorems.v ===== *)
(** * What a cassette guarantees

    A valid cassette survives being written and loaded; replaying one serves its turns in
    order, each exactly as recorded, and then refuses. *)
From S2P Require Import Prelude Sha256 GoLib Json JsonPrint Float64 Regexp Contract Decode WireTheorems Agent.
From S2P Require Import Reasoner ReasonerTheorems AgentTheorems Cassette.

(** ** Decoding what was printed *)

(** The value a text shows is decoded into [a], starting from [zero]. *)
Definition decodes {A} (d : nat) (decode : json -> A -> option A) (zero : A) (text : string) (a : A) : Prop :=
  exists v, shows d text v /\ v <> JNull /\ decode (sanitized v) zero = Some a.

Definition utf8 (s : string) : Prop := ValidString s = true.
Definition int64 (n : Z) : Prop := (- 2 ^ 63 <= n < 2 ^ 63)%Z.

Lemma sanitized_string s : utf8 s -> sanitized (jstring s) = jstring s.
Proof. intros Hs. unfold jstring. cbn [sanitized]. by rewrite sanitize_valid. Qed.

Lemma decode_string_shown s old : utf8 s -> decode_string (sanitized (jstring s)) old = Some s.
Proof. intros Hs. rewrite sanitized_string by done. cbn. by rewrite string_of_bytes_of. Qed.

Lemma decode_bool_shown b old : decode_bool (sanitized (JBool b)) old = Some b.
Proof. done. Qed.

Lemma decode_int_shown n old : int64 n -> decode_int (sanitized (jinteger n)) old = Some n.
Proof. apply number_Int64_pretty. Qed.

(** The members of an object, one after the other. *)
Lemma sanitized_object members :
  sanitized (JObject members) = JObject (map (fun m => (sanitize (fst m), sanitized (snd m))) members).
Proof. done. Qed.

Lemma decode_member {R} (fields : list (FieldDecoder R)) name v rest r f r' :
  find_field fields (sanitize (bytes_of name)) = Some f -> fd_set f (sanitized v) r = Some r' ->
  decode_members true fields (map (fun m => (sanitize (fst m), sanitized (snd m))) ((bytes_of name, v) :: rest)) r =
  decode_members true fields (map (fun m => (sanitize (fst m), sanitized (snd m))) rest) r'.
Proof. intros Hf Hs. cbn [map decode_members fst snd]. by rewrite Hf, Hs. Qed.

Ltac decode_next :=
  erewrite decode_member;
  [|reflexivity
   |cbn [fd_set]; rewrite ?decode_string_shown, ?decode_bool_shown, ?decode_int_shown by assumption; reflexivity].

Lemma decodes_items {A B} d (decode : json -> A -> option A) zero marshal (get : A -> B) (items : list B) :
  (forall b, b ∈ items -> exists v a, shows d (marshal b) v /\ decode (sanitized v) zero = Some a /\ get a = b) ->
  exists values elements, Forall2 (shows d) (map marshal items) values /\
    decode_items decode zero (map sanitized values) [] = Some elements /\ map get elements = items.
Proof.
  induction items as [|b items IH]; intros Hall; [exists [], []; repeat split; constructor|].
  destruct (Hall b) as (v & a & Hs & Hd & Hg); [left|].
  destruct IH as (vs & elements & Hss & Hds & Hgs); [intros x Hx; apply Hall; by right|].
  exists (v :: vs), (a :: elements). split; [by constructor|]. cbn [map decode_items head tail default].
  split; [|cbn; by rewrite Hg, Hgs]. cbn. by rewrite Hd, Hds.
Qed.

(** ** The parts of an event *)

Definition valid_call (c : ToolCall) : Prop := utf8 (tc_ID c) /\ utf8 (tc_Name c) /\ utf8 (tc_Arguments c).
Definition valid_usage (u : Usage) : Prop :=
  int64 (us_InputTokens u) /\ int64 (us_OutputTokens u) /\ int64 (us_TotalTokens u).
Definition valid_failure (e : StreamError) : Prop := utf8 (se_Class e) /\ utf8 (se_Message e).

Definition on_some {A} (P : A -> Prop) (o : option A) : Prop := match o with Some a => P a | None => True end.

(** What JSON can carry: texts in UTF-8 and integers of 64 bits. *)
Record valid_event (e : StreamEvent) : Prop := {
  ve_type : utf8 (sv_Type e);
  ve_text : utf8 (sv_Text e);
  ve_call : on_some valid_call (sv_ToolCall e);
  ve_usage : on_some valid_usage (sv_Usage e);
  ve_finish : on_some (fun f => utf8 (fin_Reason f)) (sv_Finish e);
  ve_error : on_some valid_failure (sv_Error e)
}.

Lemma decodes_object {R} d (fields : list (FieldDecoder R)) zero texts members r :
  Forall2 (prints d) texts members ->
  decode_members true fields (map (fun m => (sanitize (fst m), sanitized (snd m))) members) zero = Some r ->
  decodes (S d) (decode_struct true fields) zero (json_object texts) r.
Proof.
  intros Hp Hd. exists (JObject members). split; [by apply shows_object|]. split; [done|].
  rewrite sanitized_object. exact Hd.
Qed.

Lemma call_decodes c : valid_call c -> decodes 1 decodeToolCall (MkToolCall "" "" "") (marshalToolCall c) c.
Proof.
  destruct c as [id name arguments]. intros (Hi & Hn & Ha). cbn in Hi, Hn, Ha.
  apply (decodes_object _ _ _ _ (opt_string "id" id ++ [(bytes_of "name", jstring name); (bytes_of "arguments", jstring arguments)])).
  - apply Forall2_app; [apply prints_omitempty|]. repeat (constructor; [auto with wire|]). constructor.
  - unfold opt_string. case_decide as Hid; [subst id|]; cbn [app]; repeat decode_next; reflexivity.
Qed.

Lemma usage_decodes u : valid_usage u -> decodes 1 decodeUsage (MkUsage 0 0 0) (marshalUsage u) u.
Proof.
  destruct u as [i o t]. intros (Hi & Ho & Ht). cbn in Hi, Ho, Ht.
  apply (decodes_object _ _ _ _ [(bytes_of "input_tokens", jinteger i); (bytes_of "output_tokens", jinteger o);
                                 (bytes_of "total_tokens", jinteger t)]).
  - repeat (constructor; [auto with wire|]). constructor.
  - repeat decode_next. reflexivity.
Qed.

Lemma finish_decodes f : utf8 (fin_Reason f) -> decodes 1 decodeFinish (MkFinish "") (marshalFinish f) f.
Proof.
  destruct f as [reason]. intros Hr. cbn in Hr.
  apply (decodes_object _ _ _ _ [(bytes_of "reason", jstring reason)]).
  - repeat (constructor; [auto with wire|]). constructor.
  - repeat decode_next. reflexivity.
Qed.

Lemma failure_decodes e : valid_failure e -> decodes 1 decodeStreamError (MkStreamError "" "" false) (marshalStreamError e) e.
Proof.
  destruct e as [class message retryable]. intros [Hc Hm]. cbn in Hc, Hm.
  apply (decodes_object _ _ _ _ [(bytes_of "class", jstring class); (bytes_of "message", jstring message);
                                 (bytes_of "retryable", JBool retryable)]).
  - repeat (constructor; [auto with wire|]). constructor.
  - repeat decode_next. reflexivity.
Qed.

(** ** Events *)

(** The member of a pointer field: none for nil. *)
Definition pointer_member {A} (d : nat) (decode : json -> A -> option A) (zero : A) (name : string)
    (marshal : A -> string) (o : option A) (members : list (list Z * json)) : Prop :=
  match o with
  | None => members = []
  | Some a => exists v, members = [(bytes_of name, v)] /\ shows d (marshal a) v /\
                decode_pointer decode zero (sanitized v) None = Some (Some a)
  end.

Lemma pointer_printed {A} d decode zero name marshal (o : option A) :
  on_some (fun a => decodes d decode zero (marshal a) a) o ->
  exists members, pointer_member d decode zero name marshal o members /\
    Forall2 (prints d) (omit_nil name marshal o) members.
Proof.
  destruct o as [a|]; cbn; [|intros _; exists []; by repeat constructor]. intros (v & Hs & Hn & Hd).
  exists [(bytes_of name, v)]. split; [|constructor; [by apply prints_member|constructor]].
  exists v. split; [done|]. split; [done|].
  destruct v; try done; cbn [sanitized] in Hd |- *; cbn [decode_pointer default]; by rewrite Hd.
Qed.

Lemma decode_optional {A R} (fields : list (FieldDecoder R)) d decode zero name marshal (o : option A) members rest r f r' :
  pointer_member d decode zero name marshal o members ->
  find_field fields (sanitize (bytes_of name)) = Some f -> (o = None -> r' = r) ->
  (forall v, decode_pointer decode zero v None = Some o -> fd_set f v r = Some r') ->
  decode_members true fields (map (fun m => (sanitize (fst m), sanitized (snd m))) (members ++ rest)) r =
  decode_members true fields (map (fun m => (sanitize (fst m), sanitized (snd m))) rest) r'.
Proof.
  intros Hm Hf Hn Hs. destruct o as [a|]; cbn in Hm.
  - destruct Hm as (v & -> & _ & Hd). cbn [app]. by apply (decode_member _ _ _ _ _ f); [|apply Hs].
  - subst members. by rewrite (Hn eq_refl).
Qed.

Ltac decode_pointer_next Hm :=
  erewrite (decode_optional _ _ _ _ _ _ _ _ _ _ _ _ Hm);
  [|reflexivity|intros ->; reflexivity|intros v Hv; cbn [fd_set sv_ToolCall sv_Usage sv_Finish sv_Error]; rewrite Hv; reflexivity].

Lemma on_some_impl {A} (P Q : A -> Prop) o : (forall a, P a -> Q a) -> on_some P o -> on_some Q o.
Proof. destruct o; cbn; auto. Qed.

Lemma event_decodes e : valid_event e -> decodes 2 decodeEvent zeroEvent (marshalEvent e) e.
Proof.
  destruct e as [t text call usage finish failure]. intros [Ht Hx Hc Hu Hf He]. cbn in Ht, Hx, Hc, Hu, Hf, He.
  apply (on_some_impl _ _ _ call_decodes) in Hc. apply (on_some_impl _ _ _ usage_decodes) in Hu.
  apply (on_some_impl _ _ _ finish_decodes) in Hf. apply (on_some_impl _ _ _ failure_decodes) in He.
  destruct (pointer_printed _ _ _ "tool_call" _ _ Hc) as (mc & Hmc & Hpc).
  destruct (pointer_printed _ _ _ "usage" _ _ Hu) as (mu & Hmu & Hpu).
  destruct (pointer_printed _ _ _ "finish" _ _ Hf) as (mf & Hmf & Hpf).
  destruct (pointer_printed _ _ _ "error" _ _ He) as (me & Hme & Hpe).
  apply (decodes_object _ _ _ _ ((bytes_of "type", jstring t) :: opt_string "text" text ++ mc ++ mu ++ mf ++ me ++ [])).
  - constructor; [auto with wire|]. rewrite app_nil_r. unfold marshalEvent. cbn [sv_Text sv_ToolCall sv_Usage sv_Finish sv_Error].
    repeat (apply Forall2_app; [first [apply prints_omitempty|assumption]|]). assumption.
  - decode_next. cbn [sv_Text sv_ToolCall sv_Usage sv_Finish sv_Error zeroEvent].
    trans (decode_members true eventFields (map (fun m => (sanitize (fst m), sanitized (snd m))) (mc ++ mu ++ mf ++ me ++ []))
      (MkStreamEvent t text None None None None)).
    { unfold opt_string. case_decide as Hxt; [by subst text|]. cbn [app]. by decode_next. }
    decode_pointer_next Hmc. decode_pointer_next Hmu. decode_pointer_next Hmf. decode_pointer_next Hme. reflexivity.
Qed.

(** ** Turns and cassettes *)

Lemma slice_decodes {A B} d (decode : json -> A -> option A) zero marshal (get : A -> B) (items : list B) :
  (forall b, b ∈ items -> exists v a, shows d (marshal b) v /\ decode (sanitized v) zero = Some a /\ get a = b) ->
  exists v s, shows (S d) (json_array (map marshal items)) v /\
    decode_slice decode zero (sanitized v) nilSlice = Some s /\ map get (gs_elements s) = items.
Proof.
  intros Hall. destruct (decodes_items d decode zero marshal get items Hall) as (values & elements & Hs & Hd & Hg).
  exists (JArray values). destruct values as [|v values].
  - exists nilSlice. split; [by apply shows_array|]. cbn in Hd. injection Hd as <-. done.
  - exists (MkGoSlice elements (drop (length elements) [])). split; [by apply shows_array|]. split; [|done].
    cbn [sanitized map decode_slice]. cbn [nilSlice gs_elements gs_beyond app map] in Hd |- *. by rewrite Hd.
Qed.

Lemma turn_decodes turn :
  Forall valid_event turn ->
  exists v s, shows 3 (marshalTurn turn) v /\ decodeTurn (sanitized v) nilSlice = Some s /\ gs_elements s = turn.
Proof.
  intros Hall. destruct (slice_decodes 2 decodeEvent zeroEvent marshalEvent id turn) as (v & s & Hs & Hd & Hg).
  - intros e He. rewrite Forall_forall in Hall. destruct (event_decodes e (Hall e He)) as (v & Hs & _ & Hd). eauto.
  - exists v, s. by rewrite map_id in Hg.
Qed.

(** A cassette JSON can carry. *)
Definition encodable (c : Cassette) : Prop :=
  utf8 (cs_Version c) /\ utf8 (cs_SystemContractVersion c) /\ utf8 (cs_ScenarioID c) /\ utf8 (cs_RecordingMode c) /\
  Forall (Forall valid_event) (cs_Turns c).

Lemma cassette_decodes c :
  encodable c ->
  exists raw, decodes 5 (decode_struct true cassetteFields) (zeroCassette, nilSlice) (marshalCassette c) raw /\
    withTurns raw = c.
Proof.
  destruct c as [version system scenario mode redacted turns]. intros (Hv & Hc & Hi & Hm & Ht). cbn in Hv, Hc, Hi, Hm, Ht.
  destruct (slice_decodes 3 decodeTurn nilSlice marshalTurn gs_elements turns) as (v & s & Hs & Hd & Hg).
  { intros turn Hin. rewrite Forall_forall in Ht. by apply turn_decodes, Ht. }
  exists (MkCassette version system scenario mode redacted [], s). split; [|by unfold withTurns; rewrite Hg].
  apply (decodes_object _ _ _ _ [(bytes_of "version", jstring version); (bytes_of "system_contract_version", jstring system);
    (bytes_of "scenario_id", jstring scenario); (bytes_of "recording_mode", jstring mode); (bytes_of "redacted", JBool redacted);
    (bytes_of "turns", v)]).
  - repeat (constructor; [by auto with wire|]). constructor.
  - do 5 decode_next. erewrite decode_member; [|reflexivity|cbn [fd_set]; rewrite Hd; reflexivity]. reflexivity.
Qed.

(** what a recorder writes, a replay reads: loading the JSON of a valid cassette of
    at most 4 MiB, whose texts are UTF-8 and whose numbers have 64 bits, gives that
    cassette; and whatever text is loaded, the result is a valid cassette. *)
Theorem cassette_roundtrip c :
  encodable c -> validateCassette c = Ok tt -> (Z.of_nat (String.length (marshalCassette c)) <= cassetteLimit)%Z ->
  LoadCassette (marshalCassette c) = Ok c.
Proof.
  intros He Hv Hl. destruct (cassette_decodes c He) as (raw & (v & Hs & _ & Hd) & Hr). unfold LoadCassette.
  rewrite (proj2 (Z.ltb_ge _ _)) by done.
  assert (containsSecretMarker (marshalCassette c) = false) as ->.
  { unfold validateCassette in Hv. repeat case_decide; try done. destruct (_ || _); [done|].
    by destruct (containsSecretMarker _). }
  rewrite (parse_shown _ _ _ Hs) by (pose proof shallow; lia). rewrite Hd, Hr, Hv. done.
Qed.

(** ** Replaying *)

Section replay.
Context {C : Type} `{ToolContract C}.

(** Why a request refuses a recorded event: a call its contracts do not accept, or a
    usage above its limit. *)
Definition refusalOf (request : Request C) (e : StreamEvent) : option StreamError :=
  match sv_ToolCall e, sv_Usage e with
  | Some call, _ => validateToolCall request call
  | None, Some usage =>
      if decide (0 < rq_TokenLimit request /\ rq_TokenLimit request < us_TotalTokens usage)%Z
      then Some (MkStreamError ErrorTokenBudgetExceeded "Reasoner token budget exceeded" false) else None
  | None, None => None
  end.

(** A recorded turn as a request is served it: up to the first event it refuses. *)
Fixpoint servedTurn (request : Request C) (turn : list StreamEvent) : list StreamEvent :=
  match turn with
  | [] => []
  | e :: rest => match refusalOf request e with Some failure => [failureEvent failure] | None => e :: servedTurn request rest end
  end.

(** Everything a recorded turn requires of an event. *)
Lemma recordedLoop_inv seen e rest :
  recordedLoop false (Z.b2z seen) (e :: rest) = Ok tt ->
  validateEventShape e = None /\ (sv_Type e = EventUsage -> seen = false) /\ (sv_Type e = EventFinish -> seen = true) /\
  (if bool_decide (lastEvent e) then rest = []
   else recordedLoop false (Z.b2z (seen || bool_decide (sv_Type e = EventUsage))) rest = Ok tt).
Proof.
  cbn [recordedLoop]. destruct (validateEventShape e) eqn:Hs; [done|].
  assert (forall n, recordedLoop true n rest = Ok tt -> rest = []) as Hend by (intros n; by destruct rest).
  unfold lastEvent. case_decide as Ht.
  { rewrite Ht, bool_decide_false by (by intros [|]). destruct seen; cbn [Z.b2z orb]; [done|].
    rewrite bool_decide_true by done. intros Hr. by repeat split. }
  case_decide as Hf.
  { case_decide as Hn; [done|]. intros Hr%Hend. rewrite Hf, bool_decide_true by (by left).
    split; [done|]. split; [done|]. split; [|done]. intros _. destruct seen; [done|]. cbn in Hn. lia. }
  case_decide as He; intros Hr.
  { apply Hend in Hr. rewrite bool_decide_true by (by right). by split. }
  rewrite bool_decide_false by (by intros [|]).
  by rewrite (bool_decide_false (sv_Type e = EventUsage)), orb_false_r by done.
Qed.

Lemma validateEvent_recorded stream e :
  validateEventShape e = None -> (sv_Type e = EventUsage -> ns_usageSeen stream = false) ->
  (sv_Type e = EventFinish -> ns_usageSeen stream = true) -> validateEvent stream e = refusalOf (ns_request stream) e.
Proof.
  intros Hs Hu Hf. pose proof (shaped_usage e Hs) as HnU. pose proof (shaped_call e Hs) as HnC.
  unfold validateEvent, refusalOf. rewrite Hs. case_decide as Ht.
  { rewrite HnU by (by rewrite Ht). by destruct (sv_ToolCall e). }
  rewrite HnC by done. case_decide as Ht'.
  { unfold validateUsage. by rewrite (Hu Ht'). }
  rewrite HnU by done. case_decide as Ht''; [|done]. by rewrite (Hf Ht''), andb_false_r.
Qed.

Lemma drain_recorded n request events i seen :
  recordedLoop false (Z.b2z seen) (drop i events) = Ok tt -> length (drop i events) < n ->
  drain n (MkNormalizedStream request (sourceOf events None i) false seen) = servedTurn request (drop i events).
Proof.
  revert i seen. induction n as [|n IH]; intros i seen Hr Hn; [lia|].
  destruct (drop i events) as [|e rest] eqn:Hd; [done|]. destruct (drop_cons_inv _ _ _ _ Hd) as [He Hrest].
  destruct (recordedLoop_inv _ _ _ Hr) as (Hs & Hu & Hf & Hnext). cbn [drain servedTurn].
  rewrite (Recv_sourceOf _ _ _ _ _ _ He), (validateEvent_recorded (MkNormalizedStream request (sourceOf events None i) false seen) _ Hs Hu Hf). cbn [ns_request].
  destruct (refusalOf request e); [by rewrite drain_terminal|]. f_equal. case_bool_decide as Hl.
  - rewrite drain_terminal by done. by rewrite Hnext.
  - rewrite Hrest in *. apply IH; [done|]. cbn [length] in Hn. lia.
Qed.

Lemma reads_recorded request turn :
  validateRecordedTurn turn = Ok tt -> reads (NewNormalizedStream request (MkSliceStream turn None 0 false)) (servedTurn request turn).
Proof.
  intros Hr. apply reads_drain. apply (drain_recorded _ request turn 0 false); [done|].
  rewrite drop_0. unfold collectFuel. cbn. lia.
Qed.

Lemma reads_error request failure :
  validateEventShape (failureEvent failure) = None -> reads (NewErrorStream request failure) [failureEvent failure].
Proof.
  intros Hs. apply (reads_recorded request [failureEvent failure]). unfold validateRecordedTurn. cbn [recordedLoop].
  rewrite Hs. done.
Qed.

Lemma ClassifyProviderError_shape err : validateEventShape (failureEvent (ClassifyProviderError err)) = None.
Proof. unfold ClassifyProviderError. by repeat case_match. Qed.

(** *** A sequence of calls *)

(** A call: the error of its context, and the request. *)
Definition Calls : Type := list (option ProviderError * Request C).

Fixpoint replayAll (replay : ReplayReasoner) (calls : Calls) : list (normalizedStream C) :=
  match calls with
  | [] => []
  | (cancelled, request) :: rest =>
      let '(stream, replay') := replayReason cancelled request replay in stream :: replayAll replay' rest
  end.

Definition exhausted : StreamError := MkStreamError ErrorInternal "recorded cassette has no remaining turn" false.

(** What the calls are served: the turns in order, one each; a cancelled call takes none,
    and after the last turn every call fails. *)
Fixpoint servedTurns (turns : list (list StreamEvent)) (calls : Calls) : list (list StreamEvent) :=
  match calls with
  | [] => []
  | (Some err, _) :: rest => [failureEvent (ClassifyProviderError err)] :: servedTurns turns rest
  | (None, request) :: rest =>
      match turns with
      | [] => [failureEvent exhausted] :: servedTurns [] rest
      | turn :: turns => servedTurn request turn :: servedTurns turns rest
      end
  end.

Lemma replay_from c n calls :
  Forall (fun turn => validateRecordedTurn turn = Ok tt) (cs_Turns c) ->
  Forall2 reads (replayAll (MkReplayReasoner c n) calls) (servedTurns (drop n (cs_Turns c)) calls).
Proof.
  intros Hall. revert n. induction calls as [|[[err|] request] rest IH]; intros n; [constructor| |]; cbn [replayAll servedTurns replayReason].
  - constructor; [|apply IH]. apply reads_error, ClassifyProviderError_shape.
  - cbn [rp_cassette rp_nextTurn]. destruct (cs_Turns c !! n) as [turn|] eqn:Hn.
    + rewrite (drop_S _ _ _ Hn). constructor; [|apply IH]. apply reads_recorded.
      rewrite Forall_forall in Hall. by apply Hall, (list_elem_of_lookup_2 _ n).
    + apply lookup_ge_None in Hn. specialize (IH n). rewrite drop_ge in IH |- * by done.
      constructor; [by apply reads_error|done].
Qed.

Lemma servedTurn_whole request turn : Forall (fun e => refusalOf request e = None) turn -> servedTurn request turn = turn.
Proof. induction 1 as [|e rest He _ IH]; [done|]. cbn. by rewrite He, IH. Qed.

Lemma validateTurns_all turns : validateTurns turns = Ok tt -> Forall (fun turn => validateRecordedTurn turn = Ok tt) turns.
Proof.
  induction turns as [|turn turns IH]; [constructor|]. cbn [validateTurns]. case_decide; [done|].
  destruct (validateRecordedTurn turn) as [[]|] eqn:Hr; [|done]. intros Hv. constructor; [done|]. by apply IH.
Qed.

Lemma validateCassette_turns c : validateCassette c = Ok tt -> validateTurns (cs_Turns c) = Ok tt.
Proof. unfold validateCassette. repeat (case_decide; [done|]). destruct (_ || _); [done|]. by destruct (containsSecretMarker _). Qed.

(** replaying is deterministic and faithful: whatever calls are made on the replay
    of a loaded cassette, the streams they get read - drained or collected - as the
    recorded turns, one per call in order and whole, when the request accepts the calls
    and the usage of the turn, up to the first event it refuses otherwise; a cancelled
    call takes no turn, and a call after the last one fails. *)
Theorem replay_serves_turns text c :
  LoadCassette text = Ok c ->
  containsSecretMarker text = false /\
  exists replay, NewReplayReasoner c = Ok replay /\
    (forall calls, Forall2 reads (replayAll replay calls) (servedTurns (cs_Turns c) calls)) /\
    (forall request turn, turn ∈ cs_Turns c -> Forall (fun e => refusalOf request e = None) turn ->
       servedTurn request turn = turn /\ turn <> []).
Proof.
  unfold LoadCassette. case_match; [done|]. destruct (containsSecretMarker text); [done|].
  destruct (parse_bytes _) as [v|]; [|done]. destruct (decode_struct _ _ _ _) as [raw|]; [|done].
  destruct (validateCassette (withTurns raw)) as [[]|] eqn:Hv; [|done]. intros [= <-]. split; [done|].
  exists (MkReplayReasoner (withTurns raw) 0). unfold NewReplayReasoner. rewrite Hv. split; [done|].
  pose proof (validateTurns_all _ (validateCassette_turns _ Hv)) as Hall. split; [by intros calls; apply (replay_from _ 0)|].
  intros request turn Hin Ha. split; [by apply servedTurn_whole|]. rewrite Forall_forall in Hall. specialize (Hall _ Hin).
  by intros ->.
Qed.
End replay.

(** * A recorded session

    A cassette of one tool call, an answer and an interruption, written, loaded and
    replayed. *)

Definition readCall : ToolCall := MkToolCall "call-1" "repo.read" (json_object [json_member "path" (json_string "main.go")]).

Definition sampleCassette : Cassette :=
  MkCassette CurrentCassetteVersion CodingAgentSystemContractVersion "fix-add" "recorded" true
    [ [textEvent "reading"; toolCallEvent readCall; usageEvent (MkUsage 10 5 15); finishEvent "tool_calls"];
      [textEvent "fixed"; usageEvent (MkUsage 20 5 25); finishEvent "stop"];
      [failureEvent providerUnavailable] ].

Definition sampleText : string := Eval vm_compute in marshalCassette sampleCassette.

Lemma sample_valid : validateCassette sampleCassette = Ok tt.
Proof. vm_compute. reflexivity. Qed.

Lemma sample_text : marshalCassette sampleCassette = sampleText.
Proof. vm_compute. reflexivity. Qed.

Lemma sample_small : (Z.of_nat (String.length (marshalCassette sampleCassette)) <= cassetteLimit)%Z.
Proof. apply Z.leb_le. vm_compute. reflexivity. Qed.

Lemma sample_encodable : encodable sampleCassette.
Proof. by repeat (apply List.Forall_nil || apply List.Forall_cons || split). Qed.

Lemma cassette_roundtrip_witness :
  encodable sampleCassette /\ LoadCassette (marshalCassette sampleCassette) = Ok sampleCassette.
Proof.
  split; [apply sample_encodable|].
  apply (cassette_roundtrip sampleCassette); [apply sample_encodable|apply sample_valid|apply sample_small].
Defined.

Lemma sample_loads : LoadCassette sampleText = Ok sampleCassette.
Proof. vm_compute. reflexivity. Qed.

(** The contract of the call and a request with a small budget. *)
Definition readTools : list Contract := filter (fun c => ct_Name c = "repo.read") builtinContracts.
Definition sampleRequest (limit : Z) : Request Contract := MkRequest readTools "fix add" limit.

(** The second turn exceeds a limit of 20 tokens. *)
Lemma sample_served :
  servedTurns (cs_Turns sampleCassette) [(None, sampleRequest 100); (None, sampleRequest 20); (None, sampleRequest 20); (None, sampleRequest 20)] =
  [ [textEvent "reading"; toolCallEvent readCall; usageEvent (MkUsage 10 5 15); finishEvent "tool_calls"];
    [textEvent "fixed"; failureEvent (MkStreamError ErrorTokenBudgetExceeded "Reasoner token budget exceeded" false)];
    [failureEvent providerUnavailable]; [failureEvent exhausted] ].
Proof. vm_compute. reflexivity. Qed.

Lemma replay_serves_turns_witness :
  LoadCassette sampleText = Ok sampleCassette /\
  containsSecretMarker sampleText = false /\
  exists replay, NewReplayReasoner sampleCassette = Ok replay /\
    (forall calls, Forall2 (reads (C := Contract)) (replayAll replay calls) (servedTurns (cs_Turns sampleCassette) calls)) /\
    (forall (request : Request Contract) turn, turn ∈ cs_Turns sampleCassette ->
       Forall (fun e => refusalOf request e = None) turn -> servedTurn request turn = turn /\ turn <> []).
Proof. split; [apply sample_loads|apply (replay_serves_turns sampleText sampleCassette), sample_loads]. Defined.
