(* ===== verification/Eino.v ===== *)
(** * The Eino adapter: internal/reasoner/eino/eino.go

    A chat model answers in chunks: pieces of text, fragments of tool calls, counters of
    tokens.  The adapter turns them into the events of one turn.  The model itself, the
    reader of its stream and the JSON schema type belong to other libraries. *)
From stdpp Require Import sorting.
From S2P Require Import Prelude Sha256 GoLib Json Types Effect Float64 Contract Reasoner.
From S2P Require Import AuditLog Policy Controller ToolService Agent Cassette.
Open Scope Z_scope.

(** ** Values of the library, as far as the adapter reads them *)

(** [schema.ToolCall]: a fragment of a call. *)
Record Fragment : Type := MkFragment {
  fr_Index : option Z;
  fr_ID : string;
  fr_Name : string;
  fr_Arguments : string
}.

Record TokenUsage : Type := MkTokenUsage {
  tu_PromptTokens : Z;
  tu_CompletionTokens : Z;
  tu_TotalTokens : Z
}.

(** [schema.ResponseMeta] *)
Record ResponseMeta : Type := MkResponseMeta {
  rm_FinishReason : string;
  rm_Usage : option TokenUsage
}.

(** A chunk: a [schema.Message] of the stream. *)
Record Chunk : Type := MkChunk {
  ch_Content : string;
  ch_ToolCalls : list Fragment;
  ch_ResponseMeta : option ResponseMeta
}.

(** What the reader answers, one call after the other, and then [io.EOF]. *)
Inductive answer : Type :=
  | AnswerChunk (chunk : Chunk)
  | AnswerNil
  | AnswerError (err : ProviderError).

(** ** The stream *)

Record toolAccumulator : Type := MkToolAccumulator {
  ta_ID : string;
  ta_Name : string;
  ta_Arguments : string
}.

Record einoStream : Type := MkEinoStream {
  es_reader : list answer;
  es_queue : list StreamEvent;
  es_calls : gmap Z toolAccumulator;
  es_callOrder : list Z;
  es_nextKey : Z;
  es_usage : option Usage;
  es_closed : bool
}.

Definition newEinoStream (reader : list answer) : einoStream := MkEinoStream reader [] ∅ [] 0 None false.

Definition enqueue (events : list StreamEvent) (s : einoStream) : einoStream :=
  MkEinoStream (es_reader s) (es_queue s ++ events) (es_calls s) (es_callOrder s) (es_nextKey s) (es_usage s) (es_closed s).

(** [usageEvent], its usage *)
Definition usageOf (usage : TokenUsage) : Usage :=
  let total := if tu_TotalTokens usage =? 0 then i64 (tu_PromptTokens usage + tu_CompletionTokens usage)
               else tu_TotalTokens usage in
  MkUsage (tu_PromptTokens usage) (tu_CompletionTokens usage) total.

(** [recordUsage]; the boolean tells whether it failed. *)
Definition recordUsage (provider : TokenUsage) (s : einoStream) : einoStream * bool :=
  let current := usageOf provider in
  let decreased := match es_usage s with
    | Some u => (us_InputTokens current <? us_InputTokens u) || (us_OutputTokens current <? us_OutputTokens u) ||
                (us_TotalTokens current <? us_TotalTokens u)
    | None => false end in
  if decreased then (s, true)
  else (MkEinoStream (es_reader s) (es_queue s) (es_calls s) (es_callOrder s) (es_nextKey s) (Some current) (es_closed s),
        false).

Definition callEvent (a : toolAccumulator) : StreamEvent := toolCallEvent (MkToolCall (ta_ID a) (ta_Name a) (ta_Arguments a)).

(** [flushToolCalls]; every key of [callOrder] is in [calls]. *)
Definition flushToolCalls (s : einoStream) : einoStream :=
  MkEinoStream (es_reader s)
    (es_queue s ++ map callEvent (omap (fun key => es_calls s !! key) (es_callOrder s)))
    ∅ [] (es_nextKey s) (es_usage s) (es_closed s).

Section stream.
(** The order in which a [range] over the calls meets them. *)
Variable range : gmap Z toolAccumulator -> list (Z * toolAccumulator).

(** The key of a fragment; [None] asks for a new one. *)
Definition fragmentKey (call : Fragment) (calls : gmap Z toolAccumulator) : Z :=
  match fr_Index call with
  | Some index => index
  | None =>
      if negb (bool_decide (fr_ID call = "")) then
        match List.find (fun entry => bool_decide (ta_ID (snd entry) = fr_ID call)) (range calls) with
        | Some (candidate, _) => candidate
        | None => -1
        end
      else if decide (size calls = 1%nat) then match range calls with (candidate, _) :: _ => candidate | [] => -1 end
      else -1
  end.

(** An atomic field: set once, and the same when it is repeated. *)
Definition mergeField (old new : string) : option string :=
  if decide (new = "") then Some old
  else if negb (bool_decide (old = "")) && negb (bool_decide (old = new)) then None
  else Some new.

Definition withCall (key : Z) (a : toolAccumulator) (order : list Z) (nextKey : Z) (s : einoStream) : einoStream :=
  MkEinoStream (es_reader s) (es_queue s) (<[key := a]> (es_calls s)) order nextKey (es_usage s) (es_closed s).

(** [accumulateToolCall]; the boolean tells whether it failed. *)
Definition accumulateToolCall (call : Fragment) (s : einoStream) : einoStream * bool :=
  let key0 := fragmentKey call (es_calls s) in
  let nextKey := if key0 <? 0 then i64 (es_nextKey s + 1) else es_nextKey s in
  let key := if key0 <? 0 then i64 (1000000 + nextKey) else key0 in
  let order := match es_calls s !! key with Some _ => es_callOrder s | None => es_callOrder s ++ [key] end in
  let a := default (MkToolAccumulator "" "" "") (es_calls s !! key) in
  match mergeField (ta_ID a) (fr_ID call) with
  | None => (withCall key a order nextKey s, true)
  | Some id =>
      match mergeField (ta_Name a) (fr_Name call) with
      | None => (withCall key (MkToolAccumulator id (ta_Name a) (ta_Arguments a)) order nextKey s, true)
      | Some name =>
          (withCall key (MkToolAccumulator id name (ta_Arguments a +:+ fr_Arguments call)) order nextKey s, false)
      end
  end.

Fixpoint accumulateCalls (calls : list Fragment) (s : einoStream) : einoStream * bool :=
  match calls with
  | [] => (s, false)
  | call :: rest => let '(s', failed) := accumulateToolCall call s in if failed then (s', true) else accumulateCalls rest s'
  end.

Definition conflicting : StreamError := MkStreamError ErrorInvalidEvent "conflicting Eino Tool Call atomic fields" false.
Definition usageDecreased : StreamError := MkStreamError ErrorInvalidEvent "Eino Usage decreased across chunks" false.

(** One chunk in the loop of [Recv]: the stream after it, or a failure. *)
Definition receiveChunk (chunk : Chunk) (s : einoStream) : einoStream * option StreamError :=
  let s := if decide (ch_Content chunk = "") then s else enqueue [textEvent (ch_Content chunk)] s in
  let '(s, failed) := accumulateCalls (ch_ToolCalls chunk) s in
  if failed then (s, Some conflicting)
  else
    let '(s, failed) := match ch_ResponseMeta chunk with
      | Some (MkResponseMeta _ (Some usage)) => recordUsage usage s
      | _ => (s, false) end in
    if failed then (s, Some usageDecreased)
    else match ch_ResponseMeta chunk with
    | Some (MkResponseMeta reason _) =>
        if decide (reason = "") then (s, None)
        else
          let s := flushToolCalls s in
          let usage := match es_usage s with Some u => [usageEvent u] | None => [] end in
          (enqueue (usage ++ [finishEvent reason]) s, None)
    | None => (s, None)
    end.

Definition withReader (reader : list answer) (s : einoStream) : einoStream :=
  MkEinoStream reader (es_queue s) (es_calls s) (es_callOrder s) (es_nextKey s) (es_usage s) (es_closed s).

Definition dequeue (queue : list StreamEvent) (s : einoStream) : einoStream :=
  MkEinoStream (es_reader s) queue (es_calls s) (es_callOrder s) (es_nextKey s) (es_usage s) (es_closed s).

(** [Recv]: the loop consumes the reader, whose answers are [reader]. *)
Fixpoint recvLoop (reader : list answer) (s : einoStream) : received * einoStream :=
  match es_queue s with
  | event :: queue => (Received event, dequeue queue s)
  | [] =>
      if es_closed s then (ReceivedEOF, s)
      else match reader with
      | [] => (ReceivedEOF, s)
      | AnswerError err :: rest => (ReceivedError (SourceFailure (ClassifyProviderStreamError err)), withReader rest s)
      | AnswerNil :: rest => (ReceivedError SourceBroken, withReader rest s)
      | AnswerChunk chunk :: rest =>
          match receiveChunk chunk (withReader rest s) with
          | (s', Some failure) => (ReceivedError (SourceFailure failure), s')
          | (s', None) => recvLoop rest s'
          end
      end
  end.

Definition einoRecv (s : einoStream) : received * einoStream := recvLoop (es_reader s) s.

(** [Close] *)
Definition einoClose (s : einoStream) : einoStream :=
  if es_closed s then s
  else MkEinoStream (es_reader s) (es_queue s) (es_calls s) (es_callOrder s) (es_nextKey s) (es_usage s) true.

(** A normalised stream calls [Recv] of its source until it answers no event, and never
    after.  Those events and the error, as a source. *)
Fixpoint answers (fuel : nat) (s : einoStream) : list StreamEvent * option sourceError :=
  match fuel with
  | O => ([], None)
  | S n =>
      match einoRecv s with
      | (Received event, s') => let '(events, err) := answers n s' in (event :: events, err)
      | (ReceivedEOF, _) => ([], None)
      | (ReceivedError err, _) => ([], Some err)
      end
  end.

(** Every event is queued already, or comes from a chunk. *)
Definition chunkEvents (a : answer) : nat :=
  match a with AnswerChunk chunk => length (ch_ToolCalls chunk) + 3 | _ => 0 end.
Definition answersFuel (s : einoStream) : nat :=
  S (length (es_queue s) + length (es_callOrder s) + sum_list_with chunkEvents (es_reader s)).

Definition sourceStream (s : einoStream) : sliceStream :=
  let '(events, err) := answers (answersFuel s) s in MkSliceStream events err 0 false.
End stream.

(** ** Requests *)

(** [schema.Message] of a request; [Type] of a call is constant. *)
Record ModelMessage : Type := MkModelMessage {
  mm_Role : string;
  mm_Content : string;
  mm_ToolCalls : list ToolCall;
  mm_ToolCallID : string;
  mm_ToolName : string
}.

(** The roles of the library: their values. *)
Definition schemaRole (role : Role) : option string :=
  if decide (role = RoleSystem) then Some "system"
  else if decide (role = RoleUser) then Some "user"
  else if decide (role = RoleAssistant) then Some "assistant"
  else if decide (role = RoleTool) then Some "tool"
  else None.

Fixpoint toEinoMessages (messages : list Message) : result (list ModelMessage) :=
  match messages with
  | [] => Ok []
  | message :: rest =>
      match schemaRole (ms_Role message) with
      | None => Err (Plain "unsupported internal role")
      | Some role =>
          converted ← toEinoMessages rest;
          Ok (MkModelMessage role (ms_Content message) (ms_ToolCalls message) (ms_ToolCallID message)
                (ms_ToolName message) :: converted)
      end
  end.

Section adapter.
(** [jsonschema.Schema] and its decoder *)
Context {Schema : Type} (unmarshalSchema : string -> option Schema).

Record ToolInfo : Type := MkToolInfo {
  ti_Name : string;
  ti_Desc : string;
  ti_Params : Schema
}.

Definition toolDescription (c : Contract) : string :=
  "AgentDock Tool Contract " +:+ ct_Version c +:+ "; capability=" +:+ ct_Capability c +:+
  "; network=" +:+ json_bool (ct_Network c) +:+ "; idempotency=" +:+ ct_Idempotency c.

Fixpoint toolInfos (contracts : list Contract) : result (list ToolInfo) :=
  match contracts with
  | [] => Ok []
  | contract :: rest =>
      _ ← ValidateContract contract;
      match unmarshalSchema (ct_InputSchema contract) with
      | None => Err (Plain "Tool input schema")
      | Some fullSchema => infos ← toolInfos rest; Ok (MkToolInfo (ct_Name contract) (toolDescription contract) fullSchema :: infos)
      end
  end.

Definition info_le (a b : ToolInfo) : Prop := string_le (ti_Name a) (ti_Name b).
#[export] Instance info_le_dec : RelDecision info_le := fun a b => string_le_dec (ti_Name a) (ti_Name b).

Definition toEinoTools (contracts : list Contract) : result (list ToolInfo) :=
  infos ← toolInfos contracts; Ok (merge_sort info_le infos).

(** [model.BaseChatModel]: what [Stream] answers for messages, tools and a limit; no
    reader stands for nil. *)
Definition ChatModel : Type := Context -> list ModelMessage -> list ToolInfo -> Z -> ProviderError + option (list answer).

(** [EinoReasoner.Reason] *)
Definition einoReason (range : gmap Z toolAccumulator -> list (Z * toolAccumulator)) (chat : ChatModel) (ctx : Context)
    (request : AgentRequest) : normalizedStream Contract :=
  let fail class message := NewErrorStream (streamRequest request) (MkStreamError class message false) in
  match ValidatePhase5Request request with
  | Err _ => fail ErrorInvalidRequest "invalid Eino Reasoner request"
  | Ok _ =>
      match toEinoMessages (MessagesForModel request) with
      | Err _ => fail ErrorInvalidRequest "invalid internal message"
      | Ok messages =>
          match toEinoTools (ag_Tools request) with
          | Err _ => fail ErrorInvalidRequest "invalid Tool Contract conversion"
          | Ok tools =>
              match chat ctx messages tools (ag_TokenLimit request) with
              | inl err => NewErrorStream (streamRequest request) (ClassifyProviderError err)
              | inr None => fail ErrorInternal "Eino provider returned no stream"
              | inr (Some reader) => NewNormalizedStream (streamRequest request) (sourceStream range (newEinoStream reader))
              end
          end
      end
  end.
End adapter.
Close Scope Z_scope.
