(* ===== verification/EinoFacts.v ===== *)
(** * The stream of the Eino adapter

    Its answers as a relation without fuel, and the calls that fragments assemble to. *)
From S2P Require Import Prelude Sha256 GoLib Json Types Effect Float64 Contract Reasoner ReasonerTheorems.
From S2P Require Import AuditLog Policy Controller ToolService Agent Cassette Eino.
Open Scope Z_scope.

(** ** The calls fragments stand for *)

Definition with_index (k : Z) (fs : list Fragment) : list Fragment := filter (fun f => fr_Index f = Some k) fs.

(** The first text that is not empty. *)
Definition first_text (texts : list string) : string := default "" (head (filter (fun t => t <> "") texts)).

Definition joined (texts : list string) : string := foldr String.append "" texts.

(** The call of an index: the identifier and the name given by its fragments, and their
    arguments in order. *)
Definition assembledCall (fs : list Fragment) (k : Z) : toolAccumulator :=
  MkToolAccumulator (first_text (map fr_ID (with_index k fs))) (first_text (map fr_Name (with_index k fs)))
    (joined (map fr_Arguments (with_index k fs))).

(** The indices in the order of their first fragment. *)
Definition indices (fs : list Fragment) : list Z := reverse (remove_dups (reverse (omap fr_Index fs))).

(** The protocol of the providers: every fragment has an index, and no index is given two
    identifiers or two names. *)
Definition indexed (fs : list Fragment) : Prop := Forall (fun f => exists k, fr_Index f = Some k /\ 0 <= k) fs.

Definition agree (texts : list string) : Prop := forall a b, a ∈ texts -> b ∈ texts -> a <> "" -> b <> "" -> a = b.
Definition coherent (fs : list Fragment) : Prop :=
  forall k, agree (map fr_ID (with_index k fs)) /\ agree (map fr_Name (with_index k fs)).

Lemma first_text_snoc texts t :
  first_text (texts ++ [t]) = if decide (first_text texts = "") then t else first_text texts.
Proof.
  unfold first_text. induction texts as [|u texts IH]; cbn [app].
  - rewrite filter_cons. by case_decide as Ht; cbn.
  - rewrite !filter_cons. destruct (decide (u <> "")) as [Hu|Hu]; [|done]. cbn. by rewrite decide_False.
Qed.

Lemma first_text_in texts : first_text texts <> "" -> first_text texts ∈ texts.
Proof.
  unfold first_text. destruct (filter _ texts) as [|t r] eqn:Hf; [done|]. intros _. cbn.
  assert (t ∈ filter (fun t => t <> "") texts) as [_ Hi]%list_elem_of_filter by (rewrite Hf; left). done.
Qed.

Lemma first_text_none texts t : first_text texts = "" -> t ∈ texts -> t = "".
Proof.
  unfold first_text. intros Hf Hi. destruct (decide (t = "")) as [|Ht]; [done|].
  assert (t ∈ filter (fun t => t <> "") texts) as Hin by (by apply list_elem_of_filter).
  destruct (filter (fun t => t <> "") texts) as [|u r] eqn:Hfl; [by apply elem_of_nil in Hin|]. cbn in Hf. subst u.
  assert ("" ∈ filter (fun t => t <> "") texts) as [He _]%list_elem_of_filter by (rewrite Hfl; left). done.
Qed.

(** Merging a field is what the specification asks of it. *)
Lemma mergeField_agree texts t :
  agree texts ->
  match mergeField (first_text texts) t with
  | Some merged => agree (texts ++ [t]) /\ merged = first_text (texts ++ [t])
  | None => ~ agree (texts ++ [t])
  end.
Proof.
  intros Ha. unfold mergeField. rewrite first_text_snoc. case_decide as Ht.
  { subst t. split; [|by case_decide]. intros a b [Hi|Hi]%elem_of_app [Hj|Hj]%elem_of_app Hna Hnb;
      try (apply list_elem_of_singleton in Hi; done); try (apply list_elem_of_singleton in Hj; done). by apply Ha. }
  case_bool_decide as Hf; cbn [negb andb].
  { rewrite decide_True by done. split; [|done]. intros a b [Hi|Hi]%elem_of_app [Hj|Hj]%elem_of_app Hna Hnb.
    - by apply Ha.
    - by destruct Hna; apply (first_text_none texts).
    - by destruct Hnb; apply (first_text_none texts).
    - apply list_elem_of_singleton in Hi as ->. by apply list_elem_of_singleton in Hj as ->. }
  rewrite decide_False by done. case_bool_decide as He; cbn [negb].
  - split; [|done]. pose proof (first_text_in _ Hf) as Hin. rewrite He in Hin.
    intros a b [Hi|Hi%list_elem_of_singleton]%elem_of_app [Hj|Hj%list_elem_of_singleton]%elem_of_app Hna Hnb; subst.
    + by apply Ha.
    + by apply Ha.
    + by apply Ha.
    + done.
  - intros Hall. apply He. apply (Hall (first_text texts) t); [apply elem_of_app; left; by apply first_text_in| |done|done].
    apply elem_of_app. right. by left.
Qed.

Lemma joined_snoc texts t : joined (texts ++ [t]) = joined texts +:+ t.
Proof. unfold joined. induction texts as [|u texts IH]; cbn; [by rewrite str_app_nil|]. by rewrite IH, str_app_assoc. Qed.

Lemma with_index_snoc k fs f :
  with_index k (fs ++ [f]) = with_index k fs ++ (if decide (fr_Index f = Some k) then [f] else []).
Proof. unfold with_index. rewrite filter_app, filter_cons, filter_nil. by case_decide. Qed.

Lemma indices_snoc fs f k :
  fr_Index f = Some k -> indices (fs ++ [f]) = if decide (k ∈ indices fs) then indices fs else indices fs ++ [k].
Proof.
  intros Hk. unfold indices. assert (omap fr_Index [f] = [k]) as Hf by (cbn; by rewrite Hk).
  rewrite omap_app, Hf, reverse_app, reverse_singleton. cbn [app remove_dups].
  destruct (decide_rel elem_of k (reverse (omap fr_Index fs))) as [Hi|Hi]; case_decide as Hj;
    rewrite elem_of_reverse, elem_of_remove_dups in Hj; try done. by rewrite reverse_cons.
Qed.

Lemma indices_elem fs k : k ∈ indices fs <-> k ∈ omap fr_Index fs.
Proof. unfold indices. by rewrite elem_of_reverse, elem_of_remove_dups, elem_of_reverse. Qed.

Lemma with_index_none k fs : k ∉ indices fs -> with_index k fs = [].
Proof.
  intros Hk. unfold with_index. induction fs as [|f fs IH]; [done|]. rewrite filter_cons.
  rewrite indices_elem in Hk, IH. cbn in Hk. case_decide as Hf.
  - destruct Hk. rewrite Hf. left.
  - apply IH. intros Hin. apply Hk. destruct (fr_Index f); [by right|done].
Qed.

(** *** The accumulators hold exactly that *)

Record accumulated (fs : list Fragment) (s : einoStream) : Prop := {
  ac_calls : forall k, es_calls s !! k = if decide (k ∈ indices fs) then Some (assembledCall fs k) else None;
  ac_order : es_callOrder s = indices fs
}.

Lemma assembledCall_other fs f k : fr_Index f <> Some k -> assembledCall (fs ++ [f]) k = assembledCall fs k.
Proof. intros Hk. unfold assembledCall. rewrite with_index_snoc, decide_False by done. by rewrite app_nil_r. Qed.

Lemma coherent_snoc fs f k :
  fr_Index f = Some k -> coherent fs ->
  coherent (fs ++ [f]) <->
  agree (map fr_ID (with_index k fs) ++ [fr_ID f]) /\ agree (map fr_Name (with_index k fs) ++ [fr_Name f]).
Proof.
  intros Hk Hc. split.
  - intros Hall. specialize (Hall k). rewrite with_index_snoc, decide_True, !map_app in Hall by done. exact Hall.
  - intros Ha k'. rewrite with_index_snoc. destruct (decide (fr_Index f = Some k')) as [E|E].
    + assert (k' = k) as -> by congruence. by rewrite !map_app.
    + rewrite app_nil_r. apply Hc.
Qed.

Section stream.
Variable range : gmap Z toolAccumulator -> list (Z * toolAccumulator).

(** What accumulation leaves alone. *)
Definition same_frame (s s' : einoStream) : Prop :=
  es_reader s' = es_reader s /\ es_queue s' = es_queue s /\ es_usage s' = es_usage s /\ es_closed s' = es_closed s.

#[export] Instance same_frame_preorder : PreOrder same_frame.
Proof. split; [done|]. intros s1 s2 s3 (? & ? & ? & ?) (? & ? & ? & ?). repeat split; congruence. Qed.

Lemma accumulate_frame f s s' failed : accumulateToolCall range f s = (s', failed) -> same_frame s s'.
Proof. unfold accumulateToolCall. destruct (mergeField _ _); [destruct (mergeField _ _)|]; by intros [= <- _]. Qed.

Lemma accumulateCalls_frame fs s s' failed : accumulateCalls range fs s = (s', failed) -> same_frame s s'.
Proof.
  revert s. induction fs as [|f fs IH]; intros s; cbn [accumulateCalls]; [by intros [= <- _]|].
  destruct (accumulateToolCall range f s) as [s1 b] eqn:H1. apply accumulate_frame in H1.
  destruct b; [by intros [= <- _]|]. intros H2%IH. by etrans.
Qed.

(** One fragment with an index. *)
Lemma accumulate_indexed fs f k s :
  fr_Index f = Some k -> 0 <= k -> coherent fs -> accumulated fs s ->
  let '(s', failed) := accumulateToolCall range f s in
  if failed then ~ coherent (fs ++ [f]) else coherent (fs ++ [f]) /\ accumulated (fs ++ [f]) s'.
Proof.
  intros Hk Hk0 Hc [Hcalls Horder]. unfold accumulateToolCall, fragmentKey. rewrite Hk.
  rewrite (proj2 (Z.ltb_ge k 0)) by done. pose proof (coherent_snoc fs f k Hk Hc) as Hiff.
  assert (default (MkToolAccumulator "" "" "") (es_calls s !! k) = assembledCall fs k) as ->.
  { rewrite Hcalls. case_decide as Hi; [done|]. unfold assembledCall. by rewrite with_index_none. }
  cbn [ta_ID ta_Name ta_Arguments assembledCall]. destruct (Hc k) as [Hid Hname].
  pose proof (mergeField_agree _ (fr_ID f) Hid) as Hm. destruct (mergeField _ (fr_ID f)) as [id|]; [|rewrite Hiff; tauto].
  pose proof (mergeField_agree _ (fr_Name f) Hname) as Hn. destruct (mergeField _ (fr_Name f)) as [name|]; [|rewrite Hiff; tauto].
  destruct Hm as [Ha ->], Hn as [Hb ->]. split; [by apply Hiff|].
  pose proof (with_index_snoc k fs f) as Hw. rewrite decide_True in Hw by done.
  split; unfold withCall; cbn [es_calls es_callOrder].
  - intros k'. destruct (decide (k' = k)) as [->|Hne].
    + rewrite lookup_insert_eq, decide_True.
      * unfold assembledCall. rewrite Hw, !map_app. cbn [map]. by rewrite joined_snoc.
      * rewrite (indices_snoc fs f k Hk). case_decide; [done|]. apply elem_of_app. right. by left.
    + rewrite lookup_insert_ne, Hcalls by done. rewrite (indices_snoc fs f k Hk).
      rewrite assembledCall_other by congruence.
      destruct (decide (k ∈ indices fs)) as [Hi|Hi]; [done|].
      destruct (decide (k' ∈ indices fs)) as [Hj|Hj]; destruct (decide (k' ∈ indices fs ++ [k])) as [Hl|Hl]; try done.
      * destruct Hl. apply elem_of_app. by left.
      * apply elem_of_app in Hl as [?|Hl%list_elem_of_singleton]; done.
  - rewrite (indices_snoc fs f k Hk), Hcalls, Horder. by case_decide.
Qed.

Lemma accumulateCalls_indexed more fs s :
  indexed more -> coherent fs -> accumulated fs s ->
  let '(s', failed) := accumulateCalls range more s in
  if failed then ~ coherent (fs ++ more) else coherent (fs ++ more) /\ accumulated (fs ++ more) s'.
Proof.
  revert fs s. induction more as [|f more IH]; intros fs s Hx Hc Ha; cbn [accumulateCalls]; [by rewrite app_nil_r|].
  apply Forall_cons in Hx as [(k & Hk & Hk0) Hx]. pose proof (accumulate_indexed fs f k s Hk Hk0 Hc Ha) as H1.
  destruct (accumulateToolCall range f s) as [s1 b]. change (f :: more) with ([f] ++ more). rewrite (assoc_L (++)).
  destruct b.
  - intros Hall. apply H1. intros k'. destruct (Hall k') as [Hi Hn]. unfold with_index in *.
    rewrite filter_app, !map_app in Hi, Hn. split; intros a b Hia Hib; [apply Hi|apply Hn]; apply elem_of_app; by left.
  - destruct H1 as [Hc' Ha']. by apply IH.
Qed.

(** ** Answers without fuel *)

Inductive Answers : einoStream -> list StreamEvent -> option sourceError -> Prop :=
  | AnswersEnd s s' : einoRecv range s = (ReceivedEOF, s') -> Answers s [] None
  | AnswersFail s s' err : einoRecv range s = (ReceivedError err, s') -> Answers s [] (Some err)
  | AnswersEvent s s' event events err :
      einoRecv range s = (Received event, s') -> Answers s' events err -> Answers s (event :: events) err.

(** The events still to come are bounded. *)
Definition potential (s : einoStream) : nat :=
  length (es_queue s) + length (es_callOrder s) + sum_list_with chunkEvents (es_reader s).

Lemma accumulate_order f s s' failed :
  accumulateToolCall range f s = (s', failed) -> (length (es_callOrder s') <= S (length (es_callOrder s)))%nat.
Proof.
  unfold accumulateToolCall. set (order := match es_calls s !! _ with Some _ => _ | None => _ end).
  assert (length order <= S (length (es_callOrder s)))%nat as Ho.
  { subst order. case_match; [lia|]. rewrite length_app. cbn. lia. }
  clearbody order. destruct (mergeField _ _); [destruct (mergeField _ _)|]; by intros [= <- _].
Qed.

Lemma accumulateCalls_order fs s s' failed :
  accumulateCalls range fs s = (s', failed) -> (length (es_callOrder s') <= length fs + length (es_callOrder s))%nat.
Proof.
  revert s. induction fs as [|f fs IH]; intros s; cbn [accumulateCalls]; [by intros [= <- _]|].
  destruct (accumulateToolCall range f s) as [s1 b] eqn:H1. apply accumulate_order in H1.
  destruct b; [intros [= <- _]; cbn; lia|]. intros H2%IH. cbn. lia.
Qed.

Lemma flushed_length (calls : gmap Z toolAccumulator) order :
  (length (omap (fun key => calls !! key) order) <= length order)%nat.
Proof. induction order as [|k order IH]; cbn; [lia|]. destruct (calls !! k); cbn; lia. Qed.

Lemma recordUsage_ok u s s' :
  recordUsage u s = (s', false) ->
  s' = MkEinoStream (es_reader s) (es_queue s) (es_calls s) (es_callOrder s) (es_nextKey s) (Some (usageOf u)) (es_closed s).
Proof. unfold recordUsage. destruct (match es_usage s with Some _ => _ | None => _ end); [done|]. by intros [= <-]. Qed.

(** A chunk that is received without failure. *)
Lemma receiveChunk_inv chunk s s' :
  receiveChunk range chunk s = (s', None) ->
  exists s1 usage,
    accumulateCalls range (ch_ToolCalls chunk)
      (if decide (ch_Content chunk = "") then s else enqueue [textEvent (ch_Content chunk)] s) = (s1, false) /\
    es_usage s' = usage /\ es_closed s' = es_closed s /\ es_reader s' = es_reader s /\
    match rm_FinishReason <$> ch_ResponseMeta chunk with
    | None | Some "" => es_queue s' = es_queue s1 /\ es_calls s' = es_calls s1 /\ es_callOrder s' = es_callOrder s1
    | Some reason =>
        es_queue s' = es_queue s1 ++ map callEvent (omap (fun key => es_calls s1 !! key) (es_callOrder s1)) ++
          (match usage with Some u => [usageEvent u] | None => [] end ++ [finishEvent reason]) /\
        es_calls s' = ∅ /\ es_callOrder s' = []
    end /\
    match ch_ResponseMeta chunk ≫= rm_Usage with
    | None => usage = es_usage s
    | Some u => usage = Some (usageOf u) /\ snd (recordUsage u s1) = false
    end.
Proof.
  unfold receiveChunk. set (s0 := if decide _ then _ else _).
  assert (es_usage s0 = es_usage s /\ es_closed s0 = es_closed s /\ es_reader s0 = es_reader s) as (U0 & C0 & R0)
    by (subst s0; by case_decide).
  clearbody s0. destruct (accumulateCalls range _ s0) as [s1 b] eqn:H1.
  destruct (accumulateCalls_frame _ _ _ _ H1) as (R1 & Q1 & U1 & C1). destruct b; [done|].
  destruct (ch_ResponseMeta chunk) as [[reason [u|]]|]; cbn [rm_FinishReason rm_Usage fmap option_fmap option_map mbind option_bind].
  - destruct (recordUsage u s1) as [s2 []] eqn:H2; [done|]. apply recordUsage_ok in H2 as Hs2. subst s2.
    case_decide as Hr; intros [= <-]; exists s1, (Some (usageOf u)); rewrite H2; cbn -[usageOf];
      rewrite ?C1, ?R1, ?C0, ?R0; destruct reason; try done; by rewrite <- ?(assoc_L (++)).
  - case_decide as Hr; intros [= <-]; exists s1, (es_usage s1); cbn -[usageOf];
      rewrite ?C1, ?R1, ?U1, ?C0, ?R0, ?U0; destruct reason; try done; by rewrite <- ?(assoc_L (++)).
  - intros [= <-]. exists s1, (es_usage s1). by rewrite U1, C1, R1.
Qed.

Lemma receiveChunk_potential chunk s s' :
  receiveChunk range chunk s = (s', None) ->
  (length (es_queue s') + length (es_callOrder s') <=
   length (es_queue s) + length (es_callOrder s) + chunkEvents (AnswerChunk chunk))%nat.
Proof.
  intros (s1 & usage & Ha & _ & _ & _ & Hq & _)%receiveChunk_inv.
  pose proof (accumulateCalls_order _ _ _ _ Ha) as Ho. destruct (accumulateCalls_frame _ _ _ _ Ha) as (_ & Q1 & _).
  assert (length (es_queue s1) <= S (length (es_queue s)) /\
          length (es_callOrder s1) <= length (ch_ToolCalls chunk) + length (es_callOrder s))%nat as [Hl1 Hl2].
  { rewrite Q1. revert Ho. case_decide; cbn; rewrite ?length_app; cbn; lia. }
  cbn [chunkEvents]. destruct (rm_FinishReason <$> ch_ResponseMeta chunk) as [[|c r]|];
    destruct Hq as (Hq & _ & Hc); rewrite Hq, Hc; try lia.
  rewrite !length_app, length_map. pose proof (flushed_length (es_calls s1) (es_callOrder s1)).
  destruct usage; cbn; lia.
Qed.

Lemma recvLoop_potential reader s event s' :
  es_reader s = reader -> recvLoop range reader s = (Received event, s') -> (S (potential s') <= potential s)%nat.
Proof.
  unfold potential. revert s. induction reader as [|a reader IH]; intros s Hs; cbn [recvLoop].
  - destruct (es_queue s) eqn:Hq; [by destruct (es_closed s)|]. intros [= _ <-]. cbn. lia.
  - destruct (es_queue s) as [|e q] eqn:Hq; [|intros [= _ <-]; cbn; lia].
    destruct (es_closed s); [done|]. destruct a as [chunk| |err]; [|done|done].
    destruct (receiveChunk range chunk (withReader reader s)) as [s1 [|]] eqn:Hr; [done|].
    destruct (receiveChunk_inv _ _ _ Hr) as (_ & _ & _ & _ & _ & R1 & _). apply receiveChunk_potential in Hr.
    intros H1%IH; [|done]. rewrite Hs. rewrite R1 in H1. cbn [es_reader es_queue es_callOrder withReader] in *.
    rewrite Hq in Hr. cbn [sum_list_with length] in *. lia.
Qed.

Lemma Answers_total s : exists events err, Answers s events err.
Proof.
  remember (potential s) as n eqn:Hn. revert s Hn. induction n as [n IH] using lt_wf_ind. intros s ->.
  destruct (einoRecv range s) as [[event| |err] s'] eqn:Hr.
  - apply recvLoop_potential in Hr as Hp; [|done].
    destruct (IH (potential s') ltac:(lia) s' eq_refl) as (events & err & Ha). exists (event :: events), err.
    by eapply AnswersEvent.
  - exists [], None. by eapply AnswersEnd.
  - exists [], (Some err). by eapply AnswersFail.
Qed.

Lemma Answers_length s events err : Answers s events err -> (length events <= potential s)%nat.
Proof.
  induction 1 as [| |s s' event events err Hr _ IH]; [cbn; lia..|]. apply recvLoop_potential in Hr; [|done]. cbn. lia.
Qed.

Lemma answers_Answers n s events err : Answers s events err -> (length events < n)%nat -> answers range n s = (events, err).
Proof.
  intros Ha. revert n. induction Ha as [s s' Hr|s s' err Hr|s s' event events err Hr _ IH];
    intros [|n] Hn; try (cbn in Hn; lia); cbn [answers]; rewrite Hr; [done..|]. rewrite IH; [done|]. cbn in Hn. lia.
Qed.

Lemma sourceStream_Answers s events err : Answers s events err -> sourceStream range s = sourceOf events err 0.
Proof.
  intros Ha. unfold sourceStream. rewrite (answers_Answers _ _ _ _ Ha); [done|].
  apply Answers_length in Ha. unfold answersFuel. fold (potential s). lia.
Qed.

(** A queue is delivered first; a chunk with no event is passed over. *)
Lemma Answers_queue s events err :
  Answers (dequeue [] s) events err -> Answers s (es_queue s ++ events) err.
Proof.
  destruct s as [reader queue calls order next usage closed]. cbn [es_queue dequeue].
  induction queue as [|e queue IH]; [done|]. intros Ha. cbn [app].
  apply (AnswersEvent _ (MkEinoStream reader queue calls order next usage closed)); [|by apply IH].
  unfold einoRecv. cbn. by destruct reader.
Qed.

Lemma Answers_chunk s chunk rest s' events err :
  es_queue s = [] -> es_closed s = false -> es_reader s = AnswerChunk chunk :: rest ->
  receiveChunk range chunk (withReader rest s) = (s', None) -> Answers s' events err -> Answers s events err.
Proof.
  intros Hq Hcl Hr Hc. destruct (receiveChunk_inv _ _ _ Hc) as (_ & _ & _ & _ & _ & Hrest & _).
  assert (einoRecv range s = einoRecv range s') as He.
  { unfold einoRecv. rewrite Hr, Hrest. cbn [recvLoop]. by rewrite Hq, Hcl, Hc. }
  inversion 1; subst; rewrite <- He in *; by econstructor.
Qed.

(** A chunk that fails ends the stream. *)
Lemma Answers_failure s chunk rest s' failure :
  es_queue s = [] -> es_closed s = false -> es_reader s = AnswerChunk chunk :: rest ->
  receiveChunk range chunk (withReader rest s) = (s', Some failure) -> Answers s [] (Some (SourceFailure failure)).
Proof.
  intros Hq Hcl Hr Hc. apply (AnswersFail _ s'). unfold einoRecv. rewrite Hr. cbn [recvLoop]. by rewrite Hq, Hcl, Hc.
Qed.
End stream.
Close Scope Z_scope.
