(* ===== verification/Worker.v ===== *)
(** * The worker process: internal/worker/worker.go

    One main goroutine that acquires the lease of a Run and reconciles it, a goroutine
    that reports the worker alive, and one per session that renews its lease.  They
    share two contexts, two channels of one error and the lease of the session; every
    access to one of these, and every call of the manager or the controller, is a step.
    What the worker prints is left out. *)
From S2P Require Import Prelude Sha256 GoLib Json Types Effect Store Lease Controller.

(** ** Configuration *)

Record WorkerConfig : Type := MkWorkerConfig {
  wc_WorkerID : string;
  wc_RunID : string;
  wc_LeaseTTL : Z;
  wc_HeartbeatInterval : Z;
  wc_PollInterval : Z
}.

Definition configInvalid (c : WorkerConfig) : bool :=
  bool_decide (wc_WorkerID c = "" \/ wc_RunID c = "") || (wc_LeaseTTL c <=? 0)%Z ||
  (wc_HeartbeatInterval c <=? 0)%Z || (wc_LeaseTTL c <=? wc_HeartbeatInterval c)%Z.

(** ** State *)

Definition contextCanceled : error := Sentinel ContextCanceled.

(** A goroutine that works on a ticker: [LoopSent] is between sending its error and
    cancelling the context. *)
Inductive Loop : Type := LoopTicking | LoopSent | LoopEnded.

(** A session: the shared lease, the channel of renewal errors, the error of its context
    and the goroutine that renews. *)
Record Session : Type := MkSession {
  ss_current : Lease;
  ss_errors : option error;
  ss_err : option error;
  ss_renewal : Loop
}.

(** Where the main goroutine is: at the top of the loop of [Run], behind a call, or
    waiting; and likewise within [runLeaseSession]. *)
Inductive Phase : Type :=
  | Starting
  | Acquiring
  | AcquireDone (r : result AcquireResult)
  | LeaseWait
  | Reconciling
  | ReconcileDone (presented : Lease) (r : result ReconcileResult)
  | PollWait
  | SessionDone (r : option error)
  | Returned (r : option error).

(** A worker process; the session of the main goroutine is the first one, the others
    are over but their goroutines may still run. *)
Record Process : Type := MkProcess {
  pr_phase : Phase;
  pr_err : option error;
  pr_errors : option error;
  pr_heartbeat : Loop;
  pr_sessions : list Session
}.

Definition startProcess : Process := MkProcess Starting None None LoopEnded [].

Definition orElse (o : option error) (e : error) : option error := match o with Some _ => o | None => Some e end.

(** ** Cancellation: a context keeps its first error, and passes it to its children *)

Definition cancelSession (e : error) (s : Session) : Session :=
  MkSession (ss_current s) (ss_errors s) (orElse (ss_err s) e) (ss_renewal s).

Definition cancelWorker (e : error) (p : Process) : Process :=
  MkProcess (pr_phase p) (orElse (pr_err p) e) (pr_errors p) (pr_heartbeat p) (map (cancelSession e) (pr_sessions p)).

Definition goto (phase : Phase) (p : Process) : Process :=
  MkProcess phase (pr_err p) (pr_errors p) (pr_heartbeat p) (pr_sessions p).

(** [return err] in [Run]: the deferred [cancelWorker]. *)
Definition returning (r : option error) (p : Process) : Process := cancelWorker contextCanceled (goto (Returned r) p).

(** Receiving the error of a channel empties it. *)
Definition drainHeartbeat (p : Process) : Process :=
  MkProcess (pr_phase p) (pr_err p) None (pr_heartbeat p) (pr_sessions p).
Definition drainRenewal (s : Session) : Session := MkSession (ss_current s) None (ss_err s) (ss_renewal s).

Definition updateSession (f : Session -> Session) (p : Process) : Process :=
  match pr_sessions p with
  | s :: rest => MkProcess (pr_phase p) (pr_err p) (pr_errors p) (pr_heartbeat p) (f s :: rest)
  | [] => p
  end.

(** [return err] in [runLeaseSession]: the deferred [cancel]. *)
Definition endSession (r : option error) (p : Process) : Process :=
  updateSession (cancelSession contextCanceled) (goto (SessionDone r) p).

(** The error of [Run] when its context is over: that of the heartbeat if there is one. *)
Definition heartbeatOr (r : option error) (p : Process) : Process :=
  match pr_errors p with Some e => returning (Some e) (drainHeartbeat p) | None => returning r p end.

Definition converged (res : ReconcileResult) : bool :=
  let observed := run_ObservedState (st_Run (rec_State res)) in
  Terminal observed || bool_decide (observed = StatusWaitingApproval).

Section worker.
Context {W : Type} `{Manager W}.

(** [Controller.ReconcileLeased] *)
Variable reconcile : Context -> string -> Lease -> M W ReconcileResult.
Variable config : WorkerConfig.

(** ** The main goroutine *)

Definition afterAcquire (r : result AcquireResult) (p : Process) : Process :=
  match r with
  | Err e =>
      if errors_Is e ErrLeaseHeld then goto LeaseWait p
      else match pr_err p with Some _ => heartbeatOr (Some e) p | None => returning (Some (Wrap e)) p end
  | Ok acquired =>
      match pr_err p with
      | Some _ => heartbeatOr None p
      | None =>
          MkProcess Reconciling (pr_err p) (pr_errors p) (pr_heartbeat p)
            (MkSession (aq_Lease acquired) None (pr_err p) LoopTicking :: pr_sessions p)
      end
  end.

Definition afterReconcile (s : Session) (r : result ReconcileResult) (p : Process) : Process :=
  match r with
  | Err e =>
      match ss_err s, ss_errors s with
      | Some _, Some renewal => endSession (Some renewal) (updateSession drainRenewal p)
      | Some canceled, None => endSession (Some canceled) p
      | None, _ => endSession (Some (Wrap e)) p
      end
  | Ok res =>
      if converged res then endSession None p
      else if decide (cmd_Type (rec_Command res) = CommandNoop) then goto PollWait p
      else goto Reconciling p
  end.

Definition afterSession (r : option error) (p : Process) : Process :=
  match r with
  | None => returning None p
  | Some e =>
      match pr_err p with
      | Some canceled => heartbeatOr (Some canceled) p
      | None => if errors_Is e ErrLeaseExpired || errors_Is e ErrStaleLease then goto Acquiring p
                else returning (Some e) p
      end
  end.

(** One step; [timer] tells whether the timer of [waitContext] is chosen, and a wait
    without it blocks until the context is done. *)
Definition mainStep (timer : bool) (p : Process) (w : W) : Process * W :=
  match pr_phase p, pr_sessions p with
  | Starting, _ =>
      if configInvalid config then (returning (Some (Plain "worker configuration")) p, w)
      else
        let '(r, w') := Register (MkContext (pr_err p)) (wc_WorkerID config) w in
        match r with
        | Err e => (returning (Some (Wrap e)) p, w')
        | Ok _ => (MkProcess Acquiring (pr_err p) (pr_errors p) LoopTicking (pr_sessions p), w')
        end
  | Acquiring, _ =>
      match pr_errors p with
      | Some e => (returning (Some e) (drainHeartbeat p), w)
      | None =>
          let '(r, w') := Acquire (MkContext (pr_err p)) (wc_RunID config) (wc_WorkerID config) (wc_LeaseTTL config) w in
          (goto (AcquireDone r) p, w')
      end
  | AcquireDone r, _ => (afterAcquire r p, w)
  | LeaseWait, _ =>
      if timer then (goto Acquiring p, w)
      else match pr_err p with Some e => (heartbeatOr (Some e) p, w) | None => (p, w) end
  | Reconciling, s :: _ =>
      match ss_errors s with
      | Some e => (endSession (Some e) (updateSession drainRenewal p), w)
      | None =>
          let '(r, w') := reconcile (MkContext (ss_err s)) (wc_RunID config) (ss_current s) w in
          (goto (ReconcileDone (ss_current s) r) p, w')
      end
  | ReconcileDone _ r, s :: _ => (afterReconcile s r p, w)
  | PollWait, s :: _ =>
      if timer then (goto Reconciling p, w)
      else match ss_err s with Some e => (endSession (Some e) p, w) | None => (p, w) end
  | SessionDone r, _ => (afterSession r p, w)
  | _, _ => (p, w)
  end.

(** ** The other goroutines *)

(** [workerHeartbeatLoop]: a tick, or the step after sending, or seeing the context done. *)
Definition setHeartbeat (l : Loop) (errors : option error) (p : Process) : Process :=
  MkProcess (pr_phase p) (pr_err p) errors l (pr_sessions p).

Definition beat (p : Process) (w : W) : Process * W :=
  match pr_heartbeat p with
  | LoopTicking =>
      let '(r, w') := Heartbeat (MkContext (pr_err p)) (wc_WorkerID config) w in
      match r with
      | Ok _ => (p, w')
      | Err e => (setHeartbeat LoopSent (orElse (pr_errors p) (Wrap e)) p, w')
      end
  | LoopSent => (cancelWorker contextCanceled (setHeartbeat LoopEnded (pr_errors p) p), w)
  | LoopEnded => (p, w)
  end.

Definition stopBeating (p : Process) : Process :=
  match pr_err p, pr_heartbeat p with Some _, LoopTicking => setHeartbeat LoopEnded (pr_errors p) p | _, _ => p end.

(** [leaseRenewalLoop] of one session *)
Definition renew (s : Session) (w : W) : Session * W :=
  match ss_renewal s with
  | LoopTicking =>
      let '(r, w') := Renew (MkContext (ss_err s)) (ss_current s) (wc_LeaseTTL config) w in
      match r with
      | Ok renewed => (MkSession renewed (ss_errors s) (ss_err s) LoopTicking, w')
      | Err e => (MkSession (ss_current s) (orElse (ss_errors s) e) (ss_err s) LoopSent, w')
      end
  | LoopSent => (cancelSession contextCanceled (MkSession (ss_current s) (ss_errors s) (ss_err s) LoopEnded), w)
  | LoopEnded => (s, w)
  end.

Definition stopRenewing (s : Session) : Session :=
  match ss_err s, ss_renewal s with
  | Some _, LoopTicking => MkSession (ss_current s) (ss_errors s) (ss_err s) LoopEnded
  | _, _ => s
  end.

Definition withSessions (sessions : list Session) (p : Process) : Process :=
  MkProcess (pr_phase p) (pr_err p) (pr_errors p) (pr_heartbeat p) sessions.

(** ** Schedules *)

(** A step of the process: of its main goroutine, of its heartbeat, of the renewal of a
    session, or the cancellation of the context it was given. *)
Inductive Action : Type :=
  | Main (timer : bool)
  | Beat
  | StopBeating
  | RenewLease (session : nat)
  | StopRenewing (session : nat)
  | CancelContext (e : error).

Definition act (a : Action) (p : Process) (w : W) : Process * W :=
  match a with
  | Main timer => mainStep timer p w
  | Beat => beat p w
  | StopBeating => (stopBeating p, w)
  | RenewLease i =>
      match pr_sessions p !! i with
      | Some s => let '(s', w') := renew s w in (withSessions (<[i := s']> (pr_sessions p)) p, w')
      | None => (p, w)
      end
  | StopRenewing i => (withSessions (alter stopRenewing i (pr_sessions p)) p, w)
  | CancelContext e => (cancelWorker e p, w)
  end.

Fixpoint schedule (actions : list Action) (p : Process) (w : W) : Process * W :=
  match actions with
  | [] => (p, w)
  | a :: rest => let '(p', w') := act a p w in schedule rest p' w'
  end.
End worker.
