(* ===== verification/WorkerTheorems.v ===== *)
(** * What a worker guarantees

    Whatever the schedule of its goroutines: what it returns is what its calls answered,
    and a cancelled worker stops. *)
From S2P Require Import Prelude Sha256 GoLib Json Types Effect Store Lease Controller Worker.

Section worker.
Context {W : Type} `{Manager W}.
Variable reconcile : Context -> string -> Lease -> M W ReconcileResult.
Variable config : WorkerConfig.

Abbreviation act := (act reconcile config).
Abbreviation schedule := (schedule reconcile config).
Abbreviation mainStep := (mainStep reconcile config).

Lemma schedule_app before after p w :
  schedule (before ++ after) p w = let '(p', w') := schedule before p w in schedule after p' w'.
Proof.
  revert p w. induction before as [|a before IH]; intros p w; [done|]. cbn [app Worker.schedule].
  by destruct (act a p w).
Qed.

Lemma schedule_snoc actions a p w :
  schedule (actions ++ [a]) p w = let '(p', w') := schedule actions p w in act a p' w'.
Proof. rewrite schedule_app. destruct (schedule actions p w) as [p' w']. cbn. by destruct (act a p' w'). Qed.

Definition isMain (a : Action) : bool := match a with Main _ => true | _ => false end.

(** The goroutines beside the main one leave it where it is. *)
Lemma act_phase a p w : isMain a = false -> pr_phase (fst (act a p w)) = pr_phase p.
Proof.
  destruct a as [timer| | |i|i|e]; intros Ha; cbn [Worker.act isMain] in *; try done.
  - unfold beat. destruct (pr_heartbeat p); [|done..]. by destruct (Heartbeat _ _ _) as [[|] ?].
  - unfold stopBeating. by destruct (pr_err p), (pr_heartbeat p).
  - destruct (pr_sessions p !! i) as [s|]; [|done]. by destruct (renew config s w).
Qed.

(** ** What a return without error means *)

(** A reconcile just answered that the Run has converged. *)
Definition sawConvergence (p : Process) : Prop :=
  exists presented res, pr_phase p = ReconcileDone presented (Ok res) /\ converged res = true.

(** An acquisition just succeeded, but the context is over. *)
Definition cancelledAcquired (p : Process) : Prop :=
  exists acquired e, pr_phase p = AcquireDone (Ok acquired) /\ pr_err p = Some e.

Definition succeeding (phase : Phase) : bool :=
  match phase with SessionDone None | Returned None => true | _ => false end.

Lemma phase_returning r p : pr_phase (returning r p) = Returned r.
Proof. done. Qed.

Lemma phase_heartbeatOr r p : pr_phase (heartbeatOr r p) = Returned (match pr_errors p with Some e => Some e | None => r end).
Proof. unfold heartbeatOr. by destruct (pr_errors p). Qed.

Lemma phase_endSession r p : pr_phase (endSession r p) = SessionDone r.
Proof. unfold endSession, updateSession. by destruct (pr_sessions _). Qed.

(** The only ways to begin to succeed. *)
Lemma mainStep_succeeding timer p w :
  succeeding (pr_phase (fst (mainStep timer p w))) = true ->
  succeeding (pr_phase p) = true \/ sawConvergence p \/ cancelledAcquired p.
Proof.
  unfold Worker.mainStep. destruct (pr_phase p) as [| |r| | |presented r| |r|r] eqn:Hp.
  - destruct (configInvalid config); [done|]. by destruct (Register _ _ _) as [[|] ?].
  - destruct (pr_errors p); [done|]. by destruct (Acquire _ _ _ _ _).
  - unfold afterAcquire. cbn [fst]. destruct r as [acquired|e].
    + destruct (pr_err p) as [e|] eqn:He; [|done]. intros _. right. right. by exists acquired, e.
    + destruct (errors_Is e ErrLeaseHeld); [done|]. destruct (pr_err p); [|done].
      rewrite phase_heartbeatOr. by destruct (pr_errors p).
  - destruct timer; [done|]. destruct (pr_err p); [|cbn; rewrite Hp; by left]. cbn [fst].
    rewrite phase_heartbeatOr. by destruct (pr_errors p).
  - destruct (pr_sessions p) as [|s rest]; [cbn; rewrite Hp; by left|].
    destruct (ss_errors s); [cbn [fst]; by rewrite phase_endSession|]. by destruct (reconcile _ _ _ _).
  - destruct (pr_sessions p) as [|s rest]; [cbn; rewrite Hp; by left|]. unfold afterReconcile. cbn [fst]. destruct r as [res|e].
    + destruct (converged res) eqn:Hc; [intros _; right; left; by exists presented, res|]. by case_decide.
    + destruct (ss_err s), (ss_errors s); by rewrite phase_endSession.
  - destruct (pr_sessions p) as [|s rest]; [cbn; rewrite Hp; by left|]. destruct timer; [done|].
    destruct (ss_err s); cbn [fst]; [by rewrite phase_endSession|rewrite Hp; by left].
  - unfold afterSession. cbn [fst]. destruct r as [e|]; [|by left].
    destruct (pr_err p); [rewrite phase_heartbeatOr; by destruct (pr_errors p)|]. by destruct (_ || _).
  - cbn. rewrite Hp. by left.
Qed.

(** Some state of a schedule. *)
Definition passed (actions : list Action) (p : Process) (w : W) (Q : Process -> Prop) : Prop :=
  exists before after p' w', actions = before ++ after /\ schedule before p w = (p', w') /\ Q p'.

(** C34: a worker reports the truth: however its goroutines are scheduled and whatever
    the manager and the controller answer, [Run] returns no error only after a call of
    [ReconcileLeased] answered a terminal state or one that waits for approval - or in
    one other case, which is a defect: its context was over when an acquisition had
    just succeeded. *)
Theorem worker_reports_truth actions w p' w' :
  schedule actions startProcess w = (p', w') -> pr_phase p' = Returned None ->
  passed actions startProcess w (fun p => sawConvergence p \/ cancelledAcquired p).
Proof.
  intros Hs Hr. assert (succeeding (pr_phase p') = true) as Hsucc by (by rewrite Hr). clear Hr.
  revert p' w' Hs Hsucc. induction actions as [|a actions IH] using rev_ind; intros p' w' Hs Hsucc.
  { cbn in Hs. injection Hs as <- <-. done. }
  rewrite schedule_snoc in Hs. destruct (schedule actions startProcess w) as [p1 w1] eqn:H1.
  assert (passed actions startProcess w (fun p => sawConvergence p \/ cancelledAcquired p) ->
    passed (actions ++ [a]) startProcess w (fun p => sawConvergence p \/ cancelledAcquired p)) as Hmono.
  { intros (before & after & p & w2 & -> & Hb & HQ). exists before, (after ++ [a]), p, w2. by rewrite (assoc_L (++)). }
  destruct (isMain a) eqn:Ha.
  - destruct a as [timer| | | | |]; try done. pose proof (mainStep_succeeding timer p1 w1) as Hm.
    cbn [Worker.act] in Hs. rewrite Hs in Hm. destruct (Hm Hsucc) as [Hp|Hq]; [by apply Hmono, (IH p1 w1)|].
    exists actions, [Main timer], p1, w1. done.
  - pose proof (act_phase a p1 w1 Ha) as Hp. rewrite Hs in Hp. cbn in Hp. apply Hmono, (IH p1 w1); [done|]. by rewrite <- Hp.
Qed.

(** ** Cancellation *)

(** A cancelled worker has cancelled its sessions, and a main goroutine in a session has
    one. *)
Record cancels (p : Process) : Prop := {
  cn_sessions : is_Some (pr_err p) -> Forall (fun s => is_Some (ss_err s)) (pr_sessions p);
  cn_current : match pr_phase p with Reconciling | ReconcileDone _ _ | PollWait => pr_sessions p <> [] | _ => True end
}.

Lemma is_Some_orElse o e : is_Some (orElse o e).
Proof. destruct o; by eexists. Qed.

Lemma cancelled_sessions e sessions : Forall (fun s => is_Some (ss_err s)) (map (cancelSession e) sessions).
Proof. apply Forall_forall. intros s (s0 & -> & _)%list_elem_of_fmap. apply is_Some_orElse. Qed.

(** What no step undoes. *)
Definition keeps_err (f : Session -> Session) : Prop := forall s, is_Some (ss_err s) -> is_Some (ss_err (f s)).

Lemma keeps_cancelSession e : keeps_err (cancelSession e).
Proof. intros s _. apply is_Some_orElse. Qed.
Lemma keeps_drainRenewal : keeps_err drainRenewal.
Proof. by intros s Hs. Qed.
Lemma keeps_stopRenewing : keeps_err stopRenewing.
Proof. intros s Hs. unfold stopRenewing. by destruct (ss_err s) eqn:E, (ss_renewal s); cbn; rewrite ?E. Qed.
Lemma keeps_renew w : keeps_err (fun s => fst (renew config s w)).
Proof.
  intros s Hs. unfold renew. destruct (ss_renewal s); [|apply is_Some_orElse|done].
  by destruct (Renew _ _ _ _) as [[|] ?].
Qed.

Lemma cancels_same p phase errors heartbeat :
  cancels p -> (match phase with Reconciling | ReconcileDone _ _ | PollWait => pr_sessions p <> [] | _ => True end) ->
  cancels (MkProcess phase (pr_err p) errors heartbeat (pr_sessions p)).
Proof. intros [Hs _] Hc. by split. Qed.

Lemma cancels_cancel e p : cancels p -> cancels (cancelWorker e p).
Proof.
  intros [Hs Hc]. split; cbn; [intros _; apply cancelled_sessions|].
  destruct (pr_phase p); try done; by intros ?%map_eq_nil.
Qed.

Lemma cancels_returning r p : cancels p -> cancels (returning r p).
Proof. intros Hp. apply cancels_cancel. by apply (cancels_same p). Qed.

Lemma cancels_heartbeatOr r p : cancels p -> cancels (heartbeatOr r p).
Proof.
  intros Hp. unfold heartbeatOr. destruct (pr_errors p); apply cancels_returning; [|done].
  by apply (cancels_same p (pr_phase p)); [|apply Hp].
Qed.

Lemma cancels_update f p : keeps_err f -> cancels p -> cancels (updateSession f p).
Proof.
  intros Hf [Hs Hc]. unfold updateSession. destruct (pr_sessions p) as [|s rest] eqn:E; [by split; rewrite ?E|].
  split; cbn; [|by destruct (pr_phase p)]. intros Hcan. specialize (Hs Hcan). apply Forall_cons in Hs as [H1 H2].
  apply List.Forall_cons; [by apply Hf|done].
Qed.

Lemma cancels_endSession r p : cancels p -> cancels (endSession r p).
Proof. intros Hp. apply cancels_update; [apply keeps_cancelSession|]. by apply (cancels_same p). Qed.

#[local] Hint Resolve cancels_returning cancels_heartbeatOr cancels_endSession cancels_cancel cancels_update
  keeps_drainRenewal keeps_cancelSession : core.

Lemma cancels_goto phase p :
  cancels p -> (match phase with Reconciling | ReconcileDone _ _ | PollWait => pr_sessions p <> [] | _ => True end) ->
  cancels (goto phase p).
Proof. apply cancels_same. Qed.

Lemma cancels_afterAcquire r p : cancels p -> cancels (afterAcquire r p).
Proof.
  intros Hp. unfold afterAcquire. destruct r as [acquired|e].
  - destruct (pr_err p) eqn:He; [auto|]. split; cbn; [|done]. by intros [].
  - destruct (errors_Is e ErrLeaseHeld); [by apply cancels_goto|]. destruct (pr_err p); auto.
Qed.

Lemma cancels_main timer p w : cancels p -> cancels (fst (mainStep timer p w)).
Proof.
  intros Hp. pose proof (cn_current p Hp) as Hc. unfold Worker.mainStep.
  destruct (pr_phase p) as [| |r| | |presented r| |r|r] eqn:Hph.
  - destruct (configInvalid config); [cbn; auto|]. destruct (Register _ _ _) as [[|] ?]; cbn; [|auto].
    by apply (cancels_same p).
  - destruct (pr_errors p); [cbn; apply cancels_returning; by apply (cancels_same p); [|rewrite Hph]|].
    destruct (Acquire _ _ _ _ _). by apply cancels_goto.
  - by apply cancels_afterAcquire.
  - destruct timer; [by apply cancels_goto|]. destruct (pr_err p) eqn:He; cbn; auto.
  - destruct (pr_sessions p) as [|s rest] eqn:E; [done|]. destruct (ss_errors s); [cbn; auto|].
    destruct (reconcile _ _ _ _). apply cancels_goto; [done|by rewrite E].
  - destruct (pr_sessions p) as [|s rest] eqn:E; [done|]. cbn [fst]. unfold afterReconcile. destruct r as [res|e].
    + destruct (converged res); [auto|]. case_decide; apply cancels_goto; by rewrite ?E.
    + destruct (ss_err s), (ss_errors s); auto.
  - destruct (pr_sessions p) as [|s rest] eqn:E; [done|]. destruct timer; [apply cancels_goto; by rewrite ?E|].
    destruct (ss_err s); cbn; auto.
  - cbn [fst]. unfold afterSession. destruct r as [e|]; [|auto]. destruct (pr_err p) eqn:He; [auto|].
    destruct (_ || _); [by apply cancels_goto|auto].
  - done.
Qed.

Lemma act_cancels a p w : cancels p -> cancels (fst (act a p w)).
Proof.
  intros Hp. destruct a as [timer| | |i|i|e]; cbn [Worker.act]; [by apply cancels_main| | | | |by apply cancels_cancel].
  - unfold beat. destruct (pr_heartbeat p); [|apply cancels_cancel|done]; [destruct (Heartbeat _ _ _) as [[|] ?]; [done|]|];
      apply (cancels_same p); [done|apply Hp|done|apply Hp].
  - unfold stopBeating. destruct (pr_err p) eqn:He, (pr_heartbeat p); try done. unfold setHeartbeat. apply (cancels_same p); [done|apply Hp].
  - destruct (pr_sessions p !! i) as [s|] eqn:Hi; [|done]. destruct (renew config s w) as [s' w'] eqn:Hr. cbn [fst].
    split; cbn.
    + intros Hc. pose proof (cn_sessions p Hp Hc) as Hs. apply Forall_insert; [done|].
      pose proof (keeps_renew w s) as Hk. cbn beta in Hk. rewrite Hr in Hk. apply Hk. by apply (Forall_lookup_1 _ _ i s Hs).
    + pose proof (cn_current p Hp). destruct (pr_phase p); try done;
        intros Hn%(f_equal length); rewrite length_insert in Hn; by destruct (pr_sessions p).
  - split; cbn.
    + intros Hc. pose proof (cn_sessions p Hp Hc) as Hs. apply Forall_alter; [done|]. intros s Hi _.
      apply keeps_stopRenewing. by apply (Forall_lookup_1 _ _ i s Hs).
    + pose proof (cn_current p Hp). destruct (pr_phase p); try done;
        intros Hn%(f_equal length); rewrite length_alter in Hn; by destruct (pr_sessions p).
Qed.

Lemma schedule_cancels actions p w : cancels p -> cancels (fst (schedule actions p w)).
Proof.
  revert p w. induction actions as [|a actions IH]; intros p w Hp; [done|]. cbn [Worker.schedule].
  pose proof (act_cancels a p w Hp) as Ha. destruct (act a p w) as [p' w']. by apply IH.
Qed.

(** Being cancelled lasts. *)
Lemma act_cancelled a p w : is_Some (pr_err p) -> is_Some (pr_err (fst (act a p w))).
Proof.
  intros Hp. destruct a as [timer| | |i|i|e]; cbn [Worker.act].
  - unfold Worker.mainStep, afterAcquire, afterReconcile, afterSession, heartbeatOr, returning, endSession, updateSession.
    repeat case_match; cbn in *; try done; try apply is_Some_orElse; simplify_eq; try done; congruence.
  - unfold beat. destruct (pr_heartbeat p); [by destruct (Heartbeat _ _ _) as [[|] ?]|apply is_Some_orElse|done].
  - unfold stopBeating. by destruct (pr_err p) eqn:He, (pr_heartbeat p); cbn; rewrite ?He.
  - destruct (pr_sessions p !! i) as [s|]; [|done]. by destruct (renew config s w).
  - done.
  - apply is_Some_orElse.
Qed.

(** The manager and the controller refuse a context that is over - documented of the
    database driver, which they call first - and not by saying that the lease is held. *)
Record ObeysContext : Prop := {
  ob_Register : forall ctx id w, is_Some (ctx_Err ctx) -> is_ok (fst (Register ctx id w)) = false;
  ob_Acquire : forall ctx runID id ttl w, is_Some (ctx_Err ctx) ->
    exists e w', Acquire ctx runID id ttl w = (Err e, w') /\ errors_Is e ErrLeaseHeld = false;
  ob_reconcile : forall ctx runID lease w, is_Some (ctx_Err ctx) -> is_ok (fst (reconcile ctx runID lease w)) = false
}.

(** The steps a cancelled main goroutine has left, at most. *)
Definition stepsLeft (phase : Phase) : nat :=
  match phase with
  | Returned _ => 0
  | Starting | SessionDone _ => 1
  | AcquireDone r => if isErr r ErrLeaseHeld then 4 else 1
  | Acquiring | ReconcileDone _ (Err _) => 2
  | LeaseWait | Reconciling => 3
  | PollWait => 4
  | ReconcileDone _ (Ok _) => 5
  end.

Lemma stepsLeft_main timer p w :
  ObeysContext -> cancels p -> is_Some (pr_err p) ->
  stepsLeft (pr_phase p) <> 0 -> stepsLeft (pr_phase (fst (mainStep timer p w))) < stepsLeft (pr_phase p).
Proof.
  intros [Hreg Hacq Hrec] [Hs Hc] Hcan. specialize (Hs Hcan). unfold Worker.mainStep.
  destruct (pr_phase p) as [| |r| | |presented r| |r|r] eqn:Hp; intros Hne; cbn [stepsLeft] in *.
  - destruct (configInvalid config); [cbn; lia|]. specialize (Hreg (MkContext (pr_err p)) (wc_WorkerID config) w Hcan).
    destruct (Register _ _ _) as [[|] ?]; [done|]. cbn. lia.
  - destruct (pr_errors p); [cbn; lia|].
    destruct (Hacq (MkContext (pr_err p)) (wc_RunID config) (wc_WorkerID config) (wc_LeaseTTL config) w Hcan) as (e & w' & -> & He).
    cbn. rewrite He. lia.
  - unfold afterAcquire. cbn [fst]. destruct Hcan as [c ->]. destruct r as [a|e]; cbn [isErr].
    + rewrite phase_heartbeatOr. cbn. lia.
    + destruct (errors_Is e ErrLeaseHeld); [cbn; lia|]. rewrite phase_heartbeatOr. cbn. lia.
  - destruct timer; [cbn; lia|]. destruct Hcan as [c ->]. cbn [fst]. rewrite phase_heartbeatOr. cbn. lia.
  - destruct (pr_sessions p) as [|s rest]; [done|]. apply Forall_cons in Hs as [Hs _].
    destruct (ss_errors s); [cbn [fst]; rewrite phase_endSession; cbn; lia|].
    specialize (Hrec (MkContext (ss_err s)) (wc_RunID config) (ss_current s) w Hs).
    destruct (reconcile _ _ _ _) as [[|] ?]; [done|]. cbn. lia.
  - destruct (pr_sessions p) as [|s rest]; [done|]. cbn [fst]. unfold afterReconcile. destruct r as [res|e].
    + destruct (converged res); [rewrite phase_endSession; cbn; lia|]. case_decide; cbn; lia.
    + destruct (ss_err s), (ss_errors s); rewrite phase_endSession; cbn; lia.
  - destruct (pr_sessions p) as [|s rest]; [done|]. apply Forall_cons in Hs as [[c Hs] _]. destruct timer; [cbn; lia|].
    rewrite Hs. cbn [fst]. rewrite phase_endSession. cbn. lia.
  - cbn [fst]. unfold afterSession. destruct Hcan as [c ->]. destruct r; [rewrite phase_heartbeatOr|]; cbn; lia.
  - done.
Qed.

Lemma stepsLeft_returned timer p w :
  stepsLeft (pr_phase p) = 0 -> pr_phase (fst (mainStep timer p w)) = pr_phase p.
Proof.
  unfold Worker.mainStep. destruct (pr_phase p) as [| |[|]| | |presented []| |r|r] eqn:Hp; cbn [stepsLeft isErr]; try done.
  by destruct (errors_Is _ _).
Qed.

Definition mains (actions : list Action) : nat := length (filter (fun a => isMain a = true) actions).

Lemma cancelled_schedule actions p w :
  ObeysContext -> cancels p -> is_Some (pr_err p) ->
  stepsLeft (pr_phase (fst (schedule actions p w))) <= stepsLeft (pr_phase p) - mains actions.
Proof.
  intros Ho. revert p w. induction actions as [|a actions IH]; intros p w Hp Hc; [cbn; lia|]. cbn [Worker.schedule].
  pose proof (act_cancels a p w Hp) as Hp'. pose proof (act_cancelled a p w Hc) as Hc'.
  pose proof (act_phase a p w) as Hphase. unfold mains in *. rewrite filter_cons.
  assert (stepsLeft (pr_phase (fst (act a p w))) <= stepsLeft (pr_phase p) - (if decide (isMain a = true) then 1 else 0)) as Hstep.
  { case_decide as Ha; [|rewrite Hphase by (by apply not_true_is_false); lia]. destruct a as [timer| | | | |]; try done.
    destruct (decide (stepsLeft (pr_phase p) = 0)) as [H0|H0].
    - change (act (Main timer) p w) with (mainStep timer p w). rewrite stepsLeft_returned by done. lia.
    - pose proof (stepsLeft_main timer p w Ho Hp Hc H0). change (act (Main timer) p w) with (mainStep timer p w). lia. }
  destruct (act a p w) as [p' w']. cbn [fst] in *. specialize (IH p' w' Hp' Hc'). case_decide; cbn [length]; lia.
Qed.

(** C33: cancellation stops the worker: once its context is over - cancelled from
    outside, or by the heartbeat that failed - five more steps of its main goroutine are
    enough for [Run] to have returned, wherever it was, whatever its other goroutines do
    meanwhile and whichever of a timer and the context a wait chooses. *)
Theorem cancellation_stops_worker before after w p w1 :
  ObeysContext -> schedule before startProcess w = (p, w1) -> is_Some (pr_err p) -> 5 <= mains after ->
  exists r, pr_phase (fst (schedule after p w1)) = Returned r.
Proof.
  intros Ho Hb Hc Hn. assert (cancels startProcess) as H0 by (by split; [intros []|]).
  pose proof (schedule_cancels before startProcess w H0) as Hp. rewrite Hb in Hp. cbn [fst] in Hp.
  pose proof (cancelled_schedule after p w1 Ho Hp Hc) as Hs.
  assert (stepsLeft (pr_phase p) <= 5) as Hmax.
  { destruct (pr_phase p) as [| |[|]| | |presented []| |r|r]; cbn; try lia. by destruct (errors_Is _ _); cbn; lia. }
  assert (stepsLeft (pr_phase (fst (schedule after p w1))) = 0) as Hz by lia. revert Hz.
  destruct (pr_phase (fst (schedule after p w1))) as [| |[|]| | |presented []| |r|r]; cbn; try done; [|by eexists].
  by destruct (errors_Is _ _).
Qed.
End worker.
