(* ===== verification/WorkerSystem.v ===== *)
(** * Workers over PostgreSQL

    Any number of worker processes, on one database, with whatever else uses it: their
    steps are operations of the managed system, and no two of them hold the same grant. *)
From stdpp Require Import relations.
From S2P Require Import Prelude Sha256 GoLib Json Types Decide Reducer Receipt Effect.
From S2P Require Import Store Database Artifact PostgresStore PostgresFacts Lease.
From S2P Require Import System SystemTheorems Reasoner Controller Managed Operations ManagedTheorems Worker WorkerTheorems.

Definition grantOf (l : Lease) : Grant := (ls_FencingToken l, ls_WorkerID l).

Section leases.
Context `{Postgres}.

(** The lease an acquisition or a renewal returns is the one in the table. *)
Lemma acquired_current ctx runID workerID ttl w r w' :
  acquireLease ctx runID workerID ttl w = (Ok r, w') ->
  ls_RunID (aq_Lease r) = runID /\ ls_WorkerID (aq_Lease r) = workerID /\
  grantOfRow <$> db_leases (w_db w') !! runID = Some (grantOf (aq_Lease r)).
Proof.
  intros [row w1 _ _ Hw _ _ _ Hdb|row w1 Hl Hw [Hdb _ _] _|old row w1 _ _ _ Hw _ _ _ Hdb]%acquireLease_Ok;
    (split; [done|]; split; [done|]); rewrite Hdb; cbn; rewrite ?lookup_insert_eq; [done|by rewrite Hl|done].
Qed.

Lemma renewed_same ctx presented ttl w l w' :
  renewLease ctx presented ttl w = (Ok l, w') -> ls_RunID l = ls_RunID presented /\ grantOf l = grantOf presented.
Proof.
  intros H0. pose proof H0 as (HH & _)%renewLease_Ok. destruct HH as (row & n & Hrow & Hw & Ht & _).
  unfold renewLease in H0. apply M_bind_Ok in H0 as (u & w1 & [_ ->]%lift_Ok & H0). case_decide; [done|].
  apply transaction_Ok in H0 as (b & w2 & H0 & ->).
  apply M_bind_Ok in H0 as (now & w3 & (_ & -> & ->)%validateLeaseInTx_Ok & H0). unfold loadLease in H0. db_inv.
  cbn [w_db] in H0. match type of H0 with (match ?o with _ => _ end _) = _ => destruct o as [row'|] eqn:Hr end; db_inv.
  cbn in Hr. rewrite lookup_alter_eq, Hrow in Hr. cbn in Hr. injection Hr as <-. cbn.
  split; [done|]. unfold grantOf. cbn. by rewrite Hw, Ht.
Qed.
End leases.

(** ** Registered workers *)

(** No operation forgets a worker. *)
Definition remembers (w w' : World) : Prop :=
  forall id, is_Some (db_workers (w_db w) !! id) -> is_Some (db_workers (w_db w') !! id).

#[export] Instance remembers_preorder : PreOrder remembers.
Proof. split; [by intros w id|]. intros w1 w2 w3 H1 H2 id Hi. by apply H2, H1. Qed.

Lemma remembers_same w w' : db_workers (w_db w') = db_workers (w_db w) -> remembers w w'.
Proof. intros E id. by rewrite E. Qed.

Lemma frame_remembers : subrelation frame remembers.
Proof. intros w w' [Hdb _ _]. apply remembers_same. by rewrite Hdb. Qed.

Section remembers.
Context `{Postgres} `{CredentialScanner}.

Ltac worker_steps :=
  repeat first [ apply keeps_bind; [apply _| |intros ?] | progress cbv zeta | case_decide | case_match
               | apply keeps_wrapM | by apply keeps_exec; intros ?; apply remembers_same ];
  try solve [apply keeps_readonly; [exact frame_remembers|eauto with readonly]].

Lemma workers_insert (ws : gmap string WorkerRow) id row k : is_Some (ws !! k) -> is_Some (<[id := row]> ws !! k).
Proof. intros Hk. destruct (decide (k = id)) as [->|Hne]; [rewrite lookup_insert_eq; by eexists|by rewrite lookup_insert_ne]. Qed.

Lemma registerWorker_remembers ctx id : keeps remembers (registerWorker ctx id).
Proof. unfold registerWorker. worker_steps. apply keeps_exec. intros x k. cbn. apply workers_insert. Qed.

Lemma heartbeatWorker_remembers ctx id : keeps remembers (heartbeatWorker ctx id).
Proof. unfold heartbeatWorker. worker_steps. apply keeps_exec. intros x k. cbn. apply workers_insert. Qed.

Lemma SaveCheckpoint_remembers ctx runID v : keeps remembers (SaveCheckpoint ctx runID v).
Proof.
  unfold SaveCheckpoint, loadPostgresEvents. case_decide; [by apply keeps_throw; apply _|].
  apply keeps_transaction; [intros w w' Hdb; apply remembers_same; by rewrite Hdb|]. worker_steps.
Qed.

Lemma Write_remembers store ctx input : keeps remembers (Write store ctx input).
Proof. unfold Write, insertArtifact, Get. worker_steps. all: intros w; by apply remembers_same. Qed.

Lemma appendPostgres_remembers ctx v event : keeps remembers (appendPostgres ctx v event).
Proof.
  intros w. destruct (appendPostgres ctx v event w) as [[r|err] w'] eqn:Ha; cbn [snd];
    [|apply appendPostgres_Err in Ha; apply remembers_same; by rewrite Ha].
  apply appendPostgres_Ok in Ha as (_ & _ & _ & HO).
  destruct HO as [existing w' HF _ _|w0 row payload time st w' HP _ HW]; [by apply frame_remembers|].
  apply remembers_same. rewrite (wn_tables _ _ _ _ _ _ _ _ HW). cbn.
  by destruct HP as [[-> _ _]|(_ & _ & _ & _ & t & ->)].
Qed.

Lemma step_remembers ok w w' : step ok w w' -> remembers w w'.
Proof.
  intros [ctx v event _|ctx runID v|ctx id|ctx id|ctx runID id ttl|ctx p ttl|ctx p|ctx p receipt|st ctx input].
  - apply appendPostgres_remembers.
  - apply SaveCheckpoint_remembers.
  - apply registerWorker_remembers.
  - apply heartbeatWorker_remembers.
  - destruct (acquireLease ctx runID id ttl w) as [[r|err] w1] eqn:Ha; cbn [snd]; apply remembers_same.
    + by apply acquireLease_Ok in Ha as [? ? _ _ _ _ _ _ ->|? ? _ _ [-> _ _] _|? ? ? _ _ _ _ _ _ _ ->].
    + by apply acquireLease_Err in Ha as ->.
  - destruct (renewLease ctx p ttl w) as [[r|err] w1] eqn:Ha; cbn [snd]; apply remembers_same.
    + by apply renewLease_Ok in Ha as (_ & _ & _ & row & expires & _ & ->).
    + by apply renewLease_Err in Ha as ->.
  - apply remembers_same. by rewrite validateLease_db.
  - destruct (recordReceipt ctx p receipt w) as [[r|err] w1] eqn:Ha; cbn [snd]; apply remembers_same.
    + apply recordReceipt_Ok in Ha as (_ & _ & _ & _ & [(_ & -> & _)|(_ & planned & output & now & _ & _ & _ & _ & ->)]); done.
    + by apply recordReceipt_Err in Ha as ->.
  - apply Write_remembers.
Qed.

Lemma operates_remembers `{ErrorText} w w' : operates w w' -> remembers w w'.
Proof.
  intros Ho%operates_history. induction Ho as [|w w1 w2 Hs _ IH]; [done|]. trans w1; [by eapply step_remembers|done].
Qed.

(** Registering succeeds only for a worker the table does not know. *)
Lemma registered_fresh ctx id w r w' :
  registerWorker ctx id w = (Ok r, w') -> db_workers (w_db w) !! id = None /\ is_Some (db_workers (w_db w') !! id).
Proof.
  unfold registerWorker. intros H1. case_decide; [done|]. apply M_bind_Ok in H1 as (now & w1 & [-> ->]%clock_Ok & H1).
  apply M_bind_Ok in H1 as (found & w2 & [-> ->]%query_Ok & H1). destruct (db_workers (w_db _) !! id) eqn:Hn; [done|].
  db_inv. split; [done|]. cbn. rewrite lookup_insert_eq. by eexists.
Qed.
End remembers.

(** ** One process *)

(** The leases a process holds in its hands: that of each of its sessions, over or not,
    one just acquired, and the one it presented last. *)
Definition currents (p : Process) : list Lease := map ss_current (pr_sessions p).

Definition inHand (p : Process) : list Lease :=
  match pr_phase p with
  | AcquireDone (Ok acquired) => [aq_Lease acquired]
  | ReconcileDone presented _ => [presented]
  | _ => []
  end ++ currents p.

Lemma currents_cancel e p : currents (cancelWorker e p) = currents p.
Proof. unfold currents. cbn. rewrite map_map. by apply map_ext. Qed.

Lemma currents_returning r p : currents (returning r p) = currents p.
Proof. unfold returning. by rewrite currents_cancel. Qed.

Lemma currents_heartbeatOr r p : currents (heartbeatOr r p) = currents p.
Proof. unfold heartbeatOr. destruct (pr_errors p); by rewrite currents_returning. Qed.

Lemma currents_update f p : (forall s, ss_current (f s) = ss_current s) -> currents (updateSession f p) = currents p.
Proof. intros Hf. unfold updateSession, currents. destruct (pr_sessions p) eqn:E; cbn; rewrite ?E; [done|]. cbn. by rewrite Hf. Qed.

Lemma currents_endSession r p : currents (endSession r p) = currents p.
Proof. unfold endSession. by rewrite currents_update. Qed.

(** A process past its registration. *)
Definition enrolled (p : Process) : Prop :=
  match pr_phase p with Starting | Returned _ => currents p <> [] | _ => True end.

Lemma inHand_enrolled p l : l ∈ inHand p -> enrolled p.
Proof.
  unfold inHand, enrolled. destruct (pr_phase p); try done; cbn [app];
    intros Hl Hn; rewrite Hn in Hl; by apply elem_of_nil in Hl.
Qed.

Section process.
Context `{Postgres} `{CredentialScanner} `{ErrorText}.
Variables (options : ManagedOptions World) (config : WorkerConfig).
Hypothesis lawful : Lawful options.

Abbreviation act := (act (ReconcileLeased options) config).

Lemma mainStep_operates timer p w :
  rtc operates w (snd (mainStep (ReconcileLeased options) config timer p w)).
Proof.
  unfold mainStep. destruct (pr_phase p); try done.
  - destruct (configInvalid config); [done|]. pose proof (StepRegister anyEvent w (MkContext (pr_err p)) (wc_WorkerID config)) as Hs.
    cbn [Register postgres_manager]. destruct (registerWorker _ _ _) as [[|] w']; by apply rtc_once, OperatePrimitive.
  - destruct (pr_errors p); [done|].
    pose proof (StepAcquire anyEvent w (MkContext (pr_err p)) (wc_RunID config) (wc_WorkerID config) (wc_LeaseTTL config)) as Hs.
    cbn [Acquire postgres_manager]. destruct (acquireLease _ _ _ _ _) as [r w']. by apply rtc_once, OperatePrimitive.
  - destruct timer; [done|]. by destruct (pr_err p).
  - destruct (pr_sessions p) as [|s rest]; [done|]. destruct (ss_errors s); [done|].
    pose proof (OperateLeased w options (MkContext (ss_err s)) (wc_RunID config) (ss_current s) lawful) as Hs.
    destruct (ReconcileLeased _ _ _ _ _) as [r w']. by apply rtc_once.
  - by destruct (pr_sessions p).
  - destruct (pr_sessions p) as [|s rest]; [done|]. destruct timer; [done|]. by destruct (ss_err s).
Qed.

Lemma act_operates a p w : rtc operates w (snd (act a p w)).
Proof.
  destruct a as [timer| | |i|i|e]; cbn [Worker.act]; [apply mainStep_operates| |done| |done|done].
  - unfold beat. destruct (pr_heartbeat p); [|done|done].
    pose proof (StepHeartbeat anyEvent w (MkContext (pr_err p)) (wc_WorkerID config)) as Hs.
    cbn [Heartbeat postgres_manager]. destruct (heartbeatWorker _ _ _) as [[|] w']; by apply rtc_once, OperatePrimitive.
  - destruct (pr_sessions p !! i) as [s|]; [|done]. unfold renew. destruct (ss_renewal s); [|done|done].
    pose proof (StepRenew anyEvent w (MkContext (ss_err s)) (ss_current s) (wc_LeaseTTL config)) as Hs.
    cbn [Renew postgres_manager]. destruct (renewLease _ _ _ _) as [[|] w']; by apply rtc_once, OperatePrimitive.
Qed.

(** Where a lease in the hands of a process comes from: it was there, or it was renewed
    from one that was, or it was just acquired and is the one in the table. *)
Definition grantedNow (w' : World) (l : Lease) : Prop :=
  ls_RunID l = wc_RunID config /\ ls_WorkerID l = wc_WorkerID config /\
  grantOfRow <$> db_leases (w_db w') !! ls_RunID l = Some (grantOf l).

Definition inherited (p : Process) (l : Lease) : Prop :=
  exists l0, l0 ∈ inHand p /\ ls_RunID l = ls_RunID l0 /\ grantOf l = grantOf l0.

Lemma inherited_refl p l : l ∈ inHand p -> inherited p l.
Proof. intros Hl. by exists l. Qed.

Lemma inherited_currents p p' l :
  currents p' = currents p -> (match pr_phase p' with AcquireDone (Ok _) | ReconcileDone _ _ => False | _ => True end) ->
  l ∈ inHand p' -> inherited p l.
Proof.
  intros Hc Hp Hl. apply inherited_refl. unfold inHand in *. rewrite Hc in Hl. apply elem_of_app. right.
  destruct (pr_phase p') as [| |[|]| | | | | |]; done.
Qed.

(** The hands of a process that goes on without a call. *)
Ltac stays :=
  let Hl := fresh "Hl" in intros Hl; left; revert Hl;
  match goal with |- ?l ∈ inHand ?q -> inherited ?p ?l => apply (inherited_currents p q l) end;
  [by rewrite ?currents_heartbeatOr, ?currents_endSession, ?currents_returning, ?currents_update
  |by rewrite ?phase_heartbeatOr, ?phase_endSession].

Lemma inHand_main timer p w l :
  let '(p', w') := mainStep (ReconcileLeased options) config timer p w in
  l ∈ inHand p' -> inherited p l \/ grantedNow w' l.
Proof.
  assert (l ∈ inHand p -> inherited p l \/ grantedNow w l) as Hstay by (intros Hl; left; by apply inherited_refl).
  unfold mainStep. destruct (pr_phase p) as [| |r| | |presented r| |r|r] eqn:Hp.
  - destruct (configInvalid config); [stays|]. destruct (Register _ _ _) as [[|] w']; stays.
  - destruct (pr_errors p); [stays|].
    destruct (Acquire _ _ _ _ _) as [[acquired|e] w'] eqn:Ha; [|stays].
    unfold inHand at 1. cbn [pr_phase goto app]. intros [->|Hl]%elem_of_cons.
    + right. apply (acquired_current background) in Ha as (E1 & E2 & E3). unfold grantedNow. rewrite E1. by split_and!.
    + left. apply inherited_refl. apply elem_of_app. by right.
  - unfold afterAcquire. destruct r as [acquired|e].
    + destruct (pr_err p); [stays|]. intros Hl. left. apply inherited_refl. unfold inHand. rewrite Hp. exact Hl.
    + destruct (errors_Is e ErrLeaseHeld); [stays|]. destruct (pr_err p); stays.
  - destruct timer; [stays|]. destruct (pr_err p); [stays|done].
  - destruct (pr_sessions p) as [|s rest] eqn:E; [done|]. destruct (ss_errors s); [stays|].
    destruct (ReconcileLeased _ _ _ _ _) as [r w']. unfold inHand at 1. cbn [pr_phase goto app].
    intros [->|Hl]%elem_of_cons; left; apply inherited_refl, elem_of_app; right; [|done]. unfold currents. rewrite E. by left.
  - destruct (pr_sessions p) as [|s rest] eqn:E; [done|]. unfold afterReconcile. destruct r as [res|e].
    + destruct (converged res); [stays|]. case_decide; stays.
    + destruct (ss_err s), (ss_errors s); stays.
  - destruct (pr_sessions p) as [|s rest] eqn:E; [done|]. destruct timer; [stays|]. destruct (ss_err s); [stays|done].
  - unfold afterSession. destruct r as [e|]; [|stays]. destruct (pr_err p); [stays|]. destruct (_ || _); stays.
  - done.
Qed.

Lemma currents_alter i p : currents (withSessions (alter stopRenewing i (pr_sessions p)) p) = currents p.
Proof.
  unfold currents. cbn. generalize (pr_sessions p) as ss. intros ss. revert i.
  induction ss as [|s ss IH]; intros [|i]; cbn; [done..| |]; [|by f_equal; apply IH].
  f_equal. unfold stopRenewing. by destruct (ss_err s), (ss_renewal s).
Qed.

(** The hands of a process of the same phase with the same leases in its sessions. *)
Lemma inHand_same p q : pr_phase q = pr_phase p -> currents q = currents p -> inHand q = inHand p.
Proof. unfold inHand. by intros -> ->. Qed.

Lemma inHand_act a p w l :
  let '(p', w') := act a p w in l ∈ inHand p' -> inherited p l \/ grantedNow w' l.
Proof.
  assert (forall q, inHand q = inHand p -> l ∈ inHand q -> inherited p l) as Hsame
    by (intros q -> Hl; by apply inherited_refl).
  destruct a as [timer| | |i|i|e]; cbn [Worker.act]; [apply inHand_main| | | | |].
  - unfold beat. destruct (pr_heartbeat p); [destruct (Heartbeat _ _ _) as [[|] w']| |]; intros Hl; left; revert Hl; apply Hsame; try done.
    apply inHand_same; [done|by rewrite currents_cancel].
  - intros Hl; left; revert Hl. apply Hsame. unfold stopBeating. by destruct (pr_err p), (pr_heartbeat p).
  - destruct (pr_sessions p !! i) as [s|] eqn:Hi; [|intros Hl; left; revert Hl; by apply Hsame].
    destruct (renew config s w) as [s' w'] eqn:Hr. intros Hl. left.
    assert (ss_current s ∈ inHand p) as Hs by (apply elem_of_app; right; by eapply list_elem_of_fmap_2, list_elem_of_lookup_2).
    assert (ls_RunID (ss_current s') = ls_RunID (ss_current s) /\ grantOf (ss_current s') = grantOf (ss_current s)) as [Er Eg].
    { unfold renew in Hr. destruct (ss_renewal s); [|by injection Hr as <- _|by injection Hr as <- _].
      destruct (Renew _ _ _ _) as [[renewed|e] w1] eqn:Hren; injection Hr as <- _; [|done].
      by apply (renewed_same background) in Hren. }
    unfold inHand in Hl. apply elem_of_app in Hl as [Hl|Hl].
    + apply inherited_refl, elem_of_app. by left.
    + unfold currents in Hl. cbn in Hl. apply list_elem_of_fmap in Hl as (x & -> & Hx).
      apply list_elem_of_lookup in Hx as [j Hx]. apply list_lookup_insert_Some in Hx as [(_ & <- & _)|(_ & Hx)].
      * by exists (ss_current s).
      * apply inherited_refl, elem_of_app. right. by eapply list_elem_of_fmap_2, list_elem_of_lookup_2.
  - intros Hl; left; revert Hl. apply Hsame, inHand_same; [done|apply currents_alter].
  - intros Hl; left; revert Hl. apply Hsame, inHand_same; [done|apply currents_cancel].
Qed.

(** Enrolment happens by registering a new identity. *)
Lemma enrolled_act a p w :
  enrolled (fst (act a p w)) ->
  enrolled p \/ (db_workers (w_db w) !! wc_WorkerID config = None /\
                 is_Some (db_workers (w_db (snd (act a p w))) !! wc_WorkerID config)).
Proof.
  destruct (isMain a) eqn:Ha.
  - destruct a as [timer| | | | |]; try done. cbn [Worker.act]. unfold enrolled at 2.
    destruct (pr_phase p) as [| |r| | |presented r| |r|r] eqn:Hp; try (by left); unfold mainStep; rewrite Hp.
    + destruct (configInvalid config); [unfold enrolled; cbn [fst]; rewrite phase_returning, currents_returning; by left|].
      destruct (Register _ _ _) as [[v|e] w'] eqn:Hr; cbn [fst snd].
      * intros _. right. by apply (registered_fresh background) in Hr.
      * unfold enrolled. rewrite phase_returning, currents_returning. by left.
    + cbn [fst]. unfold enrolled. rewrite Hp. by left.
  - intros He. left. revert He. unfold enrolled. rewrite act_phase by done.
    assert (length (currents (fst (act a p w))) = length (currents p)) as Hl.
    { destruct a as [timer| | |i|i|e]; try done; cbn [Worker.act].
      - unfold beat. destruct (pr_heartbeat p); [destruct (Heartbeat _ _ _) as [[|] w']|cbn [fst]; rewrite currents_cancel|]; done.
      - cbn [fst]. unfold stopBeating. by destruct (pr_err p), (pr_heartbeat p).
      - destruct (pr_sessions p !! i); [|done]. destruct (renew config s w). unfold currents. cbn.
        by rewrite !length_map, length_insert.
      - cbn [fst]. by rewrite currents_alter.
      - cbn [fst]. by rewrite currents_cancel. }
    destruct (pr_phase p); try done; intros Hn E; apply Hn; rewrite E in Hl; by destruct (currents (fst (act a p w))).
Qed.
End process.

(** ** Any number of processes *)

Section cluster.
Context `{Postgres} `{CredentialScanner} `{ErrorText}.

(** A worker process: its configuration, the options of its controller and its state. *)
Record Member : Type := MkMember {
  mb_config : WorkerConfig;
  mb_options : ManagedOptions World;
  mb_process : Process
}.

Definition handsOf (m : Member) : list Lease := inHand (mb_process m).
Definition nameOf (m : Member) : string := wc_WorkerID (mb_config m).

Definition memberAct (a : Action) (m : Member) (w : World) : Member * World :=
  let '(p, w') := act (ReconcileLeased (mb_options m)) (mb_config m) a (mb_process m) w in
  (MkMember (mb_config m) (mb_options m) p, w').

(** What happens on the database: a worker is started, which may be the same one again; a
    worker makes a step, and one that crashed makes no more; or somebody else operates. *)
Inductive cluster : list Member * World -> list Member * World -> Prop :=
  | ClusterStart ms w config options :
      Lawful options -> cluster (ms, w) (ms ++ [MkMember config options startProcess], w)
  | ClusterStep ms w i m a m' w' :
      ms !! i = Some m -> memberAct a m w = (m', w') -> cluster (ms, w) (<[i := m']> ms, w')
  | ClusterOperate ms w w' : operates w w' -> cluster (ms, w) (ms, w').

(** The grant a Run has given last. *)
Definition currentGrant (w : World) (runID : string) : option Grant := grantOfRow <$> db_leases (w_db w) !! runID.

Definition fenced (w : World) : Prop := forall runID, FenceInv (fenceOf (w_db w) runID).

Definition comparable (l k : Lease) : Prop :=
  ls_RunID l = ls_RunID k -> outranks (grantOf l) (grantOf k) \/ outranks (grantOf k) (grantOf l).

(** A lease in the hands of its worker, not above the grant of its Run. *)
Record Held (m : Member) (w : World) (l : Lease) : Prop := {
  hd_Run : ls_RunID l = wc_RunID (mb_config m);
  hd_Worker : ls_WorkerID l = nameOf m;
  hd_below : exists g, currentGrant w (ls_RunID l) = Some g /\ outranks (grantOf l) g
}.

Record Clustered (ms : list Member) (w : World) : Prop := {
  cl_fenced : fenced w;
  cl_lawful : forall i m, ms !! i = Some m -> Lawful (mb_options m);
  cl_held : forall i m l, ms !! i = Some m -> l ∈ handsOf m -> Held m w l;
  cl_ordered : forall i j m n l k, ms !! i = Some m -> ms !! j = Some n -> l ∈ handsOf m -> k ∈ handsOf n -> comparable l k;
  cl_known : forall i m, ms !! i = Some m -> enrolled (mb_process m) -> is_Some (db_workers (w_db w) !! nameOf m);
  cl_distinct : forall i j m n, ms !! i = Some m -> ms !! j = Some n -> enrolled (mb_process m) -> enrolled (mb_process n) ->
    nameOf m = nameOf n -> i = j
}.

Lemma operates_grant w w' runID g :
  rtc operates w w' -> fenced w -> currentGrant w runID = Some g ->
  exists g', currentGrant w' runID = Some g' /\ outranks g g'.
Proof.
  intros Ho Hf Hg. assert (rtc (step anyEvent) w w') as Hh.
  { clear Hf Hg. induction Ho as [|x y z Hs _ IH]; [done|]. trans y; [by apply operates_history|done]. }
  destruct (history_fence anyEvent w w' runID Hh (Hf runID)) as (_ & Hle & _).
  unfold holderLe, fenceOf, currentGrant in *. cbn in Hle. by rewrite Hg in Hle.
Qed.

Lemma operates_fenced w w' : rtc operates w w' -> fenced w -> fenced w'.
Proof.
  intros Ho Hf runID. revert Hf. induction Ho as [w|w w1 w2 Hs _ IH]; intros Hf; [done|]. apply IH. intros r.
  by apply (history_fence anyEvent w w1 r (operates_history w w1 Hs) (Hf r)).
Qed.

Lemma rtc_remembers w w' : rtc operates w w' -> remembers w w'.
Proof. induction 1 as [|x y z Hs _ IH]; [done|]. trans y; [by apply operates_remembers|done]. Qed.

Lemma held_later m w w' l : rtc operates w w' -> fenced w -> Held m w l -> Held m w' l.
Proof.
  intros Ho Hf [X1 X2 (g & Hg & Hl)]. split; [done..|].
  destruct (operates_grant _ _ _ _ Ho Hf Hg) as (g' & Hg' & Ho'). exists g'. split; [done|]. by trans g.
Qed.

(** What others do leaves the members as they are. *)
Lemma clustered_later ms w w' : rtc operates w w' -> Clustered ms w -> Clustered ms w'.
Proof.
  intros Ho [Hf Hl Hh Hc Hk Hd]. split; [by eapply operates_fenced|done| |done| |done].
  - intros i m l Hi Hm. eapply held_later; [done..|by eapply Hh].
  - intros i m Hi He. by eapply rtc_remembers, Hk.
Qed.

Lemma clustered_start ms w config options :
  Lawful options -> Clustered ms w -> Clustered (ms ++ [MkMember config options startProcess]) w.
Proof.
  intros Hopt [Hf Hl Hh Hc Hk Hd].
  assert (forall i m, (ms ++ [MkMember config options startProcess]) !! i = Some m ->
    ms !! i = Some m \/ (Lawful (mb_options m) /\ handsOf m = [] /\ ~ enrolled (mb_process m))) as Hget.
  { intros i m [Hi|[_ Hi]]%lookup_app_Some; [by left|]. right. apply list_lookup_singleton_Some in Hi as [_ <-].
    split_and!; [done..|]. unfold enrolled. cbn. auto. }
  split; [done| | | | |].
  - intros i m [Hi|[? _]]%Hget; [by eapply Hl|done].
  - intros i m l [Hi|(_ & E & _)]%Hget; [by eapply Hh|]. rewrite E. by intros ?%elem_of_nil.
  - intros i j m n l k [Hi|(_ & E & _)]%Hget [Hj|(_ & F & _)]%Hget; [by eapply Hc|..];
      rewrite ?E, ?F; intros ?? ; exfalso; by eapply elem_of_nil.
  - intros i m [Hi|(_ & _ & E)]%Hget; [by eapply Hk|done].
  - intros i j m n [Hi|(_ & _ & E)]%Hget [Hj|(_ & _ & F)]%Hget ??; [by eapply Hd|done..].
Qed.

(** A lease of the cluster [ms], up to its expiration. *)
Definition among (ms : list Member) (l : Lease) : Prop :=
  exists i m l0, ms !! i = Some m /\ l0 ∈ handsOf m /\ ls_RunID l = ls_RunID l0 /\ grantOf l = grantOf l0.

Lemma lookup_update {A} (xs : list A) i j x y : <[i := x]> xs !! j = Some y -> xs !! j = Some y \/ (j = i /\ y = x).
Proof. intros [(-> & <- & _)|(_ & Hj)]%list_lookup_insert_Some; [by right|by left]. Qed.

Lemma held_same m w l l0 : ls_RunID l = ls_RunID l0 -> grantOf l = grantOf l0 -> Held m w l0 -> Held m w l.
Proof.
  intros Er Eg [X3 X4 X5]. pose proof Eg as [= _ Ew]. split; [by rewrite Er|by rewrite Ew|by rewrite Er, Eg].
Qed.

(** The leases of the members after a step, seen from before it: one that was there, or
    the one the Run has just granted. *)
Lemma step_leases ms w i m a m' w' j n l :
  ms !! i = Some m -> memberAct a m w = (m', w') -> Clustered ms w' ->
  <[i := m']> ms !! j = Some n -> l ∈ handsOf n ->
  Held n w' l /\ (among ms l \/ currentGrant w' (ls_RunID l) = Some (grantOf l)).
Proof.
  intros Hi Hact Hcl Hj Hl. unfold memberAct in Hact.
  pose proof (inHand_act (mb_options m) (mb_config m) a (mb_process m) w l) as Hin.
  destruct (act _ _ _ _ _) as [p w1]. injection Hact as <- <-.
  apply lookup_update in Hj as [Hj|[-> ->]]; [split; [by eapply cl_held|left; by exists j, n, l]|].
  destruct (Hin Hl) as [(l0 & Hl0 & Er & Eg)|(X1 & X2 & X3)].
  - split; [|left; by exists i, m, l0]. apply (held_same _ _ _ l0 Er Eg). destruct (cl_held _ _ Hcl i m l0 Hi Hl0). by split.
  - split; [|by right]. split; [done..|]. by exists (grantOf l).
Qed.

(** Two leases, each from before a step or just granted. *)
Lemma comparable_step ms w l k (g1 g2 : Grant) :
  Clustered ms w ->
  currentGrant w (ls_RunID l) = Some g1 -> outranks (grantOf l) g1 ->
  currentGrant w (ls_RunID k) = Some g2 -> outranks (grantOf k) g2 ->
  among ms l \/ currentGrant w (ls_RunID l) = Some (grantOf l) ->
  among ms k \/ currentGrant w (ls_RunID k) = Some (grantOf k) -> comparable l k.
Proof.
  intros Hcl G1 B1 G2 B2 O1 O2 HR.
  destruct O1 as [(i1 & m1 & l1 & I1 & L1 & R1 & E1)|C1]; [|right; rewrite HR in C1; congruence].
  destruct O2 as [(i2 & m2 & l2 & I2 & L2 & R2 & E2)|C2]; [|left; rewrite HR in G1; congruence].
  rewrite E1, E2. eapply (cl_ordered _ _ Hcl); [exact I1|exact I2|done..|congruence].
Qed.

Lemma clustered_step ms w i m a m' w' :
  ms !! i = Some m -> memberAct a m w = (m', w') -> Clustered ms w -> Clustered (<[i := m']> ms) w'.
Proof.
  intros Hi Hact Hcl. pose proof (cl_lawful _ _ Hcl _ _ Hi) as Hlaw.
  pose proof (act_operates (mb_options m) (mb_config m) Hlaw a (mb_process m) w) as Ho.
  pose proof (enrolled_act (mb_options m) (mb_config m) a (mb_process m) w) as Hen.
  pose proof Hact as Hact'. unfold memberAct in Hact'. destruct (act _ _ _ _ _) as [p w1]. injection Hact' as <- <-.
  cbn [fst snd] in *. pose proof (clustered_later _ _ _ Ho Hcl) as Hcl'.
  pose proof (fun j n l => step_leases ms w i m a _ w1 j n l Hi Hact Hcl') as Hall. split.
  - apply Hcl'.
  - intros j n [Hj|[-> ->]]%lookup_update; [by eapply (cl_lawful _ _ Hcl)|done].
  - intros j n l Hj Hn. by apply (Hall j n l).
  - intros j1 j2 n1 n2 l k X1 X2 Hl1 Hl2.
    destruct (Hall _ _ _ X1 Hl1) as [[_ _ (g1 & G1 & B1)] O1]. destruct (Hall _ _ _ X2 Hl2) as [[_ _ (g2 & G2 & B2)] O2].
    by eapply comparable_step.
  - intros j n [Hj|[-> ->]]%lookup_update He; [by eapply (cl_known _ _ Hcl')|].
    destruct (Hen He) as [He'|[_ HS]]; [by apply (cl_known _ _ Hcl' i m)|done].
  - assert (forall j n, ms !! j = Some n -> enrolled (mb_process n) -> enrolled p -> nameOf n = nameOf m -> j = i) as Hnew.
    { intros j n Hj Ej Ep Hn. destruct (Hen Ep) as [He|[Hnone _]]; [by eapply (cl_distinct _ _ Hcl)|].
      destruct (cl_known _ _ Hcl _ _ Hj Ej) as [? Hs]. unfold nameOf in *. congruence. }
    intros j1 j2 n1 n2 [X1|[-> ->]]%lookup_update [X2|[-> ->]]%lookup_update E1 E2 Hn; [by eapply (cl_distinct _ _ Hcl)| | |done].
    + by eapply Hnew.
    + symmetry. by eapply Hnew.
Qed.

Lemma cluster_operates s s' :
  cluster s s' -> (forall i m, s.1 !! i = Some m -> Lawful (mb_options m)) -> rtc operates (s.2) (s'.2).
Proof.
  intros [ms w config options _|ms w i m a m' w' Hi Ha|ms w w' Ho] Hl; [done| |by apply rtc_once]. cbn in *.
  unfold memberAct in Ha. pose proof (act_operates (mb_options m) (mb_config m) (Hl i m Hi) a (mb_process m) w) as Ho.
  destruct (act _ _ _ _ _) as [p w1]. by injection Ha as _ <-.
Qed.

Lemma cluster_clustered s s' : cluster s s' -> Clustered (s.1) (s.2) -> Clustered (s'.1) (s'.2).
Proof.
  intros [ms w config options Hl|ms w i m a m' w' Hi Ha|ms w w' Ho] Hc; cbn in *.
  - by apply clustered_start.
  - by eapply clustered_step.
  - by eapply clustered_later; [apply rtc_once|].
Qed.

Lemma cluster_reachable s s' :
  rtc cluster s s' -> Clustered (s.1) (s.2) -> Clustered (s'.1) (s'.2) /\ rtc operates (s.2) (s'.2).
Proof.
  induction 1 as [s|s1 s2 s3 Hs _ IH]; intros Hc; [done|].
  destruct (IH (cluster_clustered _ _ Hs Hc)) as [X1 X2]. split; [done|].
  etrans; [|exact X2]. apply cluster_operates; [done|apply Hc].
Qed.

Lemma clustered_nobody w : fenced w -> Clustered [] w.
Proof. intros Hf. by split. Qed.

(** C28: workers exclude each other: start any number of worker processes on a database,
    with whatever configurations - the same worker and Run twice, even - and executors;
    let them, their heartbeats and renewals, their crashes and the other users of the
    database interleave in any way.  What happens is a history of the managed system.
    A lease in the hands of a worker was given to that worker, for its Run, and the
    current grant of the Run outranks it or is it; and no two processes hold leases of
    a Run with one token, so at most one of them can record anything with it. *)
Theorem workers_exclude_each_other w ms w' :
  fenced w -> rtc cluster ([], w) (ms, w') ->
  rtc operates w w' /\
  (forall i m l, ms !! i = Some m -> l ∈ handsOf m -> Held m w' l) /\
  (forall i j m n l k, ms !! i = Some m -> ms !! j = Some n -> l ∈ handsOf m -> k ∈ handsOf n ->
     ls_RunID l = ls_RunID k -> ls_FencingToken l = ls_FencingToken k -> i = j).
Proof.
  intros Hf Hr. destruct (cluster_reachable _ _ Hr (clustered_nobody w Hf)) as [[_ _ Hh Hc _ Hd] Ho]. cbn in *.
  split; [done|]. split; [done|]. intros i j m n l k Hi Hj Hl Hk HR HT.
  apply (Hd i j m n); [done..|by eapply inHand_enrolled|by eapply inHand_enrolled|].
  destruct (Hh _ _ _ Hi Hl) as [_ <- _], (Hh _ _ _ Hj Hk) as [_ <- _].
  by destruct (Hc _ _ _ _ _ _ Hi Hj Hl Hk HR) as [[Ho'|Ho']|[Ho'|Ho']]; unfold grantOf in Ho'; cbn in Ho';
    [lia|injection Ho'|lia|injection Ho'].
Qed.
End cluster.
