(* ===== verification/WorkerWitnesses.v ===== *)
(** * The theorems on workers, at concrete schedules *)
From stdpp Require Import relations.
From S2P Require Import Prelude Sha256 GoLib Json Types Decide Reducer Receipt Effect.
From S2P Require Import Store Samples Database Artifact PostgresStore PostgresFacts PostgresTheorems.
From S2P Require Import Lease System SystemTheorems ManagedWitnesses.
From S2P Require Import Reasoner Controller Managed Operations ManagedTheorems ControllerWitnesses.
From S2P Require Import Worker WorkerTheorems WorkerSystem.

Definition workerConfig (id : string) : WorkerConfig := MkWorkerConfig id "run-1" halfMinute (10 ^ 9) (10 ^ 7).

Abbreviation sampleReconcile := (ReconcileLeased deterministicOptions).

(** ** A Run to be cancelled *)

Definition cancelRequested : World := snd (SetDesiredState background "run-1" DesiredCancelled requestedWorld).

(** The main goroutine, with a renewal after each of its steps. *)
Definition renewing (n : nat) : list Action := concat (replicate n [Main true; RenewLease 0]).

Definition cancelledRun : Process * World :=
  schedule sampleReconcile (workerConfig "worker-1") (renewing 20) startProcess cancelRequested.

Lemma cancelledRun_converges : pr_phase (fst cancelledRun) = Returned None.
Proof. vm_compute. reflexivity. Qed.

Example cancelledRun_log :
  map ev_Type (pgLog (snd cancelledRun) "run-1") =
  [EventRunCreated; EventDesiredStateChanged; EventActionPlanned; EventActionCompleted].
Proof. vm_compute. reflexivity. Qed.

Lemma worker_reports_truth_witness :
  passed sampleReconcile (workerConfig "worker-1") (renewing 20) startProcess cancelRequested
    (fun p => sawConvergence p \/ cancelledAcquired p).
Proof.
  exact (worker_reports_truth sampleReconcile (workerConfig "worker-1") (renewing 20) cancelRequested
    (fst cancelledRun) (snd cancelledRun) (surjective_pairing cancelledRun) cancelledRun_converges).
Defined.

(** The other case: the context ends between the acquisition and the test of it.  The
    Run has not moved, and [Run] returns no error. *)
Definition cancelledEarly : Process * World :=
  schedule sampleReconcile (workerConfig "worker-1") [Main true; Main true; CancelContext contextCanceled; Main true]
    startProcess requestedWorld.

Example cancelled_acquire_reports_success :
  pr_phase (fst cancelledEarly) = Returned None /\
  map ev_Type (pgLog (snd cancelledEarly) "run-1") = [EventRunCreated].
Proof. vm_compute. done. Qed.

(** ** Calls that refuse a context that is over *)

Definition refusing {W A} (f : Context -> M W A) (ctx : Context) : M W A :=
  match ctx_Err ctx with Some _ => throw contextCanceled | None => f ctx end.

Definition careful : Manager World := {|
  Register := fun ctx id => refusing (fun c => Register c id) ctx;
  LookupWorker := LookupWorker;
  Heartbeat := fun ctx id => refusing (fun c => Heartbeat c id) ctx;
  Acquire := fun ctx runID id ttl => refusing (fun c => Acquire c runID id ttl) ctx;
  Renew := fun ctx presented ttl => refusing (fun c => Renew c presented ttl) ctx;
  Current := Current; Validate := Validate; RecordReceipt := RecordReceipt; LookupReceipt := LookupReceipt
|}.

Definition carefulReconcile (ctx : Context) (runID : string) (presented : Lease) : M World ReconcileResult :=
  refusing (fun c => sampleReconcile c runID presented) ctx.

Lemma careful_obeys : @ObeysContext World careful carefulReconcile.
Proof.
  assert (errors_Is contextCanceled ErrLeaseHeld = false) as He by done.
  split; [intros [[e|]] id w Hc|intros [[e|]] runID id ttl w Hc|intros [[e|]] runID presented w Hc];
    try (by destruct Hc); try done. by exists contextCanceled, w.
Qed.

(** The heartbeat of a worker in its session fails. *)
Definition inSession : list Action := [Main true; Main true; Main true; Main true; CancelContext contextCanceled].

Definition fiveMains : list Action :=
  [RenewLease 0; Main false; StopBeating; Main true; Main false; StopRenewing 0; Main true; Main false].

Definition stopping : Process * World :=
  @schedule World careful carefulReconcile (workerConfig "worker-1") inSession startProcess requestedWorld.

Lemma stopping_cancelled : is_Some (pr_err (fst stopping)).
Proof. assert (pr_err (fst stopping) = Some contextCanceled) as -> by (vm_compute; reflexivity). by eexists. Qed.

Lemma cancellation_stops_worker_witness :
  exists r, pr_phase (fst (@schedule World careful carefulReconcile (workerConfig "worker-1") fiveMains
    (fst stopping) (snd stopping))) = Returned r.
Proof.
  exact (cancellation_stops_worker carefulReconcile (workerConfig "worker-1") inSession fiveMains requestedWorld
    (fst stopping) (snd stopping) careful_obeys (surjective_pairing stopping) stopping_cancelled (le_n 5)).
Defined.

(** ** Two workers on one Run *)

Fixpoint interleave (steps : list (nat * Action)) (s : list Member * World) : list Member * World :=
  match steps with
  | [] => s
  | (i, a) :: rest =>
      match s.1 !! i with
      | Some m => let '(m', w') := memberAct a m s.2 in interleave rest (<[i := m']> s.1, w')
      | None => interleave rest s
      end
  end.

Lemma interleave_cluster steps s : rtc cluster s (interleave steps s).
Proof.
  revert s. induction steps as [|[i a] steps IH]; intros [ms w]; [done|]. cbn.
  destruct (ms !! i) as [m|] eqn:Hi; [|apply IH]. destruct (memberAct a m w) as [m' w'] eqn:Ha.
  eapply rtc_l; [by eapply ClusterStep|apply IH].
Qed.

Definition started (id : string) : Member := MkMember (workerConfig id) deterministicOptions startProcess.

Definition twoStarted : list Member * World := ([started "worker-1"; started "worker-2"], requestedWorld).

Lemma twoStarted_cluster : rtc cluster ([], requestedWorld) twoStarted.
Proof.
  eapply rtc_l; [apply ClusterStart, deterministicOptions_lawful|].
  eapply rtc_l; [apply ClusterStart, deterministicOptions_lawful|]. apply rtc_refl.
Qed.

(** The first worker acquires the Run, works a little and then hangs while the heartbeat
    of the second goes on until the lease has expired; the second takes the Run over,
    and the first goes on. *)
Definition takeover : list (nat * Action) :=
  [(0, Main true); (1, Main true); (0, Main true); (0, Main true); (0, Main true)] ++
  replicate 40 (1, Beat) ++ [(1, Main true); (1, Main true); (0, Main true)].

Definition afterTakeover : list Member * World := interleave takeover twoStarted.

Lemma afterTakeover_cluster : rtc cluster ([], requestedWorld) afterTakeover.
Proof. etrans; [apply twoStarted_cluster|apply interleave_cluster]. Qed.

Example takeover_leases :
  map (fun m => map grantOf (handsOf m)) (fst afterTakeover) =
  [[(1%Z, "worker-1")]; [(2%Z, "worker-2")]].
Proof. vm_compute. reflexivity. Qed.

Lemma requestedWorld_fenced : fenced requestedWorld.
Proof.
  apply (operates_fenced emptyWorld); [|by intros runID]. eapply rtc_r; [apply rtc_refl|apply OperateCreate].
Qed.

Lemma workers_exclude_each_other_witness :
  rtc operates requestedWorld (snd afterTakeover) /\
  (forall i m l, fst afterTakeover !! i = Some m -> l ∈ handsOf m -> Held m (snd afterTakeover) l) /\
  (forall i j m n l k, fst afterTakeover !! i = Some m -> fst afterTakeover !! j = Some n -> l ∈ handsOf m -> k ∈ handsOf n ->
     ls_RunID l = ls_RunID k -> ls_FencingToken l = ls_FencingToken k -> i = j).
Proof.
  exact (workers_exclude_each_other requestedWorld (fst afterTakeover) (snd afterTakeover) requestedWorld_fenced
    (eq_rect afterTakeover (rtc cluster ([], requestedWorld)) afterTakeover_cluster _ (surjective_pairing afterTakeover))).
Defined.
