(* ===== verification/Docker.v ===== *)
(** * The docker sandbox: internal/sandbox/docker.go

    A disposable worktree, and one container per command.  A sandbox tracks the
    containers it asked for by name until it knows that they are gone.  Every method
    holds the sandbox's mutex, so it is one step.  The docker program and the operating
    system are the host's; the points of fault injection of the tests are left out. *)
From S2P Require Import Prelude Sha256 GoLib Json Float64 Regexp Credentials Decode Effect.
From S2P Require Import AuditLog ToolService Host.

(** ** Configuration *)

Record DockerConfig (W : Type) : Type := MkDockerConfig {
  dc_Image : string;
  dc_WorktreeRoot : string;
  dc_CPU : string;
  dc_Memory : string;
  dc_PIDs : Z;
  dc_CommandTimeout : Z;
  dc_OutputLimit : Z;
  dc_EnvAllowlist : list string;
  dc_Audit : option (AuditRecorder W)
}.
Arguments MkDockerConfig {W}. Arguments dc_Image {W}. Arguments dc_WorktreeRoot {W}. Arguments dc_CPU {W}.
Arguments dc_Memory {W}. Arguments dc_PIDs {W}. Arguments dc_CommandTimeout {W}. Arguments dc_OutputLimit {W}.
Arguments dc_EnvAllowlist {W}. Arguments dc_Audit {W}.

Definition TestImage : string := "agentdock-sandbox:phase4".

Definition orDefault (value fallback : string) : string := if decide (value = "") then fallback else value.
Definition orDefaultZ (value fallback : Z) : Z := if decide (value = 0%Z) then fallback else value.

(** [NewDockerProvider]: the defaults *)
Definition withDefaults {W} (config : DockerConfig W) : DockerConfig W :=
  MkDockerConfig (orDefault (dc_Image config) TestImage) (dc_WorktreeRoot config)
    (orDefault (dc_CPU config) "1") (orDefault (dc_Memory config) "512m") (orDefaultZ (dc_PIDs config) 128)
    (orDefaultZ (dc_CommandTimeout config) (60 * second)) (orDefaultZ (dc_OutputLimit config) (Z.shiftl 1 20))
    (dc_EnvAllowlist config) (dc_Audit config).

Definition cpuValid (cpu : string) : bool :=
  match ParseFloat cpu with FloatOf x => float_positive x | _ => false end.

(** The runes of the number: a suffix b, k, m or g is dropped. *)
Definition memoryNumber (memory : list Z) : list Z :=
  match last memory with
  | Some r => if decide (r ∈ [98; 107; 109; 103]%Z) then removelast memory else memory
  | None => memory
  end.

Definition memoryValid (memory : string) : bool :=
  match ToLower memory with
  | [] => false
  | lowered => match ParseUint (memoryNumber lowered) with Some value => negb (value =? 0)%Z | None => false end
  end.

Definition validateDockerConfig {W} (config : DockerConfig W) : result unit :=
  if negb (cpuValid (dc_CPU config)) then Err (Plain "Docker CPU limit")
  else if negb (memoryValid (dc_Memory config)) then Err (Plain "Docker memory limit")
  else if (dc_PIDs config <=? 0)%Z then Err (Plain "Docker PID limit")
  else if (dc_CommandTimeout config <=? 0)%Z then Err (Plain "Docker command timeout")
  else if (dc_OutputLimit config <=? 0)%Z then Err (Plain "Docker output limit")
  else Ok tt.

(** ** Commands and environments *)

Definition validateContainerCommand (command : list string) : result unit :=
  match command with
  | program :: subcommand :: _ =>
      if decide (program = helper) then
        if decide (subcommand ∈ ["list"; "read"; "search"; "apply-patch"; "test"; "probe"; "cleanup"]) then Ok tt
        else Err (Sentinel ErrCommandNotAllowed)
      else Err (Sentinel ErrCommandNotAllowed)
  | _ => Err (Sentinel ErrCommandNotAllowed)
  end.

Definition fixedEnvironment : list (string * string) :=
  [("GOCACHE", "/workspace/.agentdock/go-cache"); ("GOENV", "off"); ("GOFLAGS", ""); ("GOTOOLCHAIN", "local");
   ("GOTMPDIR", "/workspace/.agentdock/tmp"); ("HOME", "/workspace/.agentdock/home");
   ("TMPDIR", "/workspace/.agentdock/tmp")].

Definition fixedKeys : list string := map fst fixedEnvironment.

Definition environmentKeys (environment : gmap string string) : list string := map fst (map_to_list environment).

Definition validateEnvironment (allowlist : list string) (environment : gmap string string) : result unit :=
  if forallb (fun key => negb (bool_decide (key ∈ fixedKeys)) && bool_decide (key ∈ allowlist)) (environmentKeys environment)
  then Ok tt else Err (Sentinel ErrCommandNotAllowed).

Fixpoint first_occurrences (seen keys : list string) : list string :=
  match keys with
  | [] => []
  | key :: rest => if decide (key ∈ seen) then first_occurrences seen rest else key :: first_occurrences (key :: seen) rest
  end.

Definition fixedValue (key : string) : string :=
  from_option snd "" (List.find (fun kv => bool_decide (fst kv = key)) fixedEnvironment).

Definition environmentArguments (environment : gmap string string) : list string :=
  concat (map (fun key => ["--env"; key +:+ "=" +:+ default (fixedValue key) (environment !! key)])
    (first_occurrences [] (sort_Strings (fixedKeys ++ environmentKeys environment)))).

(** ** Inspection of containers *)

Record containerInspection : Type := MkInspection {
  ci_ID : string;
  ci_Labels : gmap string string
}.

Fixpoint decode_labels (members : list (list Z * json)) (labels : gmap string string) : option (gmap string string) :=
  match members with
  | [] => Some labels
  | (key, v) :: rest =>
      value ← decode_string v "";
      decode_labels rest (<[string_of_bytes key := value]> labels)
  end.

Definition inspectionFields : list (FieldDecoder containerInspection) :=
  [ MkFieldDecoder "id" (fun v i => id ← decode_string v (ci_ID i); Some (MkInspection id (ci_Labels i)));
    MkFieldDecoder "labels" (fun v i =>
      match v with
      | JNull => Some (MkInspection (ci_ID i) ∅)
      | JObject members => labels ← decode_labels members (ci_Labels i); Some (MkInspection (ci_ID i) labels)
      | _ => None
      end) ].

Definition decodeInspection (output : string) : option containerInspection :=
  v ← parse_bytes (bytes_of output); decode_struct false inspectionFields v (MkInspection "" ∅).

Definition docker (arguments : list string) (stdin : string) : Cmd := MkCmd "docker" arguments "" None stdin.

Definition inspectFormat : string := double_quoted "{'id':{{json .Id}},'labels':{{json .Config.Labels}}}".

Definition sanitizedGitPointer : string := "gitdir: /agentdock/not-mounted" +:+ string_of_bytes [10%Z].

Definition containerReinspectAttempts : nat := 5.
Definition containerReinspectDelay : Z := 100 * 1000000.

(** [errors.As] for an [exec.ExitError] *)
Fixpoint process_exit (e : error) : option Z :=
  match e with
  | ProcessExit code => Some code
  | Wrap e => process_exit e
  | Wrap2 e1 e2 => match process_exit e1 with Some code => Some code | None => process_exit e2 end
  | _ => None
  end.

Definition exitCode (err : option error) : Z :=
  match err with None => 0 | Some e => default (-1)%Z (process_exit e) end.

Definition is_err (e : option error) (target : sentinel) : bool := from_option (fun e => errors_Is e target) false e.

Definition milliseconds (d : Z) : Z := Z.quot d 1000000.

Section docker.
Context {W H : Type} `{Host W} `{Worktrees W H}.

(** ** State *)

Record dockerSandbox : Type := MkDockerSandbox {
  ds_config : DockerConfig W;
  ds_spec : Spec;
  ds_worktree : H;
  ds_gitPointer : string;
  ds_gitPointerSanitized : bool;
  ds_ownerToken : string;
  ds_containers : gmap string string;
  ds_uncertainContainers : gmap string Z;
  ds_provisioningFailed : bool;
  ds_destroying : bool;
  ds_destroyed : bool;
  ds_destroyAudited : bool
}.

#[export] Instance set_ds_gitPointer : Setter ds_gitPointer := fun v s =>
  MkDockerSandbox (ds_config s) (ds_spec s) (ds_worktree s) v (ds_gitPointerSanitized s) (ds_ownerToken s) (ds_containers s)
    (ds_uncertainContainers s) (ds_provisioningFailed s) (ds_destroying s) (ds_destroyed s) (ds_destroyAudited s).
#[export] Instance set_ds_gitPointerSanitized : Setter ds_gitPointerSanitized := fun v s =>
  MkDockerSandbox (ds_config s) (ds_spec s) (ds_worktree s) (ds_gitPointer s) v (ds_ownerToken s) (ds_containers s)
    (ds_uncertainContainers s) (ds_provisioningFailed s) (ds_destroying s) (ds_destroyed s) (ds_destroyAudited s).
#[export] Instance set_ds_containers : Setter ds_containers := fun v s =>
  MkDockerSandbox (ds_config s) (ds_spec s) (ds_worktree s) (ds_gitPointer s) (ds_gitPointerSanitized s) (ds_ownerToken s) v
    (ds_uncertainContainers s) (ds_provisioningFailed s) (ds_destroying s) (ds_destroyed s) (ds_destroyAudited s).
#[export] Instance set_ds_uncertainContainers : Setter ds_uncertainContainers := fun v s =>
  MkDockerSandbox (ds_config s) (ds_spec s) (ds_worktree s) (ds_gitPointer s) (ds_gitPointerSanitized s) (ds_ownerToken s)
    (ds_containers s) v (ds_provisioningFailed s) (ds_destroying s) (ds_destroyed s) (ds_destroyAudited s).
#[export] Instance set_ds_provisioningFailed : Setter ds_provisioningFailed := fun v s =>
  MkDockerSandbox (ds_config s) (ds_spec s) (ds_worktree s) (ds_gitPointer s) (ds_gitPointerSanitized s) (ds_ownerToken s)
    (ds_containers s) (ds_uncertainContainers s) v (ds_destroying s) (ds_destroyed s) (ds_destroyAudited s).
#[export] Instance set_ds_destroying : Setter ds_destroying := fun v s =>
  MkDockerSandbox (ds_config s) (ds_spec s) (ds_worktree s) (ds_gitPointer s) (ds_gitPointerSanitized s) (ds_ownerToken s)
    (ds_containers s) (ds_uncertainContainers s) (ds_provisioningFailed s) v (ds_destroyed s) (ds_destroyAudited s).
#[export] Instance set_ds_destroyed : Setter ds_destroyed := fun v s =>
  MkDockerSandbox (ds_config s) (ds_spec s) (ds_worktree s) (ds_gitPointer s) (ds_gitPointerSanitized s) (ds_ownerToken s)
    (ds_containers s) (ds_uncertainContainers s) (ds_provisioningFailed s) (ds_destroying s) v (ds_destroyAudited s).
#[export] Instance set_ds_destroyAudited : Setter ds_destroyAudited := fun v s =>
  MkDockerSandbox (ds_config s) (ds_spec s) (ds_worktree s) (ds_gitPointer s) (ds_gitPointerSanitized s) (ds_ownerToken s)
    (ds_containers s) (ds_uncertainContainers s) (ds_provisioningFailed s) (ds_destroying s) (ds_destroyed s) v.

(** A method runs on one sandbox of a provider: the provider's counter, the owners of
    tokens and its pending sandboxes by token, and the machine. *)
Record Machine : Type := MkMachine {
  mc_self : dockerSandbox;
  mc_counter : Z;
  mc_owners : gmap string Scope;
  mc_pending : gmap string nat;
  mc_host : W
}.

Definition self : M Machine dockerSandbox := gets mc_self.

Definition update (f : dockerSandbox -> dockerSandbox) : M Machine unit :=
  modify (fun m => MkMachine (f (mc_self m)) (mc_counter m) (mc_owners m) (mc_pending m) (mc_host m)).

Definition host {A} (c : M W A) : M Machine A := fun m =>
  let '(r, w) := c (mc_host m) in (r, MkMachine (mc_self m) (mc_counter m) (mc_owners m) (mc_pending m) w).

Definition run (ctx : Deadline) (command : Cmd) : M Machine Ran := host (always (exec ctx command)).
Definition contextErr (ctx : Deadline) : M Machine (option error) := host (always (ctx_Error ctx)).

(** [sandbox.containers[name] = id], [delete(sandbox.containers, name)], ... *)
Definition track (name id : string) : M Machine unit := update (fun s => s <| ds_containers := <[name := id]> (ds_containers s) |>).
Definition settle (name : string) : M Machine unit :=
  update (fun s => s <| ds_uncertainContainers := delete name (ds_uncertainContainers s) |>).
Definition forget (name : string) : M Machine unit :=
  update (fun s => (s <| ds_containers := delete name (ds_containers s) |>)
    <| ds_uncertainContainers := delete name (ds_uncertainContainers s) |>).

(** ** Audit *)

Definition record {V} (config : DockerConfig V) (event : AuditEvent) : M V unit :=
  match dc_Audit config with Some recorder => RecordBounded recorder event | None => throw (Plain "nil recorder") end.

Definition audit (event : AuditEvent) : M Machine (option error) :=
  s ← self; attempt (host (record (ds_config s) event)).

Definition scopedAudit (config : DockerConfig W) (spec : Spec) (image kind reason : string) : AuditEvent :=
  (((((((emptyAudit <| au_Kind := kind |>) <| au_RunID := sp_RunID spec |>) <| au_AttemptID := sp_AttemptID spec |>)
    <| au_Reason := reason |>) <| au_ImageID := image |>) <| au_CPU := dc_CPU config |>)
    <| au_Memory := dc_Memory config |>) <| au_PIDs := dc_PIDs config |>.

Definition sandboxAudit (s : dockerSandbox) (kind reason : string) : AuditEvent :=
  scopedAudit (ds_config s) (ds_spec s) (dc_Image (ds_config s)) kind reason.

Definition requestAudit (s : dockerSandbox) (kind reason : string) (request : SandboxRequest) (limit : Z) : AuditEvent :=
  (((sandboxAudit s kind reason) <| au_ToolName := sq_ToolName request |>)
    <| au_ContractVersion := sq_ContractVersion request |>) <| au_OutputLimit := limit |>.

(** [executionAuditEvent] *)
Definition executionAuditEvent (s : dockerSandbox) (kind : string) (request : SandboxRequest) (timeout limit : Z)
    (reason : string) : AuditEvent :=
  (requestAudit s kind reason request limit) <| au_TimeoutMillis := milliseconds timeout |>.

Definition recordContainerCleanupFailure (request : SandboxRequest) (timeout limit : Z) : M Machine (option error) :=
  s ← self;
  audit (executionAuditEvent s AuditExecutionFailed request timeout limit
    "owned-container cleanup failed; container remains tracked for Destroy retry").

Definition recordTruncation (request : SandboxRequest) (outputBytes limit : Z) : M Machine (option error) :=
  s ← self;
  audit ((requestAudit s AuditOutputTruncated "combined stdout and stderr exceeded configured limit" request limit)
    <| au_OutputBytes := outputBytes |>).

Definition recordDenied (request : SandboxRequest) (cause : error) : M Machine (option error) :=
  s ← self;
  auditErr ← audit (executionAuditEvent s AuditPolicyDenied request (dc_CommandTimeout (ds_config s))
    (dc_OutputLimit (ds_config s))
    (if errors_Is cause ErrDestroyed
     then "sandbox execution request rejected because Sandbox destruction started"
     else "sandbox execution request rejected by fixed command or environment boundary"));
  mret (errors_Join [Some cause; Wrap <$> auditErr]).

Definition recordCreate : M Machine unit :=
  s ← self;
  e ← audit (sandboxAudit s AuditSandboxCreated "disposable worktree provisioned; no execution container started");
  return_err (Wrap <$> e).

Definition recordDestroy : M Machine (option error) :=
  s ← self;
  e ← audit (sandboxAudit s AuditSandboxDestroyed "container set and disposable worktree removed");
  match e with
  | Some e => mret (Some (Wrap e))
  | None => _ ← update (fun s => s <| ds_destroyAudited := true |>); mret None
  end.

Definition recordDestroyFailed (cause : error) : M Machine (option error) :=
  s ← self;
  e ← audit (sandboxAudit s AuditSandboxDestroyFailed
    (if errors_Is cause ErrContainerOutcomeUnknown
     then "Docker create outcome remains unknown; Sandbox owner and worktree retained for explicit retry"
     else "sandbox cleanup failed and may be retried"));
  mret (Wrap <$> e).

(** ** Containers *)

Definition label (labels : gmap string string) (name : string) : string := default "" (labels !! name).

Definition ownsLabels (s : dockerSandbox) (labels : gmap string string) : bool :=
  bool_decide (label labels "agentdock.phase" = "4") &&
  bool_decide (label labels "agentdock.run_id" = sp_RunID (ds_spec s)) &&
  bool_decide (label labels "agentdock.attempt_id" = sp_AttemptID (ds_spec s)) &&
  bool_decide (label labels "agentdock.owner_token" = ds_ownerToken s).

Definition containerIDValid (id : string) : bool := bool_decide (String.length id = 64) && isObjectID id.

(** The identifier of the container, whether it exists and whether it is the sandbox's. *)
Definition Inspected : Type := string * bool * bool.

Definition inspectCommand (reference : string) : Cmd := docker ["inspect"; "--format"; inspectFormat; reference] "".

(** What an inspection says. *)
Definition inspected (s : dockerSandbox) (ran : Ran) : result Inspected :=
  match rn_err ran with
  | Some e =>
      if Contains (combined ran) "No such object" || Contains (combined ran) "No such container"
      then Ok ("", false, false) else Err (Wrap e)
  | None =>
      match decodeInspection (combined ran) with
      | None => Err (Plain "decode container ownership")
      | Some inspection =>
          if negb (containerIDValid (ci_ID inspection)) then Err (Plain "Docker inspect returned invalid container ID")
          else Ok (ci_ID inspection, true, ownsLabels s (ci_Labels inspection))
      end
  end.

Definition inspectContainerContext (ctx : Deadline) (reference : string) : M Machine Inspected :=
  ran ← run ctx (inspectCommand reference);
  s ← self;
  lift (inspected s ran).

Definition inspectContainer (reference : string) : M Machine Inspected :=
  inspectContainerContext (Within Background (5 * second)) reference.

Definition containerName (s : dockerSandbox) (purpose : string) (sequence : Z) : string :=
  "agentdock-p4-" +:+ safeName (sp_RunID (ds_spec s)) +:+ "-" +:+ safeName (sp_AttemptID (ds_spec s)) +:+ "-" +:+
  str_take 12 (ds_ownerToken s) +:+ "-" +:+ purpose +:+ "-" +:+ pretty sequence.

Definition nextContainerName (purpose : string) : M Machine string :=
  _ ← modify (fun m => MkMachine (mc_self m) (u64 (mc_counter m + 1)) (mc_owners m) (mc_pending m) (mc_host m));
  sequence ← gets mc_counter;
  s ← self;
  mret (containerName s purpose sequence).

(** *** Creation *)

(** The arguments that do not depend on the request. *)
Definition isolation (s : dockerSandbox) (name : string) : list string :=
  let workspace := worktree_Workspace (W := W) (ds_worktree s) in
  [ "create"; "--interactive"; "--name"; name;
    "--label"; "agentdock.phase=4";
    "--label"; "agentdock.run_id=" +:+ sp_RunID (ds_spec s);
    "--label"; "agentdock.attempt_id=" +:+ sp_AttemptID (ds_spec s);
    "--label"; "agentdock.owner_token=" +:+ ds_ownerToken s;
    "--network"; "none"; "--ipc"; "none"; "--read-only"; "--user"; "65532:65532";
    "--cap-drop"; "ALL"; "--security-opt"; "no-new-privileges";
    "--cpus"; dc_CPU (ds_config s); "--memory"; dc_Memory (ds_config s);
    "--pids-limit"; pretty (dc_PIDs (ds_config s));
    "--mount"; "type=bind,src=" +:+ workspace +:+ ",dst=/workspace";
    "--mount"; "type=bind,src=" +:+ filepath_Join [workspace; ".git"] +:+ ",dst=/workspace/.git,readonly";
    "--workdir"; "/workspace" ].

Definition createArguments (s : dockerSandbox) (name : string) (request : SandboxRequest) : list string :=
  isolation s name ++ environmentArguments (sq_Environment request) ++ [dc_Image (ds_config s)] ++ sq_Command request.

Definition createContainer (name : string) (request : SandboxRequest) : M Machine string :=
  let createContext := Within Background (15 * second) in
  s ← self;
  ran ← run createContext (docker (createArguments s name request) "");
  match rn_err ran with
  | Some e => throw (Wrap e)
  | None =>
      let containerID := TrimSpace (combined ran) in
      if negb (containerIDValid containerID) then throw (Plain "Docker create returned invalid container ID")
      else
        '(ownedID, exists_, owned) ← inspectContainerContext createContext containerID;
        if negb exists_ || negb owned || bool_decide (ownedID <> containerID)
        then throw (Plain "created container does not match sandbox ownership labels")
        else mret containerID
  end.

Definition markContainerCreateUnknown (name : string) : M Machine unit :=
  s ← self;
  match ds_uncertainContainers s !! name with
  | Some _ => mret tt
  | None =>
      now ← host (always time_Now);
      update (fun s => s <| ds_uncertainContainers := <[name := now]> (ds_uncertainContainers s) |>)
  end.

(** *** Starting, killing, removing *)

Definition startOwnedContainer (ctx : Deadline) (containerID stdin : string) : M Machine Ran :=
  r ← try (inspectContainer containerID);
  match r with
  | Err e => mret (MkRan [] (Some e))
  | Ok (ownedID, exists_, owned) =>
      if negb exists_ || negb owned || bool_decide (ownedID <> containerID)
      then mret (MkRan [] (Some (Sentinel ErrContainerOwnership)))
      else run ctx (docker ["start"; "-a"; "-i"; containerID] stdin)
  end.

Definition killTrackedContainer (name : string) : M Machine unit :=
  s ← self;
  match ds_containers s !! name with
  | None => mret tt
  | Some containerID =>
      if decide (containerID = "") then mret tt
      else
        '(ownedID, exists_, owned) ← inspectContainer containerID;
        if negb exists_ then mret tt
        else if negb owned || bool_decide (ownedID <> containerID) then throw (Sentinel ErrContainerOwnership)
        else
          ran ← run (Within Background (5 * second)) (docker ["kill"; containerID] "");
          match rn_err ran with
          | Some e => if Contains (combined ran) "is not running" then mret tt else throw (Wrap e)
          | None => mret tt
          end
  end.

Definition removeOwnedContainer (reference : string) : M Machine bool :=
  '(containerID, exists_, owned) ← inspectContainer reference;
  if negb exists_ then mret true
  else if negb owned then throw (Sentinel ErrContainerOwnership)
  else
    ran ← run (Within Background (5 * second)) (docker ["rm"; "-f"; containerID] "");
    match rn_err ran with
    | Some e => if Contains (combined ran) "No such container" then mret true else throw (Wrap e)
    | None => mret true
    end.

(** The last part of [removeTrackedContainer] *)
Definition removeByID (name containerID : string) : M Machine unit :=
  removed ← removeOwnedContainer containerID;
  if (removed : bool) then forget name else mret tt.

Definition removeTrackedContainer (name : string) : M Machine unit :=
  s ← self;
  match ds_containers s !! name with
  | None => mret tt
  | Some containerID =>
      if decide (containerID = "") then
        '(ownedID, exists_, owned) ← inspectContainer name;
        if negb exists_ then
          match ds_uncertainContainers s !! name with
          | Some _ => throw (Sentinel ErrContainerOutcomeUnknown)
          | None => forget name
          end
        else if negb owned then _ ← forget name; throw (Sentinel ErrContainerOwnership)
        else
          _ ← track name ownedID;
          _ ← settle name;
          removeByID name ownedID
      else removeByID name containerID
  end.

(** The attempts left in [cleanupFailedCreate] *)
Fixpoint reinspect (attempts : nat) (name : string) : M Machine unit :=
  match attempts with
  | O => throw (Sentinel ErrContainerOutcomeUnknown)
  | S more =>
      '(containerID, exists_, owned) ← inspectContainer name;
      if (exists_ : bool) then
        if negb owned then _ ← forget name; throw (Sentinel ErrContainerOwnership)
        else
          _ ← track name containerID;
          _ ← settle name;
          removeTrackedContainer name
      else
        _ ← (if decide (more = 0) then mret tt else host (modify (sleep containerReinspectDelay)));
        reinspect more name
  end.

Definition cleanupFailedCreate (name : string) : M Machine unit := reinspect containerReinspectAttempts name.

(** ** Execution *)

Definition emptyResult : SandboxResult := MkSandboxResult "" "" 0 false false.

(** A result and an error *)
Definition Executed : Type := SandboxResult * option error.

Definition interruptedBeforeStart (request : SandboxRequest) (timeout limit : Z) (cause : error)
    (provisioningErr : option error) : M Machine Executed :=
  let expired := errors_Is cause DeadlineExceeded in
  s ← self;
  auditErr ← audit (executionAuditEvent s (if expired then AuditExecutionTimedOut else AuditExecutionCanceled)
    request timeout limit
    (if expired then "caller deadline expired before the owned container started"
     else "caller canceled before the owned container started"));
  mret (MkSandboxResult "" "" 0 expired false,
        errors_Join [Some (Sentinel (if expired then ErrTimeout else ContextCanceled)); provisioningErr; auditErr]).

(** A command that ran: its result, the bytes it wrote, and the error of starting it. *)
Definition outcome (limit : Z) (ran : Ran) : SandboxResult * Z :=
  let o := collect limit (rn_writes ran) in
  (MkSandboxResult (lb_buffer (ou_stdout o)) (lb_buffer (ou_stderr o)) (exitCode (rn_err ran)) false
     (ob_truncated (ou_budget o)), ob_total (ou_budget o)).

(** [if removeErr != nil { auditErr = errors.Join(auditErr, ...) }] *)
Definition cleanupAudit (removeErr auditErr : option error) (request : SandboxRequest) (timeout limit : Z)
    : M Machine (option error) :=
  match removeErr with
  | Some _ => e ← recordContainerCleanupFailure request timeout limit; mret (errors_Join [auditErr; e])
  | None => mret auditErr
  end.

(** The two branches for a context that ended while the command ran. *)
Definition interrupted (name : string) (request : SandboxRequest) (timeout limit outputBytes : Z) (result : SandboxResult)
    (expired : bool) : M Machine Executed :=
  let result := if expired
    then MkSandboxResult (sr_Stdout result) (sr_Stderr result) (sr_ExitCode result) true (sr_Truncated result) else result in
  killErr ← attempt (killTrackedContainer name);
  removeErr ← attempt (removeTrackedContainer name);
  s ← self;
  auditErr ← audit ((executionAuditEvent s (if expired then AuditExecutionTimedOut else AuditExecutionCanceled)
    request timeout limit
    (if expired then "command deadline exceeded; owned container termination was requested"
     else "caller canceled command; owned container termination was requested")) <| au_OutputBytes := outputBytes |>);
  auditErr ← (if sr_Truncated result
              then e ← recordTruncation request outputBytes limit; mret (errors_Join [auditErr; e]) else mret auditErr);
  auditErr ← cleanupAudit removeErr auditErr request timeout limit;
  mret (result, errors_Join [Some (Sentinel (if expired then ErrTimeout else ContextCanceled)); killErr; removeErr; auditErr]).

(** A command that ended by itself. *)
Definition finished (name : string) (request : SandboxRequest) (timeout limit outputBytes : Z) (result : SandboxResult)
    (startErr : option error) : M Machine Executed :=
  removeErr ← attempt (removeTrackedContainer name);
  truncationErr ← (if sr_Truncated result
                   then e ← recordTruncation request outputBytes limit; mret (Wrap <$> e) else mret None);
  s ← self;
  match startErr with
  | Some startErr =>
      let executionErr := errors_Join [Some (ExitError (sr_ExitCode result)); Some startErr] in
      auditErr ← audit (((executionAuditEvent s AuditExecutionFailed request timeout limit
        "container command returned non-zero") <| au_OutputBytes := outputBytes |>) <| au_ExitCode := sr_ExitCode result |>);
      auditErr ← cleanupAudit removeErr auditErr request timeout limit;
      match auditErr with
      | Some e => mret (result, errors_Join [executionErr; removeErr; truncationErr; Some (Wrap e)])
      | None => mret (result, errors_Join [executionErr; removeErr; truncationErr])
      end
  | None =>
      match removeErr with
      | Some _ =>
          auditErr ← audit (executionAuditEvent s AuditExecutionFailed request timeout limit
            "container command completed but owned-container cleanup failed");
          mret (result, errors_Join [removeErr; truncationErr; auditErr])
      | None =>
          match truncationErr with
          | Some e => mret (result, Some e)
          | None =>
              auditErr ← audit ((executionAuditEvent s AuditExecutionCompleted request timeout limit "")
                <| au_OutputBytes := outputBytes |>);
              mret (result, Wrap <$> auditErr)
          end
      end
  end.

(** The value of a request within the limit of the configuration. *)
Definition clamp (requested configured : Z) : Z :=
  if ((requested <=? 0) || (configured <? requested))%Z then configured else requested.

(** A container is asked for: its name is tracked before, and afterwards its outcome is
    unknown or its identifier is tracked.  [Execute] and [cleanupWorkspace] begin so. *)
Definition acquire {A} (name : string) (request : SandboxRequest) (failed : error -> M Machine A) (made : string -> M Machine A)
    : M Machine A :=
  _ ← track name "";
  created ← try (createContainer name request);
  match created with
  | Err err => _ ← markContainerCreateUnknown name; failed err
  | Ok containerID => _ ← track name containerID; _ ← settle name; made containerID
  end.

(** [Execute] without a container *)
Definition notCreated (ctx : Deadline) (name : string) (request : SandboxRequest) (timeout limit : Z) (err : error)
    : M Machine Executed :=
  cleanupErr ← attempt (cleanupFailedCreate name);
  ctxErr ← contextErr ctx;
  match ctxErr with
  | Some e => interruptedBeforeStart request timeout limit e (errors_Join [Some err; cleanupErr])
  | None =>
      s ← self;
      auditErr ← audit (executionAuditEvent s AuditExecutionFailed request timeout limit "Docker container creation failed");
      mret (emptyResult, errors_Join [Some err; cleanupErr; auditErr])
  end.

(** [Execute] with one: start it, and see how it ends. *)
Definition runCreated (ctx : Deadline) (name : string) (request : SandboxRequest) (timeout limit : Z) (containerID : string)
    : M Machine Executed :=
  let runContext := Within ctx timeout in
  ran ← startOwnedContainer runContext containerID (default "" (sq_Stdin request));
  let '(result, outputBytes) := outcome limit ran in
  deadline ← contextErr runContext;
  if is_err deadline DeadlineExceeded then interrupted name request timeout limit outputBytes result true
  else
    canceled ← contextErr runContext;
    if is_err canceled ContextCanceled then interrupted name request timeout limit outputBytes result false
    else finished name request timeout limit outputBytes result (rn_err ran).

Definition executeContainer (ctx : Deadline) (request : SandboxRequest) (timeout limit : Z) : M Machine Executed :=
  name ← nextContainerName "exec";
  acquire name request (notCreated ctx name request timeout limit) (runCreated ctx name request timeout limit).

(** [Execute] *)
Definition Execute (ctx : Deadline) (request : SandboxRequest) : M Machine Executed :=
  s ← self;
  if ds_destroyed s || ds_destroying s || ds_provisioningFailed s then
    e ← recordDenied request (Sentinel ErrDestroyed); mret (emptyResult, e)
  else
    match validateContainerCommand (sq_Command request),
          validateEnvironment (dc_EnvAllowlist (ds_config s)) (sq_Environment request) with
    | Err e, _ | Ok _, Err e => e ← recordDenied request e; mret (emptyResult, e)
    | Ok _, Ok _ =>
        let timeout := clamp (sq_Timeout request) (dc_CommandTimeout (ds_config s)) in
        let limit := clamp (sq_OutputLimit request) (dc_OutputLimit (ds_config s)) in
        ctxErr ← contextErr ctx;
        match ctxErr with
        | Some e => interruptedBeforeStart request timeout limit e None
        | None => executeContainer ctx request timeout limit
        end
    end.
End docker.
