(* ===== verification/DockerProvider.v ===== *)
(** * The life of docker sandboxes: Create, Destroy and Cleanup of docker.go

    A provider creates sandboxes and keeps those whose destruction has not been
    confirmed and audited.  [Create] and [Cleanup] hold the provider's mutex. *)
From S2P Require Import Prelude Sha256 GoLib Effect AuditLog ToolService Host Docker.

(** ** The workspace *)

Section workspace.
Context {W : Type} `{Host W}.

(** [hideWorktreeGitPointer] *)
Definition rollbackPointer (gitPointer original : string) (perm : Z) (cause : error) : M W string :=
  writeErr ← attempt (WriteFile gitPointer original perm);
  chmodErr ← attempt (Chmod gitPointer perm);
  throw (default cause (errors_Join [Some cause; writeErr; chmodErr])).

Definition hideWorktreeGitPointer (workspace : string) : M W string :=
  let gitPointer := filepath_Join [workspace; ".git"] in
  info ← wrapM (Lstat gitPointer);
  if negb (bool_decide (md_kind info = KindRegular)) then throw (Plain "disposable worktree .git pointer is not a regular file")
  else
    original ← wrapM (ReadFile gitPointer);
    _ ← wrapM (WriteFile gitPointer sanitizedGitPointer 292);
    protected ← try (wrapM (Chmod gitPointer 292));
    match protected with
    | Err cause => rollbackPointer gitPointer original (md_perm info) cause
    | Ok _ =>
        rootInfo ← try (wrapM (Stat workspace));
        match rootInfo with
        | Err cause => rollbackPointer gitPointer original (md_perm info) cause
        | Ok rootInfo =>
            opened ← try (wrapM (Chmod workspace (Z.lor (md_perm rootInfo) 7)));
            match opened with
            | Err cause => rollbackPointer gitPointer original (md_perm info) cause
            | Ok _ => mret original
            end
        end
    end.

Definition restoreWorktreeGitPointer (workspace original : string) : M W unit :=
  let gitPointer := filepath_Join [workspace; ".git"] in
  _ ← wrapM (Chmod gitPointer 384);
  wrapM (WriteFile gitPointer original 384).

(** The function [prepareWorkspacePermissions] walks with, for an entry. *)
Definition permitEntry (path : string) (kind : FileKind) (info : M W FileMode) : M W unit :=
  if decide (kind = KindSymlink) then mret tt
  else
    mode ← info;
    Chmod path (if decide (kind = KindDirectory) then Z.lor (md_perm mode) 7
                else if decide (md_kind mode = KindRegular) then Z.lor (md_perm mode) 6 else md_perm mode).

(** [filepath.WalkDir]: a name of the system has at most 4096 bytes, so the walk is
    never deeper. *)
Fixpoint walkDir (fuel : nat) (path : string) (kind : FileKind) (info : M W FileMode) : M W unit :=
  match fuel with
  | O => throw (Plain "file name too long")
  | S n =>
      _ ← permitEntry path kind info;
      if negb (bool_decide (kind = KindDirectory)) then mret tt
      else
        entries ← ReadDir path;
        for_each (fun entry => let child := filepath_Join [path; fst entry] in walkDir n child (snd entry) (Lstat child)) entries
  end.

Definition walkDepth : nat := 4096.

Definition prepareWorkspacePermissions (workspace : string) : M W unit :=
  wrapM (info ← Lstat workspace; walkDir walkDepth workspace (md_kind info) (mret info)).
End workspace.

Section provider.
Context {W H : Type} `{Host W} `{Worktrees W H}.

(** The order in which a [range] meets the keys of a map. *)
Variable range : forall {A : Type}, gmap string A -> list string.

Abbreviation dockerSandbox := (@dockerSandbox W H).
Abbreviation Machine := (@Machine W H).

(** A worktree that is given up: its pointer restored, then destroyed, or hidden again. *)
Definition rollbackWorktreeAfterCreateFailure (ctx : Deadline) (worktree : H) (original : string) : M W (option error) :=
  let workspace := worktree_Workspace (W := W) worktree in
  restoreErr ← attempt (restoreWorktreeGitPointer workspace original);
  destroyErr ← attempt (worktree_Destroy ctx worktree);
  sanitizeErr ← (match destroyErr with Some _ => attempt (hideWorktreeGitPointer workspace) | None => mret None end);
  mret (errors_Join [restoreErr; destroyErr; sanitizeErr]).

(** ** Destroying a sandbox *)

Definition cleanupRequest : SandboxRequest := MkSandboxRequest [helper; "cleanup"] None ∅ 0 0 "" "".

Definition cleanupWorkspace (ctx : Deadline) : M Machine unit :=
  name ← nextContainerName "cleanup";
  acquire name cleanupRequest
    (fun err =>
       cleanupErr ← attempt (cleanupFailedCreate name);
       return_err (errors_Join [Some (Wrap err); cleanupErr]))
    (fun containerID =>
       ran ← startOwnedContainer (Within ctx (10 * second)) containerID "";
       removeErr ← attempt (removeTrackedContainer name);
       match rn_err ran with
       | Some runErr => return_err (errors_Join [Some (Wrap runErr); removeErr])
       | None => return_err removeErr
       end).

Definition scanCommand (s : dockerSandbox) : Cmd :=
  docker ["ps"; "-a"; "--no-trunc"; "--filter"; "label=agentdock.owner_token=" +:+ ds_ownerToken s;
          "--format"; "{{.ID}}" +:+ string_of_bytes [9%Z] +:+ "{{.Names}}"] "".

(** The containers with a name or an identifier are tracked no more. *)
Definition forgetRemoved (name containerID : string) : M Machine unit :=
  update (fun s =>
    let gone := fun kv : string * string => fst kv = name \/ snd kv = containerID in
    (s <| ds_containers := filter (fun kv => ~ gone kv) (ds_containers s) |>)
      <| ds_uncertainContainers := filter (fun kv => fst kv ∉ dom (filter gone (ds_containers s))) (ds_uncertainContainers s) |>).

(** One row of the scan: the errors it adds. *)
Definition scanRow (line : string) : M Machine (list (option error)) :=
  if decide (line = "") then mret []
  else match cut_at tab line with
  | None => mret [Some (Plain "invalid provider-owned container row")]
  | Some (containerID, name) =>
      if negb (isObjectID containerID) || bool_decide (name = "") then mret [Some (Plain "invalid provider-owned container row")]
      else
        found ← try (inspectContainer containerID);
        match found with
        | Err e => mret [Some e]
        | Ok (ownedID, exists_, owned) =>
            if negb exists_ || negb owned || bool_decide (ownedID <> containerID) then mret []
            else
              removed ← try (removeOwnedContainer containerID);
              match removed with
              | Err e => mret [Some e]
              | Ok false => mret [Some (Plain "owned container was not removed")]
              | Ok true => _ ← forgetRemoved name containerID; mret []
              end
        end
  end.

Definition removeProviderOwnedContainers : M Machine unit :=
  s ← self;
  '(output, truncated, err) ← host (boundedCommandOutput (Within Background (5 * second)) (scanCommand s) (Z.shiftl 1 20));
  match err with
  | Some e => throw (Wrap e)
  | None =>
      if (truncated : bool) then throw (Plain "scan provider-owned containers exceeded 1 MiB")
      else cleanupErr ← join_each scanRow None (strings_Split (TrimSpace output) newline); return_err cleanupErr
  end.

Definition forgetProviderOwnership : M Machine unit :=
  modify (fun m => MkMachine (mc_self m) (mc_counter m) (delete (ds_ownerToken (mc_self m)) (mc_owners m))
    (delete (ds_ownerToken (mc_self m)) (mc_pending m)) (mc_host m)).

(** [defer func() { if auditErr == nil { forget } }] of both ends of [Destroy] *)
Definition recordDestroyed : M Machine (option error) :=
  auditErr ← recordDestroy;
  match auditErr with None => _ ← forgetProviderOwnership; mret None | Some _ => mret auditErr end.

(** A name that a loop over the containers meets: it is skipped when it was deleted. *)
Definition present (name : string) (m : M Machine (list (option error))) : M Machine (list (option error)) :=
  s ← self; match ds_containers s !! name with Some _ => m | None => mret [] end.

Definition firstPass (name : string) : M Machine (list (option error)) := present name (
  killErr ← attempt (killTrackedContainer name);
  removeErr ← attempt (removeTrackedContainer name);
  mret (killErr :: (match removeErr with
                    | Some e => if errors_Is e ErrContainerOutcomeUnknown then [] else [Some e]
                    | None => []
                    end))).

Definition secondPass (name : string) : M Machine (list (option error)) := present name (
  removeErr ← attempt (removeTrackedContainer name);
  mret [removeErr]).

(** The containers: tracked, found by their label, and tracked again. *)
Definition destroyContainers : M Machine (option error) :=
  s ← self;
  containerErr ← join_each firstPass None (range (ds_containers s));
  scanErr ← attempt removeProviderOwnedContainers;
  s ← self;
  containerErr ← join_each secondPass (errors_Join [containerErr; scanErr]) (range (ds_containers s));
  s ← self;
  if decide (ds_containers s = ∅) then mret containerErr
  else mret (Some (default (Sentinel ErrContainerOutcomeUnknown) containerErr)).

(** The worktree, once no container is left. *)
Definition destroyWorktree (cleanupCtx : Deadline) : M Machine (option error) :=
  s ← self;
  let workspace := worktree_Workspace (W := W) (ds_worktree s) in
  restoreErr ← (if ds_gitPointerSanitized s then attempt (host (restoreWorktreeGitPointer workspace (ds_gitPointer s)))
                else mret None);
  destroyErr ← attempt (host (worktree_Destroy cleanupCtx (ds_worktree s)));
  match destroyErr with
  | None =>
      _ ← update (fun s => s <| ds_destroyed := true |>);
      auditErr ← recordDestroyed;
      mret (errors_Join [restoreErr; auditErr])
  | Some _ =>
      sanitizeErr ← (if ds_gitPointerSanitized s then attempt (host (hideWorktreeGitPointer workspace)) else mret None);
      mret (errors_Join [restoreErr; destroyErr; sanitizeErr])
  end.

(** [Destroy] without its deferred function *)
Definition destroyBody : M Machine (option error) :=
  s ← self;
  if ds_destroyed s then
    if ds_destroyAudited s then _ ← forgetProviderOwnership; mret None
    else recordDestroyed
  else
    _ ← update (fun s => s <| ds_destroying := true |>);
    let cleanupCtx := Within Background (30 * second) in
    containerErr ← destroyContainers;
    match containerErr with
    | Some e => mret (Some e)
    | None =>
        cleanupErr ← (if ds_provisioningFailed s then mret None else attempt (cleanupWorkspace cleanupCtx));
        match cleanupErr with
        | Some e => mret (Some e)
        | None => destroyWorktree cleanupCtx
        end
    end.

Definition Destroy : M Machine (option error) :=
  resultErr ← destroyBody;
  s ← self;
  match resultErr with
  | Some e =>
      if ds_destroyed s then mret resultErr
      else auditErr ← recordDestroyFailed e; mret (errors_Join [resultErr; auditErr])
  | None => mret None
  end.

(** ** The provider *)

(** A sandbox is known by its number among all that were made. *)
Record DockerProvider : Type := MkDockerProvider {
  dp_config : DockerConfig W;
  dp_counter : Z;
  dp_owners : gmap string Scope;
  dp_pending : gmap string nat;
  dp_objects : list dockerSandbox;
  dp_host : W
}.

Definition NewDockerProvider (config : DockerConfig W) (w : W) : DockerProvider :=
  MkDockerProvider (withDefaults config) 0 ∅ ∅ [] w.

(** A method of one sandbox. *)
Definition onObject {A} (i : nat) (method : M Machine A) : M DockerProvider A := fun p =>
  match dp_objects p !! i with
  | Some s =>
      let '(r, m) := method (MkMachine s (dp_counter p) (dp_owners p) (dp_pending p) (dp_host p)) in
      (r, MkDockerProvider (dp_config p) (mc_counter m) (mc_owners m) (mc_pending m) (<[i := mc_self m]> (dp_objects p)) (mc_host m))
  | None => (Err (Plain "nil pointer"), p)
  end.

Definition onHost {A} (c : M W A) : M DockerProvider A := fun p =>
  let '(r, w) := c (dp_host p) in
  (r, MkDockerProvider (dp_config p) (dp_counter p) (dp_owners p) (dp_pending p) (dp_objects p) w).

Definition setOwners (f : gmap string Scope -> gmap string Scope) : M DockerProvider unit := modify (fun p =>
  MkDockerProvider (dp_config p) (dp_counter p) (f (dp_owners p)) (dp_pending p) (dp_objects p) (dp_host p)).

(** [resolveImage] *)
Definition imageValid (imageID : string) : bool :=
  HasPrefix imageID "sha256:" && bool_decide (String.length imageID = 71).

Definition resolveImage (ctx : Deadline) (reference : string) : M W string :=
  ran ← always (exec ctx (docker ["image"; "inspect"; "--format"; "{{.Id}}"; reference] ""));
  match rn_err ran with
  | Some e => throw (Wrap e)
  | None =>
      let imageID := TrimSpace (combined ran) in
      if imageValid imageID then mret imageID else throw (Plain "sandbox image resolved to invalid ID")
  end.

(** [recordCreateFailed] *)
Definition recordCreateFailed (spec : Spec) (stage immutableImage : string) (cause : error) : M DockerProvider (option error) :=
  p ← gets dp_config;
  auditErr ← attempt (onHost (record p (scopedAudit p spec immutableImage AuditSandboxCreateFailed
    ("sandbox provisioning failed during " +:+ stage))));
  mret (errors_Join [Some cause; Wrap <$> auditErr]).

(** What [Create] returns: a sandbox or nil, and an error. *)
Definition CreatedSandbox : Type := option nat * option error.

Definition createFailed (spec : Spec) (stage immutableImage : string) (cause : error) (i : option nat)
    : M DockerProvider CreatedSandbox :=
  e ← recordCreateFailed spec stage immutableImage cause; mret (i, e).

Definition newPendingSandbox (config : DockerConfig W) (spec : Spec) (worktree : H) (ownerToken : string)
    : M DockerProvider nat := fun p =>
  let i := length (dp_objects p) in
  (Ok i, MkDockerProvider (dp_config p) (dp_counter p) (dp_owners p) (<[ownerToken := i]> (dp_pending p))
     (dp_objects p ++ [MkDockerSandbox config spec worktree "" false ownerToken ∅ ∅ true false false false]) (dp_host p)).

Definition failProvisioning (i : nat) (spec : Spec) (stage immutableImage : string) (cause : error)
    : M DockerProvider CreatedSandbox :=
  cleanupErr ← onObject i Destroy;
  reported ← recordCreateFailed spec stage immutableImage (default cause (errors_Join [Some cause; cleanupErr]));
  mret (match cleanupErr with None => None | Some _ => Some i end, reported).

(** The configuration of a sandbox: the image is the one that was resolved. *)
Definition withImage (config : DockerConfig W) (image : string) : DockerConfig W :=
  MkDockerConfig image (dc_WorktreeRoot config) (dc_CPU config) (dc_Memory config) (dc_PIDs config)
    (dc_CommandTimeout config) (dc_OutputLimit config) (dc_EnvAllowlist config) (dc_Audit config).

(** [Create] from the worktree on *)
Definition provision (i : nat) (spec : Spec) (immutableImage workspace : string) : M DockerProvider CreatedSandbox :=
  permitted ← attempt (onHost (prepareWorkspacePermissions workspace));
  match permitted with
  | Some e => failProvisioning i spec "workspace permission setup" immutableImage e
  | None =>
      hidden ← try (onHost (hideWorktreeGitPointer workspace));
      match hidden with
      | Err e => failProvisioning i spec "Git pointer sanitization" immutableImage e
      | Ok gitPointer =>
          _ ← onObject i (update (fun s => (s <| ds_gitPointer := gitPointer |>) <| ds_gitPointerSanitized := true |>));
          recorded ← attempt (onObject i recordCreate);
          match recorded with
          | Some e => failProvisioning i spec "sandbox_created audit" immutableImage e
          | None =>
              _ ← onObject i (update (fun s => s <| ds_provisioningFailed := false |>));
              mret (Some i, None)
          end
      end
  end.

Definition createOwned (ctx : Deadline) (spec : Spec) (immutableImage ownerToken : string) : M DockerProvider CreatedSandbox :=
  _ ← setOwners (insert ownerToken (MkScope (sp_RunID spec) (sp_AttemptID spec)));
  config ← gets dp_config;
  created ← onHost (always (worktree_Create ctx spec));
  match created with
  | CreateFailed None e =>
      _ ← setOwners (delete ownerToken);
      createFailed spec "disposable worktree creation" immutableImage e None
  | CreateFailed (Some worktree) e =>
      i ← newPendingSandbox (withImage config immutableImage) spec worktree ownerToken;
      createFailed spec "disposable worktree creation" immutableImage e (Some i)
  | Created worktree =>
      i ← newPendingSandbox (withImage config immutableImage) spec worktree ownerToken;
      provision i spec immutableImage (worktree_Workspace (W := W) worktree)
  end.

Definition Create (ctx : Deadline) (spec : Spec) : M DockerProvider CreatedSandbox :=
  config ← gets dp_config;
  match dc_Audit config with
  | None => mret (None, Some (Plain "phase-4 audit recorder is required"))
  | Some _ =>
      match validateDockerConfig config with
      | Err e => createFailed spec "configuration validation" "" e None
      | Ok _ =>
          resolved ← try (onHost (resolveImage ctx (dc_Image config)));
          match resolved with
          | Err e => createFailed spec "immutable image resolution" "" e None
          | Ok immutableImage =>
              token ← try (onHost newOwnerToken);
              match token with
              | Err e => createFailed spec "owner token generation" immutableImage e None
              | Ok ownerToken => createOwned ctx spec immutableImage ownerToken
              end
          end
      end
  end.

(** [Cleanup]: each sandbox that is pending when the iteration reaches it. *)
Definition destroyPending (token : string) : M DockerProvider (list (option error)) :=
  pending ← gets dp_pending;
  match pending !! token with
  | Some i => e ← onObject i Destroy; mret [e]
  | None => mret []
  end.

Definition Cleanup : M DockerProvider (option error) :=
  pending ← gets dp_pending;
  join_each destroyPending None (range pending).

(** [ActiveContainers]: the rows of the containers that are this provider's. *)
Definition activeRow (owners : gmap string Scope) (line : string) : list string :=
  match strings_SplitN 4 (TrimSpace line) tab with
  | [token; runID; attemptID; name] =>
      match owners !! token with
      | Some scope =>
          if decide (sc_RunID scope = runID /\ sc_AttemptID scope = attemptID /\ name <> "") then [name] else []
      | None => []
      end
  | _ => []
  end.

Definition activeFormat : string :=
  double_quoted "{{.Label 'agentdock.owner_token'}}" +:+ string_of_bytes [9%Z] +:+
  double_quoted "{{.Label 'agentdock.run_id'}}" +:+ string_of_bytes [9%Z] +:+
  double_quoted "{{.Label 'agentdock.attempt_id'}}" +:+ string_of_bytes [9%Z] +:+ "{{.Names}}".

Definition ActiveContainers (ctx : Deadline) : M DockerProvider (list string) :=
  ran ← onHost (always (exec ctx (docker ["ps"; "-a"; "--no-trunc"; "--filter"; "label=agentdock.phase=4"; "--format"; activeFormat] "")));
  match rn_err ran with
  | Some _ => mret ["<docker-query-failed>"]
  | None =>
      owners ← gets dp_owners;
      mret (sort_Strings (concat (map (activeRow owners)
        (strings_Split (concat_strings (stdout_of (rn_writes ran))) newline))))
  end.

(** The sandbox the tool service works with. *)
Definition asSandbox (i : nat) (s : dockerSandbox) : Sandbox DockerProvider := {|
  sb_Execute := fun ctx request p =>
    match onObject i (Execute (ContextOf ctx) request) p with
    | (Ok executed, p') => (executed, p')
    | (Err e, p') => ((emptyResult, Some e), p')
    end;
  sb_Scope := MkScope (sp_RunID (ds_spec s)) (sp_AttemptID (ds_spec s));
  sb_Workspace := worktree_Workspace (W := W) (ds_worktree s)
|}.
End provider.
