(* ===== verification/Worktree.v ===== *)
(** * Disposable Git worktrees: internal/sandbox/worktree.go

    A worktree is a directory of its own below a private root, filled from the objects
    of a commit without running what the repository configures.  The provider keeps it
    until its removal is confirmed. *)
From S2P Require Import Prelude Sha256 GoLib Regexp Effect Policy Helper ToolService Host.

(** ** The system *)

(** What [os] and [path/filepath] give beyond [Host]: [file_Identity] is what
    [os.SameFile] compares, [file_Owner] the user of a file when the system tells it, and
    the [root] operations are those of [os.Root] on an opened directory;
    [exec_to_file] runs a process whose standard output is an opened file. *)
Class WorktreeHost (W : Type) : Type := {
  os_getwd : M W string;
  os_TempDir : W -> string;
  os_Geteuid : W -> Z;
  filepath_EvalSymlinks : string -> M W string;
  file_Identity : string -> M W (Z * Z);
  file_Owner : string -> M W (option Z);
  os_MkdirAll : string -> Z -> M W unit;
  os_Mkdir : string -> Z -> M W unit;
  os_Remove : string -> M W unit;
  os_RemoveAll : string -> M W unit;
  tree_OpenRoot : string -> M W unit;
  tree_MkdirAll : string -> Z -> M W unit;
  tree_Create : string -> Z -> M W unit;
  tree_Close : string -> M W unit;
  tree_Remove : string -> M W unit;
  tree_Symlink : string -> string -> M W unit;
  exec_to_file : Deadline -> Cmd -> string -> W -> Ran * W
}.

(** ** Pure parts *)

(** [safeGitCommand] *)
Definition safeGitArguments : list string :=
  [ "-c"; "core.hooksPath=/dev/null"; "-c"; "core.fsmonitor=false"; "-c"; "protocol.allow=never";
    "-c"; "protocol.ext.allow=never" ].

Definition safeGitEnvironment : list string :=
  [ "GIT_CONFIG_NOSYSTEM=1"; "GIT_CONFIG_GLOBAL=/dev/null"; "GIT_NO_LAZY_FETCH=1"; "GIT_NO_REPLACE_OBJECTS=1";
    "GIT_OPTIONAL_LOCKS=0"; "GIT_PROTOCOL_FROM_USER=0"; "GIT_TERMINAL_PROMPT=0"; "HOME=/nonexistent"; "LANG=C";
    "LC_ALL=C"; "TMPDIR=/tmp" ].

Definition safeGitCommand (repository : string) (arguments : list string) : Cmd :=
  MkCmd "git" (safeGitArguments ++ arguments) repository (Some safeGitEnvironment) "".

(** The test of [Create] on its specification *)
Definition unsafe_runes : list Ascii.ascii := map ascii_of_Z [0; 13; 10; 9]%Z.

Definition specInvalid (spec : Spec) : bool :=
  bool_decide (sp_RunID spec = "" \/ sp_AttemptID spec = "" \/ sp_Repository spec = "" \/ sp_Revision spec = "") ||
  HasPrefix (sp_Revision spec) "-" || ContainsAny (sp_RunID spec) unsafe_runes ||
  ContainsAny (sp_AttemptID spec) unsafe_runes || ContainsAny (sp_Revision spec) [ascii_of_Z 0].

(** [validateTreePath] *)
Definition treePathValid (name : string) : bool :=
  let first := match cut_at slash name with Some (before, _) => before | None => name end in
  ValidPath name && negb (bool_decide (name = ".")) && negb (EqualFold first ".git") && negb (EqualFold first ".agentdock").

(** The lexical part of [pathWithin] *)
Definition lexicallyWithin (root candidate : string) : bool :=
  match filepath_Rel root candidate with
  | None => false
  | Some relative =>
      negb (rooted relative) &&
      (bool_decide (relative = ".") || (negb (bool_decide (relative = "..")) && negb (HasPrefix relative "../")))
  end.

(** [filepath.Dir] *)
Fixpoint last_slash (s : string) : option nat :=
  match s with
  | EmptyString => None
  | String c rest =>
      match last_slash rest with
      | Some n => Some (S n)
      | None => if decide (c = slash) then Some 0 else None
      end
  end.

Definition filepath_Dir (path : string) : string :=
  filepath_Clean (match last_slash path with Some n => str_take (S n) path | None => "" end).

(** [filepath.Base] of a cleaned path that is not the root *)
Definition filepath_Base (path : string) : string := default "" (last (components path)).

(** One entry of [git ls-tree]: a directory for a submodule, or a blob. *)
Inductive TreeEntry : Type :=
  | TreeGitlink (name : string)
  | TreeBlob (mode objectID name : string) (size : Z).

(** What the loop of [materializeGitTree] makes of an entry before it calls anything. *)
Definition treeEntry (encoded : string) : result TreeEntry :=
  match cut_at tab encoded with
  | None => Err (Plain "malformed git ls-tree entry")
  | Some (metadata, name) =>
      let gitlink (type : string) :=
        if decide (type = "commit") then Ok (TreeGitlink name) else Err (Plain "unsupported git tree entry") in
      match strings_Fields metadata with
      | [mode; type; objectID; sizeText] =>
          if bool_decide (type = "blob") && isObjectID objectID then
            match ParseInt sizeText with
            | Some size =>
                if (size <? 0)%Z then Err (Plain "invalid git blob size")
                else if negb (treePathValid name) then Err (Plain "unsafe Git tree path")
                else Ok (TreeBlob mode objectID name size)
            | None => Err (Plain "invalid git blob size")
            end
          else gitlink type
      | _ :: type :: _ => gitlink type
      | _ => Err (Plain "unsupported git tree entry")
      end
  end.

Section worktree.
Context {W : Type} `{Host W} `{WorktreeHost W}.

(** ** Git *)

Definition gitOutput (ctx : Deadline) (repository : string) (arguments : list string) : M W string :=
  ran ← always (exec ctx (safeGitCommand repository arguments));
  match rn_err ran with
  | Some e => throw (Wrap e)
  | None =>
      let stdout := collectOne (Z.shiftl 16 20) (stdout_of (rn_writes ran)) in
      if lb_truncated stdout then throw (Plain "git output exceeds 16 MiB") else mret (lb_buffer stdout)
  end.

(** ** Paths *)

Definition filepath_abs (path : string) : M W string :=
  if rooted path then mret (filepath_Clean path) else wd ← os_getwd; mret (filepath_Join [wd; path]).

(** The walk of [canonicalProspectivePath] to the first existing ancestor, and the names
    that are missing below it, the last one first. *)
Fixpoint existingAncestor (fuel : nat) (current : string) (missing : list string) : M W (string * list string) :=
  match fuel with
  | O => throw (Plain "path too long")
  | S n =>
      found ← attempt (Lstat current);
      match found with
      | None => mret (current, missing)
      | Some e =>
          if negb (errors_Is e FileNotExist) then throw e
          else
            let parent := filepath_Dir current in
            if decide (parent = current) then throw e
            else existingAncestor n parent (missing ++ [filepath_Base current])
      end
  end.

Definition canonicalProspectivePath (candidate : string) : M W string :=
  let clean := filepath_Clean candidate in
  '(current, missing) ← existingAncestor (S (String.length clean)) clean [];
  canonical ← filepath_EvalSymlinks current;
  mret (foldl (fun path name => filepath_Join [path; name]) canonical (reverse missing)).

(** The comparison of [pathWithin] by identity of the ancestors *)
Fixpoint ancestorIs (fuel : nat) (identity : Z * Z) (current : string) : M W bool :=
  match fuel with
  | O => mret false
  | S n =>
      info ← try (file_Identity current);
      if (match info with Ok other => bool_decide (other = identity) | Err _ => false end) then mret true
      else
        let next := filepath_Dir current in
        if decide (next = current) then mret false else ancestorIs n identity next
  end.

Definition pathWithin (root candidate : string) : M W bool :=
  if lexicallyWithin root candidate then mret true
  else
    rootInfo ← try (file_Identity root);
    match rootInfo with
    | Err _ => mret false
    | Ok identity =>
        let clean := filepath_Clean candidate in ancestorIs (S (String.length clean)) identity clean
    end.

(** ** Filling the worktree *)

(** [makeMaterializedDirectory] *)
Definition makeMaterializedDirectory (name : string) : M W unit :=
  if negb (treePathValid name) then throw (Plain "unsafe Git tree path") else wrapM (tree_MkdirAll name 448).

Definition removeAfter (name : string) (e : option error) : M W unit :=
  match e with None => mret tt | Some e => _ ← attempt (tree_Remove name); throw (Wrap e) end.

Definition materializeBlob (ctx : Deadline) (repository name objectID : string) (mode : Z) : M W unit :=
  _ ← wrapM (tree_Create name mode);
  ran ← always (exec_to_file ctx (safeGitCommand repository ["cat-file"; "blob"; objectID]) name);
  closeErr ← attempt (tree_Close name);
  match rn_err ran with
  | Some e => removeAfter name (Some e)
  | None => removeAfter name closeErr
  end.

Definition materializeLink (ctx : Deadline) (repository name objectID : string) (size : Z) : M W unit :=
  if (4096 <? size)%Z then throw (Plain "symlink target exceeds 4096 bytes")
  else
    target ← gitOutput ctx repository ["cat-file"; "blob"; objectID];
    if negb (len target =? size)%Z then throw (Plain "symlink target size mismatch")
    else wrapM (tree_Symlink target name).

Definition materializeEntry (ctx : Deadline) (repository encoded : string) : M W unit :=
  if decide (encoded = "") then mret tt
  else
    entry ← lift (treeEntry encoded);
    match entry with
    | TreeGitlink name => makeMaterializedDirectory name
    | TreeBlob mode objectID name size =>
        _ ← wrapM (tree_MkdirAll (path_Dir name) 448);
        if decide (mode = "100644") then materializeBlob ctx repository name objectID 384
        else if decide (mode = "100755") then materializeBlob ctx repository name objectID 448
        else if decide (mode = "120000") then materializeLink ctx repository name objectID size
        else throw (Plain "unsupported git file mode")
    end.

Definition materializeGitTree (ctx : Deadline) (repository workspace revision : string) : M W unit :=
  tree ← gitOutput ctx repository ["ls-tree"; "-r"; "-z"; "--full-tree"; "-l"; revision];
  _ ← tree_OpenRoot workspace;
  for_each (materializeEntry ctx repository) (strings_Split tree nul).

(** ** Removing it *)

Fixpoint registered_in (cleanWorkspace : string) (lines : list string) : bool :=
  match lines with
  | [] => false
  | line :: rest =>
      match CutPrefix line "worktree " with
      | Some value => bool_decide (filepath_Clean value = cleanWorkspace) || registered_in cleanWorkspace rest
      | None => registered_in cleanWorkspace rest
      end
  end.

Definition worktreeRegistered (ctx : Deadline) (repository workspace : string) : M W bool :=
  list ← gitOutput ctx repository ["worktree"; "list"; "--porcelain"];
  mret (registered_in (filepath_Clean workspace) (strings_Split list newline)).

Definition cleanupKnownWorktree (ctx : Deadline) (repository root workspace : string) : M W unit :=
  within ← pathWithin root workspace;
  if negb within || bool_decide (workspace = root) then throw (Plain "refusing to clean worktree outside configured root")
  else
    '(_, _, removeErr) ← boundedCommandOutput ctx
       (safeGitCommand repository ["worktree"; "remove"; "--force"; workspace]) (Z.shiftl 64 10);
    registered ← try (worktreeRegistered ctx repository workspace);
    match registered, removeErr with
    | Err inspectErr, None => throw (Wrap inspectErr)
    | Err inspectErr, Some e => return_err (errors_Join [Some (Wrap e); Some inspectErr])
    | Ok true, None => throw (Plain "worktree remains registered after successful remove")
    | Ok true, Some e => throw (Wrap e)
    | Ok false, _ => wrapM (os_RemoveAll workspace)
    end.

(** [validateAllocatedWorktree] *)
Definition validateAllocatedWorktree (workspace : string) : M W unit :=
  info ← try (Lstat workspace);
  match info with
  | Ok (MkFileMode KindDirectory 448) =>
      canonical ← try (filepath_EvalSymlinks workspace);
      match canonical with
      | Ok path => if decide (path = workspace) then mret tt else throw (Plain "allocated worktree path changed during validation")
      | Err _ => throw (Plain "allocated worktree path changed during validation")
      end
  | _ => throw (Plain "allocated worktree path is not a private directory")
  end.

(** ** The provider *)

(** A worktree: its number, and what does not change; whether it is destroyed is kept
    by the provider's state. *)
Record gitWorktree : Type := MkGitWorktree {
  gw_id : nat;
  gw_repository : string;
  gw_root : string;
  gw_workspace : string;
  gw_scope : Scope
}.

Record GitWorktreeProvider : Type := MkGitWorktreeProvider {
  gp_root : string;
  gp_pending : gmap string gitWorktree;
  gp_count : nat;
  gp_destroyed : gset nat;
  gp_host : W
}.

Definition NewGitWorktreeProvider (root : string) (w : W) : GitWorktreeProvider := MkGitWorktreeProvider root ∅ 0 ∅ w.

Definition system {A} (c : M W A) : M GitWorktreeProvider A := fun p =>
  let '(r, w) := c (gp_host p) in (r, MkGitWorktreeProvider (gp_root p) (gp_pending p) (gp_count p) (gp_destroyed p) w).

Definition setPending (f : gmap string gitWorktree -> gmap string gitWorktree) : M GitWorktreeProvider unit := modify (fun p =>
  MkGitWorktreeProvider (gp_root p) (f (gp_pending p)) (gp_count p) (gp_destroyed p) (gp_host p)).

(** [gitWorktree.Destroy] *)
Definition destroyGitWorktree (worktree : gitWorktree) : M GitWorktreeProvider unit :=
  p ← gets id;
  if decide (gw_id worktree ∈ gp_destroyed p) then mret tt
  else
    _ ← system (cleanupKnownWorktree (Within Background (15 * second)) (gw_repository worktree) (gw_root worktree)
          (gw_workspace worktree));
    _ ← modify (fun p => MkGitWorktreeProvider (gp_root p) (gp_pending p) (gp_count p)
          ({[ gw_id worktree ]} ∪ gp_destroyed p) (gp_host p));
    setPending (delete (gw_workspace worktree)).

Definition allocatedPath (root : string) (spec : Spec) (token : string) : string :=
  filepath_Join [root; safeName (sp_RunID spec) +:+ "-" +:+ safeName (sp_AttemptID spec) +:+ "-" +:+ token].

(** [allocatePendingWorktree], with the attempts left *)
Fixpoint allocate (attempts : nat) (repository root : string) (spec : Spec) : M GitWorktreeProvider gitWorktree :=
  match attempts with
  | O => throw (Plain "allocate unique worktree path after 8 attempts")
  | S more =>
      token ← wrapM (system newOwnerToken);
      let workspace := allocatedPath root spec token in
      within ← system (pathWithin root workspace);
      if negb within || bool_decide (workspace = root) then throw (Plain "generated worktree path escaped the configured root")
      else
        p ← gets id;
        match gp_pending p !! workspace with
        | Some _ => allocate more repository root spec
        | None =>
            let worktree := MkGitWorktree (gp_count p) repository root workspace (MkScope (sp_RunID spec) (sp_AttemptID spec)) in
            _ ← modify (fun p => MkGitWorktreeProvider (gp_root p) (<[workspace := worktree]> (gp_pending p)) (S (gp_count p))
                  (gp_destroyed p) (gp_host p));
            made ← attempt (system (os_Mkdir workspace 448));
            match made with
            | None => mret worktree
            | Some e =>
                _ ← setPending (delete workspace);
                if errors_Is e FileExists then allocate more repository root spec else throw (Wrap e)
            end
        end
  end.

Definition allocatePendingWorktree : string -> string -> Spec -> M GitWorktreeProvider gitWorktree := allocate 8.

(** The checks of [Create] before it allocates: the canonical repository and root. *)
Definition canonicalRepository (ctx : Deadline) (spec : Spec) : M W string :=
  repository ← wrapM (filepath_abs (sp_Repository spec));
  topLevel ← gitOutput ctx repository ["rev-parse"; "--show-toplevel"];
  canonical ← wrapM (filepath_EvalSymlinks repository);
  canonicalTopLevel ← wrapM (filepath_EvalSymlinks (TrimSpace topLevel));
  if decide (canonical <> canonicalTopLevel) then throw (Plain "repository is not Git top level") else mret canonical.

(** The owner is part of what [os.Lstat] answers; here it is asked for by a call of its own. *)
Definition privateRoot (configured repository : string) : M W string :=
  temp ← gets os_TempDir;
  absoluteRoot ← wrapM (filepath_abs (if decide (configured = "") then filepath_Join [temp; "agentdock-worktrees"] else configured));
  prospectiveRoot ← wrapM (canonicalProspectivePath absoluteRoot);
  inside ← pathWithin repository prospectiveRoot;
  if (inside : bool) then throw (Plain "worktree root must be outside the source repository")
  else
    _ ← wrapM (os_MkdirAll absoluteRoot 448);
    rootInfo ← wrapM (Lstat absoluteRoot);
    if negb (bool_decide (md_kind rootInfo = KindDirectory)) then throw (Plain "worktree root must be a real directory")
    else
      owner ← file_Owner absoluteRoot;
      user ← gets os_Geteuid;
      if negb (bool_decide (owner = Some user)) then throw (Plain "worktree root must be owned by the current user")
      else if negb (md_perm rootInfo =? 448)%Z then throw (Plain "worktree root permissions must already be 0700")
      else
        canonicalRoot ← wrapM (filepath_EvalSymlinks absoluteRoot);
        inside ← pathWithin repository canonicalRoot;
        if (inside : bool) then throw (Plain "canonical worktree root must be outside the source repository") else mret canonicalRoot.

(** [Create] from the allocated worktree on *)
Definition fillWorktree (ctx : Deadline) (repository : string) (spec : Spec) (temporary : string) : M W unit :=
  _ ← validateAllocatedWorktree temporary;
  _ ← wrapM (os_Remove temporary);
  output ← gitOutput ctx repository ["rev-parse"; "--verify"; sp_Revision spec +:+ "^{commit}"];
  let revision := TrimSpace output in
  if negb (isObjectID revision) then throw (Plain "revision resolved to invalid object ID")
  else
    _ ← wrapM (gitOutput ctx repository ["worktree"; "add"; "--no-checkout"; "--detach"; temporary; revision]);
    wrapM (materializeGitTree ctx repository temporary revision).

(** [failedCreate] *)
Definition failedCreate (worktree : gitWorktree) (cause : error) : M GitWorktreeProvider (CreateResult gitWorktree) :=
  cleanupErr ← attempt (destroyGitWorktree worktree);
  mret (match cleanupErr with
        | None => CreateFailed None cause
        | Some _ => CreateFailed (Some worktree) (default cause (errors_Join [Some cause; cleanupErr]))
        end).

(** The parts of [Create] that fail without a worktree *)
Definition allocateFor (ctx : Deadline) (spec : Spec) : M GitWorktreeProvider gitWorktree :=
  if specInvalid spec then throw (Plain "run_id, attempt_id, repository, and safe revision are required")
  else
    repository ← system (canonicalRepository ctx spec);
    configured ← gets gp_root;
    root ← system (privateRoot configured repository);
    allocatePendingWorktree repository root spec.

Definition createGitWorktree (ctx : Deadline) (spec : Spec) : M GitWorktreeProvider (CreateResult gitWorktree) :=
  allocated ← try (allocateFor ctx spec);
  match allocated with
  | Err e => mret (CreateFailed None e)
  | Ok worktree =>
      filled ← attempt (system (fillWorktree ctx (gw_repository worktree) spec (gw_workspace worktree)));
      match filled with
      | None => mret (Created worktree)
      | Some cause => failedCreate worktree cause
      end
  end.

(** What the docker provider uses of this one: the system behind it, and worktrees. *)
#[export] Instance providerHost : Host GitWorktreeProvider := {|
  ctx_Error := fun ctx p => let '(e, w) := ctx_Error ctx (gp_host p) in
    (e, MkGitWorktreeProvider (gp_root p) (gp_pending p) (gp_count p) (gp_destroyed p) w);
  exec := fun ctx command p => let '(ran, w) := exec ctx command (gp_host p) in
    (ran, MkGitWorktreeProvider (gp_root p) (gp_pending p) (gp_count p) (gp_destroyed p) w);
  sleep := fun d p => MkGitWorktreeProvider (gp_root p) (gp_pending p) (gp_count p) (gp_destroyed p) (sleep d (gp_host p));
  time_Now := fun p => let '(t, w) := time_Now (gp_host p) in
    (t, MkGitWorktreeProvider (gp_root p) (gp_pending p) (gp_count p) (gp_destroyed p) w);
  rand_Read := fun n => system (rand_Read n);
  Lstat := fun path => system (Lstat path);
  Stat := fun path => system (Stat path);
  ReadFile := fun path => system (ReadFile path);
  WriteFile := fun path content perm => system (WriteFile path content perm);
  Chmod := fun path perm => system (Chmod path perm);
  ReadDir := fun path => system (ReadDir path)
|}.

#[export] Instance providerWorktrees : Worktrees GitWorktreeProvider gitWorktree := {|
  worktree_Create := fun ctx spec p =>
    match createGitWorktree ctx spec p with
    | (Ok created, p') => (created, p')
    | (Err e, p') => (CreateFailed None e, p')
    end;
  worktree_Destroy := fun _ worktree => destroyGitWorktree worktree;
  worktree_Workspace := gw_workspace
|}.

(** [Cleanup] and [PendingWorktrees], in the order the map is met *)
Variable range : gmap string gitWorktree -> list string.

Definition cleanupPending (workspace : string) : M GitWorktreeProvider (list (option error)) :=
  pending ← gets gp_pending;
  match pending !! workspace with
  | Some worktree => e ← attempt (destroyGitWorktree worktree); mret [e]
  | None => mret []
  end.

Definition CleanupWorktrees : M GitWorktreeProvider (option error) :=
  pending ← gets gp_pending;
  join_each cleanupPending None (range pending).

Definition PendingWorktrees (p : GitWorktreeProvider) : list string := sort_Strings (range (gp_pending p)).
End worktree.
Arguments GitWorktreeProvider : clear implicits.
