(* ===== verification/DockerFacts.v ===== *)
(** * The commands of a docker sandbox

    What a sandbox may ask of docker, as a property of the sequence of commands it
    issues, and that each of its methods asks for no more. *)
From S2P Require Import Prelude Sha256 GoLib Json Effect AuditLog ToolService Host Docker DockerProvider HostFacts.

(** ** The commands of a host

    A host that remembers the commands that were run and what they did. *)
Section traced.
Context {W : Type} `{Host W}.

Abbreviation Call := (Cmd * Ran)%type.

Variable commands : W -> list Call.

(** No command is run. *)
Definition quiet (w w' : W) : Prop := commands w' = commands w.

#[export] Instance quiet_preorder : PreOrder quiet.
Proof. split; [by intros w|]. unfold quiet. intros w1 w2 w3 E1 E2. congruence. Qed.

(** Commands other than docker *)
Definition foreign (w w' : W) : Prop :=
  exists calls, commands w' = commands w ++ calls /\ Forall (fun call : Call => cm_Name (fst call) <> "docker") calls.

Record Traced : Prop := {
  tr_exec : forall d c w, commands (snd (exec d c w)) = commands w ++ [(c, fst (exec d c w))];
  tr_ctx_Error : forall d w, quiet w (snd (ctx_Error d w));
  tr_sleep : forall d w, quiet w (sleep d w);
  tr_time_Now : forall w, quiet w (snd (time_Now w));
  tr_rand_Read : forall n, respects quiet (rand_Read n);
  tr_Lstat : forall path, respects quiet (Lstat path);
  tr_Stat : forall path, respects quiet (Stat path);
  tr_ReadFile : forall path, respects quiet (ReadFile path);
  tr_WriteFile : forall path content perm, respects quiet (WriteFile path content perm);
  tr_Chmod : forall path perm, respects quiet (Chmod path perm);
  tr_ReadDir : forall path, respects quiet (ReadDir path)
}.

Lemma quiet_foreign : subrelation quiet foreign.
Proof. intros w w' E. exists []. by rewrite app_nil_r. Qed.

Lemma hide_quiet workspace : Traced -> respects quiet (hideWorktreeGitPointer workspace).
Proof.
  intros HT. assert (forall p o n c, respects quiet (rollbackPointer p o n c)) as Hr.
  { intros. unfold rollbackPointer. respect_steps; by apply HT. }
  unfold hideWorktreeGitPointer. respect_steps; solve [apply HT|apply Hr].
Qed.

Lemma restore_quiet workspace original : Traced -> respects quiet (restoreWorktreeGitPointer workspace original).
Proof. intros HT. unfold restoreWorktreeGitPointer. respect_steps; by apply HT. Qed.
End traced.

Section docker.
Context {W H : Type} `{Host W} `{Worktrees W H}.

Abbreviation dockerSandbox := (@dockerSandbox W H).
Abbreviation Machine := (@Machine W H).
Abbreviation Call := (Cmd * Ran)%type.

(** ** Identity

    A sandbox keeps its configuration, specification, worktree and token. *)
Record same (s s' : dockerSandbox) : Prop := {
  sm_config : ds_config s' = ds_config s;
  sm_spec : ds_spec s' = ds_spec s;
  sm_worktree : ds_worktree s' = ds_worktree s;
  sm_token : ds_ownerToken s' = ds_ownerToken s
}.

#[export] Instance same_preorder : PreOrder same.
Proof. split; [by intros s|]. intros s1 s2 s3 [] []. split; congruence. Qed.

Lemma same_sym s s' : same s s' -> same s' s.
Proof. by intros []. Qed.

Lemma isolation_same s s' name : same s s' -> isolation s' name = isolation s name.
Proof. intros [E1 E2 E3 E4]. unfold isolation. by rewrite E1, E2, E3, E4. Qed.

Lemma createArguments_same s s' name request : same s s' -> createArguments s' name request = createArguments s name request.
Proof. intros Hs. unfold createArguments. rewrite (isolation_same s s') by done. by rewrite (sm_config _ _ Hs). Qed.

Lemma inspected_same s s' ran : same s s' -> inspected s' ran = inspected s ran.
Proof.
  intros [E1 E2 E3 E4]. unfold inspected. destruct (rn_err ran); [done|]. destruct (decodeInspection _); [|done].
  unfold ownsLabels. by rewrite E2, E4.
Qed.

Lemma scanCommand_same s s' : same s s' -> scanCommand s' = scanCommand s.
Proof. intros Hs. unfold scanCommand. by rewrite (sm_token _ _ Hs). Qed.

(** ** What is permitted *)

(** The commands that do something to a container. *)
Inductive touching (id : string) : Cmd -> Prop :=
  | TouchStart stdin : touching id (docker ["start"; "-a"; "-i"; id] stdin)
  | TouchKill : touching id (docker ["kill"; id] "")
  | TouchRemove : touching id (docker ["rm"; "-f"; id] "").

(** A request whose command is one of the helper's and whose environment is allowed. *)
Definition allowedRequest (s : dockerSandbox) (request : SandboxRequest) : Prop :=
  is_ok (validateContainerCommand (sq_Command request)) = true /\
  is_ok (validateEnvironment (dc_EnvAllowlist (ds_config s)) (sq_Environment request)) = true.

(** The requests that a method is called for. *)
Variable asked : SandboxRequest -> Prop.

Inductive Permitted (s : dockerSandbox) : list Call -> Prop :=
  | PermittedNone : Permitted s []
  | PermittedInspect reference ran rest :
      Permitted s rest -> Permitted s ((inspectCommand reference, ran) :: rest)
  | PermittedCreate name request ran rest :
      allowedRequest s request -> asked request -> Permitted s rest ->
      Permitted s ((docker (createArguments s name request) "", ran) :: rest)
  | PermittedScan ran rest : Permitted s rest -> Permitted s ((scanCommand s, ran) :: rest)
  | PermittedTouch reference ran id command ran' rest :
      inspected s ran = Ok (id, true, true) -> touching id command -> Permitted s rest ->
      Permitted s ((inspectCommand reference, ran) :: (command, ran') :: rest)
  | PermittedForeign call rest :
      cm_Name (fst call) <> "docker" -> Permitted s rest -> Permitted s (call :: rest).

Lemma permitted_app s l k : Permitted s l -> Permitted s k -> Permitted s (l ++ k).
Proof. intros Hl Hk. by induction Hl; cbn; [done|constructor..|econstructor|constructor]. Qed.

Lemma permitted_same s s' l : same s s' -> Permitted s l -> Permitted s' l.
Proof.
  intros Hs. pose proof (same_sym _ _ Hs) as Hs'. induction 1 as [| |name request ran rest [Ha1 Ha2] Hk| | |].
  - constructor.
  - by constructor.
  - rewrite (createArguments_same s' s name request Hs'). constructor; [|done..]. split; [done|]. by rewrite (sm_config _ _ Hs).
  - rewrite (scanCommand_same s' s Hs'). by constructor.
  - eapply PermittedTouch; [|done..]. by rewrite (inspected_same s s').
  - by constructor.
Qed.

(** ** Methods that issue permitted commands *)

Variable commands : W -> list Call.
Hypothesis traced : Traced commands.

Record issues (m m' : Machine) : Prop := {
  is_same : same (mc_self m) (mc_self m');
  is_calls : exists calls, commands (mc_host m') = commands (mc_host m) ++ calls /\ Permitted (mc_self m) calls
}.

#[export] Instance issues_preorder : PreOrder issues.
Proof.
  split.
  - intros m. split; [done|]. exists []. split; [by rewrite app_nil_r|constructor].
  - intros m1 m2 m3 [S1 (l1 & E1 & P1)] [S2 (l2 & E2 & P2)]. split; [by trans (mc_self m2)|].
    exists (l1 ++ l2). split; [by rewrite E2, E1, (assoc_L (++))|]. apply permitted_app; [done|].
    by eapply permitted_same; [apply same_sym|].
Qed.

Definition withHost (w : W) (m : Machine) : Machine := MkMachine (mc_self m) (mc_counter m) (mc_owners m) (mc_pending m) w.

Lemma issues_calls m w calls :
  commands w = commands (mc_host m) ++ calls -> Permitted (mc_self m) calls -> issues m (withHost w m).
Proof. intros E Hp. split; [done|]. by exists calls. Qed.

Lemma issues_host {A} (c : M W A) : respects (foreign commands) c -> respects issues (host c).
Proof.
  intros Hc m. unfold host. specialize (Hc (mc_host m)). destruct (c (mc_host m)) as [r w]. cbn in *.
  destruct Hc as (calls & E & Hf). apply (issues_calls m w calls E). clear E.
  induction Hf as [|call calls Hf _ IH]; [constructor|by constructor].
Qed.

Lemma issues_quiet {A} (c : M W A) : respects (quiet commands) c -> respects issues (host c).
Proof. intros Hc. apply issues_host. intros w. by apply quiet_foreign. Qed.

Lemma issues_update f : (forall s, same s (f s)) -> respects issues (update f).
Proof. intros Hf m. split; [apply Hf|]. exists []. split; [by rewrite app_nil_r|constructor]. Qed.

Lemma issues_modify (f : Machine -> Machine) :
  (forall m, mc_self (f m) = mc_self m /\ mc_host (f m) = mc_host m) -> respects issues (modify f).
Proof.
  intros Hf m. destruct (Hf m) as [E1 E2]. split; cbn; [by rewrite E1|]. exists []. rewrite E2, app_nil_r. split; [done|constructor].
Qed.

Lemma run_eq ctx command m :
  run ctx command m = (Ok (fst (exec ctx command (mc_host m))), withHost (snd (exec ctx command (mc_host m))) m).
Proof. unfold run, host, always. by destruct (exec _ _ _). Qed.

Lemma inspect_eq ctx reference m :
  let '(ran, w) := exec ctx (inspectCommand reference) (mc_host m) in
  inspectContainerContext ctx reference m = (inspected (mc_self m) ran, withHost w m).
Proof.
  destruct (exec _ _ _) as [ran w] eqn:E. unfold inspectContainerContext, mbind, M_bind. rewrite run_eq, E. done.
Qed.

Lemma run_issues ctx command :
  (forall s ran, Permitted s [(command, ran)]) -> respects issues (run ctx command).
Proof.
  intros Hp m. rewrite run_eq. cbn. eapply issues_calls; [apply traced|]. apply Hp.
Qed.

Lemma inspect_issues ctx reference : respects issues (inspectContainerContext ctx reference).
Proof.
  intros m. pose proof (inspect_eq ctx reference m) as He. pose proof (tr_exec _ traced ctx (inspectCommand reference) (mc_host m)) as Ht.
  destruct (exec _ _ _) as [ran w]. rewrite He. cbn in *. eapply issues_calls; [exact Ht|]. by constructor; constructor.
Qed.

(** An inspection and what is done with its answer: a container is touched only when it
    was found to be the sandbox's. *)
Lemma inspect_then {A} reference (f : result Inspected -> M Machine A) :
  (forall r, (forall id, r <> Ok (id, true, true)) -> respects issues (f r)) ->
  (forall id m ran w, inspected (mc_self m) ran = Ok (id, true, true) ->
     commands w = commands (mc_host m) ++ [(inspectCommand reference, ran)] ->
     issues m (snd (f (Ok (id, true, true)) (withHost w m)))) ->
  respects issues (try (inspectContainer reference) ≫= f).
Proof.
  intros Hno Hyes m. unfold mbind, M_bind, try, inspectContainer.
  pose proof (inspect_eq (Within Background (5 * second)) reference m) as He.
  pose proof (tr_exec _ traced (Within Background (5 * second)) (inspectCommand reference) (mc_host m)) as Ht.
  destruct (exec _ _ _) as [ran w]. rewrite He. cbn [fst snd] in *.
  assert (issues m (withHost w m)) as Hi by (eapply issues_calls; [exact Ht|by constructor; constructor]).
  destruct (inspected (mc_self m) ran) as [[[id [|]] [|]]|e] eqn:Hr; [by apply (Hyes id m ran w)|..];
    (trans (withHost w m); [done|by apply Hno]).
Qed.

(** The same for a method that fails when the inspection does. *)
Lemma inspect_bind {A} reference (f : Inspected -> M Machine A) :
  (forall i, (forall id, i <> (id, true, true)) -> respects issues (f i)) ->
  (forall id m ran w, inspected (mc_self m) ran = Ok (id, true, true) ->
     commands w = commands (mc_host m) ++ [(inspectCommand reference, ran)] ->
     issues m (snd (f (id, true, true) (withHost w m)))) ->
  respects issues (inspectContainer reference ≫= f).
Proof.
  intros Hno Hyes m.
  pose proof (inspect_then reference (fun r => match r with Ok i => f i | Err e => throw e end)) as Hthen.
  assert ((try (inspectContainer reference) ≫= (fun r => match r with Ok i => f i | Err e => throw e end)) m =
          (inspectContainer reference ≫= f) m) as <-.
  { unfold mbind, M_bind, try. by destruct (inspectContainer reference m) as [[?|?] ?]. }
  apply Hthen; [|done]. intros [i|e] Hi; [|by apply respects_throw; apply _]. apply Hno. intros id E. apply (Hi id). by rewrite E.
Qed.

(** A container that was just found to be the sandbox's may be touched. *)
Lemma touch ctx reference id command m ran w :
  touching id command -> inspected (mc_self m) ran = Ok (id, true, true) ->
  commands w = commands (mc_host m) ++ [(inspectCommand reference, ran)] ->
  issues m (withHost (snd (exec ctx command w)) (withHost w m)).
Proof.
  intros Ht Hi Hw. eapply (issues_calls m).
  - rewrite (tr_exec _ traced), Hw, <- (assoc_L (++)). done.
  - cbn. eapply PermittedTouch; [done..|constructor].
Qed.

Lemma track_issues name id : respects issues (track name id).
Proof. by apply issues_update. Qed.
Lemma settle_issues name : respects issues (settle name).
Proof. by apply issues_update. Qed.
Lemma forget_issues name : respects issues (forget name).
Proof. by apply issues_update. Qed.
#[local] Hint Resolve track_issues settle_issues forget_issues inspect_issues : respects.

Lemma self_issues : respects issues self.
Proof. apply respects_gets, _. Qed.
#[local] Hint Resolve self_issues : respects.

Lemma inspectContainer_issues reference : respects issues (inspectContainer reference).
Proof. apply inspect_issues. Qed.
#[local] Hint Resolve inspectContainer_issues : respects.

Lemma start_issues ctx id stdin : respects issues (startOwnedContainer ctx id stdin).
Proof.
  unfold startOwnedContainer. apply inspect_then.
  - intros [[[owned [|]] [|]]|e] Hr; cbn; try (by apply respects_ret; apply _). by destruct (Hr owned).
  - intros owned m ran w Hi Hw. cbn. case_bool_decide as Hne; cbn.
    + eapply issues_calls; [exact Hw|by constructor; constructor].
    + subst owned. rewrite run_eq. cbn. by eapply touch; [constructor|..].
Qed.
#[local] Hint Resolve start_issues : respects.

Lemma killTracked_issues name : respects issues (killTrackedContainer name).
Proof.
  unfold killTrackedContainer. apply respects_bind; [apply _|apply self_issues|]. intros s.
  destruct (ds_containers s !! name) as [id|]; [|by apply respects_ret; apply _].
  case_decide; [by apply respects_ret; apply _|]. apply inspect_bind.
  - intros [[owned [|]] [|]] Hr; cbn; try (by apply respects_ret; apply _); try (by apply respects_throw; apply _).
    by destruct (Hr owned).
  - intros owned m ran w Hi Hw. cbn. case_bool_decide as Hne; cbn.
    + eapply issues_calls; [exact Hw|by constructor; constructor].
    + subst owned. unfold mbind, M_bind. rewrite run_eq. cbn.
      set (m' := withHost _ _).
      assert (issues m m') as Hm by (by eapply touch; [constructor|..]).
      by repeat case_match.
Qed.

Lemma removeOwned_issues reference : respects issues (removeOwnedContainer reference).
Proof.
  unfold removeOwnedContainer. apply inspect_bind.
  - intros [[owned [|]] [|]] Hr; cbn; try (by apply respects_ret; apply _); try (by apply respects_throw; apply _).
    by destruct (Hr owned).
  - intros owned m ran w Hi Hw. cbn. unfold mbind, M_bind. rewrite run_eq. cbn. set (m' := withHost _ _).
    assert (issues m m') as Hm by (by eapply touch; [constructor|..]).
    by repeat case_match.
Qed.
#[local] Hint Resolve killTracked_issues removeOwned_issues : respects.

Lemma removeTracked_issues name : respects issues (removeTrackedContainer name).
Proof. unfold removeTrackedContainer, removeByID. respect_steps. Qed.
#[local] Hint Resolve removeTracked_issues : respects.

Lemma reinspect_issues attempts name : respects issues (reinspect attempts name).
Proof.
  induction attempts as [|more IH]; cbn [reinspect]; respect_steps.
  apply issues_quiet. intros w. cbn. apply traced.
Qed.

#[local] Hint Resolve reinspect_issues : respects.

Lemma markUnknown_issues name : respects issues (markContainerCreateUnknown name).
Proof.
  unfold markContainerCreateUnknown. respect_steps; [|by apply issues_update].
  apply issues_quiet, respects_always. apply traced.
Qed.

Lemma nextName_issues purpose : respects issues (nextContainerName purpose).
Proof. unfold nextContainerName. respect_steps. by apply issues_modify. Qed.

Lemma contextErr_issues ctx : respects issues (contextErr ctx).
Proof. apply issues_quiet, respects_always. apply traced. Qed.

#[local] Hint Resolve markUnknown_issues nextName_issues contextErr_issues : respects.

(** *** With a request that is allowed *)

(** The recorder of a sandbox, like that of its provider, runs no command. *)
Definition quietRecorder (config : DockerConfig W) : Prop := forall event, respects (quiet commands) (record config event).

Record ready (request : SandboxRequest) (s : dockerSandbox) : Prop := {
  rd_allowed : allowedRequest s request;
  rd_asked : asked request;
  rd_quiet : quietRecorder (ds_config s)
}.

Lemma ready_same s s' request : same s s' -> ready request s -> ready request s'.
Proof. intros Hs [[H3 H4] H5 H6]. split; [split; [done|]|done|]; by rewrite (sm_config _ _ Hs). Qed.

Definition issuesIf (request : SandboxRequest) (m m' : Machine) : Prop := ready request (mc_self m) -> issues m m'.

#[export] Instance issuesIf_preorder request : PreOrder (issuesIf request).
Proof.
  split; [by intros m _|]. intros m1 m2 m3 I1 I2 Ha. pose proof (I1 Ha) as I. trans m2; [done|]. apply I2.
  eapply ready_same; [apply I|done].
Qed.

Lemma issues_if {A} request (c : M Machine A) : respects issues c -> respects (issuesIf request) c.
Proof. intros Hc m _. apply Hc. Qed.
#[local] Hint Resolve issues_if : respects.

Lemma create_issues name request : respects (issuesIf request) (createContainer name request).
Proof.
  intros m Ha. unfold createContainer. unfold self, gets, mbind at 1, M_bind at 1. unfold mbind at 1, M_bind at 1. rewrite run_eq.
  set (m' := withHost _ _). assert (issues m m') as Hm.
  { eapply issues_calls; [apply traced|]. by constructor; [apply Ha|apply Ha|constructor]. }
  trans m'; [done|]. generalize (fst (exec (Within Background (15 * second))
    (docker (createArguments (mc_self m) name request) "") (mc_host m))) as ran. intros ran.
  clearbody m'. clear Hm Ha. revert m'.
  match goal with |- forall m', issues m' (snd (?c m')) => change (respects issues c) end. respect_steps.
Qed.
#[local] Hint Resolve create_issues : respects.

(** *** Audit *)

(** Recording needs no request. *)
Definition issuesQuietly (m m' : Machine) : Prop := quietRecorder (ds_config (mc_self m)) -> issues m m'.

#[export] Instance issuesQuietly_preorder : PreOrder issuesQuietly.
Proof.
  split; [by intros m _|]. intros m1 m2 m3 I1 I2 Hq. pose proof (I1 Hq) as I. trans m2; [done|]. apply I2.
  by rewrite (sm_config _ _ (is_same _ _ I)).
Qed.

Lemma audit_quietly event : respects issuesQuietly (audit event).
Proof. intros m Hr. unfold audit, self, gets, mbind, M_bind. apply respects_attempt, issues_quiet, Hr. Qed.

Lemma audit_issues request event : respects (issuesIf request) (audit event).
Proof. intros m [_ _ Hq]. by apply audit_quietly. Qed.
#[local] Hint Resolve audit_issues : respects.

Lemma update_issues_if request f : (forall s, same s (f s)) -> respects (issuesIf request) (update f).
Proof. intros Hf. by apply issues_if, issues_update. Qed.

Lemma truncation_issues request r n limit : respects (issuesIf request) (recordTruncation r n limit).
Proof. unfold recordTruncation. respect_steps. Qed.
Lemma cleanupAudit_issues request e a r timeout limit : respects (issuesIf request) (cleanupAudit e a r timeout limit).
Proof. unfold cleanupAudit, recordContainerCleanupFailure. respect_steps. Qed.
Lemma denied_issues request r e : respects (issuesIf request) (recordDenied r e).
Proof. unfold recordDenied. respect_steps. Qed.
Lemma beforeStart_issues request r timeout limit e p : respects (issuesIf request) (interruptedBeforeStart r timeout limit e p).
Proof. unfold interruptedBeforeStart. respect_steps. Qed.
#[local] Hint Resolve truncation_issues cleanupAudit_issues denied_issues beforeStart_issues : respects.

(** *** Execution *)

Lemma executeContainer_issues ctx request timeout limit : respects (issuesIf request) (executeContainer ctx request timeout limit).
Proof. unfold executeContainer, acquire, notCreated, runCreated, cleanupFailedCreate, interrupted, finished. respect_steps. Qed.

(** *** Destruction *)

Lemma cleanupWorkspace_issues ctx : respects (issuesIf cleanupRequest) (cleanupWorkspace ctx).
Proof. unfold cleanupWorkspace, acquire, cleanupFailedCreate. respect_steps. Qed.
Lemma cleanupRequest_allowed s : allowedRequest s cleanupRequest.
Proof. done. Qed.

Lemma Execute_issues ctx request m :
  asked request -> quietRecorder (ds_config (mc_self m)) -> issues m (snd (Execute ctx request m)).
Proof.
  intros Hk Hq. unfold Execute, self, gets, mbind at 1, M_bind at 1.
  assert (forall e, issues m (snd ((x ← recordDenied request e; mret (emptyResult, x)) m))) as Hdenied.
  { intros e. apply (respects_bind issuesQuietly); [|intros; apply respects_ret; apply _|done].
    unfold recordDenied. apply respects_bind; [apply _|intros m'' _; by apply self_issues|]. intros s.
    apply respects_bind; [apply _|apply audit_quietly|]. intros auditErr. by apply respects_ret; apply _. }
  destruct (_ || _); [apply Hdenied|].
  destruct (validateContainerCommand _) as [[]|e] eqn:Hc; [|apply Hdenied].
  destruct (validateEnvironment _ _) as [[]|e] eqn:He; [|apply Hdenied].
  assert (ready request (mc_self m)) as Hr by (split; [split; [by rewrite Hc|by rewrite He]|done..]).
  lazymatch goal with |- issues m (snd (?c m)) => cut (respects (issuesIf request) c); [intros Hall; exact (Hall m Hr)|] end.
  cbv zeta. generalize (clamp (sq_Timeout request) (dc_CommandTimeout (ds_config (mc_self m)))) as timeout.
  generalize (clamp (sq_OutputLimit request) (dc_OutputLimit (ds_config (mc_self m)))) as limit. intros limit timeout.
  pose proof (executeContainer_issues ctx request timeout limit). respect_steps.
Qed.

(** Destroying *)
Hypothesis worktrees_foreign : forall ctx worktree, respects (foreign commands) (worktree_Destroy (W := W) (H := H) ctx worktree).

Lemma scanRow_issues line : respects issues (scanRow line).
Proof.
  unfold scanRow, forgetRemoved. respect_steps; by apply issues_update.
Qed.
#[local] Hint Resolve scanRow_issues : respects.

Lemma scan_issues : respects issues removeProviderOwnedContainers.
Proof.
  intros m. unfold removeProviderOwnedContainers. unfold self, gets, mbind at 1, M_bind at 1. unfold mbind at 1, M_bind at 1.
  unfold host, boundedCommandOutput, always, mbind at 1, M_bind at 1.
  pose proof (tr_exec _ traced (Within Background (5 * second)) (scanCommand (mc_self m)) (mc_host m)) as Ht.
  destruct (exec _ _ _) as [ran w]. cbn [fst snd mret M_ret] in *. set (m' := MkMachine _ _ _ _ _).
  trans m'; [apply (issues_calls m w _ Ht); constructor; constructor|].
  lazymatch goal with |- issues m' (snd (?c m')) => cut (respects issues c); [intros Hall; apply Hall|] end.
  respect_steps.
Qed.
#[local] Hint Resolve scan_issues cleanupWorkspace_issues : respects.

Variable range : forall {A : Type}, gmap string A -> list string.

Lemma recordDestroyed_issues request : respects (issuesIf request) recordDestroyed.
Proof.
  unfold recordDestroyed, recordDestroy, forgetProviderOwnership. respect_steps; [by apply update_issues_if|].
  by apply issues_if, issues_modify.
Qed.
#[local] Hint Resolve recordDestroyed_issues : respects.

Lemma destroyContainers_issues : respects issues (destroyContainers (@range)).
Proof. unfold destroyContainers, firstPass, secondPass, present. respect_steps. Qed.
#[local] Hint Resolve destroyContainers_issues : respects.

Lemma destroyWorktree_issues ctx : respects (issuesIf cleanupRequest) (destroyWorktree ctx).
Proof.
  unfold destroyWorktree. respect_steps; try by apply update_issues_if.
  - apply issues_if, issues_quiet, restore_quiet, traced.
  - apply issues_if, issues_host, worktrees_foreign.
  - apply issues_if, issues_quiet, hide_quiet, traced.
Qed.
#[local] Hint Resolve destroyWorktree_issues : respects.

Lemma Destroy_issues m : asked cleanupRequest -> quietRecorder (ds_config (mc_self m)) -> issues m (snd (Destroy (@range) m)).
Proof.
  intros Hk Hq. cut (respects (issuesIf cleanupRequest) (Destroy (@range))); [intros Hall; apply Hall; by split|].
  unfold Destroy, destroyBody, recordDestroyFailed, forgetProviderOwnership. respect_steps; try by apply update_issues_if.
  by apply issues_if, issues_modify.
Qed.
End docker.
