(* ===== verification/DockerTracking.v ===== *)
(** * No container is lost

    Every container a sandbox asked docker for stays tracked until there is evidence
    among the answers of docker that it is gone. *)
From S2P Require Import Prelude Sha256 GoLib Json Effect AuditLog ToolService Host Docker DockerProvider HostFacts DockerFacts.

Section tracking.
Context {W H : Type} `{Host W} `{Worktrees W H}.

Abbreviation dockerSandbox := (@dockerSandbox W H).
Abbreviation Machine := (@Machine W H).
Abbreviation Call := (Cmd * Ran)%type.

Variable commands : W -> list Call.
Hypothesis traced : Traced commands.

(** ** Evidence *)

(** A container of this name was asked for. *)
Definition Requested (s : dockerSandbox) (calls : list Call) (name : string) : Prop :=
  exists request ran, (docker (createArguments s name request) "", ran) ∈ calls.

(** A scan for the sandbox's token printed this line. *)
Definition scanOutput (ran : Ran) : string :=
  let o := collect (Z.shiftl 1 20) (rn_writes ran) in lb_buffer (ou_stdout o) +:+ lb_buffer (ou_stderr o).

Definition Scanned (s : dockerSandbox) (calls : list Call) (line : string) : Prop :=
  exists ran, (scanCommand s, ran) ∈ calls /\ rn_err ran = None /\ line ∈ strings_Split (TrimSpace (scanOutput ran)) newline.

(** Docker said that the container of this name has this identifier: when it created it,
    when it was asked about the name, or in a scan. *)
Inductive Named (s : dockerSandbox) (calls : list Call) (name id : string) : Prop :=
  | NamedCreated request ran :
      (docker (createArguments s name request) "", ran) ∈ calls -> rn_err ran = None -> TrimSpace (combined ran) = id ->
      Named s calls name id
  | NamedInspected ran :
      (inspectCommand name, ran) ∈ calls -> inspected s ran = Ok (id, true, true) -> Named s calls name id
  | NamedScanned line : Scanned s calls line -> cut_at tab line = Some (id, name) -> Named s calls name id.

(** Docker said that there is no container with this identifier, or removed the one it
    found under it. *)
Inductive Gone (s : dockerSandbox) (calls : list Call) (id : string) : Prop :=
  | GoneAbsent ran other owned :
      (inspectCommand id, ran) ∈ calls -> inspected s ran = Ok (other, false, owned) -> Gone s calls id
  | GoneRemoved ran found removal :
      (inspectCommand id, ran) ∈ calls -> inspected s ran = Ok (found, true, true) ->
      (docker ["rm"; "-f"; found] "", removal) ∈ calls ->
      (rn_err removal = None \/ Contains (combined removal) "No such container" = true) -> Gone s calls id.

(** The container of this name is gone, or the name is that of a container of others. *)
Inductive Released (s : dockerSandbox) (calls : list Call) (name : string) : Prop :=
  | ReleasedGone id : Named s calls name id -> Gone s calls id -> Released s calls name
  | ReleasedForeign ran other :
      (inspectCommand name, ran) ∈ calls -> inspected s ran = Ok (other, true, false) -> Released s calls name.

(** Evidence is about the identity of the sandbox, and lasts. *)
Lemma Scanned_grows s s' calls more line : same s s' -> Scanned s calls line -> Scanned s' (calls ++ more) line.
Proof.
  intros Hs (ran & Hi & He & Hl). exists ran. split; [|done]. apply elem_of_app_l. by rewrite (scanCommand_same s s').
Qed.

Lemma Named_grows s s' calls more name id : same s s' -> Named s calls name id -> Named s' (calls ++ more) name id.
Proof.
  intros Hs. pose proof (same_sym _ _ Hs) as Hs'. intros [request ran Hi He Ht|ran Hi Hr|line Hl Hc].
  - rewrite (createArguments_same s' s) in Hi by done. by eapply NamedCreated; [apply elem_of_app_l|..].
  - eapply NamedInspected; [by apply elem_of_app_l|]. by rewrite (inspected_same s s').
  - by eapply NamedScanned; [eapply Scanned_grows|].
Qed.

Lemma Gone_grows s s' calls more id : same s s' -> Gone s calls id -> Gone s' (calls ++ more) id.
Proof.
  intros Hs [ran other owned Hi Hr|ran found removal Hi Hr Hm He].
  - eapply GoneAbsent; [by apply elem_of_app_l|]. by rewrite (inspected_same s s').
  - eapply GoneRemoved; [by apply elem_of_app_l|by rewrite (inspected_same s s')|by apply elem_of_app_l|done].
Qed.

Lemma Released_grows s s' calls more name : same s s' -> Released s calls name -> Released s' (calls ++ more) name.
Proof.
  intros Hs [id Hn Hg|ran other Hi Hr].
  - by eapply ReleasedGone; [eapply Named_grows|eapply Gone_grows].
  - eapply ReleasedForeign; [by apply elem_of_app_l|]. by rewrite (inspected_same s s').
Qed.

(** ** The invariant *)

Definition callsOf (m : Machine) : list Call := commands (mc_host m).

(** [open] is the container that is being created. *)
Record Tracking (open : option string) (m : Machine) : Prop := {
  tk_named : forall name id, ds_containers (mc_self m) !! name = Some id -> id <> "" -> Named (mc_self m) (callsOf m) name id;
  tk_unknown : forall name, ds_containers (mc_self m) !! name = Some "" ->
    open = Some name \/ is_Some (ds_uncertainContainers (mc_self m) !! name);
  tk_created : forall name, Requested (mc_self m) (callsOf m) name ->
    is_Some (ds_containers (mc_self m) !! name) \/ Released (mc_self m) (callsOf m) name;
  tk_quiet : quietRecorder commands (ds_config (mc_self m))
}.

(** A change that leaves the containers alone and creates none. *)
Record calm (m m' : Machine) : Prop := {
  cm_same : same (mc_self m) (mc_self m');
  cm_containers : ds_containers (mc_self m') = ds_containers (mc_self m);
  cm_uncertain : ds_uncertainContainers (mc_self m') = ds_uncertainContainers (mc_self m);
  cm_calls : exists calls, callsOf m' = callsOf m ++ calls /\ forall name, ~ Requested (mc_self m) calls name
}.

Lemma Requested_same s s' calls name : same s s' -> Requested s calls name -> Requested s' calls name.
Proof. intros Hs (request & ran & Hi). exists request, ran. by rewrite (createArguments_same s s'). Qed.

Lemma Requested_app s calls more name : Requested s (calls ++ more) name -> Requested s calls name \/ Requested s more name.
Proof. intros (request & ran & [Hi|Hi]%elem_of_app); [left|right]; by exists request, ran. Qed.

#[export] Instance calm_preorder : PreOrder calm.
Proof.
  split.
  - intros m. split; [done..|]. exists []. split; [by rewrite app_nil_r|]. by intros name (? & ? & Hi%elem_of_nil).
  - intros m1 m2 m3 [S1 C1 U1 (l1 & E1 & P1)] [S2 C2 U2 (l2 & E2 & P2)].
    split; [by trans (mc_self m2)|congruence..|]. exists (l1 ++ l2). split; [by rewrite E2, E1, (assoc_L (++))|].
    intros name [Hc|Hc]%Requested_app; [by apply (P1 name)|]. apply (P2 name). by eapply Requested_same.
Qed.

Lemma calm_tracking open m m' : calm m m' -> Tracking open m -> Tracking open m'.
Proof.
  intros [S1 C1 U1 (l & E & P)] [T1 T2 T3 T4]. split.
  - intros name id. rewrite C1, E. intros Hi Hn. by eapply Named_grows, T1.
  - intros name. rewrite C1, U1. apply T2.
  - intros name. rewrite E, C1. intros [Hc|Hc]%Requested_app.
    + destruct (T3 name) as [Ht|Ht]; [by eapply Requested_same; [apply same_sym|]|by left|right; by eapply Released_grows].
    + destruct (P name). by eapply Requested_same; [apply same_sym|].
  - by rewrite (sm_config _ _ S1).
Qed.

(** ** Calm methods *)

Lemma calm_calls m w calls :
  commands w = callsOf m ++ calls -> (forall name, ~ Requested (mc_self m) calls name) -> calm m (withHost w m).
Proof. intros E Hc. split; [done..|]. by exists calls. Qed.

(** A command that creates no container. *)
Definition harmless (command : Cmd) : Prop :=
  forall (s : dockerSandbox) name request, command <> docker (createArguments s name request) "".

Lemma harmless_calls s command ran name : harmless command -> ~ Requested s [(command, ran)] name.
Proof. intros Hh (request & ran' & Hi%list_elem_of_singleton). injection Hi as Hi _. by apply (Hh s name request). Qed.

Lemma harmless_inspect reference : harmless (inspectCommand reference). Proof. by intros s name request. Qed.
Lemma harmless_scan (s0 : dockerSandbox) : harmless (scanCommand s0). Proof. by intros s name request. Qed.
Lemma harmless_touching id command : touching id command -> harmless command.
Proof. by intros [] s name request. Qed.

Lemma calm_run ctx command : harmless command -> respects calm (run ctx command).
Proof. intros Hh m. rewrite run_eq. eapply calm_calls; [apply traced|]. intros name. by apply harmless_calls. Qed.

Lemma foreign_calls s calls name : Forall (fun call : Call => cm_Name (fst call) <> "docker") calls -> ~ Requested s calls name.
Proof. intros Hf (request & ran & Hi). rewrite Forall_forall in Hf. by apply (Hf _ Hi). Qed.

Lemma calm_host {A} (c : M W A) : respects (foreign commands) c -> respects calm (host c).
Proof.
  intros Hc m. unfold host. specialize (Hc (mc_host m)). destruct (c (mc_host m)) as [r w]. cbn in *.
  destruct Hc as (calls & E & Hf). apply (calm_calls m w calls E). intros name. by apply foreign_calls.
Qed.

Lemma calm_quiet {A} (c : M W A) : respects (quiet commands) c -> respects calm (host c).
Proof. intros Hc. apply calm_host. intros w. by apply quiet_foreign. Qed.

Lemma calm_self : respects calm self.
Proof. apply respects_gets, _. Qed.

Lemma calm_inspect ctx reference : respects calm (inspectContainerContext ctx reference).
Proof.
  intros m. pose proof (inspect_eq ctx reference m) as He. pose proof (tr_exec _ traced ctx (inspectCommand reference) (mc_host m)) as Ht.
  destruct (exec _ _ _) as [ran w]. rewrite He. cbn in *. eapply calm_calls; [exact Ht|]. intros name. apply harmless_calls, harmless_inspect.
Qed.

Lemma calm_inspectContainer reference : respects calm (inspectContainer reference).
Proof. apply calm_inspect. Qed.

Lemma calm_touch ctx id command : touching id command -> respects calm (run ctx command).
Proof. intros Ht. by eapply calm_run, harmless_touching. Qed.

#[local] Hint Resolve calm_self calm_inspectContainer calm_inspect : respects.
#[local] Hint Extern 2 (respects calm (run _ _)) => eapply calm_touch; constructor : respects.

Lemma calm_start ctx id stdin : respects calm (startOwnedContainer ctx id stdin).
Proof. unfold startOwnedContainer. respect_steps. Qed.
Lemma calm_kill name : respects calm (killTrackedContainer name).
Proof. unfold killTrackedContainer. respect_steps. Qed.
Lemma calm_remove reference : respects calm (removeOwnedContainer reference).
Proof. unfold removeOwnedContainer. respect_steps. Qed.
Lemma calm_contextErr ctx : respects calm (contextErr ctx).
Proof. apply calm_quiet, respects_always. apply traced. Qed.
Lemma calm_sleep d : respects calm (host (modify (sleep d))).
Proof. apply calm_quiet. intros w. apply traced. Qed.
Lemma calm_now : respects calm (host (always time_Now)).
Proof. apply calm_quiet, respects_always. apply traced. Qed.
Lemma calm_nextName purpose : respects calm (nextContainerName purpose).
Proof.
  unfold nextContainerName. respect_steps. intros m. split; try done. exists []. split; [by rewrite app_nil_r|].
  by intros name (? & ? & Hi%elem_of_nil).
Qed.

(** ** Methods that keep track *)

Definition tracks (open : option string) (m m' : Machine) : Prop := Tracking open m -> Tracking open m'.

#[export] Instance tracks_preorder open : PreOrder (tracks open).
Proof. split; [by intros m Ht|]. intros m1 m2 m3 I1 I2 Ht. by apply I2, I1. Qed.

Lemma tracks_calm {A} open (c : M Machine A) : respects calm c -> respects (tracks open) c.
Proof. intros Hc m Ht. exact (calm_tracking open m _ (Hc m) Ht). Qed.

#[local] Hint Resolve tracks_calm calm_start calm_kill calm_remove calm_contextErr calm_sleep calm_now calm_nextName : respects.

Lemma tracks_audit open event : respects (tracks open) (audit event).
Proof.
  intros m Ht. unfold audit, self, gets, mbind, M_bind.
  apply (calm_tracking open m); [|done]. apply respects_attempt, calm_quiet, Ht.
Qed.
#[local] Hint Resolve tracks_audit : respects.

(** What an inspection answers is in the trace. *)
Lemma inspect_answer reference m r m' :
  inspectContainer reference m = (r, m') ->
  calm m m' /\ exists ran, (inspectCommand reference, ran) ∈ callsOf m' /\ inspected (mc_self m') ran = r.
Proof.
  intros E. split; [pose proof (calm_inspectContainer reference m) as Hc; by rewrite E in Hc|].
  pose proof (inspect_eq (Within Background (5 * second)) reference m) as He.
  pose proof (tr_exec _ traced (Within Background (5 * second)) (inspectCommand reference) (mc_host m)) as Ht.
  unfold inspectContainer in E. destruct (exec _ _ _) as [ran w]. rewrite E in He. injection He as -> ->. exists ran. split; [|done].
  unfold callsOf, withHost. cbn in *. rewrite Ht. apply elem_of_snoc.
Qed.

(** A removal that succeeds leaves evidence. *)
Lemma remove_answer reference m r m' :
  removeOwnedContainer reference m = (r, m') ->
  calm m m' /\ (forall b, r = Ok b -> b = true /\ Gone (mc_self m') (callsOf m') reference).
Proof.
  intros E. split; [pose proof (calm_remove reference m) as Hc; by rewrite E in Hc|]. intros b ->.
  unfold removeOwnedContainer in E. apply M_bind_Ok in E as (i & m1 & Hi & E).
  apply inspect_answer in Hi as (_ & ran & Hin & Hr). destruct i as [[found exists_] owned].
  destruct exists_; cbn in E; [|injection E as <- <-; split; [done|]; by eapply GoneAbsent].
  destruct owned; cbn in E; [|done]. unfold mbind, M_bind in E. rewrite run_eq in E.
  pose proof (tr_exec _ traced (Within Background (5 * second)) (docker ["rm"; "-f"; found] "") (mc_host m1)) as Ht.
  destruct (exec _ _ _) as [removal w]. cbn [fst snd] in *.
  assert (b = true /\ m' = withHost w m1 /\ (rn_err removal = None \/ Contains (combined removal) "No such container" = true)) as (-> & -> & He).
  { destruct (rn_err removal); [|injection E as <- <-; auto].
    destruct (Contains (combined removal) "No such container"); [injection E as <- <-; auto|done]. }
  split; [done|]. unfold callsOf, withHost. cbn. rewrite Ht.
  eapply GoneRemoved; [by apply elem_of_app_l|exact Hr|apply elem_of_snoc|done].
Qed.

(** ** Changes of the containers *)

Lemma tracking_update open open' f m :
  same (mc_self m) (f (mc_self m)) -> Tracking open m ->
  (forall name id, ds_containers (f (mc_self m)) !! name = Some id -> id <> "" -> Named (mc_self m) (callsOf m) name id) ->
  (forall name, ds_containers (f (mc_self m)) !! name = Some "" -> open' = Some name \/ is_Some (ds_uncertainContainers (f (mc_self m)) !! name)) ->
  (forall name, is_Some (ds_containers (mc_self m) !! name) ->
     is_Some (ds_containers (f (mc_self m)) !! name) \/ Released (mc_self m) (callsOf m) name) ->
  Tracking open' (snd (update f m)).
Proof.
  intros Hs [T1 T2 T3 T4] N U C.
  assert (forall calls name id, Named (mc_self m) calls name id -> Named (f (mc_self m)) calls name id) as Hn
    by (intros calls name id Hn; rewrite <- (app_nil_r calls); by eapply Named_grows).
  assert (forall calls name, Released (mc_self m) calls name -> Released (f (mc_self m)) calls name) as Hr
    by (intros calls name Hr; rewrite <- (app_nil_r calls); by eapply Released_grows).
  split; cbn.
  - intros name id Hi Hne. by apply Hn, N.
  - exact U.
  - intros name Hc. destruct (T3 name) as [Ht|Ht]; [by eapply Requested_same; [apply same_sym|]| |right; by apply Hr].
    destruct (C name Ht); [by left|right; by apply Hr].
  - by rewrite (sm_config _ _ Hs).
Qed.

Lemma tracking_track open open' name id m :
  Tracking open m -> (id <> "" -> Named (mc_self m) (callsOf m) name id) -> (id = "" -> open' = Some name) ->
  (forall other, open = Some other -> other = name \/ open' = Some other) ->
  Tracking open' (snd (track name id m)).
Proof.
  intros Ht Hn Ho Hopen. apply (tracking_update open); [done|done| | |]; cbn.
  - intros other oid [(-> & ->)|(_ & Hi)]%lookup_insert_Some; [by apply Hn|by apply Ht].
  - intros other [(-> & E)|(Hne & Hi)]%lookup_insert_Some; [left; by apply Ho|].
    destruct (tk_unknown _ _ Ht other Hi) as [Hx|Hx]; [|by right]. destruct (Hopen other Hx) as [->|Hy]; [done|by left].
  - intros other Hi. left. destruct (decide (other = name)) as [->|Hne]; [rewrite lookup_insert_eq; by eexists|by rewrite lookup_insert_ne].
Qed.

Lemma tracking_settle open name id m :
  Tracking open m -> ds_containers (mc_self m) !! name = Some id -> id <> "" -> Tracking open (snd (settle name m)).
Proof.
  intros Ht Hi Hne. apply (tracking_update open); [done|done| | |]; cbn.
  - intros other oid. apply Ht.
  - intros other Ho. destruct (tk_unknown _ _ Ht other Ho) as [Hx|Hx]; [by left|right].
    rewrite lookup_delete_ne; [done|]. intros ->. congruence.
  - by left.
Qed.

Lemma tracking_forget open name m :
  Tracking open m -> Released (mc_self m) (callsOf m) name -> Tracking open (snd (forget name m)).
Proof.
  intros Ht Hr. apply (tracking_update open); [done|done| | |]; cbn.
  - intros other oid [_ Hi]%lookup_delete_Some. by apply Ht.
  - intros other [Hne Hi]%lookup_delete_Some. destruct (tk_unknown _ _ Ht other Hi) as [Hx|Hx]; [by left|right].
    by rewrite lookup_delete_ne.
  - intros other Hi. destruct (decide (other = name)) as [->|Hne]; [by right|left; by rewrite lookup_delete_ne].
Qed.

(** After a track, the container has an identifier. *)
Lemma track_settle open name id m :
  Tracking open m -> Named (mc_self m) (callsOf m) name id -> id <> "" ->
  (forall other, open = Some other -> other = name) ->
  Tracking None (snd ((_ ← track name id; settle name) m)).
Proof.
  intros Ht Hn Hne Ho. unfold mbind, M_bind. cbn [track update modify].
  apply (tracking_settle _ name id); [|cbn; by rewrite lookup_insert_eq|done].
  apply (tracking_track open None name id m); [done|done|done|]. intros other Hx. left. by apply Ho.
Qed.

Lemma tracking_mark name m : Tracking (Some name) m -> Tracking None (snd (markContainerCreateUnknown name m)).
Proof.
  intros Ht. unfold markContainerCreateUnknown, self, gets, mbind, M_bind.
  destruct (ds_uncertainContainers (mc_self m) !! name) as [t|] eqn:Hu; cbn [snd mret M_ret].
  - destruct Ht as [T1 T2 T3 T4]. split; [done| |done|done]. intros other Hi. right.
    destruct (T2 other Hi) as [[= <-]|Hx]; [by rewrite Hu|done].
  - pose proof (calm_now m) as Hc. destruct (host (always time_Now) m) as [[now|e] m1] eqn:E; cbn [snd] in *;
      [|unfold host, always in E; destruct (time_Now _); done].
    apply (calm_tracking (Some name)) in Hc; [|done]. apply (tracking_update (Some name)); [done|done| | |]; cbn.
    + intros other oid. apply Hc.
    + intros other Hi. right. destruct (tk_unknown _ _ Hc other Hi) as [[= <-]|Hx];
        [rewrite lookup_insert_eq; by eexists|].
      destruct (decide (other = name)) as [->|Hne]; [rewrite lookup_insert_eq; by eexists|by rewrite lookup_insert_ne].
    + by left.
Qed.

(** ** Removal *)

Lemma tracks_removeByID name id m :
  Tracking None m -> Named (mc_self m) (callsOf m) name id -> Tracking None (snd (removeByID name id m)).
Proof.
  intros Ht Hn. unfold removeByID, mbind, M_bind. destruct (removeOwnedContainer id m) as [r m1] eqn:E.
  apply remove_answer in E as [Hc Hg]. pose proof (calm_tracking _ _ _ Hc Ht) as Ht1.
  destruct r as [b|e]; [|done]. destruct (Hg b eq_refl) as [-> Hgone]. apply tracking_forget; [done|].
  apply (ReleasedGone _ _ _ id); [|done]. destruct Hc as [S _ _ (l & -> & _)]. by eapply Named_grows.
Qed.

Lemma inspected_id (s : dockerSandbox) ran id owned : inspected s ran = Ok (id, true, owned) -> id <> "".
Proof.
  unfold inspected. destruct (rn_err ran); [by case_match|]. destruct (decodeInspection _) as [i|]; [|done].
  destruct (containerIDValid (ci_ID i)) eqn:Hv; [|done]. cbn. intros [= <- _] E. by rewrite E in Hv.
Qed.

(** A container that was found is adopted under its name. *)
Lemma tracks_adopt {A} open name id (k : M Machine A) m :
  Tracking open m -> (forall other, open = Some other -> other = name) -> id <> "" ->
  Named (mc_self m) (callsOf m) name id ->
  (forall m1, Tracking None m1 -> Named (mc_self m1) (callsOf m1) name id -> Tracking None (snd (k m1))) ->
  Tracking None (snd ((_ ← track name id; _ ← settle name; k) m)).
Proof.
  intros Ht Ho Hid Hn Hk. pose proof (track_settle open name id m Ht Hn Hid Ho) as Hs.
  unfold mbind, M_bind in *. cbn [track settle update modify] in *. apply Hk; [exact Hs|].
  rewrite <- (app_nil_r (callsOf _)). by apply (Named_grows (mc_self m)).
Qed.

Lemma tracks_removeTracked name : respects (tracks None) (removeTrackedContainer name).
Proof.
  intros m Ht. unfold removeTrackedContainer, self, gets, mbind at 1, M_bind at 1.
  destruct (ds_containers (mc_self m) !! name) as [id|] eqn:Hi; [|done].
  case_decide as Hid; [|apply tracks_removeByID; [done|]; by apply Ht]. subst id.
  destruct (tk_unknown _ _ Ht name Hi) as [[=]|Hu].
  unfold mbind at 1, M_bind at 1. destruct (inspectContainer name m) as [r m1] eqn:E.
  apply inspect_answer in E as [Hc (ran & Hin & Hr)]. pose proof (calm_tracking _ _ _ Hc Ht) as Ht1.
  destruct r as [[[found [|]] [|]]|e]; cbn [negb]; [| |by destruct (ds_uncertainContainers _ !! name); [|destruct Hu]..|done].
  - apply (tracks_adopt None); [done|done|by eapply inspected_id|by eapply NamedInspected|].
    intros m2 Ht2 Hn. by apply tracks_removeByID.
  - unfold mbind, M_bind. by apply tracking_forget; [|eapply ReleasedForeign].
Qed.
#[local] Hint Resolve tracks_removeTracked : respects.

Lemma tracks_reinspect attempts name : respects (tracks None) (reinspect attempts name).
Proof.
  induction attempts as [|more IH]; [intros m Ht; done|]. intros m Ht. cbn [reinspect].
  unfold mbind at 1, M_bind at 1. destruct (inspectContainer name m) as [r m1] eqn:E.
  apply inspect_answer in E as [Hc (ran & Hin & Hr)]. pose proof (calm_tracking _ _ _ Hc Ht) as Ht1.
  destruct r as [[[found [|]] [|]]|e]; cbn [negb]; [| |..|done].
  - apply (tracks_adopt None); [done|done|by eapply inspected_id|by eapply NamedInspected|].
    intros m2 Ht2 Hn. by apply tracks_removeTracked.
  - unfold mbind, M_bind. by apply tracking_forget; [|eapply ReleasedForeign].
  - revert m1 Ht1 Hc Hin Hr. intros m1 Ht1 _ _ _. revert m1 Ht1. cut (respects (tracks None)
      (_ ← (if decide (more = 0) then mret tt else host (modify (sleep containerReinspectDelay))); reinspect more name));
      [intros Hall m1 Ht1; by apply Hall|]. respect_steps.
  - revert m1 Ht1 Hc Hin Hr. intros m1 Ht1 _ _ _. revert m1 Ht1. cut (respects (tracks None)
      (_ ← (if decide (more = 0) then mret tt else host (modify (sleep containerReinspectDelay))); reinspect more name));
      [intros Hall m1 Ht1; by apply Hall|]. respect_steps.
Qed.

(** ** Creation *)

Lemma create_answer name request m r m' :
  Tracking (Some name) m -> is_Some (ds_containers (mc_self m) !! name) ->
  createContainer name request m = (r, m') ->
  Tracking (Some name) m' /\ forall id, r = Ok id -> id <> "" /\ Named (mc_self m') (callsOf m') name id.
Proof.
  intros Ht Hi E. unfold createContainer, self, gets, mbind at 1, M_bind at 1 in E. unfold mbind at 1, M_bind at 1 in E.
  rewrite run_eq in E.
  pose proof (tr_exec _ traced (Within Background (15 * second)) (docker (createArguments (mc_self m) name request) "") (mc_host m)) as Hx.
  destruct (exec _ _ _) as [ran w]. cbn [fst snd] in *. set (m1 := withHost w m) in *.
  assert (Tracking (Some name) m1) as Ht1.
  { destruct Ht as [T1 T2 T3 T4]. split; [| done| |done]; unfold callsOf, m1; cbn; rewrite Hx.
    - intros other oid Ho Hne. by eapply Named_grows, T1.
    - intros other [Hc|(request' & ran' & Hin%list_elem_of_singleton)]%Requested_app.
      + destruct (T3 other Hc) as [?|?]; [by left|right; by eapply Released_grows].
      + injection Hin as -> _. by left. }
  assert (Named (mc_self m1) (callsOf m1) name (TrimSpace (combined ran)) \/ rn_err ran <> None) as Hn.
  { destruct (rn_err ran) eqn:He; [by right|left]. eapply (NamedCreated _ _ _ _ request ran); [|done..].
    unfold callsOf, m1. cbn. rewrite Hx. apply elem_of_snoc. }
  clearbody m1. destruct (rn_err ran); [by injection E as <- <-|]. destruct Hn as [Hn|[]]; [|done].
  destruct (containerIDValid (TrimSpace (combined ran))) eqn:Hv; cbn [negb] in E; [|by injection E as <- <-].
  unfold mbind, M_bind in E. destruct (inspectContainerContext _ _ m1) as [ri m2] eqn:Ei.
  pose proof (calm_inspect (Within Background (15 * second)) (TrimSpace (combined ran)) m1) as Hc. rewrite Ei in Hc. cbn in Hc.
  pose proof (calm_tracking _ _ _ Hc Ht1) as Ht2.
  destruct ri as [[[owned exists_] own]|e]; [|by injection E as <- <-].
  destruct (_ || _); injection E as <- <-; [done|]. split; [done|]. intros id [= <-]. split; [intros Hz; by rewrite Hz in Hv|].
  destruct Hc as [S _ _ (l & -> & _)]. by eapply Named_grows.
Qed.

Lemma tracks_acquire {A} name request (failed : error -> M Machine A) (made : string -> M Machine A) :
  (forall e, respects (tracks None) (failed e)) -> (forall id, respects (tracks None) (made id)) ->
  respects (tracks None) (acquire name request failed made).
Proof.
  intros Hf Hm m Ht. unfold acquire. unfold mbind at 1, M_bind at 1. cbn [track update modify].
  set (m1 := MkMachine _ _ _ _ _). assert (Tracking (Some name) m1) as Ht1
    by (apply (tracking_track None (Some name) name "" m); try done).
  assert (is_Some (ds_containers (mc_self m1) !! name)) as Hi by (cbn; rewrite lookup_insert_eq; by eexists).
  clearbody m1. unfold mbind at 1, M_bind at 1, try. destruct (createContainer name request m1) as [r m2] eqn:E.
  destruct (create_answer name request m1 r m2 Ht1 Hi E) as [Ht2 Hr].
  destruct r as [id|err].
  - destruct (Hr id eq_refl) as [Hid Hn]. apply (tracks_adopt (Some name)); [done|by intros ? [=]|done|done|].
    intros m3 Ht3 _. by apply Hm.
  - pose proof (tracking_mark name m2 Ht2) as Ht3. unfold mbind, M_bind.
    destruct (markContainerCreateUnknown name m2) as [[[]|e] m3]; [by apply Hf|done].
Qed.

Lemma tracks_truncation r n limit : respects (tracks None) (recordTruncation r n limit).
Proof. unfold recordTruncation. respect_steps. Qed.
Lemma tracks_cleanupAudit e a r timeout limit : respects (tracks None) (cleanupAudit e a r timeout limit).
Proof. unfold cleanupAudit, recordContainerCleanupFailure. respect_steps. Qed.
Lemma tracks_denied r e : respects (tracks None) (recordDenied r e).
Proof. unfold recordDenied. respect_steps. Qed.
Lemma tracks_beforeStart r timeout limit e p : respects (tracks None) (interruptedBeforeStart r timeout limit e p).
Proof. unfold interruptedBeforeStart. respect_steps. Qed.
#[local] Hint Resolve tracks_truncation tracks_cleanupAudit tracks_denied tracks_beforeStart tracks_reinspect : respects.

Lemma tracks_Execute ctx request : respects (tracks None) (Execute ctx request).
Proof.
  unfold Execute, executeContainer. respect_steps. apply tracks_acquire; intros; unfold notCreated, runCreated, cleanupFailedCreate, interrupted, finished; respect_steps.
Qed.

(** ** Destruction *)
Hypothesis worktrees_foreign : forall ctx worktree, respects (foreign commands) (worktree_Destroy (W := W) (H := H) ctx worktree).
Variable range : forall {A : Type}, gmap string A -> list string.

Lemma tracks_cleanupWorkspace ctx : respects (tracks None) (cleanupWorkspace ctx).
Proof.
  unfold cleanupWorkspace. respect_steps. apply tracks_acquire; intros; unfold cleanupFailedCreate; respect_steps.
Qed.

(** A flag of the sandbox. *)
Lemma tracks_flag open f :
  (forall s, same s (f s)) -> (forall s, ds_containers (f s) = ds_containers s) ->
  (forall s, ds_uncertainContainers (f s) = ds_uncertainContainers s) -> respects (tracks open) (update f).
Proof.
  intros Hs Hc Hu. apply tracks_calm. intros m. split; cbn; [apply Hs|apply Hc|apply Hu|]. exists []. split; [by rewrite app_nil_r|].
  by intros name (? & ? & Hi%elem_of_nil).
Qed.

Lemma calm_forgetOwnership : respects calm forgetProviderOwnership.
Proof.
  intros m. split; try done. exists []. split; [by rewrite app_nil_r|]. by intros name (? & ? & Hi%elem_of_nil).
Qed.
#[local] Hint Resolve calm_forgetOwnership tracks_cleanupWorkspace : respects.

Lemma tracks_recordDestroyed : respects (tracks None) recordDestroyed.
Proof. unfold recordDestroyed, recordDestroy. respect_steps. by apply tracks_flag. Qed.
#[local] Hint Resolve tracks_recordDestroyed : respects.

Lemma tracks_destroyWorktree ctx : respects (tracks None) (destroyWorktree ctx).
Proof.
  unfold destroyWorktree. respect_steps; try by apply tracks_flag.
  - apply tracks_calm, calm_quiet, restore_quiet, traced.
  - apply tracks_calm, calm_host, worktrees_foreign.
  - apply tracks_calm, calm_quiet, hide_quiet, traced.
Qed.
#[local] Hint Resolve tracks_destroyWorktree : respects.

(** A row of the scan that was removed. *)
Lemma tracking_forgetRemoved name id m :
  Tracking None m -> Named (mc_self m) (callsOf m) name id -> id <> "" -> Gone (mc_self m) (callsOf m) id ->
  Tracking None (snd (forgetRemoved name id m)).
Proof.
  intros Ht Hn Hid Hg. apply (tracking_update None); [done|done| | |]; cbn.
  - intros other oid [Hi _]%map_lookup_filter_Some. by apply Ht.
  - intros other [Hi Hnot]%map_lookup_filter_Some. destruct (tk_unknown _ _ Ht other Hi) as [[=]|[t Hx]]. right. exists t.
    apply map_lookup_filter_Some. split; [done|]. cbn. intros [x [Hx1 Hx2]%map_lookup_filter_Some]%elem_of_dom.
    apply Hnot. cbn in *. congruence.
  - intros other [oid Hi]. destruct (decide (other = name \/ oid = id)) as [Hd|Hd].
    + right. destruct Hd as [->| ->]; [by apply (ReleasedGone _ _ _ id)|]. by apply (ReleasedGone _ _ _ id); [apply Ht|].
    + left. exists oid. apply map_lookup_filter_Some. by split.
Qed.

Definition tracksScan (lines : list string) (m m' : Machine) : Prop :=
  Tracking None m -> (forall line, line ∈ lines -> Scanned (mc_self m) (callsOf m) line) ->
  Tracking None m' /\ (forall line, line ∈ lines -> Scanned (mc_self m') (callsOf m') line).

#[export] Instance tracksScan_preorder lines : PreOrder (tracksScan lines).
Proof.
  split; [by intros m Ht Hs|]. intros m1 m2 m3 I1 I2 Ht Hs. destruct (I1 Ht Hs) as [Ht2 Hs2]. by apply I2.
Qed.

Lemma isObjectID_nonempty id : isObjectID id = true -> id <> "".
Proof. by intros H2 ->. Qed.

Lemma scanRow_tracks line lines : line ∈ lines -> respects (tracksScan lines) (scanRow line).
Proof.
  intros Hline m Ht Hs. split.
  2:{ intros other Ho. destruct (scanRow_issues (fun _ => True) commands traced line m) as [S (l & E & _)]. unfold callsOf. rewrite E.
      by eapply Scanned_grows; [|apply Hs]. }
  unfold scanRow. case_decide; [done|]. destruct (cut_at tab line) as [[id name]|] eqn:Hcut; [|done].
  destruct (isObjectID id) eqn:Hid; cbn [negb orb]; [|done]. case_bool_decide; cbn [orb]; [done|].
  unfold mbind at 1, M_bind at 1, try at 1. destruct (inspectContainer id m) as [r m1] eqn:E.
  apply inspect_answer in E as [Hc _]. pose proof (calm_tracking _ _ _ Hc Ht) as Ht1.
  destruct r as [[[found exists_] owned]|e]; [|done]. destruct (_ || _); [done|].
  unfold mbind at 1, M_bind at 1, try at 1. destruct (removeOwnedContainer id m1) as [r m2] eqn:E2.
  apply remove_answer in E2 as [Hc2 Hg]. pose proof (calm_tracking _ _ _ Hc2 Ht1) as Ht2.
  destruct r as [b|e]; [|done]. destruct (Hg b eq_refl) as [-> Hgone].
  unfold mbind, M_bind. apply (tracking_forgetRemoved name id); [done| |by apply isObjectID_nonempty|done].
  apply (NamedScanned _ _ _ _ line); [|done].
  destruct Hc as [S1 _ _ (l1 & E1 & _)], Hc2 as [S2 _ _ (l2 & E2 & _)]. rewrite E2, E1, <- (assoc_L (++)).
  apply (Scanned_grows (mc_self m)); [by trans (mc_self m1)|by apply Hs].
Qed.

Lemma tracks_scan : respects (tracks None) removeProviderOwnedContainers.
Proof.
  intros m Ht. unfold removeProviderOwnedContainers. unfold self, gets, mbind at 1, M_bind at 1. unfold mbind at 1, M_bind at 1.
  unfold host, boundedCommandOutput, always, mbind at 1, M_bind at 1.
  pose proof (tr_exec _ traced (Within Background (5 * second)) (scanCommand (mc_self m)) (mc_host m)) as Hx.
  destruct (exec _ _ _) as [ran w]. cbn [fst snd mret M_ret] in *. fold (scanOutput ran). set (m' := MkMachine _ _ _ _ _).
  assert (calm m m') as Hc by (apply (calm_calls m w _ Hx); intros name; apply harmless_calls, harmless_scan).
  pose proof (calm_tracking _ _ _ Hc Ht) as Ht'. destruct (rn_err ran) as [e|] eqn:He; [done|].
  destruct (ob_truncated _); [done|].
  set (lines := strings_Split (TrimSpace (scanOutput ran)) newline).
  assert (forall line, line ∈ lines -> Scanned (mc_self m') (callsOf m') line) as Hs.
  { intros line Hl. exists ran. split; [|done]. unfold callsOf, m'. cbn. rewrite Hx. apply elem_of_snoc. }
  pose proof (respects_join_each_in (tracksScan lines) scanRow None lines (fun line Hl => scanRow_tracks line lines Hl) m' Ht' Hs) as [Hj _].
  unfold mbind, M_bind. destruct (join_each scanRow None lines m') as [[err|err] m2]; [|done]. by destruct err.
Qed.
#[local] Hint Resolve tracks_scan : respects.

Lemma tracks_destroyContainers : respects (tracks None) (destroyContainers (@range)).
Proof. unfold destroyContainers, firstPass, secondPass, present. respect_steps. Qed.
#[local] Hint Resolve tracks_destroyContainers : respects.

Lemma tracks_Destroy : respects (tracks None) (Destroy (@range)).
Proof. unfold Destroy, destroyBody, recordDestroyFailed. respect_steps; by apply tracks_flag. Qed.
End tracking.
