(* ===== verification/DockerTheorems.v ===== *)
(** * What a docker sandbox guarantees

    For any host, recorder and worktree provider: the results it gives are bounded, what
    it asks docker for is isolated and its own, no container is lost, and a destruction
    that succeeds is complete. *)
From stdpp Require Import sorting.
From S2P Require Import Prelude Sha256 GoLib Json Effect AuditLog ToolService Host Docker DockerProvider.
From S2P Require Import PathFacts HostFacts DockerFacts DockerTracking.

(** ** Results *)

(** Whatever the world, [m] answers, and its answer satisfies [Q]. *)
Definition yields {W A} (Q : A -> Prop) (m : M W A) : Prop := forall w, exists a w', m w = (Ok a, w') /\ Q a.

Definition total {W A} (m : M W A) : Prop := yields (fun _ => True) m.

Lemma yields_bind {W A B} (P : A -> Prop) (Q : B -> Prop) (f : A -> M W B) (m : M W A) :
  yields P m -> (forall a, P a -> yields Q (f a)) -> yields Q (m ≫= f).
Proof.
  intros Hm Hf w. destruct (Hm w) as (a & w1 & E & Ha). destruct (Hf a Ha w1) as (b & w2 & E2 & Hb).
  exists b, w2. split; [|done]. unfold mbind, M_bind. by rewrite E.
Qed.

Lemma total_bind {W A B} (Q : B -> Prop) (f : A -> M W B) (m : M W A) :
  total m -> (forall a, yields Q (f a)) -> yields Q (m ≫= f).
Proof. intros Hm Hf. apply (yields_bind (fun _ => True)); [done|]. by intros a _. Qed.

Lemma yields_ret {W A} (Q : A -> Prop) (a : A) : Q a -> yields (W := W) Q (mret a).
Proof. intros Ha w. by exists a, w. Qed.
Lemma total_gets {W A} (f : W -> A) : total (gets f).
Proof. intros w. by eexists _, _. Qed.
Lemma total_modify {W} (f : W -> W) : total (modify f).
Proof. intros w. by eexists _, _. Qed.
Lemma total_attempt {W A} (m : M W A) : total (attempt m).
Proof. intros w. unfold attempt. destruct (m w) as [[a|e] w']; by eexists _, _. Qed.
Lemma total_try {W A} (m : M W A) : total (try m).
Proof. intros w. unfold try. destruct (m w) as [r w']. by eexists _, _. Qed.

Section results.
Context {W H : Type} `{Host W} `{Worktrees W H}.

Abbreviation Machine := (@Machine W H).

Lemma total_self : total (self : M Machine _).
Proof. apply total_gets. Qed.
Lemma total_update f : total (update f : M Machine _).
Proof. apply total_modify. Qed.
Lemma total_always {A} (f : W -> A * W) : total (host (always f) : M Machine _).
Proof. intros m. unfold host, always. destruct (f _) as [a w]. by eexists _, _. Qed.
Lemma total_audit event : total (audit event : M Machine _).
Proof. unfold audit. apply total_bind; [apply total_self|]. intros s. apply total_attempt. Qed.

Lemma total_nextName purpose : total (nextContainerName purpose : M Machine _).
Proof.
  unfold nextContainerName. repeat (apply total_bind; [first [apply total_modify|apply total_gets|apply total_self]|intros ?]).
  by apply yields_ret.
Qed.

Lemma total_mark name : total (markContainerCreateUnknown name : M Machine _).
Proof.
  unfold markContainerCreateUnknown. apply total_bind; [apply total_self|]. intros s. case_match; [by apply yields_ret|].
  apply total_bind; [apply total_always|]. intros now. apply total_update.
Qed.

(** A result tells what a process did: the first [limit] bytes it wrote, each stream apart,
    whether there were more, and the exit code. *)
Record Reports (limit : Z) (ran : Ran) (executed : Executed) : Prop := {
  rp_stdout : sr_Stdout (fst executed) = text_of false (take (Z.to_nat limit) (stream (rn_writes ran)));
  rp_stderr : sr_Stderr (fst executed) = text_of true (take (Z.to_nat limit) (stream (rn_writes ran)));
  rp_truncated : sr_Truncated (fst executed) = (limit <? Z.of_nat (length (stream (rn_writes ran))))%Z;
  rp_exit : sr_ExitCode (fst executed) = exitCode (rn_err ran)
}.

(** A result without output *)
Definition Empty (executed : Executed) : Prop :=
  sr_Stdout (fst executed) = "" /\ sr_Stderr (fst executed) = "" /\ sr_Truncated (fst executed) = false.

Lemma reports_outcome limit ran e : (0 <= limit)%Z -> Reports limit ran (fst (outcome limit ran), e).
Proof. intros Hl. by destruct (collect_holds limit (rn_writes ran) Hl). Qed.

Lemma reports_expired limit ran r e e' :
  Reports limit ran (r, e) -> Reports limit ran (MkSandboxResult (sr_Stdout r) (sr_Stderr r) (sr_ExitCode r) true (sr_Truncated r), e').
Proof. by intros []. Qed.

Lemma reports_nothing limit ran executed :
  (0 <= limit)%Z -> rn_writes ran = [] -> Reports limit ran executed -> Empty executed.
Proof.
  intros Hl Hw [Ho Hs Ht _]. unfold Empty. rewrite Ho, Hs, Ht, Hw. cbn. rewrite !take_nil. split_and!; [done..|]. apply Z.ltb_ge. lia.
Qed.

Create HintDb total.
#[local] Hint Resolve total_self total_update total_always total_audit total_nextName total_mark
  total_attempt total_try total_gets total_modify : total.

Ltac total_steps :=
  repeat lazymatch goal with
  | |- yields _ (mbind _ _) => apply total_bind; [solve [eauto 2 with total]|intros ?]
  | |- yields _ (mret _) => apply yields_ret
  | |- yields _ (match ?x with _ => _ end) => destruct x
  | |- _ => progress cbv zeta
  end.

Lemma total_truncation r n limit : total (recordTruncation r n limit : M Machine _).
Proof. unfold recordTruncation. apply total_bind; [apply total_self|]. intros s. apply total_audit. Qed.
Lemma total_cleanupFailure r timeout limit : total (recordContainerCleanupFailure r timeout limit : M Machine _).
Proof. unfold recordContainerCleanupFailure. apply total_bind; [apply total_self|]. intros s. apply total_audit. Qed.
#[local] Hint Resolve total_truncation total_cleanupFailure : total.
Lemma total_cleanupAudit e a r timeout limit : total (cleanupAudit e a r timeout limit : M Machine _).
Proof. unfold cleanupAudit. unfold total. total_steps; done. Qed.
Lemma total_denied r e : total (recordDenied r e : M Machine _).
Proof. unfold recordDenied, total. total_steps; done. Qed.
#[local] Hint Resolve total_cleanupAudit total_denied : total.

Lemma yields_beforeStart request timeout limit e p : yields Empty (interruptedBeforeStart request timeout limit e p : M Machine _).
Proof. unfold interruptedBeforeStart. total_steps. done. Qed.

Lemma yields_notCreated ctx name request timeout limit err : yields Empty (notCreated ctx name request timeout limit err : M Machine _).
Proof.
  unfold notCreated. apply total_bind; [apply total_attempt|intros ?].
  apply total_bind; [apply total_always|intros [e|]]; [apply yields_beforeStart|]. by total_steps.
Qed.

Lemma yields_interrupted ran name request timeout limit n r expired :
  Reports limit ran (r, None) -> yields (Reports limit ran) (interrupted name request timeout limit n r expired : M Machine _).
Proof.
  intros Hr. unfold interrupted. cbv zeta. destruct expired; do 4 (apply total_bind; [eauto with total|intros ?]);
    (apply total_bind; [unfold total; total_steps; done|intros ?]); (apply total_bind; [eauto with total|intros ?]);
    apply yields_ret; [by apply (reports_expired limit ran r None)|by destruct Hr].
Qed.

Lemma yields_finished ran name request timeout limit n r startErr :
  (forall e, Reports limit ran (r, e)) -> yields (Reports limit ran) (finished name request timeout limit n r startErr : M Machine _).
Proof.
  intros Hr. unfold finished. apply total_bind; [eauto with total|intros removeErr].
  apply total_bind; [unfold total; total_steps; done|intros truncationErr]. total_steps; apply Hr.
Qed.

Lemma clamp_bounds requested configured : (0 < configured)%Z -> (0 < clamp requested configured <= configured)%Z.
Proof. intros Hc. unfold clamp. destruct (_ || _) eqn:E; lia. Qed.

Lemma config_limit (config : DockerConfig W) : is_ok (validateDockerConfig config) = true -> (0 < dc_OutputLimit config)%Z.
Proof.
  unfold validateDockerConfig. repeat (destruct (negb _); [done|]). destruct (_ <=? _)%Z; [done|].
  destruct (_ <=? _)%Z; [done|]. destruct (dc_OutputLimit _ <=? 0)%Z eqn:E; [done|]. lia.
Qed.

End results.

(** ** What a command wrote *)

Section told.
Context {W H : Type} `{Host W} `{Worktrees W H}.

Abbreviation Machine := (@Machine W H).
Abbreviation Call := (Cmd * Ran)%type.

Variable commands : W -> list Call.
Hypothesis traced : Traced commands.

(** The containers that were started *)
Definition starts (calls : list Call) : list Call :=
  List.filter (fun call => String.eqb (cm_Name (fst call)) "docker" &&
                           match cm_Args (fst call) with argument :: _ => String.eqb argument "start" | [] => false end) calls.

Lemma starts_app l k : starts (l ++ k) = starts l ++ starts k.
Proof. apply List.filter_app. Qed.

(** No container is started. *)
Definition idle (m m' : Machine) : Prop :=
  quietRecorder commands (ds_config (mc_self m)) ->
  ds_config (mc_self m') = ds_config (mc_self m) /\
  exists calls, commands (mc_host m') = commands (mc_host m) ++ calls /\ starts calls = [].

#[local] Instance idle_preorder : PreOrder idle.
Proof.
  split.
  - intros m _. split; [done|]. exists []. by rewrite app_nil_r.
  - intros m1 m2 m3 I1 I2 Hq. destruct (I1 Hq) as (C1 & l1 & E1 & S1). destruct I2 as (C2 & l2 & E2 & S2); [by rewrite C1|].
    split; [by rewrite C2|]. exists (l1 ++ l2). by rewrite E2, E1, (assoc_L (++)), starts_app, S1, S2.
Qed.

Lemma idle_run ctx command : starts [(command, MkRan [] None)] = [] -> respects idle (run ctx command).
Proof.
  intros Hc m _. rewrite run_eq. cbn. split; [done|]. eexists. split; [apply traced|].
  unfold starts in *. cbn in *. by destruct (_ && _).
Qed.

Lemma idle_quiet {A} (c : M W A) : respects (quiet commands) c -> respects idle (host c).
Proof.
  intros Hc m _. unfold host. specialize (Hc (mc_host m)). destruct (c (mc_host m)) as [r w]. split; [done|].
  exists []. by rewrite app_nil_r.
Qed.

Lemma idle_update f : (forall s, ds_config (f s) = ds_config s) -> respects idle (update f).
Proof. intros Hf m _. split; [apply Hf|]. exists []. by rewrite app_nil_r. Qed.

Lemma idle_self : respects idle self.
Proof. apply respects_gets, _. Qed.

Lemma idle_audit event : respects idle (audit event).
Proof.
  intros m Hq. pose proof (respects_attempt idle _ (idle_quiet _ (Hq event)) m Hq) as Ha. exact Ha.
Qed.

Lemma idle_contextErr ctx : respects idle (contextErr ctx).
Proof. apply idle_quiet, respects_always, traced. Qed.

Lemma idle_inspect ctx reference : respects idle (inspectContainerContext ctx reference).
Proof. unfold inspectContainerContext. respect_steps; [by apply idle_run|apply idle_self]. Qed.

Lemma idle_name purpose : respects idle (nextContainerName purpose).
Proof. unfold nextContainerName. respect_steps; [|apply idle_self]. intros m _. split; [done|]. exists []. by rewrite app_nil_r. Qed.

#[local] Hint Extern 1 (respects idle (update _)) => by apply idle_update : respects.
#[local] Hint Extern 1 (respects idle (run _ _)) => by apply idle_run : respects.
#[local] Hint Resolve idle_self idle_audit idle_contextErr idle_inspect idle_name : respects.

Lemma idle_inspectContainer reference : respects idle (inspectContainer reference).
Proof. apply idle_inspect. Qed.
#[local] Hint Resolve idle_inspectContainer : respects.

Lemma idle_create name request : respects idle (createContainer name request).
Proof. unfold createContainer. respect_steps. Qed.
Lemma idle_track name id : respects idle (track name id).
Proof. by apply idle_update. Qed.
Lemma idle_settle name : respects idle (settle name).
Proof. by apply idle_update. Qed.
Lemma idle_forget name : respects idle (forget name).
Proof. by apply idle_update. Qed.
#[local] Hint Resolve idle_create idle_track idle_settle idle_forget : respects.

Lemma idle_mark name : respects idle (markContainerCreateUnknown name).
Proof. unfold markContainerCreateUnknown. respect_steps. apply idle_quiet, respects_always, traced. Qed.
Lemma idle_kill name : respects idle (killTrackedContainer name).
Proof. unfold killTrackedContainer. respect_steps. Qed.
Lemma idle_remove name : respects idle (removeTrackedContainer name).
Proof. unfold removeTrackedContainer, removeByID, removeOwnedContainer. respect_steps. Qed.
#[local] Hint Resolve idle_mark idle_kill idle_remove : respects.

Lemma idle_reinspect attempts name : respects idle (reinspect attempts name).
Proof. induction attempts as [|more IH]; cbn [reinspect]; respect_steps. apply idle_quiet. intros w. apply traced. Qed.
#[local] Hint Resolve idle_reinspect : respects.

Lemma idle_denied r e : respects idle (recordDenied r e).
Proof. unfold recordDenied. respect_steps. Qed.
Lemma idle_beforeStart r timeout limit e p : respects idle (interruptedBeforeStart r timeout limit e p).
Proof. unfold interruptedBeforeStart. respect_steps. Qed.
Lemma idle_truncation r n limit : respects idle (recordTruncation r n limit).
Proof. unfold recordTruncation. respect_steps. Qed.
Lemma idle_cleanupAudit e a r timeout limit : respects idle (cleanupAudit e a r timeout limit).
Proof. unfold cleanupAudit, recordContainerCleanupFailure. respect_steps. Qed.
#[local] Hint Resolve idle_denied idle_beforeStart idle_truncation idle_cleanupAudit : respects.

Lemma idle_notCreated ctx name r timeout limit e : respects idle (notCreated ctx name r timeout limit e).
Proof. unfold notCreated, cleanupFailedCreate. respect_steps. Qed.
Lemma idle_interrupted name request timeout limit n r expired : respects idle (interrupted name request timeout limit n r expired).
Proof. unfold interrupted. respect_steps. Qed.
Lemma idle_finished name request timeout limit n r e : respects idle (finished name request timeout limit n r e).
Proof. unfold finished. respect_steps. Qed.
#[local] Hint Resolve idle_interrupted idle_finished : respects.

(** A result tells what the container that was started did; it is given the input of the
    request.  When none was started, the result is empty. *)
Definition Told (limit : Z) (stdin : string) (calls : list Call) (executed : Executed) : Prop :=
  match starts calls with
  | [] => Empty executed
  | [(command, ran)] => cm_Stdin command = stdin /\ Reports limit ran executed
  | _ => False
  end.

Definition tells (limit : Z) (stdin : string) (c : M Machine Executed) : Prop := forall m,
  quietRecorder commands (ds_config (mc_self m)) ->
  exists executed m' calls, c m = (Ok executed, m') /\
    commands (mc_host m') = commands (mc_host m) ++ calls /\ Told limit stdin calls executed.

Lemma tells_bind {A} limit stdin (f : A -> M Machine Executed) (c : M Machine A) :
  total c -> respects idle c -> (forall a, tells limit stdin (f a)) -> tells limit stdin (c ≫= f).
Proof.
  intros Ht Hi Hf m Hq. destruct (Ht m) as (a & m1 & E & _). specialize (Hi m Hq). rewrite E in Hi. cbn in Hi.
  destruct Hi as (C1 & l1 & E1 & S1). destruct (Hf a m1) as (executed & m' & l2 & E2 & E2' & T); [by rewrite C1|].
  exists executed, m', (l1 ++ l2). split; [unfold mbind, M_bind; by rewrite E|]. rewrite E2', E1, (assoc_L (++)).
  split; [done|]. unfold Told. by rewrite starts_app, S1.
Qed.

Lemma tells_empty limit stdin (c : M Machine Executed) : yields Empty c -> respects idle c -> tells limit stdin c.
Proof.
  intros Hy Hi m Hq. destruct (Hy m) as (executed & m' & E & He). specialize (Hi m Hq). rewrite E in Hi.
  destruct Hi as (_ & calls & E' & S). exists executed, m', calls. split; [done|]. split; [done|]. unfold Told. by rewrite S.
Qed.

(** A start that was refused wrote nothing. *)
Lemma start_told ctx id stdin (m : Machine) :
  quietRecorder commands (ds_config (mc_self m)) ->
  exists ran m' calls, startOwnedContainer ctx id stdin m = (Ok ran, m') /\ ds_config (mc_self m') = ds_config (mc_self m) /\
    commands (mc_host m') = commands (mc_host m) ++ calls /\
    (starts calls = [] /\ rn_writes ran = [] \/ exists command, starts calls = [(command, ran)] /\ cm_Stdin command = stdin).
Proof.
  intros Hq. unfold startOwnedContainer, mbind, M_bind, try.
  pose proof (idle_inspectContainer id m Hq) as (C & calls & E & S). destruct (inspectContainer id m) as [r m1]. cbn in C, E.
  assert (forall e, exists ran m' calls, (Ok (MkRan [] (Some e)), m1) = (Ok ran, m') /\
    ds_config (mc_self m') = ds_config (mc_self m) /\ commands (mc_host m') = commands (mc_host m) ++ calls /\
    (starts calls = [] /\ rn_writes ran = [] \/ exists command, starts calls = [(command, ran)] /\ cm_Stdin command = stdin)) as Hrefused
    by (intros e; eexists _, m1, calls; split; [reflexivity|]; split; [done|]; split; [done|]; by left).
  destruct r as [[[owned exists_] own]|e]; [|apply Hrefused]. destruct (_ || _ || _); [apply Hrefused|].
  rewrite run_eq. eexists _, _, (calls ++ _). split; [reflexivity|]. cbn. split; [done|].
  rewrite (tr_exec _ traced), E, <- (assoc_L (++)). split; [done|]. right. eexists. rewrite starts_app, S. by split.
Qed.

Lemma tells_start ctx id limit stdin (f : Ran -> M Machine Executed) :
  (0 <= limit)%Z -> (forall ran, yields (Reports limit ran) (f ran)) -> (forall ran, respects idle (f ran)) ->
  tells limit stdin (startOwnedContainer ctx id stdin ≫= f).
Proof.
  intros Hl Hy Hi m Hq. destruct (start_told ctx id stdin m Hq) as (ran & m1 & l1 & E & C & E1 & S1).
  destruct (Hy ran m1) as (executed & m' & E2 & Hr). specialize (Hi ran m1). rewrite E2 in Hi.
  destruct Hi as (_ & l2 & E3 & S2); [by rewrite C|]. exists executed, m', (l1 ++ l2). cbn in E3.
  split; [unfold mbind, M_bind; by rewrite E|]. rewrite E3, E1, (assoc_L (++)). split; [done|].
  unfold Told. rewrite starts_app, S2, app_nil_r. destruct S1 as [[-> Hw]|(command & -> & Hs)]; [|done].
  by apply (reports_nothing limit ran).
Qed.

Lemma tells_runCreated ctx name request timeout limit id :
  (0 <= limit)%Z -> tells limit (default "" (sq_Stdin request)) (runCreated ctx name request timeout limit id).
Proof.
  intros Hl. unfold runCreated. cbv zeta. apply tells_start; [done| |]; intros ran.
  - pose proof (fun e => reports_outcome limit ran e Hl) as Hr. destruct (outcome limit ran) as [r n].
    apply total_bind; [apply total_always|intros deadline]. case_match; [by apply yields_interrupted|].
    apply total_bind; [apply total_always|intros canceled]. case_match; [by apply yields_interrupted|by apply yields_finished].
  - destruct (outcome limit ran) as [r n]. respect_steps.
Qed.

Lemma tells_execute ctx request timeout limit :
  (0 <= limit)%Z -> tells limit (default "" (sq_Stdin request)) (executeContainer ctx request timeout limit).
Proof.
  intros Hl. unfold executeContainer, acquire. apply tells_bind; [apply total_nextName|apply idle_name|intros name].
  apply tells_bind; [apply total_update|apply idle_track|intros ?].
  apply tells_bind; [apply total_try|apply respects_try, idle_create|intros [id|err]].
  - apply tells_bind; [apply total_update|apply idle_track|intros ?].
    apply tells_bind; [apply total_update|apply idle_settle|intros ?]. by apply tells_runCreated.
  - apply tells_bind; [apply total_mark|apply idle_mark|intros ?]. apply tells_empty; [apply yields_notCreated|apply idle_notCreated].
Qed.

Lemma tells_Execute ctx request limit (m : Machine) :
  limit = clamp (sq_OutputLimit request) (dc_OutputLimit (ds_config (mc_self m))) -> (0 <= limit)%Z ->
  quietRecorder commands (ds_config (mc_self m)) ->
  exists executed m' calls, Execute ctx request m = (Ok executed, m') /\
    commands (mc_host m') = commands (mc_host m) ++ calls /\ Told limit (default "" (sq_Stdin request)) calls executed.
Proof.
  intros Elimit Hl Hq. assert (forall e, tells limit (default "" (sq_Stdin request)) (x ← recordDenied request e; mret (emptyResult, x))) as Hdenied.
  { intros e. apply tells_bind; [apply total_denied|apply idle_denied|intros x]. apply tells_empty; [by apply yields_ret|].
    apply respects_ret, _. }
  unfold Execute, self, gets, mbind at 1, M_bind at 1. destruct (_ || _); [by apply Hdenied|].
  destruct (validateContainerCommand _); [|by apply Hdenied]. destruct (validateEnvironment _ _); [|by apply Hdenied].
  rewrite <- Elimit. cbv zeta.
  lazymatch goal with |- exists executed m' calls, ?c m = _ /\ _ =>
    cut (tells limit (default "" (sq_Stdin request)) c); [intros Ht; by apply Ht|] end.
  apply tells_bind; [apply total_always|apply idle_contextErr|intros [e|]];
    [apply tells_empty; [apply yields_beforeStart|apply idle_beforeStart]|by apply tells_execute].
Qed.

(** C20: output is bounded: [Execute] always answers - it has no failure beside the error
    it returns - and starts at most one container, which reads the input of the request.
    The result holds exactly the first bytes the container wrote, both streams apart,
    counted in the order the bytes came, up to the limit of the request within that of the
    configuration; it is marked truncated exactly when the container wrote more, and has its
    exit code.  When no container was started it is empty.  So what is kept never exceeds
    the configured limit. *)
Theorem output_is_bounded ctx request (m : Machine) :
  quietRecorder commands (ds_config (mc_self m)) -> is_ok (validateDockerConfig (ds_config (mc_self m))) = true ->
  let limit := clamp (sq_OutputLimit request) (dc_OutputLimit (ds_config (mc_self m))) in
  (0 < limit <= dc_OutputLimit (ds_config (mc_self m)))%Z /\
  exists executed m' calls, Execute ctx request m = (Ok executed, m') /\
    commands (mc_host m') = commands (mc_host m) ++ calls /\ Told limit (default "" (sq_Stdin request)) calls executed.
Proof.
  intros Hq Hv limit. pose proof (clamp_bounds (sq_OutputLimit request) _ (config_limit _ Hv)) as Hl. split; [exact Hl|].
  apply tells_Execute; [done|lia|done].
Qed.
End told.

(** ** What a sandbox asks docker for *)

Section asks.
Context {W H : Type} `{Host W} `{Worktrees W H}.

Abbreviation dockerSandbox := (@dockerSandbox W H).
Abbreviation Machine := (@Machine W H).

Lemma first_occurrences_elem seen keys k : k ∈ first_occurrences seen keys <-> k ∈ keys /\ k ∉ seen.
Proof.
  revert seen. induction keys as [|key keys IH]; intros seen; cbn [first_occurrences].
  - split; [by intros ?%elem_of_nil|by intros [?%elem_of_nil _]].
  - case_decide as Hd; [rewrite IH, elem_of_cons; split; [tauto|]; by intros [[->|?] ?]|]. rewrite !elem_of_cons, IH, elem_of_cons. destruct (decide (k = key)) as [->|Hne]; tauto.
Qed.

Lemma first_occurrences_NoDup seen keys : NoDup (first_occurrences seen keys).
Proof.
  revert seen. induction keys as [|key keys IH]; intros seen; cbn [first_occurrences]; [constructor|].
  case_decide; [apply IH|]. constructor; [|apply IH]. rewrite first_occurrences_elem, elem_of_cons. tauto.
Qed.

Lemma environmentKeys_elem (env : gmap string string) k : k ∈ environmentKeys env <-> is_Some (env !! k).
Proof.
  unfold environmentKeys. rewrite list_elem_of_fmap. split.
  - intros ([k' v] & -> & Hi%elem_of_map_to_list). by exists v.
  - intros [v Hv]. exists (k, v). split; [done|]. by apply elem_of_map_to_list.
Qed.

Lemma allowed_keys allowlist (environment : gmap string string) :
  is_ok (validateEnvironment allowlist environment) = true ->
  forall key, is_Some (environment !! key) -> (key ∉ fixedKeys) /\ key ∈ allowlist.
Proof.
  intros He key Hk. unfold validateEnvironment in He. destruct (forallb _ _) eqn:Hf; [|done].
  rewrite forallb_forall in Hf. specialize (Hf key). rewrite <- list_elem_of_In, environmentKeys_elem in Hf.
  specialize (Hf Hk). apply andb_true_iff in Hf as [H3 H4].
  apply negb_true_iff, bool_decide_eq_false in H3. by apply bool_decide_eq_true in H4.
Qed.

(** What docker create is told, read as its command line is: of the options the source
    gives, [--interactive] and [--read-only] stand alone and every other takes the argument
    behind it; the first argument that is no option is the image, and what follows it is the
    command of the container. *)
Fixpoint readOptions (arguments : list string) : list (string * string) * list string :=
  match arguments with
  | [] => ([], [])
  | option :: rest =>
      if negb (HasPrefix option "-") then ([], arguments)
      else if existsb (String.eqb option) ["--interactive"; "--read-only"]
      then let '(options, container) := readOptions rest in ((option, "") :: options, container)
      else match rest with
      | [] => ([], arguments)
      | value :: rest => let '(options, container) := readOptions rest in ((option, value) :: options, container)
      end
  end.

(** The values an option was given with. *)
Definition given (options : list (string * string)) (option : string) : list string :=
  map snd (List.filter (fun o => String.eqb (fst o) option) options).

(** No network, no shared memory with others, a file system that is read-only but for the
    worktree, in which the git pointer is read-only again; a user without privileges that
    cannot gain any; the limits of the configuration; the labels by which the sandbox knows
    its own; and nothing else but environment variables. *)
Record Isolated (s : dockerSandbox) (name : string) (options : list (string * string)) : Prop := {
  il_network : given options "--network" = ["none"];
  il_ipc : given options "--ipc" = ["none"];
  il_readonly : given options "--read-only" = [""];
  il_user : given options "--user" = ["65532:65532"];
  il_capabilities : given options "--cap-drop" = ["ALL"];
  il_privileges : given options "--security-opt" = ["no-new-privileges"];
  il_cpu : given options "--cpus" = [dc_CPU (ds_config s)];
  il_memory : given options "--memory" = [dc_Memory (ds_config s)];
  il_processes : given options "--pids-limit" = [pretty (dc_PIDs (ds_config s))];
  il_mounts : let workspace := worktree_Workspace (W := W) (ds_worktree s) in
    given options "--mount" =
      ["type=bind,src=" +:+ workspace +:+ ",dst=/workspace";
       "type=bind,src=" +:+ filepath_Join [workspace; ".git"] +:+ ",dst=/workspace/.git,readonly"];
  il_directory : given options "--workdir" = ["/workspace"];
  il_name : given options "--name" = [name];
  il_labels : given options "--label" =
    ["agentdock.phase=4"; "agentdock.run_id=" +:+ sp_RunID (ds_spec s);
     "agentdock.attempt_id=" +:+ sp_AttemptID (ds_spec s); "agentdock.owner_token=" +:+ ds_ownerToken s];
  il_others : forall option, option ∈ map fst options -> option ∈
    ["--network"; "--ipc"; "--read-only"; "--user"; "--cap-drop"; "--security-opt"; "--cpus"; "--memory"; "--pids-limit";
     "--mount"; "--workdir"; "--name"; "--label"; "--interactive"; "--env"]
}.

Lemma readOptions_env (value : string -> string) keys rest :
  readOptions (concat (map (fun key => ["--env"; value key]) keys) ++ rest) =
  (map (fun key => ("--env", value key)) keys ++ fst (readOptions rest), snd (readOptions rest)).
Proof.
  induction keys as [|key keys IH]; cbn [map concat app]; [by destruct (readOptions rest)|]. cbn [readOptions].
  rewrite IH. reflexivity.
Qed.

Lemma readOptions_image image command :
  imageValid image = true -> readOptions (image :: command) = ([], image :: command).
Proof.
  intros [Hp _]%andb_true_iff. apply prefix_spec in Hp as [rest ->]. reflexivity.
Qed.

Lemma given_app options options' option : given (options ++ options') option = given options option ++ given options' option.
Proof. unfold given. by rewrite List.filter_app, map_app. Qed.

Lemma given_env (value : string -> string) keys option :
  given (map (fun key => ("--env", value key)) keys) option =
  if String.eqb "--env" option then map value keys else [].
Proof.
  unfold given. induction keys as [|key keys IH]; cbn [map List.filter fst]; [by destruct (String.eqb _ _)|].
  destruct (String.eqb "--env" option); cbn [map snd]; by rewrite IH.
Qed.

(** The options that do not depend on the request. *)
Definition isolationOptions (s : dockerSandbox) (name : string) : list (string * string) :=
  fst (readOptions (tail (isolation s name))).

Lemma readOptions_isolation s name rest :
  readOptions (tail (isolation s name) ++ rest) =
  (isolationOptions s name ++ fst (readOptions rest), snd (readOptions rest)).
Proof. unfold isolationOptions, isolation. cbn. by destruct (readOptions rest). Qed.

(** The tool chain and temporary files stay in the workspace. *)
Definition toolEnvironment : list string :=
  [ "GOCACHE=/workspace/.agentdock/go-cache"; "GOENV=off"; "GOFLAGS="; "GOTOOLCHAIN=local";
    "GOTMPDIR=/workspace/.agentdock/tmp"; "HOME=/workspace/.agentdock/home"; "TMPDIR=/workspace/.agentdock/tmp" ].

Lemma toolEnvironment_fixed entry :
  entry ∈ toolEnvironment -> exists key, key ∈ fixedKeys /\ entry = key +:+ "=" +:+ fixedValue key.
Proof.
  revert entry. apply Forall_forall.
  assert (map (fun key => key +:+ "=" +:+ fixedValue key) fixedKeys = toolEnvironment) as <- by reflexivity.
  apply Forall_forall. intros entry (key & -> & Hk)%list_elem_of_fmap. by exists key.
Qed.

Lemma isolation_isolated s name (value : string -> string) keys :
  Isolated s name (isolationOptions s name ++ map (fun key => ("--env", value key)) keys).
Proof.
  split; try (rewrite given_app, given_env; reflexivity).
  intros option. rewrite map_app, elem_of_app, map_map. intros [Hi|(key & -> & _)%list_elem_of_fmap].
  - revert Hi. generalize option. apply Forall_forall. cbn.
    repeat (constructor; [by apply (bool_decide_unpack (_ ∈ _))|]). constructor.
  - by apply (bool_decide_unpack (_ ∈ _)).
Qed.

(** C15: a container is isolated: for every request that passes the checks and every image
    that was resolved, docker create is told, read as docker reads its command line, exactly
    this: no network and no shared memory, no capabilities and no new privileges, an
    unprivileged user, a read-only file system but for the worktree, the limits of the
    configuration, the labels of the sandbox, and no option besides - then one value per
    environment variable, then the image and the command of the helper.  The variables of
    the Go tool chain and of temporary files have their fixed values, and any other is on
    the list of the configuration. *)
Theorem containers_are_isolated (s : dockerSandbox) name request :
  imageValid (dc_Image (ds_config s)) = true -> allowedRequest s request ->
  (exists subcommand rest, sq_Command request = helper :: subcommand :: rest) /\
  exists arguments options keys,
    createArguments s name request = "create" :: arguments /\
    readOptions arguments = (options, dc_Image (ds_config s) :: sq_Command request) /\
    Isolated s name options /\
    given options "--env" =
      map (fun key => key +:+ "=" +:+ default (fixedValue key) (sq_Environment request !! key)) keys /\
    toolEnvironment ⊆ given options "--env" /\ NoDup keys /\
    (forall key, key ∈ keys <-> key ∈ fixedKeys \/ is_Some (sq_Environment request !! key)) /\
    (forall key, key ∈ fixedKeys -> sq_Environment request !! key = None) /\
    (forall key, is_Some (sq_Environment request !! key) -> key ∈ dc_EnvAllowlist (ds_config s)).
Proof.
  intros Himage [Hc He]. split.
  { destruct (sq_Command request) as [|program [|subcommand rest]]; cbn in Hc; [done..|]. case_decide; [|done]. subst. by eexists _, _. }
  set (keys := first_occurrences [] (sort_Strings (fixedKeys ++ environmentKeys (sq_Environment request)))).
  set (value := fun key => key +:+ "=" +:+ default (fixedValue key) (sq_Environment request !! key)).
  exists (tail (isolation s name) ++ concat (map (fun key => ["--env"; value key]) keys) ++ dc_Image (ds_config s) :: sq_Command request),
    (isolationOptions s name ++ map (fun key => ("--env", value key)) keys), keys.
  split; [reflexivity|]. split; [by rewrite readOptions_isolation, readOptions_env, readOptions_image, app_nil_r|].
  pose proof (allowed_keys _ _ He) as Hall.
  assert (forall key, key ∈ fixedKeys -> sq_Environment request !! key = None) as Hnone
    by (intros key Hk; apply eq_None_not_Some; intros Hs; by destruct (Hall key Hs)).
  assert (forall key, key ∈ keys <-> key ∈ fixedKeys \/ is_Some (sq_Environment request !! key)) as Hkeys.
  { intros key. unfold keys. rewrite first_occurrences_elem. unfold sort_Strings.
    rewrite merge_sort_Permutation, elem_of_app, environmentKeys_elem.
    split; [tauto|]. intros Hk. split; [done|]. by apply not_elem_of_nil. }
  assert (given (isolationOptions s name ++ map (fun key => ("--env", value key)) keys) "--env" = map value keys) as Henv
    by by rewrite given_app, given_env.
  split; [apply isolation_isolated|]. split; [exact Henv|]. rewrite Henv.
  split; [|split; [apply first_occurrences_NoDup|split; [done|split; [done|by intros key Hk; apply Hall]]]].
  intros entry (key & Hk & ->)%toolEnvironment_fixed. apply list_elem_of_fmap. exists key. unfold value.
  rewrite (Hnone key Hk). split; [done|]. apply Hkeys. by left.
Qed.

Variable commands : W -> list (Cmd * Ran).

(** C7: a sandbox asks docker only for what is its own: every command that an execution
    or the destruction of a sandbox runs is an inspection, a scan for its own token, the
    creation of an isolated container for the request at hand, which is allowed, or it starts, kills or
    removes a container that the inspection just before found to carry its labels - the
    phase, the Run, the attempt and its secret token. *)
Theorem only_owned_containers_are_touched (range : forall {A : Type}, gmap string A -> list string) (m : Machine) :
  Traced commands -> (forall ctx worktree, respects (foreign commands) (worktree_Destroy (W := W) (H := H) ctx worktree)) ->
  quietRecorder commands (ds_config (mc_self m)) ->
  (forall ctx request, exists calls,
     commands (mc_host (snd (Execute ctx request m))) = commands (mc_host m) ++ calls /\ Permitted (eq request) (mc_self m) calls) /\
  (exists calls, commands (mc_host (snd (Destroy (@range) m))) = commands (mc_host m) ++ calls /\
     Permitted (eq cleanupRequest) (mc_self m) calls).
Proof.
  intros Ht Hw Hq. split; [intros ctx request|].
  - by apply (Execute_issues (eq request) commands Ht ctx request m).
  - by apply (Destroy_issues (eq cleanupRequest) commands Ht Hw (@range) m).
Qed.

(** ** No container is lost *)

(** What the owner of a sandbox does with it. *)
Inductive Method : Type :=
  | CallExecute (ctx : Deadline) (request : SandboxRequest)
  | CallDestroy.

Definition perform (range : forall {A : Type}, gmap string A -> list string) (m : Machine) (method : Method) : Machine :=
  match method with
  | CallExecute ctx request => snd (Execute ctx request m)
  | CallDestroy => snd (Destroy (@range) m)
  end.

Lemma performed (range : forall {A : Type}, gmap string A -> list string) methods (m : Machine) :
  Traced commands -> (forall ctx worktree, respects (foreign commands) (worktree_Destroy (W := W) (H := H) ctx worktree)) ->
  Tracking commands None m -> Tracking commands None (foldl (perform (@range)) m methods).
Proof.
  intros Ht Hw. revert m. induction methods as [|method methods IH]; intros m Hm; [done|]. cbn. apply IH.
  destruct method as [ctx request|]; [by apply (tracks_Execute commands Ht ctx request)|by apply (tracks_Destroy commands Ht Hw (@range))].
Qed.

Lemma fresh_tracking (m : Machine) :
  quietRecorder commands (ds_config (mc_self m)) -> ds_containers (mc_self m) = ∅ ->
  (forall name, ~ Requested (mc_self m) (commands (mc_host m)) name) -> Tracking commands None m.
Proof.
  intros Hq Hempty Hfresh. split; [| | |done].
  - intros name id. by rewrite Hempty, lookup_empty.
  - intros name. by rewrite Hempty, lookup_empty.
  - intros name Hc. by destruct (Hfresh name).
Qed.

(** C6: no container is lost: whatever is executed in a sandbox and however often its
    destruction is tried, and whatever docker answers, fails to answer or answers late,
    every container the sandbox ever asked docker to create is still tracked by name, or
    docker has said that the container of that name is gone or somebody else's.  A
    creation of unknown outcome counts as neither, so it stays tracked. *)
Theorem containers_are_never_lost (range : forall {A : Type}, gmap string A -> list string) methods (m : Machine) :
  Traced commands -> (forall ctx worktree, respects (foreign commands) (worktree_Destroy (W := W) (H := H) ctx worktree)) ->
  quietRecorder commands (ds_config (mc_self m)) ->
  ds_containers (mc_self m) = ∅ -> (forall name, ~ Requested (mc_self m) (commands (mc_host m)) name) ->
  let m' := foldl (perform (@range)) m methods in
  forall name, Requested (mc_self m') (commands (mc_host m')) name ->
    is_Some (ds_containers (mc_self m') !! name) \/ Released (mc_self m') (commands (mc_host m')) name.
Proof.
  intros Ht Hw Hq Hempty Hfresh m'. apply (tk_created commands None). apply performed; [done..|]. by apply fresh_tracking.
Qed.
End asks.

(** ** Destruction *)

Section destroys.
Context {W H : Type} `{Host W} `{Worktrees W H}.
Variable range : forall {A : Type}, gmap string A -> list string.

Abbreviation Machine := (@Machine W H).

(** The calls within a destruction: they leave the flags of the sandbox and the books of
    the provider alone. *)
Record inner (m m' : Machine) : Prop := {
  in_pending : mc_pending m' = mc_pending m;
  in_owners : mc_owners m' = mc_owners m;
  in_token : ds_ownerToken (mc_self m') = ds_ownerToken (mc_self m);
  in_worktree : ds_worktree (mc_self m') = ds_worktree (mc_self m);
  in_destroying : ds_destroying (mc_self m') = ds_destroying (mc_self m);
  in_destroyed : ds_destroyed (mc_self m') = ds_destroyed (mc_self m);
  in_audited : ds_destroyAudited (mc_self m') = ds_destroyAudited (mc_self m)
}.

#[export] Instance inner_preorder : PreOrder inner.
Proof. split; [by intros m|]. intros m1 m2 m3 [] []. split; congruence. Qed.

Lemma inner_host {A} (c : M W A) : respects inner (host c).
Proof. intros m. unfold host. by destruct (c _). Qed.
Lemma inner_run ctx command : respects inner (run ctx command).
Proof. apply inner_host. Qed.
Lemma inner_self : respects inner self.
Proof. apply respects_gets, _. Qed.
Lemma inner_track name id : respects inner (track name id).
Proof. by intros m. Qed.
Lemma inner_settle name : respects inner (settle name).
Proof. by intros m. Qed.
Lemma inner_forget name : respects inner (forget name).
Proof. by intros m. Qed.
Lemma inner_forgetRemoved name id : respects inner (forgetRemoved name id).
Proof. by intros m. Qed.
#[local] Hint Resolve inner_host inner_run inner_self inner_track inner_settle inner_forget inner_forgetRemoved : respects.

Lemma inner_audit event : respects inner (audit event).
Proof. unfold audit. respect_steps. Qed.
Lemma inner_inspect ctx reference : respects inner (inspectContainerContext ctx reference).
Proof. unfold inspectContainerContext. respect_steps. Qed.
Lemma inner_inspectContainer reference : respects inner (inspectContainer reference).
Proof. apply inner_inspect. Qed.
#[local] Hint Resolve inner_audit inner_inspect inner_inspectContainer : respects.
Lemma inner_start ctx id stdin : respects inner (startOwnedContainer ctx id stdin).
Proof. unfold startOwnedContainer. respect_steps. Qed.
Lemma inner_kill name : respects inner (killTrackedContainer name).
Proof. unfold killTrackedContainer. respect_steps. Qed.
Lemma inner_removeOwned reference : respects inner (removeOwnedContainer reference).
Proof. unfold removeOwnedContainer. respect_steps. Qed.
#[local] Hint Resolve inner_start inner_kill inner_removeOwned : respects.
Lemma inner_remove name : respects inner (removeTrackedContainer name).
Proof. unfold removeTrackedContainer, removeByID. respect_steps. Qed.
#[local] Hint Resolve inner_remove : respects.
Lemma inner_reinspect attempts name : respects inner (reinspect attempts name).
Proof. induction attempts; cbn [reinspect]; respect_steps. Qed.
Lemma inner_scanRow line : respects inner (scanRow line).
Proof. unfold scanRow. respect_steps. Qed.
#[local] Hint Resolve inner_reinspect inner_scanRow : respects.
Lemma inner_containers : respects inner (destroyContainers (@range)).
Proof. unfold destroyContainers, firstPass, secondPass, present, removeProviderOwnedContainers. respect_steps. Qed.
Lemma inner_create name request : respects inner (createContainer name request).
Proof. unfold createContainer. respect_steps. Qed.
Lemma inner_mark name : respects inner (markContainerCreateUnknown name).
Proof. unfold markContainerCreateUnknown. respect_steps. by intros m. Qed.
Lemma inner_nextName purpose : respects inner (nextContainerName purpose).
Proof. unfold nextContainerName. respect_steps. by intros m. Qed.
#[local] Hint Resolve inner_containers inner_create inner_mark inner_nextName : respects.
Lemma inner_workspace ctx : respects inner (cleanupWorkspace ctx).
Proof. unfold cleanupWorkspace, acquire, cleanupFailedCreate. respect_steps. Qed.
Lemma inner_destroyFailed e : respects inner (recordDestroyFailed e).
Proof. unfold recordDestroyFailed. respect_steps. Qed.

Lemma inner_Execute ctx request : respects inner (Execute ctx request).
Proof.
  unfold Execute, executeContainer, acquire, notCreated, runCreated, cleanupFailedCreate, interrupted, finished, contextErr,
    interruptedBeforeStart, cleanupAudit, recordContainerCleanupFailure, recordTruncation, recordDenied.
  respect_steps.
Qed.

(** The provider has nothing left to keep of a sandbox. *)
Record confirmed (m m' : Machine) : Prop := {
  cf_destroyed : ds_destroyed (mc_self m') = true;
  cf_audited : ds_destroyAudited (mc_self m') = true;
  cf_pending : mc_pending m' = delete (ds_ownerToken (mc_self m)) (mc_pending m);
  cf_owners : mc_owners m' = delete (ds_ownerToken (mc_self m)) (mc_owners m)
}.

(** The provider keeps it. *)
Definition kept (m m' : Machine) : Prop := mc_pending m' = mc_pending m /\ mc_owners m' = mc_owners m.

Lemma recordDestroyed_spec m :
  ds_destroyed (mc_self m) = true ->
  exists r m', recordDestroyed m = (Ok r, m') /\ ds_destroyed (mc_self m') = true /\
    ds_containers (mc_self m') = ds_containers (mc_self m) /\
    match r with None => confirmed m m' | Some _ => kept m m' end.
Proof.
  intros Hd. unfold recordDestroyed, recordDestroy, self, gets, audit, host, attempt, mbind, M_bind.
  cbn [self gets mc_self mc_host]. destruct (record _ _ _) as [[u|e] w]; cbn; eexists _, _; (split; [done|]); by split_and!.
Qed.

Lemma destroyWorktree_spec ctx m :
  exists r m', destroyWorktree ctx m = (Ok r, m') /\ ds_destroying (mc_self m') = ds_destroying (mc_self m) /\
    ((confirmed m m' /\ ds_containers (mc_self m') = ds_containers (mc_self m) /\
      exists w w', worktree_Destroy ctx (ds_worktree (mc_self m)) w = (Ok tt, w')) \/
     (r <> None /\ kept m m')).
Proof.
  unfold destroyWorktree, self, gets, mbind at 1, M_bind at 1.
  assert (exists restoreErr m1, (if ds_gitPointerSanitized (mc_self m)
    then attempt (host (restoreWorktreeGitPointer (worktree_Workspace (W := W) (ds_worktree (mc_self m))) (ds_gitPointer (mc_self m))))
    else mret None) m = (Ok restoreErr, m1) /\ exists w, m1 = withHost w m) as (restoreErr & m1 & E & w1 & ->).
  { destruct (ds_gitPointerSanitized (mc_self m)); [|exists None, m; split; [done|]; by exists (mc_host m); destruct m].
    unfold attempt, host. destruct (restoreWorktreeGitPointer _ _ _) as [[u|e] w]; eexists _, _; (split; [done|]); by exists w. }
  unfold mbind at 1, M_bind at 1. rewrite E. clear E. unfold mbind at 1, M_bind at 1, attempt at 1, host at 1.
  destruct (worktree_Destroy ctx (ds_worktree (mc_self m)) (mc_host (withHost w1 m))) as [[[]|e] w2] eqn:Hw.
  - unfold mbind, M_bind. cbn [update modify withHost mc_self mc_host mc_counter mc_owners mc_pending].
    set (m2 := MkMachine _ _ _ _ _). destruct (recordDestroyed_spec m2 eq_refl) as (r & m3 & E3 & Hd & Hc & Hr).
    rewrite E3. eexists _, m3. split; [done|].
    assert (ds_destroying (mc_self m3) = ds_destroying (mc_self m)) as Hg.
    { revert E3. unfold recordDestroyed, recordDestroy, self, gets, audit, host, attempt, mbind, M_bind. cbn [self gets mc_self mc_host].
      destruct (record _ _ _) as [[u|e] w]; cbn; by intros [= _ <-]. }
    split; [done|]. destruct r as [e|].
    + right. split; [by destruct restoreErr|]. exact Hr.
    + left. split; [by destruct Hr|]. split; [done|]. by eexists _, _.
  - unfold mbind, M_bind. destruct (ds_gitPointerSanitized (mc_self m)).
    + unfold attempt, host. destruct (hideWorktreeGitPointer _ _) as [[u|e'] w3]; eexists _, _; (split; [done|]; split; [done|]);
        right; (split; [by destruct restoreErr|done]).
    + eexists _, _. split; [done|]. split; [done|]. right. split; [by destruct restoreErr|done].
Qed.

(** *** An empty set of containers *)

Definition still (m m' : Machine) : Prop := ds_containers (mc_self m') = ds_containers (mc_self m).

#[export] Instance still_preorder : PreOrder still.
Proof. split; [by intros m|]. unfold still. intros m1 m2 m3 E1 E2. congruence. Qed.

Lemma still_host {A} (c : M W A) : respects still (host c).
Proof. intros m. unfold host. by destruct (c _). Qed.
Lemma still_run ctx command : respects still (run ctx command).
Proof. apply still_host. Qed.
Lemma still_self : respects still self.
Proof. apply respects_gets, _. Qed.
#[local] Hint Resolve still_host still_run still_self : respects.
Lemma still_inspect ctx reference : respects still (inspectContainerContext ctx reference).
Proof. unfold inspectContainerContext. respect_steps. Qed.
Lemma still_inspectContainer reference : respects still (inspectContainer reference).
Proof. apply still_inspect. Qed.
#[local] Hint Resolve still_inspect still_inspectContainer : respects.
Lemma still_start ctx id stdin : respects still (startOwnedContainer ctx id stdin).
Proof. unfold startOwnedContainer. respect_steps. Qed.
Lemma still_removeOwned reference : respects still (removeOwnedContainer reference).
Proof. unfold removeOwnedContainer. respect_steps. Qed.
Lemma still_create name request : respects still (createContainer name request).
Proof. unfold createContainer. respect_steps. Qed.
Lemma still_nextName purpose : respects still (nextContainerName purpose).
Proof. unfold nextContainerName. respect_steps. Qed.

Lemma removeOwned_true reference (m : Machine) b m' : removeOwnedContainer reference m = (Ok b, m') -> b = true.
Proof.
  unfold removeOwnedContainer. intros E. apply M_bind_Ok in E as ([[found exists_] owned] & m1 & _ & E).
  destruct exists_, owned; cbn in E; try done; try by injection E as <- _.
  apply M_bind_Ok in E as (ran & m2 & _ & E). destruct (rn_err ran); [|by injection E as <- _]. case_match; [by injection E as <- _|done].
Qed.

Lemma removeByID_Ok name id (m : Machine) u m' :
  removeByID name id m = (Ok u, m') -> ds_containers (mc_self m') = delete name (ds_containers (mc_self m)).
Proof.
  unfold removeByID. intros E. apply M_bind_Ok in E as (b & m1 & E1 & E). pose proof (removeOwned_true _ _ _ _ E1) as ->.
  pose proof (still_removeOwned id m) as Hs. rewrite E1 in Hs. unfold still in Hs. cbn in Hs.
  injection E as _ <-. cbn. by rewrite Hs.
Qed.

Lemma removeTracked_Ok name (m : Machine) u m' :
  removeTrackedContainer name m = (Ok u, m') -> ds_containers (mc_self m') = delete name (ds_containers (mc_self m)).
Proof.
  unfold removeTrackedContainer, self, gets, mbind at 1, M_bind at 1.
  destruct (ds_containers (mc_self m) !! name) as [id|] eqn:Hi; [|by intros [= _ <-]; rewrite delete_id].
  case_decide; [|apply removeByID_Ok]. intros E. apply M_bind_Ok in E as ([[found exists_] owned] & m1 & E1 & E).
  pose proof (still_inspectContainer name m) as Hs. rewrite E1 in Hs. cbn in Hs. unfold still in Hs.
  destruct exists_; cbn [negb] in E.
  - destruct owned; cbn [negb] in E; [|done]. unfold mbind, M_bind in E. cbn [track settle update modify] in E.
    apply removeByID_Ok in E. rewrite E. cbn. by rewrite delete_insert_eq, Hs.
  - destruct (ds_uncertainContainers _ !! name); [done|]. injection E as _ <-. cbn. by rewrite Hs.
Qed.

Lemma cleanupWorkspace_Ok ctx (m : Machine) u m' :
  cleanupWorkspace ctx m = (Ok u, m') -> ds_containers (mc_self m) = ∅ -> ds_containers (mc_self m') = ∅.
Proof.
  unfold cleanupWorkspace, acquire. intros E Hempty. apply M_bind_Ok in E as (name & m1 & E1 & E).
  pose proof (still_nextName "cleanup" m) as X1. rewrite E1 in X1. cbn in X1. unfold still in X1.
  unfold mbind at 1, M_bind at 1 in E. cbn [track update modify] in E. set (m2 := MkMachine _ _ _ _ _) in E.
  unfold mbind at 1, M_bind at 1, try in E. pose proof (still_create name cleanupRequest m2) as X2.
  destruct (createContainer name cleanupRequest m2) as [[id|err] m3]; cbn [snd] in X2.
  - unfold mbind at 1, M_bind at 1 in E. unfold mbind at 1, M_bind at 1 in E. cbn [track settle update modify] in E.
    set (m4 := MkMachine _ _ _ _ _) in E. apply M_bind_Ok in E as (ran & m5 & E5 & E).
    pose proof (still_start (Within ctx (10 * second)) id "" m4) as X3. rewrite E5 in X3. cbn [snd] in X3.
    unfold mbind, M_bind, attempt in E. destruct (removeTrackedContainer name m5) as [[v|e] m6] eqn:E6.
    + apply removeTracked_Ok in E6. destruct (rn_err ran); [done|]. injection E as _ <-.
      rewrite E6, X3. unfold m4. cbn. unfold still in X2. rewrite X2. unfold m2. cbn.
      by rewrite delete_insert_eq, delete_insert_eq, X1, Hempty, delete_empty.
    + by destruct (rn_err ran).
  - apply M_bind_Ok in E as (v & m4 & _ & E). apply M_bind_Ok in E as (e & m5 & _ & E). by destruct e.
Qed.

Lemma total_join_each {V A} (body : A -> M V (list (option error))) joined l :
  (forall a, total (body a)) -> total (join_each body joined l).
Proof.
  intros Hb. revert joined. induction l as [|a l IH]; intros joined; [by apply yields_ret|].
  apply total_bind; [apply Hb|intros errs; apply IH].
Qed.

Lemma total_present name (k : M Machine (list (option error))) : total k -> total (present name k).
Proof. intros Hk. unfold present. apply total_bind; [apply total_self|]. intros s. case_match; [done|by apply yields_ret]. Qed.

Lemma total_containers : total (destroyContainers (@range) : M Machine _).
Proof.
  unfold destroyContainers. apply total_bind; [apply total_self|intros s].
  apply total_bind; [apply total_join_each; intros name; apply total_present|intros e].
  { do 2 (apply total_bind; [apply total_attempt|intros ?]). by apply yields_ret. }
  apply total_bind; [apply total_attempt|intros e2]. apply total_bind; [apply total_self|intros s2].
  apply total_bind; [apply total_join_each; intros name; apply total_present|intros e3].
  { apply total_bind; [apply total_attempt|intros ?]. by apply yields_ret. }
  apply total_bind; [apply total_self|intros s3]. case_decide; by apply yields_ret.
Qed.

Lemma destroyContainers_None (m : Machine) m' :
  destroyContainers (@range) m = (Ok None, m') -> ds_containers (mc_self m') = ∅.
Proof.
  unfold destroyContainers. intros E. do 5 apply M_bind_Ok in E as (? & ? & _ & E).
  apply M_bind_Ok in E as (s & m1 & Es & E). injection Es as <- <-. case_decide as Hc; [|done]. by injection E as _ <-.
Qed.

(** What a destruction that is not over yet comes to. *)
Record Destroying (m : Machine) (r : option error) (m' : Machine) : Prop := {
  dg_destroying : ds_destroying (mc_self m') = true;
  dg_end : (confirmed m m' /\ ds_containers (mc_self m') = ∅ /\
            exists ctx w w', worktree_Destroy ctx (ds_worktree (mc_self m)) w = (Ok tt, w')) \/
           (r <> None /\ kept m m')
}.

Lemma destroyBody_spec m :
  ds_destroyed (mc_self m) = false -> exists r m', destroyBody (@range) m = (Ok r, m') /\ Destroying m r m'.
Proof.
  intros Hd. unfold destroyBody, self, gets, mbind at 1, M_bind at 1. rewrite Hd. unfold mbind at 1, M_bind at 1.
  cbn [update modify]. set (m1 := MkMachine _ _ _ _ _).
  destruct (total_containers m1) as (containerErr & m2 & E & _). pose proof (inner_containers m1) as I2. rewrite E in I2. cbn in I2.
  unfold mbind at 1, M_bind at 1. rewrite E. destruct containerErr as [e|].
  { eexists _, m2. split; [done|]. split; [by rewrite (in_destroying _ _ I2)|]. right. split; [done|].
    split; [by rewrite (in_pending _ _ I2)|by rewrite (in_owners _ _ I2)]. }
  pose proof (destroyContainers_None _ _ E) as Hempty.
  unfold mbind at 1, M_bind at 1.
  assert (exists cleanupErr m3, (if ds_provisioningFailed (mc_self m) then mret None
     else attempt (cleanupWorkspace (Within Background (30 * second)))) m2 = (Ok cleanupErr, m3) /\ inner m2 m3 /\
     (cleanupErr = None -> ds_containers (mc_self m3) = ∅)) as (cleanupErr & m3 & E3 & I3 & H3).
  { destruct (ds_provisioningFailed (mc_self m)); [by exists None, m2|]. unfold attempt.
    pose proof (inner_workspace (Within Background (30 * second)) m2) as I.
    destruct (cleanupWorkspace _ m2) as [[u|e] m3] eqn:Ec; cbn in I; eexists _, m3; (split; [done|]; split; [done|]).
    - intros _. by eapply cleanupWorkspace_Ok.
    - done. }
  rewrite E3. assert (inner m1 m3) as I by (by trans m2). destruct cleanupErr as [e|].
  { eexists _, m3. split; [done|]. split; [by rewrite (in_destroying _ _ I)|]. right. split; [done|].
    split; [by rewrite (in_pending _ _ I)|by rewrite (in_owners _ _ I)]. }
  destruct (destroyWorktree_spec (Within Background (30 * second)) m3) as (r & m4 & E4 & Hg & Hend).
  exists r, m4. split; [done|]. split; [by rewrite Hg, (in_destroying _ _ I)|].
  destruct Hend as [([C1 C2 C3 C4] & Hc & w & w' & Hw)|[Hr [K1 K2]]].
  - left. split; [|split; [by rewrite Hc, H3|]].
    + split; [done|done|rewrite C3|rewrite C4]; by rewrite (in_token _ _ I), ?(in_pending _ _ I), ?(in_owners _ _ I).
    + rewrite (in_worktree _ _ I) in Hw. by eexists _, _, _.
  - right. split; [done|]. split; [by rewrite K1, (in_pending _ _ I)|by rewrite K2, (in_owners _ _ I)].
Qed.

Lemma refuses ctx request (m : Machine) :
  ds_destroying (mc_self m) = true ->
  exists e m1, Execute ctx request m = (Ok (emptyResult, Some e), m1) /\ errors_Is e ErrDestroyed = true /\
    exists event, mc_host m1 = snd (record (ds_config (mc_self m)) event (mc_host m)).
Proof.
  intros Hd. unfold Execute, self, gets, mbind at 1, M_bind at 1. rewrite Hd, orb_true_r. cbn [orb].
  unfold recordDenied, audit, self, gets, attempt, host, mbind, M_bind. cbn [mc_self mc_host].
  destruct (record (ds_config (mc_self m)) _ (mc_host m)) as [[u|e] w] eqn:Ew; cbn; eexists _, _;
    (split; [done|]; split; [done|]); eexists; cbn; by rewrite Ew.
Qed.

Lemma Destroy_spec (m : Machine) :
  ds_destroyed (mc_self m) = false ->
  exists r m', Destroy (@range) m = (Ok r, m') /\
    ((confirmed m m' /\ ds_containers (mc_self m') = ∅ /\
      exists ctx w w', worktree_Destroy ctx (ds_worktree (mc_self m)) w = (Ok tt, w')) \/
     (r <> None /\ kept m m')) /\ ds_destroying (mc_self m') = true.
Proof.
  intros Hd. destruct (destroyBody_spec m Hd) as (r & m' & E & [Hg Hend]). unfold Destroy.
  unfold mbind at 1, M_bind at 1. rewrite E. unfold self, gets, mbind at 1, M_bind at 1.
  destruct r as [e|]; [|by exists None, m'].
  destruct (ds_destroyed (mc_self m')) eqn:Hd'; [by exists (Some e), m'|].
  pose proof (inner_destroyFailed e m') as I. unfold mbind, M_bind.
  assert (total (recordDestroyFailed e : M Machine _)) as Ht.
  { unfold recordDestroyFailed. apply total_bind; [apply total_self|intros s]. apply total_bind; [apply total_audit|intros x]. by apply yields_ret. }
  destruct (Ht m') as (a & m2 & E2 & _). rewrite E2 in *. cbn in I. eexists _, m2. split; [done|].
  split; [|by rewrite (in_destroying _ _ I)].
  right. split; [by destruct a|]. destruct Hend as [([C1 _ _ _] & _)|[_ [K1 K2]]]; [congruence|].
  split; [by rewrite (in_pending _ _ I)|by rewrite (in_owners _ _ I)].
Qed.

(** C17: a destruction is complete or repeatable: [Destroy] always answers.  When it
    reports no error, no container is tracked, the worktree's removal was confirmed, the
    destruction is audited and the provider has forgotten the sandbox; otherwise the
    provider still keeps it, so that [Cleanup] will try again - unless the same was
    achieved and only the restoring of the Git pointer failed.  And from the first
    attempt on, whatever else is tried, the sandbox executes nothing more. *)
Theorem destroy_is_complete (m : Machine) :
  ds_destroyed (mc_self m) = false ->
  exists r m', Destroy (@range) m = (Ok r, m') /\
    ((confirmed m m' /\ ds_containers (mc_self m') = ∅ /\
      exists ctx w w', worktree_Destroy ctx (ds_worktree (mc_self m)) w = (Ok tt, w')) \/
     (r <> None /\ kept m m')) /\
    forall ctx request, exists e m1, Execute ctx request m' = (Ok (emptyResult, Some e), m1) /\
      errors_Is e ErrDestroyed = true /\
      exists event, mc_host m1 = snd (record (ds_config (mc_self m')) event (mc_host m')).
Proof.
  intros Hd. destruct (Destroy_spec m Hd) as (r & m' & E & Hend & Hg). exists r, m'.
  split; [done|]. split; [done|]. intros ctx request. by apply refuses.
Qed.
End destroys.
