(* ===== verification/DockerWitnesses.v ===== *)
(** * The theorems on the docker sandbox, at a concrete machine *)
From S2P Require Import Prelude Sha256 GoLib Json Effect AuditLog ToolService Host Docker DockerProvider.
From S2P Require Import HostFacts DockerFacts DockerTracking DockerTheorems.

(** ** A machine with scripted replies *)

(** Processes reply in order; the commands and the audit events are remembered. *)
Record Script : Type := MkScript {
  sc_replies : list Ran;
  sc_commands : list (Cmd * Ran);
  sc_audit : list AuditEvent
}.

Definition silent : Ran := MkRan [] None.

Definition scriptExec (command : Cmd) (w : Script) : Ran * Script :=
  let ran := default silent (head (sc_replies w)) in
  (ran, MkScript (tail (sc_replies w)) (sc_commands w ++ [(command, ran)]) (sc_audit w)).

#[export] Instance scriptHost : Host Script := {|
  ctx_Error := fun d w => (match d with ContextOf ctx | Within (ContextOf ctx) _ => ctx_Err ctx | _ => None end, w);
  exec := fun _ command w => scriptExec command w;
  sleep := fun _ w => w;
  time_Now := fun w => (0%Z, w);
  rand_Read := fun n => mret (replicate n 7%Z);
  Lstat := fun _ => mret (MkFileMode KindRegular 420);
  Stat := fun _ => mret (MkFileMode KindDirectory 448);
  ReadFile := fun _ => mret "gitdir: /repo/.git/worktrees/a";
  WriteFile := fun _ _ _ => mret tt;
  Chmod := fun _ _ => mret tt;
  ReadDir := fun _ => mret []
|}.

(** A worktree is its path here. *)
#[export] Instance scriptWorktrees : Worktrees Script string := {|
  worktree_Create := fun _ _ w => (Created "/trees/a", w);
  worktree_Destroy := fun _ _ => mret tt;
  worktree_Workspace := id
|}.

Lemma script_traced : Traced sc_commands.
Proof. by split. Qed.

Lemma script_foreign (ctx : Deadline) (worktree : string) : respects (foreign sc_commands) (worktree_Destroy (W := Script) ctx worktree).
Proof. intros w. exists []. by rewrite app_nil_r. Qed.

Definition scriptRecorder : AuditRecorder Script := fun _ event =>
  modify (fun w => MkScript (sc_replies w) (sc_commands w) (sc_audit w ++ [event])).

(** ** A sandbox *)

Definition sampleImage : string := "sha256:" +:+ String.concat "" (replicate 64 "a").

Definition sampleConfig : DockerConfig Script :=
  withImage (withDefaults (MkDockerConfig "" "/trees" "" "" 0 0 8 ["GOPROXY"] (Some scriptRecorder))) sampleImage.

Definition sampleToken : string := hex (replicate 16 7%Z).

Definition sampleSandbox : @dockerSandbox Script string :=
  MkDockerSandbox sampleConfig (MkSpec "run-1" "attempt-1" "/repo" "main") "/trees/a" "gitdir: /repo" true sampleToken
    ∅ ∅ false false false false.

Definition machineWith (replies : list Ran) : @Machine Script string :=
  MkMachine sampleSandbox 0 {[ sampleToken := MkScope "run-1" "attempt-1" ]} {[ sampleToken := 0 ]} (MkScript replies [] []).

Definition firstID : string := String.concat "" (replicate 64 "1").
Definition secondID : string := String.concat "" (replicate 64 "2").

Definition says (text : string) : Ran := MkRan [(false, text)] None.
Definition fails (text : string) : Ran := MkRan [(true, text)] (Some (ProcessExit 1)).

(** What docker inspect prints about a container with these labels. *)
Definition described (id runID : string) : Ran :=
  says (double_quoted ("{'id':'" +:+ id +:+ "','labels':{'agentdock.phase':'4','agentdock.run_id':'" +:+ runID +:+
    "','agentdock.attempt_id':'attempt-1','agentdock.owner_token':'" +:+ sampleToken +:+ "'}}")).

(** One container: created and inspected, inspected and started, inspected and removed. *)
Definition oneCommand (id : string) (ran : Ran) : list Ran :=
  [says id; described id "run-1"; described id "run-1"; ran; described id "run-1"; silent].

Definition readRequest : SandboxRequest :=
  MkSandboxRequest [helper; "read"; "a.go"] None {[ "GOPROXY" := "off" ]} 0 0 "repo.read" "1".

Definition mapRange {A : Type} (m : gmap string A) : list string := map fst (map_to_list m).

Definition healthy : @Machine Script string :=
  machineWith (oneCommand firstID (MkRan [(false, "package a"); (true, "warning")] None) ++ [says ""] ++ oneCommand secondID silent).

(** The output is cut at eight bytes; the container is gone afterwards. *)
Example healthy_execution :
  let '(r, m) := Execute (ContextOf background) readRequest healthy in
  r = Ok (MkSandboxResult "package " "" 0 false true, None) /\ ds_containers (mc_self m) = ∅ /\
  map au_Kind (sc_audit (mc_host m)) = [AuditOutputTruncated; AuditExecutionCompleted].
Proof. vm_compute. repeat split; reflexivity. Qed.

(** The sandbox can be destroyed. *)
Example healthy_destruction :
  let '(r, m) := Destroy (@mapRange) (snd (Execute (ContextOf background) readRequest healthy)) in
  r = Ok None /\ ds_destroyed (mc_self m) = true /\ mc_pending m = ∅ /\
  map au_Kind (sc_audit (mc_host m)) = [AuditOutputTruncated; AuditExecutionCompleted; AuditSandboxDestroyed].
Proof. vm_compute. repeat split; reflexivity. Qed.

(** The exit code of docker inspect, when it fails before the container is started, is
    reported and audited as the exit code of a command that never ran. *)
Definition inspectFails : @Machine Script string :=
  machineWith [says firstID; described firstID "run-1"; fails "daemon is busy"; described firstID "run-1"; silent].

Example exit_code_of_inspect :
  let '(r, m) := Execute (ContextOf background) readRequest inspectFails in
  match r with Ok (outcome, failure) => sr_ExitCode outcome = 1%Z /\ is_Some failure | Err _ => False end /\
  map (fun e => (au_Kind e, au_ExitCode e, au_Reason e)) (sc_audit (mc_host m)) =
    [(AuditExecutionFailed, 1%Z, "container command returned non-zero")] /\
  ~ exists call, call ∈ sc_commands (mc_host m) /\ head (cm_Args (fst call)) = Some "start".
Proof.
  vm_compute. split; [by split; [|eexists]|]. split; [done|].
  intros (call & Hc & Hs). repeat (apply elem_of_cons in Hc as [->|Hc]; [by vm_compute in Hs|]). by apply elem_of_nil in Hc.
Qed.

(** Docker does not answer in time and shows nothing: the creation stays unknown, and the
    sandbox cannot be destroyed. *)
Definition silentDocker : @Machine Script string :=
  machineWith (fails "timeout" :: replicate 6 (fails "No such object") ++ [says ""; fails "No such object"]).

Definition undestroyed : result (option error) * @Machine Script string :=
  Destroy (@mapRange) (snd (Execute (ContextOf background) readRequest silentDocker)).

Example unknown_creation_is_kept :
  is_err (match fst undestroyed with Ok e => e | Err e => Some e end) ErrContainerOutcomeUnknown = true /\
  length (mapRange (ds_containers (mc_self (snd undestroyed)))) = 1 /\ mapRange (mc_pending (snd undestroyed)) = [sampleToken].
Proof. split_and!; vm_compute; reflexivity. Qed.

(** ** Witnesses *)

Lemma sample_quiet : quietRecorder sc_commands sampleConfig.
Proof. by intros event w. Qed.

Lemma sample_config_valid : is_ok (validateDockerConfig sampleConfig) = true.
Proof. vm_compute. reflexivity. Qed.

(** The one container that is started writes fifteen bytes, of which eight are told. *)
Lemma output_is_bounded_witness :
  exists executed m' calls, Execute (ContextOf background) readRequest healthy = (Ok executed, m') /\
    sc_commands (mc_host m') = calls /\
    map snd (starts calls) = [MkRan [(false, "package a"); (true, "warning")] None] /\ Told 8 "" calls executed.
Proof.
  destruct (output_is_bounded sc_commands script_traced (ContextOf background) readRequest healthy sample_quiet sample_config_valid)
    as (_ & executed & m' & calls & E & Hc & Ht).
  exists executed, m', calls. split; [exact E|]. split; [exact Hc|]. split; [|exact Ht].
  change calls with (sc_commands (mc_host healthy) ++ calls). rewrite <- Hc.
  change m' with (snd (Ok (A := Executed) executed, m')). rewrite <- E. vm_compute. reflexivity.
Defined.

Lemma read_allowed : allowedRequest sampleSandbox readRequest.
Proof. split; vm_compute; reflexivity. Qed.

Lemma sample_image_valid : imageValid (dc_Image (ds_config sampleSandbox)) = true.
Proof. vm_compute. reflexivity. Qed.

Lemma containers_are_isolated_witness :
  exists arguments options,
    createArguments sampleSandbox "name" readRequest = "create" :: arguments /\
    readOptions arguments = (options, [sampleImage; helper; "read"; "a.go"]) /\ Isolated sampleSandbox "name" options.
Proof.
  destruct (containers_are_isolated sampleSandbox "name" readRequest sample_image_valid read_allowed)
    as (_ & arguments & options & keys & Ha & Ho & Hi & _).
  exists arguments, options. split; [exact Ha|]. split; [exact Ho|exact Hi].
Defined.

Lemma only_owned_containers_are_touched_witness :
  exists calls, sc_commands (mc_host (snd (Execute (ContextOf background) readRequest healthy))) = [] ++ calls /\
    Permitted (eq readRequest) sampleSandbox calls.
Proof.
  destruct (only_owned_containers_are_touched sc_commands (@mapRange) healthy script_traced script_foreign sample_quiet) as [He _].
  exact (He (ContextOf background) readRequest).
Defined.

Lemma healthy_fresh name : ~ Requested sampleSandbox [] name.
Proof. intros (request & ran & Hi). by apply elem_of_nil in Hi. Qed.

Definition methods : list Method :=
  [CallExecute (ContextOf background) readRequest; CallDestroy; CallDestroy].

Lemma containers_are_never_lost_witness :
  let m' := foldl (perform (@mapRange)) silentDocker methods in
  map fst (map_to_list (ds_containers (mc_self m'))) = ["agentdock-p4-run-1-attempt-1-070707070707-exec-1"] /\
  forall name, Requested (mc_self m') (sc_commands (mc_host m')) name ->
    is_Some (ds_containers (mc_self m') !! name) \/ Released (mc_self m') (sc_commands (mc_host m')) name.
Proof.
  split; [vm_compute; reflexivity|].
  exact (containers_are_never_lost sc_commands (@mapRange) methods silentDocker script_traced script_foreign sample_quiet
    eq_refl healthy_fresh).
Defined.

Lemma destroy_is_complete_witness :
  exists r m', Destroy (@mapRange) healthy = (Ok r, m') /\
    ((confirmed healthy m' /\ ds_containers (mc_self m') = ∅) \/ (r <> None /\ kept healthy m')).
Proof.
  destruct (destroy_is_complete (@mapRange) healthy eq_refl) as (r & m' & E & Hend & _).
  exists r, m'. split; [exact E|]. destruct Hend as [(Hc & He & _)|Hk]; [left; split; [exact Hc|exact He]|right; exact Hk].
Defined.
