(* ===== verification/ProviderTheorems.v ===== *)
(** * The docker provider keeps its sandboxes

    Every sandbox a provider made is kept until its destruction was confirmed and
    audited, through any creations, executions, destructions and clean-ups. *)
From stdpp Require Import relations.
From S2P Require Import Prelude Sha256 GoLib Effect AuditLog ToolService Host Docker DockerProvider.
From S2P Require Import HostFacts DockerFacts DockerTracking DockerTheorems DockerWitnesses.

Section provider.
Context {W H : Type} `{Host W} `{Worktrees W H}.
Variable range : forall {A : Type}, gmap string A -> list string.

Abbreviation dockerSandbox := (@dockerSandbox W H).
Abbreviation Machine := (@Machine W H).
Abbreviation Provider := (@DockerProvider W H).

(** ** The books *)

Definition released (s : dockerSandbox) : Prop := ds_destroyed s = true /\ ds_destroyAudited s = true.

Definition tokens (p : Provider) : list string := map ds_ownerToken (dp_objects p).

(** A sandbox is pending under its token until it is released, and only sandboxes are
    pending. *)
Record Books (p : Provider) : Prop := {
  bk_kept : forall i s, dp_objects p !! i = Some s -> dp_pending p !! ds_ownerToken s = Some i \/ released s;
  bk_pending : forall token i, dp_pending p !! token = Some i -> exists s, dp_objects p !! i = Some s /\ ds_ownerToken s = token
}.

(** Steps that keep the books, as long as all tokens are different *)
Record grows (p p' : Provider) : Prop := {
  gr_tokens : tokens p `prefix_of` tokens p';
  gr_books : NoDup (tokens p') -> Books p -> Books p'
}.

Lemma prefix_NoDup {A} (l k : list A) : l `prefix_of` k -> NoDup k -> NoDup l.
Proof. intros [x ->] Hn. by apply NoDup_app in Hn as [Hn _]. Qed.

#[export] Instance grows_preorder : PreOrder grows.
Proof.
  split; [by intros p|]. intros p1 p2 p3 [T1 B1] [T2 B2]. split; [by etrans|].
  intros Hn Hb. apply B2; [done|]. apply B1; [|done]. by eapply prefix_NoDup.
Qed.

(** What a method of a sandbox does to the books: it forgets a released sandbox or
    leaves them alone. *)
Record bookish (m m' : Machine) : Prop := {
  bo_token : ds_ownerToken (mc_self m') = ds_ownerToken (mc_self m);
  bo_pending : (mc_pending m' = delete (ds_ownerToken (mc_self m)) (mc_pending m) /\ released (mc_self m')) \/
    (mc_pending m' = mc_pending m /\ (released (mc_self m) -> released (mc_self m')))
}.

Lemma inner_bookish m m' : inner m m' -> bookish m m'.
Proof.
  intros [Ip Io It Iw Ig Id Ia]. split; [done|]. right. split; [done|]. unfold released. by rewrite Id, Ia.
Qed.

Lemma lookup_tokens p i s : dp_objects p !! i = Some s -> tokens p !! i = Some (ds_ownerToken s).
Proof. intros Hi. unfold tokens. change (ds_ownerToken <$> dp_objects p) with (map (@ds_ownerToken W H) (dp_objects p)). by rewrite list_lookup_fmap, Hi. Qed.

Lemma onObject_grows {A} i (method : M Machine A) : respects bookish method -> respects grows (onObject i method).
Proof.
  intros Hm p. unfold onObject. destruct (dp_objects p !! i) as [s|] eqn:Hi; [|reflexivity].
  specialize (Hm (MkMachine s (dp_counter p) (dp_owners p) (dp_pending p) (dp_host p))).
  destruct (method _) as [r m']. cbn [snd mc_self mc_pending] in *. destruct Hm as [Ht Hp]. cbn [mc_self mc_pending] in Ht, Hp.
  assert (tokens (MkDockerProvider (dp_config p) (mc_counter m') (mc_owners m') (mc_pending m') (<[i:=mc_self m']> (dp_objects p)) (mc_host m'))
    = tokens p) as Et.
  { unfold tokens. cbn [dp_objects]. rewrite (list_fmap_insert (@ds_ownerToken W H)), Ht. apply list_insert_id. by apply lookup_tokens. }
  split; [by rewrite Et|]. rewrite Et. intros Hn [Hk Hs].
  assert (forall j s', dp_objects p !! j = Some s' -> ds_ownerToken s' = ds_ownerToken s -> j = i) as Huniq.
  { intros j s' Hj E. apply lookup_tokens in Hj, Hi. rewrite E in Hj. by eapply NoDup_lookup. }
  split; cbn [dp_objects dp_pending].
  - intros j s' Hj. destruct (decide (j = i)) as [->|Hne].
    + rewrite list_lookup_insert_eq in Hj by by eapply lookup_lt_Some. injection Hj as <-. rewrite Ht.
      destruct Hp as [[_ Hr]|[-> Hr]]; [by right|]. destruct (Hk i s Hi); [by left|right; auto].
    + rewrite list_lookup_insert_ne in Hj by done. destruct (Hk j s' Hj) as [Hl|Hr]; [left|by right].
      destruct Hp as [[-> _]|[-> _]]; [|done]. rewrite lookup_delete_ne; [done|]. intros E. apply Hne. by eapply Huniq.
  - intros token j Hl. assert (dp_pending p !! token = Some j) as Hl'.
    { destruct Hp as [[Ep _]|[Ep _]]; rewrite Ep in Hl; [by apply lookup_delete_Some in Hl as [_ Hl]|done]. }
    destruct (Hs token j Hl') as (s' & Hj & Et'). destruct (decide (j = i)) as [->|Hne].
    + exists (mc_self m'). rewrite list_lookup_insert_eq by by eapply lookup_lt_Some. split; [done|]. rewrite Ht. congruence.
    + exists s'. by rewrite list_lookup_insert_ne.
Qed.

(** ** Destroying *)

Definition sameToken (m m' : Machine) : Prop := ds_ownerToken (mc_self m') = ds_ownerToken (mc_self m).

#[export] Instance sameToken_preorder : PreOrder sameToken.
Proof. split; [by intros m|]. unfold sameToken. intros m1 m2 m3 E1 E2. congruence. Qed.

Lemma inner_sameToken {A} (m : M Machine A) : respects inner m -> respects sameToken m.
Proof. intros Hm w. apply (Hm w). Qed.

Lemma destroyed_sameToken : respects sameToken recordDestroyed.
Proof.
  unfold recordDestroyed, recordDestroy. respect_steps;
    first [by intros m|by apply inner_sameToken, inner_audit|by apply inner_sameToken, inner_self].
Qed.

Lemma Destroy_sameToken : respects sameToken (Destroy (@range)).
Proof.
  assert (forall A (c : M W A), respects sameToken (host c)) as Hh by (intros; apply inner_sameToken, inner_host).
  unfold Destroy, destroyBody, destroyWorktree, self, forgetProviderOwnership. respect_steps;
    first [apply Hh|apply destroyed_sameToken|by apply inner_sameToken, inner_containers|by apply inner_sameToken, inner_workspace|
           by apply inner_sameToken, inner_destroyFailed|by intros m].
Qed.

(** A destruction without an error forgets the sandbox, which is released. *)
Lemma Destroy_outcome (m : Machine) :
  exists r m', Destroy (@range) m = (Ok r, m') /\
    ((mc_pending m' = delete (ds_ownerToken (mc_self m)) (mc_pending m) /\ released (mc_self m')) \/
     (r <> None /\ mc_pending m' = mc_pending m /\ (released (mc_self m) -> released (mc_self m')))).
Proof.
  destruct (ds_destroyed (mc_self m)) eqn:Hd.
  - unfold Destroy, destroyBody, self, gets, mbind at 1, M_bind at 1. unfold mbind at 1, M_bind at 1. rewrite Hd.
    destruct (ds_destroyAudited (mc_self m)) eqn:Ha; [by eexists None, _; split; [done|]; left|].
    destruct (recordDestroyed_spec m Hd) as (r & m' & E & Hd' & _ & Hr). rewrite E.
    unfold mbind, M_bind. destruct r as [e|]; [rewrite Hd'|]; eexists _, m'; (split; [done|]).
    + right. split; [done|]. destruct Hr as [-> _]. split; [done|]. unfold released. rewrite Ha. by intros [].
    + left. by destruct Hr.
  - destruct (Destroy_spec (@range) m Hd) as (r & m' & E & Hend & _). exists r, m'. split; [done|].
    destruct Hend as [([C1 C2 C3 C4] & _)|[Hr [K1 K2]]]; [by left|right]. split; [done|]. split; [done|].
    unfold released. rewrite Hd. by intros [].
Qed.

Lemma Destroy_bookish : respects bookish (Destroy (@range)).
Proof.
  intros m. pose proof (Destroy_sameToken m) as Ht. destruct (Destroy_outcome m) as (r & m' & E & Hend).
  rewrite E in *. split; [done|]. destruct Hend as [Hf|(_ & Hp & Hr)]; [by left|by right].
Qed.

Lemma Execute_bookish ctx request : respects bookish (Execute ctx request).
Proof. intros m. apply inner_bookish, inner_Execute. Qed.

(** ** Creating *)

Lemma same_books (p p' : Provider) : dp_objects p' = dp_objects p -> dp_pending p' = dp_pending p -> grows p p'.
Proof.
  intros Eo Ep. split; [by unfold tokens; rewrite Eo|]. intros _ [Hk Hs].
  split; rewrite Eo, Ep; [apply Hk|apply Hs].
Qed.

Lemma onHost_grows {A} (c : M W A) : respects grows (onHost c).
Proof. intros p. unfold onHost. destruct (c (dp_host p)) as [r w]. by apply same_books. Qed.

Lemma setOwners_grows f : respects grows (setOwners f).
Proof. intros p. by apply same_books. Qed.

Lemma update_bookish f : (forall s, ds_ownerToken (f s) = ds_ownerToken s /\ (released s -> released (f s))) -> respects bookish (update f).
Proof. intros Hf m. destruct (Hf (mc_self m)) as [Ht Hr]. split; [done|]. by right. Qed.

Lemma recordCreate_inner : respects inner (recordCreate : M Machine unit).
Proof. unfold recordCreate. respect_steps; [apply inner_self|apply inner_audit]. Qed.

Lemma newPending_grows config spec worktree token : respects grows (newPendingSandbox config spec worktree token).
Proof.
  intros p. set (p' := snd _). assert (tokens p' = tokens p ++ [token]) as Et.
  { unfold tokens, p'. cbn [newPendingSandbox snd dp_objects]. by rewrite map_app. }
  split; [rewrite Et; by apply prefix_app_r|]. rewrite Et. intros Hn [Hk Hs].
  assert (forall j s, dp_objects p !! j = Some s -> ds_ownerToken s <> token) as Hnew.
  { intros j s Hj%lookup_tokens E. apply NoDup_app in Hn as (_ & Hd & _). apply (Hd (ds_ownerToken s)).
    - by eapply list_elem_of_lookup_2.
    - rewrite E. apply list_elem_of_singleton. done. }
  split; unfold p'; cbn [newPendingSandbox snd dp_objects dp_pending].
  - intros j s [Hj|[Hl Hj]]%lookup_app_Some.
    + rewrite lookup_insert_ne by (intros E; by eapply Hnew). by apply Hk.
    + left. destruct (j - length (dp_objects p)) eqn:E; [|done]. injection Hj as <-. cbn. rewrite lookup_insert_eq. f_equal. lia.
  - intros token' j. rewrite lookup_insert_Some. intros [[<- <-]|[Hne Hl]].
    + eexists. rewrite lookup_app_r by lia. by rewrite Nat.sub_diag.
    + destruct (Hs token' j Hl) as (s & Hj & Ht). exists s. by rewrite (lookup_app_l_Some _ _ _ _ Hj).
Qed.

Lemma fail_grows i spec stage image cause : respects grows (failProvisioning (@range) i spec stage image cause).
Proof.
  unfold failProvisioning, recordCreateFailed. respect_steps; [apply onObject_grows, Destroy_bookish|apply onHost_grows].
Qed.

Lemma provision_grows i spec image workspace : respects grows (provision (@range) i spec image workspace).
Proof.
  unfold provision. respect_steps; first [apply onHost_grows|apply fail_grows|apply onObject_grows].
  - by apply update_bookish.
  - intros m. apply inner_bookish, recordCreate_inner.
  - by apply update_bookish.
Qed.

Lemma Create_grows ctx spec : respects grows (Create (@range) ctx spec).
Proof.
  unfold Create, createOwned, createFailed, recordCreateFailed.
  respect_steps; first [apply onHost_grows|apply setOwners_grows|apply newPending_grows|apply provision_grows].
Qed.

Lemma destroyPending_grows token : respects grows (destroyPending (@range) token).
Proof. unfold destroyPending. respect_steps. apply onObject_grows, Destroy_bookish. Qed.

Lemma Cleanup_grows : respects grows (Cleanup (@range)).
Proof. unfold Cleanup. respect_steps. apply destroyPending_grows. Qed.

(** *** What a creation answers *)

(** A step that leaves the books alone and always answers *)
Definition steady {A} (i : nat) (token : string) (m : M Provider A) : Prop := forall p, tokens p !! i = Some token ->
  exists a p', m p = (Ok a, p') /\ dp_pending p' = dp_pending p /\ tokens p' = tokens p.

(** A step that answers with the sandbox, or with none and an error when it is
    forgotten *)
Definition settles (i : nat) (token : string) (m : M Provider CreatedSandbox) : Prop := forall p, tokens p !! i = Some token ->
  exists o e p', m p = (Ok (o, e), p') /\ tokens p' = tokens p /\
    match o with Some j => j = i | None => e <> None /\ dp_pending p' = delete token (dp_pending p) end.

Lemma settles_bind {A} i token (m : M Provider A) f : steady i token m -> (forall a, settles i token (f a)) -> settles i token (m ≫= f).
Proof.
  intros Hm Hf p Hp. destruct (Hm p Hp) as (a & p1 & E & E1 & Et). destruct (Hf a p1) as (o & e & p' & E2 & Et' & Ho); [by rewrite Et|].
  exists o, e, p'. unfold mbind, M_bind. rewrite E. split; [done|]. rewrite Et', Et, <- E1. done.
Qed.

Lemma steady_attempt {A} i token (c : M W A) : steady i token (attempt (onHost c)).
Proof. intros p Hp. unfold attempt, onHost. by destruct (c (dp_host p)) as [[a|e] w]; eexists _, _. Qed.
Lemma steady_try {A} i token (c : M W A) : steady i token (try (onHost c)).
Proof. intros p Hp. unfold try, onHost. by destruct (c (dp_host p)) as [r w]; eexists _, _. Qed.

Lemma onObject_at {A} i token (method : M Machine A) p :
  tokens p !! i = Some token -> (forall m, ds_ownerToken (mc_self (snd (method m))) = ds_ownerToken (mc_self m)) ->
  exists m, ds_ownerToken (mc_self m) = token /\ mc_pending m = dp_pending p /\
    onObject i method p = (fst (method m), snd (onObject i method p)) /\
    dp_pending (snd (onObject i method p)) = mc_pending (snd (method m)) /\ tokens (snd (onObject i method p)) = tokens p.
Proof.
  intros Hp Hm. pose proof Hp as Hi. unfold tokens in Hi. apply list_lookup_fmap_Some in Hi as (s & -> & Hi).
  set (m := MkMachine s (dp_counter p) (dp_owners p) (dp_pending p) (dp_host p)). exists m. specialize (Hm m).
  unfold onObject. rewrite Hi. fold m. destruct (method m) as [r m']. cbn [snd fst] in *. split_and!; try done.
  unfold tokens. cbn [dp_objects]. rewrite (list_fmap_insert (@ds_ownerToken W H)), Hm. apply list_insert_id. exact Hp.
Qed.

Lemma steady_method {A} i token (method : M Machine A) :
  respects inner method -> steady i token (attempt (onObject i method)).
Proof.
  intros Hm p Hp. destruct (onObject_at i token method p Hp) as (m & Ht & Ep & E & Ed & Et).
  { intros m. apply (Hm m). }
  unfold attempt. rewrite E. rewrite (in_pending _ _ (Hm m)), Ep in Ed.
  by destruct (fst (method m)); eexists _, (snd (onObject i method p)).
Qed.

Lemma steady_update i token f : (forall s, ds_ownerToken (f s) = ds_ownerToken s) -> steady i token (onObject i (update f)).
Proof.
  intros Hf p Hp. destruct (onObject_at i token (update f) p Hp) as (m & Ht & Ep & E & Ed & Et); [intros m; apply Hf|].
  exists tt, (snd (onObject i (update f) p)). split; [exact E|]. split; [by rewrite Ed|done].
Qed.

Lemma settles_fail i token spec stage image cause : settles i token (failProvisioning (@range) i spec stage image cause).
Proof.
  intros p Hp. unfold failProvisioning, recordCreateFailed.
  destruct (onObject_at i token (Destroy (@range)) p Hp) as (m & Ht & Ep & E & Ed & Et).
  { intros m. apply Destroy_sameToken. }
  destruct (Destroy_outcome m) as (r & m' & Em & Hend). rewrite Em in E, Ed. cbn [fst snd] in E, Ed.
  unfold mbind at 1, M_bind at 1. rewrite E. set (p1 := snd (onObject i (Destroy (@range)) p)) in *.
  unfold gets, attempt, mbind, M_bind, onHost. destruct (record (dp_config p1) _ (dp_host p1)) as [[u|e] w];
    eexists _, _, _; (split; [done|]); (split; [exact Et|]); destruct r as [e1|]; try done; (split; [done|]);
    destruct Hend as [[Hp' _]|[Hr _]]; try done; cbn [dp_pending]; by rewrite Ed, Hp', Ht, Ep.
Qed.

Lemma settles_provision i token spec image workspace : settles i token (provision (@range) i spec image workspace).
Proof.
  unfold provision. apply settles_bind; [apply steady_attempt|]. intros [e|]; [apply settles_fail|].
  apply settles_bind; [apply steady_try|]. intros [pointer|e]; [|apply settles_fail].
  apply settles_bind; [by apply steady_update|]. intros _. apply settles_bind; [apply steady_method, recordCreate_inner|].
  intros [e|]; [apply settles_fail|]. apply settles_bind; [by apply steady_update|]. intros _ p Hp. by exists (Some i), None, p.
Qed.

(** A creation answers with a sandbox, or with none and an error: then nothing is left
    of it in the books. *)
Definition answers (p : Provider) (r : result CreatedSandbox) (p' : Provider) : Prop :=
  exists o e, r = Ok (o, e) /\
    (o = None -> e <> None /\ (NoDup (tokens p') -> Books p -> dp_pending p' = dp_pending p)).

Lemma answers_failed spec stage image cause (p0 p : Provider) :
  dp_pending p = dp_pending p0 -> forall r p', createFailed spec stage image cause None p = (r, p') -> answers p0 r p'.
Proof.
  intros Ep r p'. unfold createFailed, recordCreateFailed, gets, attempt, mbind, M_bind, onHost.
  destruct (record _ _ _) as [[u|e] w]; intros [= <- <-]; eexists _, _; (split; [done|]); intros _; by split.
Qed.

Lemma createOwned_answers ctx spec image token (p0 p : Provider) r p' :
  dp_pending p = dp_pending p0 -> tokens p = tokens p0 ->
  createOwned (@range) ctx spec image token p = (r, p') -> answers p0 r p'.
Proof.
  intros Ep Et. unfold createOwned. set (p1 := snd (setOwners (insert token (MkScope (sp_RunID spec) (sp_AttemptID spec))) p)).
  rewrite (M_bind_ret _ _ p tt p1) by done. rewrite (M_bind_ret _ _ p1 (dp_config p1) p1) by done.
  unfold mbind at 1, M_bind at 1, onHost, always. destruct (worktree_Create ctx spec (dp_host p1)) as [created w].
  set (p2 := MkDockerProvider _ _ _ _ _ _). set (i := length (dp_objects p)).
  destruct created as [worktree|[worktree|] e].
  - set (p3 := snd (newPendingSandbox (withImage (dp_config p1) image) spec worktree token p2)).
    rewrite (M_bind_ret _ _ p2 i p3) by done.
    assert (tokens p3 = tokens p0 ++ [token]) as T3.
    { rewrite <- Et. unfold tokens, p3. cbn [newPendingSandbox snd dp_objects]. by rewrite map_app. }
    assert (tokens p3 !! i = Some token) as Hi.
    { rewrite T3, <- Et. unfold i, tokens. rewrite lookup_app_r by (rewrite length_map; lia). by rewrite length_map, Nat.sub_diag. }
    destruct (settles_provision i token spec image (worktree_Workspace (W := W) worktree) p3 Hi) as (o & e & p4 & -> & T4 & Ho).
    intros [= <- <-]. exists o, e. split; [done|]. intros ->. destruct Ho as [He Hp]. split; [done|]. intros Hn [_ Hs].
    rewrite Hp. change (dp_pending p3) with (<[token := i]> (dp_pending p)). rewrite Ep. apply delete_insert_id.
    destruct (dp_pending p0 !! token) as [j|] eqn:Hj; [|done]. exfalso. destruct (Hs _ _ Hj) as (s & Hl%lookup_tokens & E).
    rewrite T4, T3 in Hn. apply NoDup_app in Hn as (_ & Hd & _). apply (Hd token); [|by apply list_elem_of_singleton].
    rewrite <- E. by eapply list_elem_of_lookup_2.
  - set (p3 := snd (newPendingSandbox (withImage (dp_config p1) image) spec worktree token p2)).
    rewrite (M_bind_ret _ _ p2 i p3) by done. unfold createFailed, recordCreateFailed, gets, attempt, mbind, M_bind, onHost.
    destruct (record _ _ _) as [[u|e'] w']; intros [= <- <-]; eexists _, _; (split; [done|]); by intros ?.
  - unfold mbind at 1, M_bind at 1. cbn [setOwners modify]. intros E. eapply answers_failed; [|exact E]. exact Ep.
Qed.

Lemma Create_answers ctx spec (p : Provider) r p' : Create (@range) ctx spec p = (r, p') -> answers p r p'.
Proof.
  unfold Create. rewrite (M_bind_ret _ _ p (dp_config p) p) by done. destruct (dc_Audit _).
  2: { intros [= <- <-]. by eexists _, _. }
  destruct (validateDockerConfig _); [|by apply answers_failed]. unfold mbind at 1, M_bind at 1, try at 1, onHost at 1.
  destruct (resolveImage _ _ _) as [[image|e] w]; [|by apply answers_failed].
  unfold mbind, M_bind, try, onHost. destruct (newOwnerToken _) as [[token|e] w']; [|by apply answers_failed].
  by apply createOwned_answers.
Qed.

(** ** Cleaning up *)

(** What a clean-up that reports no error did: every sandbox it met is forgotten. *)
Lemma join_none errs joined :
  foldl (fun j e => errors_Join [j; e]) joined errs = None -> joined = None /\ Forall (fun e => e = None) errs.
Proof.
  revert joined. induction errs as [|e errs IH]; intros joined; cbn [foldl]; [done|].
  intros [Hj Hf]%IH. destruct joined, e; try done. by split; [|constructor].
Qed.

Lemma destroyPending_outcome token (p p' : Provider) errs :
  Books p -> destroyPending (@range) token p = (Ok errs, p') ->
  tokens p' = tokens p /\ (Forall (fun e => e = None) errs -> dp_pending p' = delete token (dp_pending p)).
Proof.
  intros [_ Hs]. unfold destroyPending. rewrite (M_bind_ret _ _ p (dp_pending p) p) by done.
  destruct (dp_pending p !! token) as [i|] eqn:Hi; [|intros [= <- <-]; split; [done|]; intros _; by rewrite delete_id].
  destruct (Hs _ _ Hi) as (s & Hl%lookup_tokens & Ht). rewrite Ht in Hl.
  destruct (onObject_at i token (Destroy (@range)) p Hl) as (m & Em & Ep & E & Ed & Et); [intros m; apply Destroy_sameToken|].
  destruct (Destroy_outcome m) as (r & m' & Eo & Hend). rewrite Eo in E, Ed. cbn [fst snd] in E, Ed.
  unfold mbind, M_bind. rewrite E. intros [= <- <-]. split; [done|]. intros [-> _]%Forall_cons.
  destruct Hend as [[Hp _]|[Hr _]]; [|done]. by rewrite Ed, Hp, Em, Ep.
Qed.

Lemma cleanup_None l joined (p p' : Provider) :
  NoDup (tokens p) -> Books p -> join_each (destroyPending (@range)) joined l p = (Ok None, p') ->
  joined = None /\ forall token, token ∈ l \/ dp_pending p !! token = None -> dp_pending p' !! token = None.
Proof.
  revert joined p. induction l as [|token l IH]; intros joined p Hn Hb; cbn [join_each].
  - intros [-> ->]%mret_Ok. split; [done|]. by intros token [?%elem_of_nil|].
  - intros (errs & p1 & E1 & E)%M_bind_Ok. pose proof (destroyPending_grows token p) as [_ Hg]. rewrite E1 in Hg. cbn [snd] in Hg.
    destruct (destroyPending_outcome _ _ _ _ Hb E1) as [Et Hd]. rewrite Et in Hg.
    destruct (IH _ p1 ltac:(by rewrite Et) (Hg Hn Hb) E) as [[-> Hf]%join_none Hl]. specialize (Hd Hf). split; [done|].
    intros token' Ht. apply Hl. rewrite Hd. destruct (decide (token' = token)) as [->|Hne]; [right; by rewrite lookup_delete_eq|].
    rewrite lookup_delete_ne by done. rewrite elem_of_cons in Ht. destruct Ht as [[->|Ht]|Ht]; [done|by left|by right].
Qed.

(** ** The life of a provider *)

(** What is done with a provider and its sandboxes *)
Inductive providerStep (p : Provider) : Provider -> Prop :=
  | ProviderCreate ctx spec : providerStep p (snd (Create (@range) ctx spec p))
  | ProviderExecute i ctx request : providerStep p (snd (onObject i (Execute ctx request) p))
  | ProviderDestroy i : providerStep p (snd (onObject i (Destroy (@range)) p))
  | ProviderCleanup : providerStep p (snd (Cleanup (@range) p)).

Lemma step_grows p p' : providerStep p p' -> grows p p'.
Proof.
  intros [ctx spec|i ctx request|i|].
  - apply Create_grows.
  - apply onObject_grows, Execute_bookish.
  - apply onObject_grows, Destroy_bookish.
  - apply Cleanup_grows.
Qed.

(** C19: no sandbox is lost: through any creations, executions, destructions and
    clean-ups, as long as the random tokens are different, every sandbox a provider ever
    made is pending under its token until it is destroyed and its end is audited.  A
    creation always answers: with a sandbox, or with none and an error, and then what is
    pending is what was pending before.  And a clean-up that reports no error has
    destroyed whatever was pending. *)
Theorem sandboxes_are_never_lost config w (p : Provider) :
  rtc providerStep (NewDockerProvider config w) p -> NoDup (tokens p) ->
  (forall i s, dp_objects p !! i = Some s -> dp_pending p !! ds_ownerToken s = Some i \/ released s) /\
  (forall ctx spec p', snd (Create (@range) ctx spec p) = p' -> NoDup (tokens p') -> exists o e,
     fst (Create (@range) ctx spec p) = Ok (o, e) /\ (o = None -> e <> None /\ dp_pending p' = dp_pending p)) /\
  ((forall (pending : gmap string nat) token, is_Some (pending !! token) -> token ∈ range pending) ->
   forall p', Cleanup (@range) p = (Ok None, p') -> dp_pending p' = ∅).
Proof.
  intros Hr Hn. assert (grows (NewDockerProvider config w) p) as [_ Hg].
  { clear Hn. induction Hr as [p|p1 p2 p3 Hs _ IH]; [done|]. etrans; [by apply step_grows|done]. }
  assert (Books p) as Hb.
  { apply Hg; [done|]. split; [by intros i s|]. intros token i. cbn. by rewrite lookup_empty. }
  split; [apply Hb|]. split.
  - intros ctx spec p' <- Hn'. destruct (Create (@range) ctx spec p) as [r p1] eqn:E.
    apply Create_answers in E as (o & e & -> & Ho). exists o, e. split; [done|]. intros Eo. destruct (Ho Eo) as [He Hp]. auto.
  - intros Hrange p'. unfold Cleanup. rewrite (M_bind_ret _ _ p (dp_pending p) p) by done. intros E.
    apply (cleanup_None _ _ _ _ Hn Hb) in E as [_ Hl]. apply map_eq. intros token. rewrite lookup_empty. apply Hl.
    destruct (dp_pending p !! token) eqn:Ht; [left; apply Hrange; by rewrite Ht|by right].
Qed.
End provider.

(** ** A provider at work *)

(** Images resolve and nothing fails. *)
Definition providerConfig : DockerConfig Script :=
  MkDockerConfig "" "/trees" "" "" 0 0 8 ["GOPROXY"] (Some scriptRecorder).

Definition freshProvider : @DockerProvider Script string := NewDockerProvider providerConfig (MkScript [says sampleImage] [] []).

Definition createdProvider : @DockerProvider Script string :=
  snd (Create (@mapRange) (ContextOf background) (MkSpec "run-1" "attempt-1" "/repo" "main") freshProvider).

Lemma provider_created : rtc (providerStep (@mapRange)) freshProvider createdProvider.
Proof. apply rtc_once. constructor. Qed.

Lemma created_tokens : tokens createdProvider = [sampleToken].
Proof. vm_compute. reflexivity. Qed.

Lemma sandboxes_are_never_lost_witness : map snd (map_to_list (dp_pending createdProvider)) = [0] /\
  forall i s, dp_objects createdProvider !! i = Some s -> dp_pending createdProvider !! ds_ownerToken s = Some i \/ released s.
Proof.
  split; [vm_compute; reflexivity|].
  exact (proj1 (sandboxes_are_never_lost (@mapRange) providerConfig (MkScript [says sampleImage] [] []) createdProvider
    provider_created (eq_ind_r (fun l => NoDup l) (NoDup_singleton sampleToken) created_tokens))).
Defined.
