(* ===== verification/WorktreeFacts.v ===== *)
(** * Facts on worktrees

    The names of worktrees, what their provider may ask of the system, and what it
    keeps of what it made. *)
From S2P Require Import Prelude Sha256 GoLib Regexp Receipt Effect Policy PathFacts PolicyTheorems Helper ToolService.
From S2P Require Import Host Worktree HostFacts.

(** ** Names *)

(** The characters of a name that is safe in a path and in an argument. *)
Definition safe_char (c : Ascii.ascii) : bool := safe_rune (Z.of_N (Ascii.N_of_ascii c)).
Definition safe_text (s : string) : Prop := forallb safe_char (String.list_ascii_of_string s) = true.

Lemma safe_text_app a b : safe_text a -> safe_text b -> safe_text (a +:+ b).
Proof.
  unfold safe_text. induction a as [|c a IH]; [done|]. cbn. intros [Hc Ha]%andb_true_iff Hb.
  apply andb_true_iff. split; [done|by apply IH].
Qed.

Lemma safe_slash_free s : safe_text s -> slash_free s.
Proof.
  unfold safe_text, slash_free. induction s as [|c s IH]; [done|]. cbn. intros [Hc Hs]%andb_true_iff.
  rewrite (IH Hs). rewrite decide_False; [done|]. intros ->. by vm_compute in Hc.
Qed.

Lemma safe_plain s : safe_text s -> s <> "" -> plain s.
Proof.
  intros Hs Hne. split_and!; [done| | |by apply safe_slash_free]; intros ->; by vm_compute in Hs.
Qed.

Lemma safe_string_of_bytes bs : forallb safe_rune bs = true -> safe_text (string_of_bytes bs).
Proof.
  unfold safe_text. induction bs as [|b bs IH]; [done|]. cbn. intros [Hb Hs]%andb_true_iff.
  apply andb_true_iff. split; [|by apply IH]. unfold safe_char, ascii_of_Z.
  assert (0 <= b < 256)%Z.
  { unfold safe_rune, in_range in Hb. lia. }
  rewrite Ascii.N_ascii_embedding by lia. by rewrite Z2N.id by lia.
Qed.

Lemma safeName_safe value : safe_text (safeName value) /\ safeName value <> "".
Proof.
  unfold safeName. case_decide as He; [done|]. split.
  - apply safe_string_of_bytes. unfold safe_bytes. apply forallb_forall. intros b Hi.
    apply list_elem_of_In, elem_of_take in Hi as (i & Hi & _). apply list_elem_of_lookup_2 in Hi.
    apply list_elem_of_fmap in Hi as (r & -> & _). by destruct (safe_rune r) eqn:E.
  - by destruct (safe_bytes value).
Qed.

Lemma hex_safe bs : Forall (fun b => 0 <= b < 256)%Z bs -> safe_text (hex bs).
Proof.
  intros Hb. pose proof (hex_lower bs Hb) as Hl. unfold safe_text. remember (2 * length bs) as n.
  clear Hb Heqn. revert n Hl. generalize (hex bs) as s. induction s as [|c s IH]; intros n Hl; [done|].
  destruct n as [|n]; [done|]. cbn in *. apply andb_true_iff in Hl as [Hc Hl]. apply andb_true_iff.
  split; [|by eapply IH]. unfold safe_char, safe_rune. unfold lower_hex in Hc. unfold in_range in *. lia.
Qed.

(** The name of a worktree's directory *)
Definition directoryName (name : string) : Prop := safe_text name /\ plain name.

Lemma generated_name runID attemptID token :
  safe_text token -> directoryName (safeName runID +:+ "-" +:+ safeName attemptID +:+ "-" +:+ token).
Proof.
  intros Ht. destruct (safeName_safe runID) as [Hr Hne], (safeName_safe attemptID) as [Ha _].
  assert (safe_text (safeName runID +:+ "-" +:+ safeName attemptID +:+ "-" +:+ token)) as Hs.
  { do 4 (apply safe_text_app; [done|]). done. }
  split; [done|]. apply safe_plain; [done|]. by destruct (safeName runID).
Qed.

(** ** Paths below a root *)

Lemma slash_components s : components ("/" +:+ s) = "" :: components s.
Proof. exact (components_app "" s). Qed.

Lemma rooted_Join root c : rooted root = true -> plain c ->
  rooted (filepath_Join [root; c]) = true /\ clean_components (filepath_Join [root; c]) = clean_components root ++ [c].
Proof.
  intros Hr Hc. unfold filepath_Join. rewrite decide_True by (by intros ->).
  change (String.concat "/" [root; c]) with (root +:+ "/" +:+ c). set (p := root +:+ "/" +:+ c).
  assert (rooted p = true) as Hp by (subst p; by destruct root).
  assert (clean_components p = clean_components root ++ [c]) as Ec.
  { unfold clean_components. rewrite Hp, Hr. subst p. rewrite components_app, (components_single c) by apply Hc.
    enough (forall parts stack, clean_stack true stack (parts ++ [c]) = clean_stack true stack parts ++ [c]) as Hc'; [done|].
    induction parts as [|part rest IH]; intros stack; cbn [app clean_stack].
    - destruct Hc as (? & ? & ? & _). rewrite !decide_False by tauto. apply reverse_cons.
    - case_decide; [done|]. case_decide; [|done]. destruct stack; [done|]. by case_decide. }
  rewrite rooted_Clean by done. split; [done|]. rewrite Ec.
  assert (Forall plain (clean_components root ++ [c])) as Hf.
  { apply Forall_app. split; [by apply rooted_plain|by apply Forall_singleton]. }
  unfold clean_components at 1. rewrite slash_components. change (rooted ("/" +:+ _)) with true.
  rewrite components_concat by first [by destruct (clean_components root)|eapply Forall_impl; [exact Hf|apply plain_free]].
  cbn [clean_stack]. rewrite decide_True by (by left). by rewrite clean_stack_names.
Qed.

(** ** What the provider asks of the system *)

Section effects.
Context {W : Type} `{Host W} `{WorktreeHost W}.

(** What the documentation of [os.Getwd], [filepath.EvalSymlinks] and [rand.Read] says:
    the first two give absolute paths, the second of an absolute one, the last bytes. *)
Class SystemLaws : Prop := {
  getwd_rooted : ensures os_getwd (fun wd => rooted wd = true);
  resolved_rooted : forall p, rooted p = true -> ensures (filepath_EvalSymlinks p) (fun q => rooted q = true);
  random_bytes : forall n, ensures (rand_Read n) (Forall (fun b => 0 <= b < 256)%Z)
}.

(** The directory of a worktree: a safe name directly below a root. *)
Definition worktreePath (root path : string) : Prop :=
  rooted root = true /\ exists name, directoryName name /\ path = filepath_Join [root; name].

Definition treeName (name : string) : Prop := treePathValid name = true.

(** The commands of git: no argument that a specification or a tree gives can be taken
    for an option or another path. *)
Inductive gitRequest : list string -> Prop :=
  | AskTop : gitRequest ["rev-parse"; "--show-toplevel"]
  | AskRevision revision : revision <> "" -> HasPrefix revision "-" = false ->
      gitRequest ["rev-parse"; "--verify"; revision +:+ "^{commit}"]
  | AskTree id : isObjectID id = true -> gitRequest ["ls-tree"; "-r"; "-z"; "--full-tree"; "-l"; id]
  | AskBlob id : isObjectID id = true -> gitRequest ["cat-file"; "blob"; id]
  | AskList : gitRequest ["worktree"; "list"; "--porcelain"]
  | AddWorktree root path id : worktreePath root path -> isObjectID id = true ->
      gitRequest ["worktree"; "add"; "--no-checkout"; "--detach"; path; id]
  | RemoveWorktree root path : worktreePath root path -> gitRequest ["worktree"; "remove"; "--force"; path].

(** A relation that whatever the provider may do respects: it looks, runs git safely,
    makes its root, makes and removes directories of worktrees, and writes names below
    the opened worktree that are neither git's nor the sandbox's own. *)
Record Confined (R : W -> W -> Prop) : Prop := {
  cf_getwd : respects R os_getwd;
  cf_Lstat : forall path, respects R (Lstat path);
  cf_EvalSymlinks : forall path, respects R (filepath_EvalSymlinks path);
  cf_Identity : forall path, respects R (file_Identity path);
  cf_Owner : forall path, respects R (file_Owner path);
  cf_random : forall n, respects R (rand_Read n);
  cf_git : forall ctx repository arguments, gitRequest arguments ->
    forall w, R w (snd (exec ctx (safeGitCommand repository arguments) w));
  cf_root : forall root, rooted root = true -> respects R (os_MkdirAll root 448);
  cf_Mkdir : forall root path, worktreePath root path -> respects R (os_Mkdir path 448);
  cf_Remove : forall root path, worktreePath root path -> respects R (os_Remove path);
  cf_RemoveAll : forall root path, worktreePath root path -> respects R (os_RemoveAll path);
  cf_OpenRoot : forall root path, worktreePath root path -> respects R (tree_OpenRoot path);
  cf_directory : forall name, treeName name -> respects R (tree_MkdirAll name 448);
  cf_parent : forall name, treeName name -> respects R (tree_MkdirAll (path_Dir name) 448);
  cf_create : forall name mode, treeName name -> mode = 384%Z \/ mode = 448%Z -> respects R (tree_Create name mode);
  cf_close : forall name, treeName name -> respects R (tree_Close name);
  cf_remove : forall name, treeName name -> respects R (tree_Remove name);
  cf_symlink : forall target name, treeName name -> (len target <= 4096)%Z -> respects R (tree_Symlink target name);
  cf_blob : forall ctx repository id name, treeName name -> isObjectID id = true ->
    forall w, R w (snd (exec_to_file ctx (safeGitCommand repository ["cat-file"; "blob"; id]) name w))
}.

Section confined.
Context `{!SystemLaws} (R : W -> W -> Prop) `{!PreOrder R} (confined : Confined R).

(** The calls that are always permitted *)
Lemma cf_context (ctx : Deadline) repository arguments :
  gitRequest arguments -> respects R (gitOutput ctx repository arguments).
Proof.
  intros Hg. unfold gitOutput. respect_steps. apply respects_always. intros w. by apply (cf_git R confined).
Qed.

Lemma cf_inspect_Lstat path : respects R (Lstat path).
Proof. apply (cf_Lstat R confined). Qed.
Lemma cf_inspect_EvalSymlinks path : respects R (filepath_EvalSymlinks path).
Proof. apply (cf_EvalSymlinks R confined). Qed.
Lemma cf_inspect_Identity path : respects R (file_Identity path).
Proof. apply (cf_Identity R confined). Qed.
Lemma cf_inspect_Owner path : respects R (file_Owner path).
Proof. apply (cf_Owner R confined). Qed.
Lemma cf_inspect_getwd : respects R os_getwd.
Proof. apply (cf_getwd R confined). Qed.
Lemma cf_request_top : gitRequest ["rev-parse"; "--show-toplevel"].
Proof. constructor. Qed.
Lemma cf_request_list : gitRequest ["worktree"; "list"; "--porcelain"].
Proof. constructor. Qed.

#[local] Hint Resolve cf_context cf_inspect_Lstat cf_inspect_EvalSymlinks cf_inspect_Identity cf_inspect_Owner cf_inspect_getwd
  cf_request_top cf_request_list : respects.

Lemma abs_confined path : respects R (filepath_abs path).
Proof. unfold filepath_abs. respect_steps. Qed.

Lemma abs_rooted path : ensures (filepath_abs path) (fun p => rooted p = true).
Proof.
  unfold filepath_abs. destruct (rooted path) eqn:Hr.
  - apply ensures_ret. unfold filepath_Clean. by rewrite Hr.
  - apply (ensures_bind _ _ _ _ getwd_rooted). intros wd Hwd. apply ensures_ret.
    unfold filepath_Join. destruct wd as [|c wd]; [done|]. rewrite decide_True by congruence.
    unfold filepath_Clean. change (rooted (String.concat _ _)) with (rooted (String c wd)). by rewrite Hwd.
Qed.

Lemma ancestor_confined fuel identity current : respects R (ancestorIs fuel identity current).
Proof. revert current. induction fuel; intros; cbn [ancestorIs]; respect_steps. Qed.
Lemma within_confined root candidate : respects R (pathWithin root candidate).
Proof. unfold pathWithin. respect_steps. apply ancestor_confined. Qed.
Lemma existing_confined fuel current missing : respects R (existingAncestor fuel current missing).
Proof. revert current missing. induction fuel; intros; cbn [existingAncestor]; respect_steps. Qed.

#[local] Hint Resolve abs_confined within_confined existing_confined : respects.

Lemma prospective_confined candidate : respects R (canonicalProspectivePath candidate).
Proof. unfold canonicalProspectivePath. respect_steps. Qed.

#[local] Hint Resolve prospective_confined : respects.

Lemma repository_confined ctx spec : respects R (canonicalRepository ctx spec).
Proof. unfold canonicalRepository. respect_steps. Qed.

Lemma privateRoot_confined configured repository : respects R (privateRoot configured repository).
Proof.
  unfold privateRoot. respect_step; [respect_steps|].
  apply (respects_bind_ensured R (fun p => rooted p = true)); [respect_steps|apply ensures_wrapM, abs_rooted|].
  intros root Hr. respect_steps. by apply (cf_root R confined).
Qed.

Lemma privateRoot_rooted configured repository : ensures (privateRoot configured repository) (fun root => rooted root = true).
Proof.
  unfold privateRoot. apply ensures_any. intros temp.
  apply (ensures_bind _ _ (fun p => rooted p = true)); [apply ensures_wrapM, abs_rooted|]. intros root Hr.
  do 2 (apply ensures_any; intros ?). destruct a0; [apply ensures_throw|].
  do 2 (apply ensures_any; intros ?). destruct (negb _); [apply ensures_throw|].
  do 2 (apply ensures_any; intros ?). destruct (negb _); [apply ensures_throw|]. destruct (negb _); [apply ensures_throw|].
  apply (ensures_bind _ _ (fun p => rooted p = true)); [by apply ensures_wrapM, resolved_rooted|]. intros q Hq.
  apply ensures_any. intros inside. destruct inside; [apply ensures_throw|by apply ensures_ret].
Qed.

#[local] Hint Resolve repository_confined privateRoot_confined : respects.

(** *** Filling and removing a worktree *)

Lemma treeEntry_blob encoded mode id name size :
  treeEntry encoded = Ok (TreeBlob mode id name size) -> treeName name /\ isObjectID id = true.
Proof.
  unfold treeEntry. intros E. repeat case_match; try done; simplify_eq.
  rewrite andb_true_iff in *. unfold treeName. destruct (treePathValid _); [by destruct_and?|done].
Qed.

Lemma gitCommand_confined ctx repository arguments limit :
  gitRequest arguments -> respects R (boundedCommandOutput ctx (safeGitCommand repository arguments) limit).
Proof.
  intros Hg. unfold boundedCommandOutput. respect_steps. apply respects_always. intros w. by apply (cf_git R confined).
Qed.

Lemma blob_confined ctx repository name id mode :
  treeName name -> isObjectID id = true -> mode = 384%Z \/ mode = 448%Z ->
  respects R (materializeBlob ctx repository name id mode).
Proof.
  intros Hn Hi Hm. assert (forall e, respects R (removeAfter name e)) as Hr.
  { intros [e|]; cbn [removeAfter]; respect_steps. by apply (cf_remove R confined). }
  unfold materializeBlob. respect_steps; try apply Hr; [by apply (cf_create R confined)| |by apply (cf_close R confined)].
  apply respects_always. intros w. by apply (cf_blob R confined).
Qed.

Lemma link_confined ctx repository name id size :
  treeName name -> isObjectID id = true -> respects R (materializeLink ctx repository name id size).
Proof.
  intros Hn Hi. unfold materializeLink. destruct (_ <? _)%Z eqn:Hs; [respect_steps|]. respect_step; [|].
  - apply cf_context. by constructor.
  - destruct (negb _) eqn:Hl; respect_steps. apply (cf_symlink R confined); [done|lia].
Qed.

Lemma entry_confined ctx repository encoded : respects R (materializeEntry ctx repository encoded).
Proof.
  unfold materializeEntry. case_decide; [respect_steps|].
  apply (respects_bind_ensured R (fun entry => treeEntry encoded = Ok entry)); [respect_steps|by intros w a w' [= -> _]|].
  intros [name|mode id name size] He.
  - unfold makeMaterializedDirectory. destruct (treePathValid name) eqn:Hn; cbn [negb]; respect_steps.
    by apply (cf_directory R confined).
  - destruct (treeEntry_blob _ _ _ _ _ He) as [Hn Hi]. respect_step; [respect_steps; by apply (cf_parent R confined)|].
    repeat case_decide; [apply blob_confined..|apply link_confined|respect_steps]; auto.
Qed.

Lemma tree_confined ctx repository root workspace revision :
  worktreePath root workspace -> isObjectID revision = true ->
  respects R (materializeGitTree ctx repository workspace revision).
Proof.
  intros Hw Hr. unfold materializeGitTree. respect_steps; [apply cf_context; by constructor| |apply entry_confined].
  by apply (cf_OpenRoot R confined root).
Qed.

Lemma registered_confined ctx repository workspace : respects R (worktreeRegistered ctx repository workspace).
Proof. unfold worktreeRegistered. respect_steps. Qed.

Lemma cleanup_confined ctx repository root workspace :
  worktreePath root workspace -> respects R (cleanupKnownWorktree ctx repository root workspace).
Proof.
  intros Hw. assert (respects R (os_RemoveAll workspace)) by by apply (cf_RemoveAll R confined root).
  unfold cleanupKnownWorktree. respect_steps;
    first [done|apply registered_confined|by apply gitCommand_confined, (RemoveWorktree root)].
Qed.

Lemma validate_confined workspace : respects R (validateAllocatedWorktree workspace).
Proof. unfold validateAllocatedWorktree. respect_steps. Qed.

Lemma fill_confined ctx repository spec root workspace :
  specInvalid spec = false -> worktreePath root workspace -> respects R (fillWorktree ctx repository spec workspace).
Proof.
  intros Hs Hw. unfold fillWorktree. respect_step; [apply validate_confined|].
  respect_step; [respect_steps; by apply (cf_Remove R confined root)|]. respect_step.
  - apply cf_context. unfold specInvalid in Hs. repeat (apply orb_false_iff in Hs as [Hs ?]).
    apply bool_decide_eq_false in Hs. constructor; [tauto|done].
  - destruct (isObjectID _) eqn:Hr; cbn [negb]; respect_steps; [|by apply (tree_confined _ _ root)].
    apply cf_context. by apply (AddWorktree root).
Qed.

(** *** The provider *)

Abbreviation Provider := (GitWorktreeProvider W).

Definition Owned (worktree : gitWorktree) : Prop := worktreePath (gw_root worktree) (gw_workspace worktree).

(** Each pending worktree is kept under its path, directly below its root. *)
Definition Owns (p : Provider) : Prop :=
  forall path worktree, gp_pending p !! path = Some worktree -> gw_workspace worktree = path /\ Owned worktree.

(** A step of a provider that keeps its worktrees owned and does nothing beyond [R]. *)
Definition confinedBy (p p' : Provider) : Prop := Owns p -> Owns p' /\ R (gp_host p) (gp_host p').

#[export] Instance confinedBy_preorder : PreOrder confinedBy.
Proof.
  split; [by intros p|]. intros p1 p2 p3 H12 H23 [Ho R12]%H12. apply H23 in Ho as [Ho R23].
  split; [done|by etrans].
Qed.

Lemma system_confined {A} (c : M W A) : respects R c -> respects confinedBy (system c).
Proof. intros Hc p Ho. specialize (Hc (gp_host p)). unfold system. by destruct (c (gp_host p)). Qed.

Lemma modify_confined (f : Provider -> Provider) :
  (forall p, Owns p -> Owns (f p)) -> (forall p, gp_host (f p) = gp_host p) -> respects confinedBy (modify f).
Proof. intros Hf Hh p Ho. cbn. split; [by apply Hf|by rewrite Hh]. Qed.

Lemma forget_confined path : respects confinedBy (setPending (delete path)).
Proof. apply modify_confined; [|done]. intros p Ho path' worktree. cbn. rewrite lookup_delete_Some. intros [_ Hl]. by apply Ho. Qed.

Lemma destroy_confined worktree : Owned worktree -> respects confinedBy (destroyGitWorktree worktree).
Proof.
  intros Ho. unfold destroyGitWorktree. respect_steps; [|by apply modify_confined|apply forget_confined].
  by apply system_confined, cleanup_confined.
Qed.

Lemma newOwnerToken_confined : respects confinedBy (wrapM (system newOwnerToken)).
Proof. apply respects_wrapM, system_confined. unfold newOwnerToken. respect_steps. apply (cf_random R confined). Qed.

Lemma newOwnerToken_safe : ensures (wrapM (system newOwnerToken)) safe_text.
Proof.
  apply ensures_wrapM. intros p token p' E. unfold system in E. destruct (newOwnerToken (gp_host p)) as [r w] eqn:En.
  simplify_eq. revert En. apply (ensures_bind _ _ (Forall (fun b => 0 <= b < 256)%Z)).
  - apply ensures_wrapM, random_bytes.
  - intros bs Hb. apply ensures_ret, hex_safe, Hb.
Qed.

Lemma allocated_path root spec token : rooted root = true -> safe_text token -> worktreePath root (allocatedPath root spec token).
Proof. intros Hr Ht. split; [done|]. eexists. split; [by apply generated_name|done]. Qed.

Lemma allocate_confined attempts repository root spec :
  rooted root = true -> respects confinedBy (allocate attempts repository root spec).
Proof.
  intros Hr. induction attempts as [|more IH]; cbn [allocate]; [respect_steps|].
  apply (respects_bind_ensured _ safe_text); [apply newOwnerToken_confined|apply newOwnerToken_safe|].
  intros token Ht. pose proof (allocated_path root spec token Hr Ht) as Hw. revert Hw.
  generalize (allocatedPath root spec token) as workspace. intros workspace Hw.
  assert (respects confinedBy (system (os_Mkdir workspace 448))) by by apply system_confined, (cf_Mkdir R confined root).
  respect_steps; first [done|apply forget_confined|by apply system_confined, within_confined|
    apply modify_confined; [|done]; intros p Ho path worktree; cbn; rewrite lookup_insert_Some;
    intros [[<- <-]|[_ Hl]]; [done|by apply Ho]].
Qed.

Lemma allocate_owned attempts repository root spec :
  rooted root = true -> ensures (allocate attempts repository root spec) Owned.
Proof.
  intros Hr. induction attempts as [|more IH]; cbn [allocate]; [apply ensures_throw|].
  apply (ensures_bind _ _ _ _ newOwnerToken_safe). intros token Ht.
  apply ensures_any. intros within. destruct (_ || _); [apply ensures_throw|].
  apply ensures_any. intros p. destruct (_ !! _); [done|]. apply ensures_any. intros _.
  apply ensures_any. intros [e|]; [|by apply ensures_ret, allocated_path].
  apply ensures_any. intros _. destruct (errors_Is _ _); [done|apply ensures_throw].
Qed.

(** The specification is checked before anything is asked. *)
Lemma allocateFor_confined ctx spec : respects confinedBy (allocateFor ctx spec).
Proof.
  unfold allocateFor. destruct (specInvalid spec); [respect_steps|].
  respect_step; [by apply system_confined, repository_confined|]. respect_step; [respect_steps|].
  apply (respects_bind_ensured _ (fun root => rooted root = true)); [by apply system_confined, privateRoot_confined| |].
  - intros p root p' E. unfold system in E. destruct (privateRoot _ _ _) as [r w] eqn:Ep. simplify_eq.
    by eapply privateRoot_rooted.
  - intros root Hr. by apply allocate_confined.
Qed.

Lemma allocateFor_owned ctx spec : ensures (allocateFor ctx spec) (fun worktree => Owned worktree /\ specInvalid spec = false).
Proof.
  unfold allocateFor. destruct (specInvalid spec); [apply ensures_throw|]. do 2 (apply ensures_any; intros ?).
  apply (ensures_bind _ _ (fun root => rooted root = true)).
  - intros p root p' E. unfold system in E. destruct (privateRoot _ _ _) as [r w] eqn:Ep. simplify_eq.
    by eapply privateRoot_rooted.
  - intros root Hr p worktree p' E. split; [|done]. by eapply allocate_owned.
Qed.

Lemma create_confined ctx spec : respects confinedBy (createGitWorktree ctx spec).
Proof.
  unfold createGitWorktree. apply (respects_bind_ensured _ (fun r => forall worktree, r = Ok worktree ->
    Owned worktree /\ specInvalid spec = false)).
  - apply respects_try, allocateFor_confined.
  - intros p r p' E worktree ->. apply try_Ok in E. by eapply allocateFor_owned.
  - intros [worktree|e] Hw; [|respect_steps]. destruct (Hw worktree eq_refl) as [Ho Hs].
    respect_step; [by apply respects_attempt, system_confined, (fill_confined _ _ _ (gw_root worktree))|].
    unfold failedCreate. respect_steps. by apply destroy_confined.
Qed.

Lemma cleanupPending_confined workspace : respects confinedBy (cleanupPending workspace).
Proof.
  intros p Ho. unfold cleanupPending. rewrite (M_bind_ret _ _ p (gp_pending p) p) by done.
  destruct (_ !! workspace) as [worktree|] eqn:El; [|split; [done|reflexivity]]. destruct (Ho _ _ El) as [_ Hw].
  assert (respects confinedBy (e ← attempt (destroyGitWorktree worktree); mret [e])) as Hc.
  { respect_steps. by apply destroy_confined. }
  exact (Hc p Ho).
Qed.
End confined.

(** ** What the provider keeps *)

Section kept.

(** The directories that were made and removed as worktrees, in order. *)
Variable log : W -> list (bool * string).

Definition unlogged (w w' : W) : Prop := log w' = log w.

#[export] Instance unlogged_preorder : PreOrder unlogged.
Proof. split; [by intros w|]. unfold unlogged. intros w1 w2 w3 E1 E2. congruence. Qed.

(** A host that logs what [os.Mkdir] and [os.RemoveAll] did, and nothing else. *)
Record Logged : Prop := {
  lg_Mkdir : forall path mode w r w', os_Mkdir path mode w = (r, w') ->
    log w' = log w ++ match r with Ok _ => [(true, path)] | Err _ => [] end;
  lg_RemoveAll : forall path w r w', os_RemoveAll path w = (r, w') ->
    log w' = log w ++ match r with Ok _ => [(false, path)] | Err _ => [] end;
  lg_exec : forall ctx command w, unlogged w (snd (exec ctx command w));
  lg_exec_to_file : forall ctx command name w, unlogged w (snd (exec_to_file ctx command name w));
  lg_getwd : respects unlogged os_getwd;
  lg_Lstat : forall path, respects unlogged (Lstat path);
  lg_EvalSymlinks : forall path, respects unlogged (filepath_EvalSymlinks path);
  lg_Identity : forall path, respects unlogged (file_Identity path);
  lg_Owner : forall path, respects unlogged (file_Owner path);
  lg_random : forall n, respects unlogged (rand_Read n);
  lg_MkdirAll : forall path mode, respects unlogged (os_MkdirAll path mode);
  lg_Remove : forall path, respects unlogged (os_Remove path);
  lg_OpenRoot : forall path, respects unlogged (tree_OpenRoot path);
  lg_tree_MkdirAll : forall name mode, respects unlogged (tree_MkdirAll name mode);
  lg_Create : forall name mode, respects unlogged (tree_Create name mode);
  lg_Close : forall name, respects unlogged (tree_Close name);
  lg_tree_Remove : forall name, respects unlogged (tree_Remove name);
  lg_Symlink : forall target name, respects unlogged (tree_Symlink target name)
}.

(** The directories that stand after a log *)
Definition standing (events : list (bool * string)) : gset string :=
  foldl (fun paths event => if (fst event : bool) then {[ snd event ]} ∪ paths else paths ∖ {[ snd event ]}) ∅ events.

Lemma standing_made events path : standing (events ++ [(true, path)]) = {[ path ]} ∪ standing events.
Proof. unfold standing. by rewrite foldl_app. Qed.
Lemma standing_removed events path : standing (events ++ [(false, path)]) = standing events ∖ {[ path ]}.
Proof. unfold standing. by rewrite foldl_app. Qed.

Context (logged : Logged).

Lemma lg_git ctx repository arguments : respects unlogged (gitOutput ctx repository arguments).
Proof. unfold gitOutput. respect_steps. apply respects_always. intros w. apply logged. Qed.

Lemma lg_host_Lstat path : respects unlogged (Lstat path).
Proof. apply logged. Qed.
Lemma lg_host_EvalSymlinks path : respects unlogged (filepath_EvalSymlinks path).
Proof. apply logged. Qed.
Lemma lg_host_Identity path : respects unlogged (file_Identity path).
Proof. apply logged. Qed.
Lemma lg_host_Owner path : respects unlogged (file_Owner path).
Proof. apply logged. Qed.
Lemma lg_host_getwd : respects unlogged os_getwd.
Proof. apply logged. Qed.

#[local] Hint Resolve lg_git lg_host_Lstat lg_host_EvalSymlinks lg_host_Identity lg_host_Owner lg_host_getwd : respects.

Lemma ancestor_unlogged fuel identity current : respects unlogged (ancestorIs fuel identity current).
Proof. revert current. induction fuel; intros; cbn [ancestorIs]; respect_steps. Qed.
Lemma within_unlogged root candidate : respects unlogged (pathWithin root candidate).
Proof. unfold pathWithin. respect_steps. apply ancestor_unlogged. Qed.
Lemma existing_unlogged fuel current missing : respects unlogged (existingAncestor fuel current missing).
Proof. revert current missing. induction fuel; intros; cbn [existingAncestor]; respect_steps. Qed.

#[local] Hint Resolve within_unlogged existing_unlogged : respects.

Lemma repository_unlogged ctx spec : respects unlogged (canonicalRepository ctx spec).
Proof. unfold canonicalRepository, filepath_abs. respect_steps. Qed.

Lemma privateRoot_unlogged configured repository : respects unlogged (privateRoot configured repository).
Proof. unfold privateRoot, canonicalProspectivePath, filepath_abs. respect_steps; apply logged. Qed.

Lemma fill_unlogged ctx repository spec workspace : respects unlogged (fillWorktree ctx repository spec workspace).
Proof.
  assert (forall name e, respects unlogged (removeAfter name e)) as Hr.
  { intros name [e|]; cbn [removeAfter]; respect_steps. apply logged. }
  assert (forall ctx command name, respects unlogged (always (exec_to_file ctx command name))) as Hx.
  { intros. apply respects_always. intros w. apply logged. }
  unfold fillWorktree, validateAllocatedWorktree, materializeGitTree, materializeEntry, makeMaterializedDirectory,
    materializeBlob, materializeLink. respect_steps; first [apply logged|apply Hr|apply Hx].
Qed.

(** *** Each operation *)

(** [removes path m]: the last thing a successful [m] did was to remove [path]; a
    failing one made and removed nothing. *)
Definition removes {A} (path : string) (m : M W A) : Prop :=
  forall w, log (snd (m w)) = log w ++ match fst (m w) with Ok _ => [(false, path)] | Err _ => [] end.

Lemma removes_bind {A B} path (f : A -> M W B) (m : M W A) :
  respects unlogged m -> (forall a, removes path (f a)) -> removes path (m ≫= f).
Proof.
  intros Hm Hf w. unfold mbind, M_bind. specialize (Hm w). unfold unlogged in Hm. destruct (m w) as [[a|e] w1]; cbn in *.
  - rewrite (Hf a w1). by rewrite Hm.
  - by rewrite app_nil_r.
Qed.

Lemma removes_throw {A} path e : removes path (throw e : M W A).
Proof. intros w. cbn. by rewrite app_nil_r. Qed.

Lemma cleanup_removes ctx repository root path : removes path (cleanupKnownWorktree ctx repository root path).
Proof.
  unfold cleanupKnownWorktree. apply removes_bind; [apply within_unlogged|]. intros inside.
  destruct (_ || _); [apply removes_throw|]. apply removes_bind.
  { unfold boundedCommandOutput. respect_steps. apply respects_always. intros w. apply logged. }
  intros [[output truncated] removeErr]. apply removes_bind; [unfold worktreeRegistered; respect_steps|].
  intros [[|]|inspectErr]; destruct removeErr as [e|]; try apply removes_throw.
  1, 2: intros w; unfold wrapM; destruct (os_RemoveAll path w) as [r w'] eqn:E; cbn;
    by rewrite (lg_RemoveAll logged _ _ _ _ E); destruct r.
Qed.

Abbreviation Provider := (GitWorktreeProvider W).

Definition stands (p : Provider) : gset string := standing (log (gp_host p)).

Lemma system_inv {A} (c : M W A) (p p' : Provider) r :
  system c p = (r, p') ->
  exists w, c (gp_host p) = (r, w) /\ p' = MkGitWorktreeProvider (gp_root p) (gp_pending p) (gp_count p) (gp_destroyed p) w.
Proof. unfold system. destruct (c (gp_host p)) as [r0 w]. intros [= <- <-]. by exists w. Qed.

(** Steps that change neither the provider nor what stands *)
Record alike (p p' : Provider) : Prop := {
  al_pending : gp_pending p' = gp_pending p;
  al_count : gp_count p' = gp_count p;
  al_destroyed : gp_destroyed p' = gp_destroyed p;
  al_stands : stands p' = stands p
}.

#[export] Instance alike_preorder : PreOrder alike.
Proof. split; [by intros p|]. intros p1 p2 p3 [] []. split; congruence. Qed.

Lemma system_alike {A} (c : M W A) : respects unlogged c -> respects alike (system c).
Proof.
  intros Hc p. destruct (system c p) as [r p'] eqn:E. apply system_inv in E as (w & E & ->).
  specialize (Hc (gp_host p)). rewrite E in Hc. split; try done. cbn. unfold stands. by f_equal.
Qed.

Lemma bind_alike {A B} (f : A -> M Provider B) (m : M Provider A) p r p' :
  respects alike m -> (m ≫= f) p = (r, p') ->
  (exists e, r = Err e /\ alike p p') \/ exists a p1, alike p p1 /\ f a p1 = (r, p').
Proof.
  intros Hm. unfold mbind, M_bind. specialize (Hm p). destruct (m p) as [[a|e] p1]; cbn in Hm.
  - intros E. right. by exists a, p1.
  - intros [= <- <-]. left. by exists e.
Qed.

(** A worktree that is destroyed stands no more and is pending no more; otherwise
    nothing changes. *)
Lemma destroy_spec worktree (p : Provider) r p' :
  gw_id worktree ∉ gp_destroyed p -> destroyGitWorktree worktree p = (r, p') ->
  gp_count p' = gp_count p /\
  match r with
  | Ok _ => gp_pending p' = delete (gw_workspace worktree) (gp_pending p) /\
      gp_destroyed p' = {[ gw_id worktree ]} ∪ gp_destroyed p /\ stands p' = stands p ∖ {[ gw_workspace worktree ]}
  | Err _ => gp_pending p' = gp_pending p /\ gp_destroyed p' = gp_destroyed p /\ stands p' = stands p
  end.
Proof.
  intros Hd. unfold destroyGitWorktree. rewrite (M_bind_ret _ _ p p p) by done. rewrite decide_False by done.
  unfold mbind at 1, M_bind at 1. destruct (system _ p) as [r1 p1] eqn:E. apply system_inv in E as (w & E & ->).
  pose proof (cleanup_removes (Within Background (15 * second)) (gw_repository worktree) (gw_root worktree)
    (gw_workspace worktree) (gp_host p)) as Hr. rewrite E in Hr. cbn [fst snd] in Hr.
  destruct r1 as [u|e]; intros [= <- <-]; cbn; split_and!; try done; unfold stands; cbn; rewrite Hr.
  - apply standing_removed.
  - by rewrite app_nil_r.
Qed.

(** A worktree is new: its number and its path. *)
Record fresh (p : Provider) (worktree : gitWorktree) (p' : Provider) : Prop := {
  fr_id : gp_count p <= gw_id worktree < gp_count p';
  fr_path : gp_pending p !! gw_workspace worktree = None;
  fr_pending : gp_pending p' = <[gw_workspace worktree := worktree]> (gp_pending p);
  fr_stands : stands p' = {[ gw_workspace worktree ]} ∪ stands p
}.

Definition unchanged (p p' : Provider) : Prop := gp_pending p' = gp_pending p /\ stands p' = stands p.

Definition allocated (p : Provider) (r : result gitWorktree) (p' : Provider) : Prop :=
  gp_destroyed p' = gp_destroyed p /\ gp_count p <= gp_count p' /\
  match r with Ok worktree => fresh p worktree p' | Err _ => unchanged p p' end.

Lemma allocated_alike p p1 r p' : alike p p1 -> allocated p1 r p' -> allocated p r p'.
Proof.
  intros [Ep Ec Ed Es] (Hd & Hc & Hr). split; [congruence|]. split; [lia|].
  destruct r as [worktree|e]; [|destruct Hr; split; congruence].
  destruct Hr as [Hi Hp Hq Hs]. rewrite Ep in *. rewrite Es in Hs. split; try done. lia.
Qed.

Lemma alike_failed p e p' : alike p p' -> allocated p (Err e) p'.
Proof. intros [Ep Ec Ed Es]. split; [done|]. split; [lia|done]. Qed.

Lemma token_alike : respects alike (wrapM (system newOwnerToken)).
Proof. apply respects_wrapM, system_alike. unfold newOwnerToken. respect_steps. apply logged. Qed.

(** The directory of a candidate is made, or the claim on it is given up. *)
Lemma claim_spec (p : Provider) worktree r p' :
  gw_id worktree = gp_count p -> gp_pending p !! gw_workspace worktree = None ->
  system (os_Mkdir (gw_workspace worktree) 448)
    (MkGitWorktreeProvider (gp_root p) (<[gw_workspace worktree := worktree]> (gp_pending p)) (S (gp_count p)) (gp_destroyed p) (gp_host p))
    = (r, p') ->
  gp_destroyed p' = gp_destroyed p /\ gp_count p' = S (gp_count p) /\
  match r with
  | Ok _ => fresh p worktree p'
  | Err _ => unchanged p (MkGitWorktreeProvider (gp_root p') (delete (gw_workspace worktree) (gp_pending p')) (gp_count p')
               (gp_destroyed p') (gp_host p'))
  end.
Proof.
  intros Hi Hn (w & E & ->)%system_inv. cbn in *. apply (lg_Mkdir logged) in E.
  split; [done|]. split; [done|]. destruct r as [u|e].
  - split; cbn; [lia|done|done|]. unfold stands. cbn. rewrite E. apply standing_made.
  - split; cbn; [by rewrite delete_insert_id|]. unfold stands. cbn. by rewrite E, app_nil_r.
Qed.

Lemma allocate_spec attempts repository root spec (p : Provider) r p' :
  allocate attempts repository root spec p = (r, p') -> allocated p r p'.
Proof.
  revert p. induction attempts as [|more IH]; intros p; cbn [allocate]; [intros [= <- <-]; by apply alike_failed|].
  intros [(e & -> & Ha)|(token & p1 & Ha & E)]%bind_alike; [by apply alike_failed| |apply token_alike].
  apply (allocated_alike _ _ _ _ Ha). clear p Ha. revert E. generalize (allocatedPath root spec token) as workspace.
  intros workspace [(e & -> & Ha)|(within & p & Ha & E)]%bind_alike; [by apply alike_failed| |by apply system_alike, within_unlogged].
  apply (allocated_alike _ _ _ _ Ha). clear p1 Ha token. revert E.
  destruct (_ || _); [intros [= <- <-]; by apply alike_failed|].
  rewrite (M_bind_ret _ _ p p p) by done. destruct (gp_pending p !! workspace) eqn:El; [by apply IH|].
  set (worktree := MkGitWorktree _ _ _ _ _). unfold modify, mbind at 1, M_bind at 1. cbv beta iota.
  unfold attempt, mbind at 1, M_bind at 1. destruct (system _ _) as [made p1] eqn:Em.
  apply (claim_spec p worktree) in Em as (Hd & Hc & Hm); [|done|done].
  destruct made as [u|e]; [intros [= <- <-]; split; [done|]; split; [lia|done]|].
  unfold setPending, modify, mbind at 1, M_bind at 1. cbv beta iota. destruct Hm as [Hp Hs].
  destruct (errors_Is _ _); [|intros [= <- <-]; split; [done|]; split; [cbn; lia|done]].
  intros E. apply IH in E as (Hd' & Hc' & Hr). cbn [gp_count gp_destroyed gp_pending gp_host] in *.
  split; [congruence|]. split; [lia|]. destruct r as [worktree'|e']; [|destruct Hr; split; etrans; done].
  destruct Hr as [Hi Hq Hp' Hs']. cbn [gp_count gp_destroyed gp_pending gp_host] in *.
  split; [lia|by rewrite <- Hp|rewrite Hp'; by f_equal|by rewrite <- Hs].
Qed.

Lemma allocateFor_spec ctx spec (p : Provider) r p' : allocateFor ctx spec p = (r, p') -> allocated p r p'.
Proof.
  unfold allocateFor. destruct (specInvalid spec); [intros [= <- <-]; by apply alike_failed|].
  intros [(e & -> & Ha)|(repository & p1 & Ha & E)]%bind_alike; [by apply alike_failed| |by apply system_alike, repository_unlogged].
  apply (allocated_alike _ _ _ _ Ha). rewrite (M_bind_ret _ _ p1 (gp_root p1) p1) in E by done.
  apply bind_alike in E as [(e & -> & Hb)|(root & p2 & Hb & E)]; [by apply alike_failed| |by apply system_alike, privateRoot_unlogged].
  apply (allocated_alike _ _ _ _ Hb). by eapply allocate_spec.
Qed.

(** The numbers of destroyed and of pending worktrees were given out, and what stands
    is pending. *)
Record Keeps (p : Provider) : Prop := {
  kp_numbers : forall i, i ∈ gp_destroyed p -> i < gp_count p;
  kp_given : forall path worktree, gp_pending p !! path = Some worktree -> gw_id worktree < gp_count p;
  kp_stands : forall path, path ∈ stands p -> is_Some (gp_pending p !! path)
}.

(** What a creation leaves *)
Definition left_by (p : Provider) (created : CreateResult gitWorktree) (p' : Provider) : Prop :=
  match created with
  | Created worktree | CreateFailed (Some worktree) _ =>
      gp_pending p !! gw_workspace worktree = None /\ gp_pending p' = <[gw_workspace worktree := worktree]> (gp_pending p) /\
      gw_id worktree ∉ gp_destroyed p'
  | CreateFailed None _ => unchanged p p'
  end.

Lemma made_again path (paths : gset string) : path ∉ paths -> ({[ path ]} ∪ paths) ∖ {[ path ]} = paths.
Proof.
  intros Hn. apply set_eq. intros x. rewrite elem_of_difference, elem_of_union, !elem_of_singleton.
  split; [tauto|]. intros Hx. split; [by right|]. by intros ->.
Qed.

Lemma alike_keeps p p' : alike p p' -> Keeps p -> Keeps p'.
Proof.
  intros [Ep Ec Ed Es] [Hn Hg Hk].
  split; [intros i; rewrite Ed, Ec; apply Hn|intros path; rewrite Ep, Ec; apply Hg|intros path; rewrite Es, Ep; apply Hk].
Qed.

Lemma allocated_keeps p r p' : allocated p r p' -> Keeps p -> Keeps p'.
Proof.
  intros (Hd & Hc & Hr) [Hn Hg Hk]. split; [intros i; rewrite Hd; intros Hi%Hn; lia| |]; intros path.
  { destruct r as [worktree|e]; [|destruct Hr as [-> _]; intros worktree Hx%Hg; lia]. destruct Hr as [Hi Hq Hp Hs]. rewrite Hp.
    intros worktree' [[_ <-]|[_ Hx%Hg]]%lookup_insert_Some; lia. }
  destruct r as [worktree|e]; [|destruct Hr as [Hp Hs]; rewrite Hs, Hp; apply Hk].
  destruct Hr as [Hi Hq Hp Hs]. rewrite Hs, Hp, elem_of_union, elem_of_singleton.
  destruct (decide (gw_workspace worktree = path)) as [->|Hne]; [by rewrite lookup_insert_eq|].
  rewrite lookup_insert_ne by done. intros [->|Hx]; [done|by apply Hk].
Qed.

(** The destruction after a failed creation *)
Lemma undone_spec (p p1 : Provider) worktree cause :
  Keeps p -> Keeps p1 -> gw_id worktree ∉ gp_destroyed p1 -> gp_count p <= gw_id worktree < gp_count p1 ->
  gp_pending p !! gw_workspace worktree = None -> gp_pending p1 = <[gw_workspace worktree := worktree]> (gp_pending p) ->
  stands p1 = {[ gw_workspace worktree ]} ∪ stands p ->
  exists created p', failedCreate worktree cause p1 = (Ok created, p') /\ Keeps p' /\ left_by p created p'.
Proof.
  intros Hk Hk1 Hnew Hi Hq Hp Hs. unfold failedCreate, attempt, mbind, M_bind.
  destruct (destroyGitWorktree worktree p1) as [r p'] eqn:E. apply (destroy_spec _ _ _ _ Hnew) in E as (Hc & Hr).
  destruct r as [u|e]; destruct Hr as (Pp & Dd & Ss); eexists _, p'; (split; [done|]).
  - assert (gw_workspace worktree ∉ stands p) as Hns by (intros Hx%(kp_stands _ Hk); rewrite Hq in Hx; by destruct Hx).
    assert (unchanged p p') as [Up Us].
    { split; [by rewrite Pp, Hp, delete_insert_id|]. by rewrite Ss, Hs, made_again. }
    split; [|by split]. split; [|intros path; rewrite Up; intros w' Hx%(kp_given _ Hk); lia|intros path; rewrite Us, Up; apply Hk].
    intros i. rewrite Dd, Hc, elem_of_union, elem_of_singleton. intros [->|Hx%(kp_numbers _ Hk1)]; lia.
  - split; [by apply (alike_keeps p1)|]. cbn. by rewrite Pp, Dd.
Qed.

Lemma create_spec ctx spec (p : Provider) :
  Keeps p -> exists created p', createGitWorktree ctx spec p = (Ok created, p') /\ Keeps p' /\ left_by p created p'.
Proof.
  intros Hk. unfold createGitWorktree, try, mbind at 1, M_bind at 1.
  destruct (allocateFor ctx spec p) as [r p1] eqn:E. apply allocateFor_spec in E as Ha.
  pose proof (allocated_keeps _ _ _ Ha Hk) as Hk1. destruct Ha as (Hd & Hc & Hr).
  destruct r as [worktree|e]; [|by eexists _, p1]. destruct Hr as [Hi Hq Hp Hs]. unfold attempt, mbind at 1, M_bind at 1.
  pose proof (system_alike _ (fill_unlogged ctx (gw_repository worktree) spec (gw_workspace worktree)) p1) as Ha.
  destruct (system _ p1) as [filled p2]. cbn [snd] in Ha. pose proof (alike_keeps _ _ Ha Hk1) as Hk2.
  destruct Ha as [Ap Ac Ad As]. assert (gw_id worktree ∉ gp_destroyed p2) as Hnew.
  { rewrite Ad, Hd. intros Hx%(kp_numbers _ Hk). lia. }
  destruct filled as [u|cause]; [exists (Created worktree), p2; cbn; by rewrite Ap|].
  apply undone_spec; try done; [lia|congruence|congruence].
Qed.

Lemma destroy_keeps worktree (p : Provider) : gw_id worktree < gp_count p -> Keeps p -> Keeps (snd (destroyGitWorktree worktree p)).
Proof.
  intros Hi Hk. destruct (decide (gw_id worktree ∈ gp_destroyed p)) as [Hd|Hd].
  - unfold destroyGitWorktree. rewrite (M_bind_ret _ _ p p p) by done. by rewrite decide_True.
  - destruct (destroyGitWorktree worktree p) as [r p'] eqn:E. apply (destroy_spec _ _ _ _ Hd) in E as (Hc & Hr).
    destruct r as [u|e]; destruct Hr as (Hp & Hg & Hs); [|by apply (alike_keeps p)].
    split; cbn [snd]; [intros i; rewrite Hg, Hc, elem_of_union, elem_of_singleton; intros [->|Hx%(kp_numbers _ Hk)]; lia| |];
      intros path; [rewrite Hp, Hc; intros w' [_ Hx]%lookup_delete_Some; by eapply kp_given|].
    rewrite Hs, Hp, elem_of_difference, elem_of_singleton. intros [Hx%(kp_stands _ Hk) Hne].
    by rewrite lookup_delete_ne.
Qed.
End kept.
End effects.
