(* ===== verification/WorktreeTree.v ===== *)
(** * A worktree holds its commit

    How [git ls-tree] prints a tree, that the code reads it back, and that a worktree
    which was filled holds the files and links of the tree, each with its content. *)
From stdpp Require Import strings.
From S2P Require Import Prelude Sha256 GoLib Json JsonPrint Regexp Url Credentials Decode Effect Policy PathFacts.
From S2P Require Import WireTheorems Helper ToolService HelperPaths Host Worktree HostFacts WorktreeFacts.

(** ** Words *)

(** The bytes of a word: visible, and neither a space nor a control. *)
Definition word_byte (b : Z) : Prop := (33 <= b <= 126)%Z.
Definition word (s : string) : Prop := s <> "" /\ Forall word_byte (bytes_of s).

Lemma chunks_ascii b bs : (b < 128)%Z -> chunks_of (b :: bs) = (b, [b]) :: chunks_of bs.
Proof. intros Hb. cbn [chunks_of]. by apply Z.ltb_lt in Hb as ->. Qed.

Lemma fields_word field bs rest :
  Forall word_byte bs -> fields_of field (chunks_of (bs ++ rest)) = fields_of (field ++ bs) (chunks_of rest).
Proof.
  intros Hb. revert field. induction Hb as [|b bs Hb _ IH]; intros field; [by rewrite app_nil_r|].
  unfold word_byte in Hb. cbn [app]. rewrite chunks_ascii by lia. cbn [fields_of].
  replace (IsSpace b) with false; [by rewrite IH, <- app_assoc|].
  unfold IsSpace, in_range. cbn [existsb]. lia.
Qed.

Lemma fields_space field rest :
  fields_of field (chunks_of (32%Z :: rest)) =
  (match field with [] => [] | _ => [field] end) ++ fields_of [] (chunks_of rest).
Proof. by rewrite chunks_ascii by lia. Qed.

Definition spaces (n : nat) : string := String.concat "" (replicate n " ").

Lemma fields_spaces n rest : fields_of [] (chunks_of (bytes_of (spaces n) ++ rest)) = fields_of [] (chunks_of rest).
Proof.
  induction n as [|[|n] IH]; [done|exact (fields_space [] rest)|].
  change (bytes_of (spaces (S (S n)))) with (32%Z :: bytes_of (spaces (S n))). cbn [app]. by rewrite fields_space, IH.
Qed.

Lemma Fields_cons w text : word w -> strings_Fields (w +:+ " " +:+ text) = w :: strings_Fields text.
Proof.
  intros [Hne Hw]. unfold strings_Fields, Fields. rewrite !bytes_of_app. rewrite fields_word by done.
  change (bytes_of " ") with [32%Z]. cbn [app]. rewrite fields_space.
  destruct (bytes_of w) as [|b bs] eqn:E; [by destruct w|]. cbn [app map]. f_equal. by rewrite <- E, string_of_bytes_of.
Qed.

Lemma Fields_last n w : word w -> strings_Fields (spaces n +:+ w) = [w].
Proof.
  intros [Hne Hw]. unfold strings_Fields, Fields. rewrite bytes_of_app, fields_spaces.
  rewrite <- (app_nil_r (bytes_of w)), fields_word, app_nil_l by done. cbn [chunks_of fields_of].
  destruct (bytes_of w) as [|b bs] eqn:E; [by destruct w|]. cbn [map]. f_equal. by rewrite <- E, string_of_bytes_of.
Qed.

(** An object identifier is a word: a rune that is a hexadecimal digit is one byte. *)
Lemma hexadecimal_ascii c : hexadecimal_digit c = true -> word_byte c.
Proof.
  unfold hexadecimal_digit, lower_byte, digit, in_range, word_byte. intros [Hd|Hd]%orb_true_iff; [lia|].
  destruct ((65 <=? c) && (c <=? 90))%Z eqn:E; lia.
Qed.

Lemma hexadecimal_chunks bs : forallb hexadecimal_digit (map fst (chunks_of bs)) = true -> Forall word_byte bs.
Proof.
  induction bs as [|b bs IH]; [by constructor|]. cbn [chunks_of].
  destruct (b <? 128)%Z eqn:Hb; [cbn; intros [Hc Hr]%andb_true_iff; constructor; [by apply hexadecimal_ascii|by apply IH]|].
  intros Hf. exfalso. revert Hf.
  assert (forall c (l : list (Z * list Z)), (126 < fst c)%Z -> forallb hexadecimal_digit (map fst (c :: l)) <> true) as Hno.
  { intros c l Hc. cbn. intros [Hx%hexadecimal_ascii _]%andb_true_iff. unfold word_byte in Hx. lia. }
  repeat case_match; apply Hno; cbn; try done;
    unfold utf8_2, utf8_3, utf8_4, continuation, in_range in *; lia.
Qed.

Lemma isObjectID_word id : isObjectID id = true -> word id.
Proof.
  unfold isObjectID, runes. intros [Hl Hr]%andb_true_iff. split; [by intros ->|by apply hexadecimal_chunks].
Qed.

Lemma pretty_word n : (0 <= n)%Z -> word (pretty n).
Proof.
  intros Hn. split; [intros E; destruct (pretty_head n Hn) as (b & r & Eb & _); by rewrite E in Eb|].
  destruct n as [|p|p]; [by repeat constructor| |lia]. change (pretty (Zpos p)) with (pretty (Npos p)).
  destruct (pretty_positive_digits p) as [[Hd _] _]. eapply Forall_impl; [exact Hd|].
  intros b. unfold digit, in_range, word_byte. lia.
Qed.

Lemma ParseInt_pretty n : (0 <= n < 2 ^ 63)%Z -> ParseInt (pretty n) = Some n.
Proof.
  intros Hn. unfold ParseInt. destruct (pretty_head n) as (b & r & E & Hb); [lia|].
  assert (forallb digit (bytes_of (pretty n)) = true /\ digits_value (bytes_of (pretty n)) = n) as [Hd Hv].
  { destruct n as [|p|p]; [done| |lia]. change (pretty (Zpos p)) with (pretty (Npos p)).
    destruct (pretty_positive_digits p) as [[Hd _] Hv]. split; [|done]. apply forallb_forall.
    intros c Hi%list_elem_of_In. by eapply Forall_forall in Hd. }
  rewrite E in *. assert (forall A (x y z : A), match b with 45%Z => x | 43%Z => y | _ => z end = z) as Hm.
  { intros A x y z. repeat case_match; done || lia. }
  replace (match b :: r with 45%Z :: r0 => ((-1)%Z, r0) | 43%Z :: r0 => (1%Z, r0) | r0 => (1%Z, r0) end) with (1%Z, b :: r)
    by (symmetry; repeat case_match; done || (simplify_eq; lia)).
  rewrite Hd, Hv. rewrite Z.mul_1_l. cbn [negb andb bool_decide]. replace (- 2 ^ 63 <=? n)%Z with true by lia.
  by replace (n <? 2 ^ 63)%Z with true by lia.
Qed.

(** ** The listing of a tree *)

(** A text without a character *)
Definition free_of (c : Ascii.ascii) (s : string) : Prop := c ∉ String.list_ascii_of_string s.

Lemma free_of_app c a b : free_of c (a +:+ b) <-> free_of c a /\ free_of c b.
Proof.
  unfold free_of. induction a as [|x a IH]; [cbn; rewrite elem_of_nil; tauto|].
  change (String x a +:+ b) with (String x (a +:+ b)). cbn [String.list_ascii_of_string]. rewrite !not_elem_of_cons, IH. tauto.
Qed.

Lemma free_of_word c s : (Z.of_N (Ascii.N_of_ascii c) < 32)%Z -> Forall word_byte (bytes_of s) -> free_of c s.
Proof.
  intros Hc. unfold free_of. induction s as [|x s IH]; [intros; apply not_elem_of_nil|].
  change (bytes_of (String x s)) with (Z.of_N (Ascii.N_of_ascii x) :: bytes_of s). intros [Hx Hs]%Forall_cons.
  cbn. rewrite not_elem_of_cons. split; [intros ->; unfold word_byte in Hx; lia|by apply IH].
Qed.

Lemma free_of_spaces c n : c <> ascii_of_Z 32 -> free_of c (spaces n).
Proof.
  intros Hc. induction n as [|[|n] IH]; [apply not_elem_of_nil|by intros [->|[]%elem_of_nil]%elem_of_cons|].
  change (spaces (S (S n))) with (" " +:+ spaces (S n)). apply free_of_app. split; [|done].
  by intros [->|[]%elem_of_nil]%elem_of_cons.
Qed.

Lemma cut_at_app c a b : free_of c a -> cut_at c (a +:+ String c b) = Some (a, b).
Proof.
  induction a as [|x a IH]; intros Hf.
  { change (cut_at c (String c b) = Some ("", b)). cbn [cut_at]. by rewrite decide_True. }
  apply not_elem_of_cons in Hf as [Hx Hf]. change (String x a +:+ String c b) with (String x (a +:+ String c b)).
  cbn [cut_at]. rewrite decide_False by done. by rewrite (IH Hf).
Qed.

Lemma Split_app c a b : free_of c a -> strings_Split (a +:+ String c b) c = a :: strings_Split b c.
Proof.
  unfold strings_Split. induction a as [|x a IH]; intros Hf.
  - change ("" +:+ String c b) with (String c b). cbn [split_on]. destruct (split_on c b) as [w ws].
    by rewrite decide_True.
  - apply not_elem_of_cons in Hf as [Hx Hf]. change (String x a +:+ String c b) with (String x (a +:+ String c b)).
    cbn [split_on]. specialize (IH Hf). destruct (split_on c (a +:+ String c b)) as [w ws]. injection IH as -> ->.
    by rewrite decide_False.
Qed.

Section tree.

(** The content of the objects of a repository *)
Variable content : string -> string.

(** What a tree has: files, links and the commits of submodules. *)
Inductive TreeItem : Type :=
  | ItemFile (executable : bool) (id name : string)
  | ItemLink (id name : string)
  | ItemSubmodule (id name : string).

Definition itemName (i : TreeItem) : string :=
  match i with ItemFile _ _ name | ItemLink _ name | ItemSubmodule _ name => name end.
Definition itemID (i : TreeItem) : string :=
  match i with ItemFile _ id _ | ItemLink id _ | ItemSubmodule id _ => id end.
Definition itemMode (i : TreeItem) : string :=
  match i with
  | ItemFile executable _ _ => if (executable : bool) then "100755" else "100644"
  | ItemLink _ _ => "120000"
  | ItemSubmodule _ _ => "160000"
  end.
Definition itemType (i : TreeItem) : string := match i with ItemSubmodule _ _ => "commit" | _ => "blob" end.
Definition itemSize (i : TreeItem) : string :=
  match i with ItemSubmodule _ _ => "-" | _ => pretty (len (content (itemID i))) end.

(** One row of [git ls-tree -z -l]: the size is justified to seven characters. *)
Definition metadata (i : TreeItem) : string :=
  itemMode i +:+ " " +:+ (itemType i +:+ " " +:+ (itemID i +:+ " " +:+ (spaces (7 - String.length (itemSize i)) +:+ itemSize i))).
Definition row (i : TreeItem) : string := metadata i +:+ String tab (itemName i).
Definition listing (items : list TreeItem) : string := foldr (fun i text => row i +:+ String nul text) "" items.

Record validItem (i : TreeItem) : Prop := {
  vi_id : isObjectID (itemID i) = true;
  vi_name : treeName (itemName i);
  vi_nul : free_of nul (itemName i);
  vi_size : (len (content (itemID i)) < 2 ^ 63)%Z
}.

Definition itemEntry (i : TreeItem) : TreeEntry :=
  match i with
  | ItemSubmodule _ name => TreeGitlink name
  | _ => TreeBlob (itemMode i) (itemID i) (itemName i) (len (content (itemID i)))
  end.

Lemma itemSize_word i : word (itemSize i).
Proof. destruct i as [x id name|id name|id name]; [apply pretty_word; unfold len; lia..|by split; [|repeat constructor]]. Qed.

Lemma mode_type_words i : word (itemMode i) /\ word (itemType i).
Proof. destruct i as [[] id name|id name|id name]; (split; (split; [done|]); by repeat constructor). Qed.

Lemma metadata_words i :
  validItem i -> strings_Fields (metadata i) = [itemMode i; itemType i; itemID i; itemSize i].
Proof.
  intros [Hid _ _ _]. destruct (mode_type_words i) as [Hm Ht].
  unfold metadata. rewrite Fields_cons by done. rewrite Fields_cons by done.
  rewrite Fields_cons by by apply isObjectID_word. by rewrite Fields_last by apply itemSize_word.
Qed.

Lemma metadata_free c i : (Z.of_N (Ascii.N_of_ascii c) < 32)%Z -> validItem i -> free_of c (metadata i).
Proof.
  intros Hc [Hid _ _ _]. assert (c <> ascii_of_Z 32) as H32 by (intros ->; cbn in Hc; lia).
  assert (free_of c " ") as Hsp by exact (free_of_spaces c 1 H32).
  destruct (mode_type_words i) as [[_ Hm] [_ Ht]], (isObjectID_word _ Hid) as [_ Hi], (itemSize_word i) as [_ Hs].
  unfold metadata. rewrite !free_of_app. split_and!; try done; try (by apply free_of_word); by apply free_of_spaces.
Qed.

Lemma treeEntry_row i : validItem i -> treeEntry (row i) = Ok (itemEntry i).
Proof.
  intros Hv. pose proof Hv as [Hid Hn _ Hs]. unfold treeEntry, row. rewrite cut_at_app by by apply metadata_free.
  rewrite metadata_words by done. destruct i as [x id name|id name|id name]; cbn [itemType itemSize itemID] in *.
  3: done.
  all: rewrite Hid; cbn [andb bool_decide]; rewrite bool_decide_true by done; cbn [andb];
    rewrite ParseInt_pretty by (split; [unfold len; lia|exact Hs]);
    replace (len (content id) <? 0)%Z with false by (symmetry; apply Z.ltb_ge; unfold len; lia); unfold treeName in Hn; cbn [itemName] in *; by rewrite Hn.
Qed.

Lemma listing_rows items :
  Forall validItem items -> strings_Split (listing items) nul = map row items ++ [""].
Proof.
  induction 1 as [|i items Hi _ IH]; [done|]. cbn [listing foldr map app]. rewrite Split_app; [by rewrite <- IH|].
  unfold row. apply free_of_app. split; [by apply metadata_free|].
  apply not_elem_of_cons. split; [done|apply Hi].
Qed.

(** ** Filling the worktree *)

Context {W : Type} `{Host W} `{WorktreeHost W}.

Inductive Node : Type :=
  | NodeFile (mode : Z) (text : string)
  | NodeLink (target : string).

(** The files and links below the opened worktree, by name *)
Variable nodes : W -> gmap string Node.

Definition ancestor (dir name : string) : Prop := exists rest, name = dir +:+ "/" +:+ rest.

Definition unlinked (m : gmap string Node) (name : string) : Prop :=
  forall dir target, ancestor dir name -> m !! dir <> Some (NodeLink target).

Definition written (text : string) (node : Node) : Node :=
  match node with NodeFile mode old => NodeFile mode (old +:+ text) | NodeLink target => NodeLink target end.

(** What git and [os.Root] document, for a commit with these items: git prints the tree
    and the content of objects; a file is created new, and is where its name says unless
    a directory of the name is a link; what fails may have done anything. *)
Record GitLaws (repository revision : string) (items : list TreeItem) : Prop := {
  gl_tree : forall ctx w ran w',
    exec ctx (safeGitCommand repository ["ls-tree"; "-r"; "-z"; "--full-tree"; "-l"; revision]) w = (ran, w') ->
    rn_err ran = None -> nodes w' = nodes w /\ concat_strings (stdout_of (rn_writes ran)) = listing items;
  gl_object : forall ctx id w ran w', exec ctx (safeGitCommand repository ["cat-file"; "blob"; id]) w = (ran, w') ->
    rn_err ran = None -> nodes w' = nodes w /\ concat_strings (stdout_of (rn_writes ran)) = content id;
  gl_file : forall ctx id name w ran w',
    exec_to_file ctx (safeGitCommand repository ["cat-file"; "blob"; id]) name w = (ran, w') ->
    rn_err ran = None -> nodes w' = alter (written (content id)) name (nodes w);
  gl_Open : forall path w w', tree_OpenRoot path w = (Ok tt, w') -> nodes w' = nodes w;
  gl_MkdirAll : forall name mode w w', tree_MkdirAll name mode w = (Ok tt, w') -> nodes w' = nodes w;
  gl_Create : forall name mode w w', tree_Create name mode w = (Ok tt, w') -> unlinked (nodes w) name ->
    nodes w !! name = None /\ nodes w' = <[name := NodeFile mode ""]> (nodes w);
  gl_Close : forall name w w', tree_Close name w = (Ok tt, w') -> nodes w' = nodes w;
  gl_Symlink : forall target name w w', tree_Symlink target name w = (Ok tt, w') -> unlinked (nodes w) name ->
    nodes w !! name = None /\ nodes w' = <[name := NodeLink target]> (nodes w)
}.

(** What an item puts in its place; a submodule is an empty directory. *)
Definition itemNode (i : TreeItem) : option Node :=
  match i with
  | ItemFile executable id _ => Some (NodeFile (if (executable : bool) then 448 else 384) (content id))
  | ItemLink id _ => Some (NodeLink (content id))
  | ItemSubmodule _ _ => None
  end.

Definition place (i : TreeItem) (m : gmap string Node) : gmap string Node :=
  match itemNode i with Some node => <[itemName i := node]> m | None => m end.

(** *** Outputs *)

Lemma untruncated writes b :
  lb_truncated (foldl (fun b c => writeAlone c b) b writes) = false ->
  lb_truncated b = false /\ lb_buffer (foldl (fun b c => writeAlone c b) b writes) = lb_buffer b +:+ concat_strings writes.
Proof.
  revert b. induction writes as [|text writes IH]; intros b; cbn [foldl concat_strings foldr]; [by rewrite str_app_nil|].
  intros [Ht Eb]%IH. fold (concat_strings writes) in *. revert Ht Eb. unfold writeAlone.
  destruct (0 <? _)%Z eqn:Er; [destruct (_ <? len text)%Z; cbn; [done|]|cbn].
  - intros -> ->. by rewrite str_app_assoc.
  - destruct (0 <? len text)%Z eqn:El; cbn; [done|]. intros -> ->. destruct text; [done|].
    apply Z.ltb_ge in El. unfold len in El. cbn in El. lia.
Qed.

Lemma gitOutput_Ok ctx repository arguments (w w' : W) output :
  gitOutput ctx repository arguments w = (Ok output, w') ->
  exists ran, exec ctx (safeGitCommand repository arguments) w = (ran, w') /\ rn_err ran = None /\
    output = concat_strings (stdout_of (rn_writes ran)).
Proof.
  unfold gitOutput, always. intros (ran & w1 & E & Eo)%M_bind_Ok. destruct (exec _ _ w) as [ran' w2] eqn:Ex. simplify_eq.
  exists ran. destruct (rn_err ran) eqn:Ee; [done|]. destruct (lb_truncated _) eqn:Et; [done|]. apply mret_Ok in Eo as [-> ->].
  split; [done|]. split; [done|]. apply untruncated in Et as [_ Eb]. exact Eb.
Qed.

(** *** Each item *)

Section laws.
Context (repository revision : string) (items : list TreeItem) (laws : GitLaws repository revision items).

Lemma file_filled ctx name id mode (w w' : W) :
  unlinked (nodes w) name -> materializeBlob ctx repository name id mode w = (Ok tt, w') ->
  nodes w !! name = None /\ nodes w' = <[name := NodeFile mode (content id)]> (nodes w).
Proof.
  intros Hu. unfold materializeBlob. intros ([] & w1 & Ec%wrapM_Ok & E)%M_bind_Ok.
  apply (gl_Create _ _ _ laws) in Ec as [Hn Ec]; [|done].
  unfold always in E. apply M_bind_Ok in E as (ran & w2 & Ex & E). destruct (exec_to_file _ _ _ w1) as [ran' w2'] eqn:Ef. simplify_eq.
  apply M_bind_Ok in E as (closeErr & w3 & Ea & E). unfold attempt in Ea.
  destruct (rn_err ran) eqn:Ee; [by apply M_bind_Ok in E as (? & ? & _ & ?)|].
  pose proof (gl_file _ _ _ laws _ _ _ _ _ _ Ef Ee) as En.
  destruct (tree_Close name w2) as [[[]|e] w3'] eqn:El; simplify_eq; cbn [removeAfter] in E;
    [|by apply M_bind_Ok in E as (? & ? & _ & ?)]. apply mret_Ok in E as [_ ->].
  apply (gl_Close _ _ _ laws) in El. split; [done|]. rewrite El, En, Ec, alter_insert_eq. done.
Qed.

Lemma link_filled ctx name id size (w w' : W) :
  unlinked (nodes w) name -> materializeLink ctx repository name id size w = (Ok tt, w') ->
  nodes w !! name = None /\ nodes w' = <[name := NodeLink (content id)]> (nodes w).
Proof.
  intros Hu. unfold materializeLink. destruct (_ <? size)%Z; [done|]. intros (target & w1 & Eo & E)%M_bind_Ok.
  apply gitOutput_Ok in Eo as (ran & Ex & Ee & ->). apply (gl_object _ _ _ laws) in Ex as [En Et]; [|done].
  rewrite Et in E. destruct (negb _); [done|]. apply wrapM_Ok, (gl_Symlink _ _ _ laws) in E; rewrite En in *; done.
Qed.

Lemma entry_filled ctx i (w w' : W) :
  validItem i -> unlinked (nodes w) (itemName i) -> materializeEntry ctx repository (row i) w = (Ok tt, w') ->
  nodes w' = place i (nodes w) /\ (itemNode i <> None -> nodes w !! itemName i = None).
Proof.
  intros Hv Hu. unfold materializeEntry. rewrite decide_False by (unfold row; by destruct (metadata i)).
  intros (entry & w1 & [He ->]%lift_Ok & E)%M_bind_Ok. rewrite treeEntry_row in He by done. injection He as <-.
  unfold place. destruct i as [x id name|id name|id name]; cbn [itemEntry itemNode itemName itemMode itemID] in *.
  1, 2: apply M_bind_Ok in E as ([] & w2 & Em%wrapM_Ok & E); apply (gl_MkdirAll _ _ _ laws) in Em; rewrite <- Em in Hu |- *.
  - destruct x; [rewrite decide_False, decide_True in E by done|rewrite decide_True in E by done];
      by apply file_filled in E as [? ?].
  - rewrite !decide_False, decide_True in E by done. by apply link_filled in E as [? ?].
  - unfold makeMaterializedDirectory in E. destruct (negb _); [done|]. apply wrapM_Ok, (gl_MkdirAll _ _ _ laws) in E. done.
Qed.

(** The links of the worktree are where items are. *)
Definition linksOnly (m : gmap string Node) : Prop :=
  forall path target, m !! path = Some (NodeLink target) -> exists i, i ∈ items /\ itemName i = path.

Lemma place_links i m : i ∈ items -> linksOnly m -> linksOnly (place i m).
Proof.
  intros Hi Hm path target. unfold place. destruct (itemNode i) as [node|]; [|apply Hm].
  intros [[<- _]|[_ Hl]]%lookup_insert_Some; [by exists i|by eapply Hm].
Qed.

Lemma items_filled ctx rest (w w' : W) :
  (forall i j, i ∈ items -> j ∈ items -> ~ ancestor (itemName i) (itemName j)) ->
  Forall validItem rest -> (forall i, i ∈ rest -> i ∈ items) -> linksOnly (nodes w) ->
  for_each (materializeEntry ctx repository) (map row rest ++ [""]) w = (Ok tt, w') ->
  nodes w' = foldl (fun m i => place i m) (nodes w) rest /\
  forall before i after, rest = before ++ i :: after -> itemNode i <> None ->
    foldl (fun m i => place i m) (nodes w) before !! itemName i = None.
Proof.
  intros Hc Hv Hin. revert w. induction Hv as [|i rest Hi Hv IH]; intros w Hl; cbn [map app for_each].
  - intros (u & w1 & [_ ->]%mret_Ok & [_ ->]%mret_Ok)%M_bind_Ok. split; [done|]. by intros [|? ?].
  - intros ([] & w1 & Ee & E)%M_bind_Ok. apply entry_filled in Ee as [En Ef]; [|done|].
    + destruct (IH (fun j Hj => Hin j (list_elem_of_further _ _ _ Hj)) w1) as [Ew Hd]; [|done|].
      { rewrite En. apply place_links; [apply Hin; by left|done]. }
      rewrite En in Ew, Hd. split; [done|]. intros [|j before] k after [= -> ->]; [done|]. cbn [foldl]. by apply Hd with after.
    + intros dir target Ha Hd. apply Hl in Hd as (j & Hj & <-). apply (Hc j i Hj); [apply Hin; by left|done].
Qed.
End laws.

Abbreviation placeAll m rest := (foldl (fun m i => place i m) m rest).

(** Each item was new when it was placed. *)
Definition newlyPlaced (m : gmap string Node) (rest : list TreeItem) : Prop :=
  forall before i after, rest = before ++ i :: after -> itemNode i <> None -> placeAll m before !! itemName i = None.

Lemma newlyPlaced_cons m i rest : newlyPlaced m (i :: rest) -> newlyPlaced (place i m) rest.
Proof. intros Hn before j after -> Hj. by apply (Hn (i :: before) j after). Qed.

Lemma placed_stays m rest path node : newlyPlaced m rest -> m !! path = Some node -> placeAll m rest !! path = Some node.
Proof.
  revert m. induction rest as [|i rest IH]; intros m Hn Hm; [done|]. cbn [foldl]. apply IH; [by apply newlyPlaced_cons|].
  specialize (Hn [] i rest eq_refl). cbn [foldl] in Hn. unfold place. destruct (itemNode i); [|done].
  rewrite lookup_insert_ne; [done|]. intros E. rewrite E, Hm in Hn. by discriminate Hn.
Qed.

Lemma placed_found m rest i node :
  newlyPlaced m rest -> i ∈ rest -> itemNode i = Some node -> placeAll m rest !! itemName i = Some node.
Proof.
  revert m. induction rest as [|j rest IH]; intros m Hn; [by intros ?%elem_of_nil|]. intros [->|Hi]%elem_of_cons Hnode; cbn [foldl].
  - apply placed_stays; [by apply newlyPlaced_cons|]. unfold place. rewrite Hnode. by rewrite lookup_insert_eq.
  - apply IH; [by apply newlyPlaced_cons|done|done].
Qed.

Lemma placed_elsewhere m rest path :
  (forall i, i ∈ rest -> itemNode i <> None -> itemName i <> path) -> placeAll m rest !! path = m !! path.
Proof.
  revert m. induction rest as [|i rest IH]; intros m Hp; [done|]. cbn [foldl]. rewrite IH by (intros j Hj; apply Hp; by right).
  unfold place. specialize (Hp i (list_elem_of_here _ _)). destruct (itemNode i); [|done]. rewrite lookup_insert_ne; [done|by apply Hp].
Qed.

(** C24: a worktree holds its commit: when [materializeGitTree] reports no error, what git
    printed about the tree was read back item by item, and the worktree holds each file
    under its path with its content and whether it is executable, each link with its
    target, and below those nothing else that was not there before. *)
Theorem worktree_holds_the_commit ctx repository workspace revision items (w w' : W) :
  GitLaws repository revision items -> Forall validItem items ->
  (forall i j, i ∈ items -> j ∈ items -> ~ ancestor (itemName i) (itemName j)) ->
  (forall path target, nodes w !! path <> Some (NodeLink target)) ->
  materializeGitTree ctx repository workspace revision w = (Ok tt, w') ->
  (forall i node, i ∈ items -> itemNode i = Some node -> nodes w' !! itemName i = Some node) /\
  (forall path, (forall i, i ∈ items -> itemNode i <> None -> itemName i <> path) -> nodes w' !! path = nodes w !! path).
Proof.
  intros Hl Hv Hc Hw. unfold materializeGitTree. intros (tree & w1 & Et & E)%M_bind_Ok.
  apply gitOutput_Ok in Et as (ran & Ex & Ee & ->). apply (gl_tree _ _ _ Hl) in Ex as [E1 Et]; [|done]. rewrite Et in E.
  apply M_bind_Ok in E as ([] & w2 & Eo & E). apply (gl_Open _ _ _ Hl) in Eo. rewrite listing_rows in E by done.
  apply (items_filled repository revision items Hl) in E as [En Hn]; [|done..|by intros path target Hx; rewrite Eo, E1 in Hx; destruct (Hw path target)].
  rewrite Eo, E1 in En, Hn. rewrite En. split; [intros i node; by apply placed_found|intros path; apply placed_elsewhere].
Qed.
End tree.
