(* ===== verification/WorktreeTheorems.v ===== *)
(** * Worktrees stay in their place and are not lost

    The theorems on the provider of Git worktrees, and a scripted system on which they
    are applied. *)
From S2P Require Import Prelude Sha256 GoLib Regexp Effect Policy PathFacts Helper ToolService Host Worktree.
From S2P Require Import HostFacts WorktreeFacts WorktreeTree.

Section worktrees.
Context {W : Type} `{Host W} `{WorktreeHost W}.

Abbreviation Provider := (GitWorktreeProvider W).

(** C16: worktrees stay in their place: whatever a specification says and whatever git and
    the system answer, creating, destroying and cleaning up do nothing but look, run the
    seven forms of git command - under fixed settings, with an object identifier, a
    revision that is no option, or the path of a worktree -, make the root, make and
    remove the directories of worktrees, and write valid names below an opened worktree,
    never into [.git] or [.agentdock].  The directory of a worktree lies directly below
    its root, under a name of letters, digits, dashes and underscores. *)
Theorem worktree_effects_are_confined `{!SystemLaws} (R : W -> W -> Prop) `{!PreOrder R} (p : Provider) :
  Confined R -> Owns p ->
  (forall ctx spec, let p' := snd (createGitWorktree ctx spec p) in Owns p' /\ R (gp_host p) (gp_host p')) /\
  (forall worktree, Owned worktree -> let p' := snd (destroyGitWorktree worktree p) in Owns p' /\ R (gp_host p) (gp_host p')) /\
  (forall range, let p' := snd (CleanupWorktrees range p) in Owns p' /\ R (gp_host p) (gp_host p')) /\
  (forall worktree, Owned worktree -> exists name, directoryName name /\
    clean_components (gw_workspace worktree) = clean_components (gw_root worktree) ++ [name]).
Proof.
  intros Hc Ho. split_and!.
  - intros ctx spec. by apply create_confined.
  - intros worktree Hw. by apply destroy_confined.
  - intros range. assert (respects (confinedBy R) (CleanupWorktrees range)) as Hr; [|by apply Hr].
    unfold CleanupWorktrees. respect_steps. by apply cleanupPending_confined.
  - intros worktree (Hr & name & Hn & Hw). exists name. split; [done|]. rewrite Hw. apply rooted_Join; [done|apply Hn].
Qed.

Variable log : W -> list (bool * string).

(** What is done with a provider: a handle that is destroyed was given out by it. *)
Inductive step (p : Provider) : Provider -> Prop :=
  | StepCreate ctx spec : step p (snd (createGitWorktree ctx spec p))
  | StepDestroy worktree : gw_id worktree < gp_count p -> step p (snd (destroyGitWorktree worktree p))
  | StepCleanup range : step p (snd (CleanupWorktrees range p)).

Definition keeping (p p' : Provider) : Prop := Keeps log p -> Keeps log p'.

#[export] Instance keeping_preorder : PreOrder keeping.
Proof. split; [by intros p Hk|]. intros p1 p2 p3 H12 H23 Hk. by apply H23, H12. Qed.

Lemma cleanupPending_keeps path : Logged log -> respects keeping (cleanupPending path).
Proof.
  intros Hl p Hk. unfold cleanupPending. rewrite (M_bind_ret _ _ p (gp_pending p) p) by done.
  destruct (gp_pending p !! path) as [worktree|] eqn:El; [|done]. unfold attempt, mbind, M_bind.
  pose proof (destroy_keeps log Hl worktree p (kp_given log p Hk _ _ El) Hk) as Hd.
  by destruct (destroyGitWorktree worktree p) as [[u|e] p1].
Qed.

Lemma step_keeps p p' : Logged log -> step p p' -> keeping p p'.
Proof.
  intros Hl [ctx spec|worktree Hi|range] Hk; [|by apply destroy_keeps|].
  - by destruct (create_spec log Hl ctx spec p Hk) as (created & p1 & -> & Hk1 & _).
  - assert (respects keeping (CleanupWorktrees range)) as Hr; [|exact (Hr p Hk)].
    unfold CleanupWorktrees. respect_steps. by apply cleanupPending_keeps.
Qed.

(** C18: no worktree is lost: after any creations, destructions and clean-ups, every
    directory that was made for a worktree and not removed since is still pending, so
    that [Cleanup] will try again.  A creation always answers: with a worktree that is
    pending, also when it failed and could not be undone, or without one, and then
    nothing is left of it. *)
Theorem worktrees_are_never_lost root w p :
  Logged log -> standing (log w) = ∅ -> rtc step (NewGitWorktreeProvider root w) p ->
  (forall path, path ∈ standing (log (gp_host p)) -> is_Some (gp_pending p !! path)) /\
  (forall ctx spec, exists created p', createGitWorktree ctx spec p = (Ok created, p') /\ left_by log p created p') /\
  (forall worktree p', gw_id worktree ∉ gp_destroyed p -> destroyGitWorktree worktree p = (Ok tt, p') ->
    (gw_workspace worktree ∉ standing (log (gp_host p'))) /\ gp_pending p' !! gw_workspace worktree = None /\
    destroyGitWorktree worktree p' = (Ok tt, p')).
Proof.
  intros Hl Hw Hr. assert (Keeps log p) as Hk.
  { assert (Keeps log (NewGitWorktreeProvider root w)) as Hn.
    { split; [intros i Hi; by apply elem_of_empty in Hi|intros path worktree; cbn; by rewrite lookup_empty|].
      intros path. unfold stands. cbn. rewrite Hw. intros Hi. by apply elem_of_empty in Hi. }
    revert Hn. induction Hr as [|p1 p2 p3 Hs Hr IH]; [done|]. intros Hk. by apply IH, (step_keeps p1). }
  split; [apply Hk|]. split.
  - intros ctx spec. destruct (create_spec log Hl ctx spec p Hk) as (created & p' & E & _ & Hleft). by exists created, p'.
  - intros worktree p' Hd E. apply (destroy_spec log Hl _ _ _ _ Hd) in E as (_ & Hp & Hg & Hs). unfold stands in Hs.
    rewrite Hs, Hp. split; [intros Hi; by apply elem_of_difference in Hi as [_ []%not_elem_of_singleton]|].
    split; [by apply lookup_delete_eq|]. unfold destroyGitWorktree. rewrite (M_bind_ret _ _ p' p' p') by done.
    rewrite decide_True; [done|]. rewrite Hg. apply elem_of_union. left. by apply elem_of_singleton.
Qed.
End worktrees.

(** ** A scripted system *)

(** What was asked of it, in order *)
Inductive Op : Type :=
  | OpGit (arguments : list string)
  | OpRoot (path : string)
  | OpMkdir (path : string)
  | OpRemove (path : string)
  | OpRemoveAll (path : string)
  | OpOpen (path : string)
  | OpDirectory (name : string)
  | OpCreate (name : string) (mode : Z)
  | OpClose (name : string)
  | OpUnlink (name : string)
  | OpSymlink (target name : string)
  | OpBlob (id name : string).

Definition forty (digit : string) : string := String.concat "" (replicate 40 digit).

Definition sampleItems : list TreeItem :=
  [ItemFile false (forty "1") "main.go"; ItemFile true (forty "2") "scripts/run.sh"; ItemLink (forty "3") "current";
   ItemSubmodule (forty "4") "vendor"].

Definition sampleContent (id : string) : string :=
  if decide (id = forty "1") then "package main" else if decide (id = forty "2") then "#!/bin/sh"
  else if decide (id = forty "3") then "main.go" else "".

Definition reply (arguments : list string) : Ran :=
  let text := match arguments with
    | ["rev-parse"; "--show-toplevel"] => "/repo"
    | "rev-parse" :: _ => forty "f"
    | "ls-tree" :: _ => listing sampleContent sampleItems
    | ["cat-file"; "blob"; id] => sampleContent id
    | _ => ""
    end in MkRan [(false, text)] None.

Definition nodeOp (m : gmap string Node) (op : Op) : gmap string Node :=
  match op with
  | OpCreate name mode => <[name := NodeFile mode ""]> m
  | OpSymlink target name => <[name := NodeLink target]> m
  | OpBlob id name => alter (written (sampleContent id)) name m
  | _ => m
  end.

Definition nodesOf (ops : list Op) : gmap string Node := foldl nodeOp ∅ ops.

Abbreviation World := (list Op).

Definition act (op : Op) : M World unit := fun w => (Ok tt, w ++ [op]).

(** A name is made new. *)
Definition make (name : string) (op : Op) : M World unit := fun w =>
  match nodesOf w !! name with Some _ => (Err (Sentinel FileExists), w) | None => act op w end.

#[export] Instance opsHost : Host World := {|
  ctx_Error := fun _ w => (None, w);
  exec := fun _ command w => let arguments := drop 8 (cm_Args command) in (reply arguments, w ++ [OpGit arguments]);
  sleep := fun _ w => w;
  time_Now := fun w => (0%Z, w);
  rand_Read := fun n => mret (replicate n 7%Z);
  Lstat := fun _ => mret (MkFileMode KindDirectory 448);
  Stat := fun _ => mret (MkFileMode KindDirectory 448);
  ReadFile := fun _ => mret "";
  WriteFile := fun _ _ _ => mret tt;
  Chmod := fun _ _ => mret tt;
  ReadDir := fun _ => mret []
|}.

#[export] Instance opsWorktreeHost : WorktreeHost World := {|
  os_getwd := mret "/";
  os_TempDir := fun _ => "/tmp";
  os_Geteuid := fun _ => 0%Z;
  filepath_EvalSymlinks := fun path => mret path;
  file_Identity := fun _ => throw (Sentinel FileNotExist);
  file_Owner := fun _ => mret (Some 0%Z);
  os_MkdirAll := fun path _ => act (OpRoot path);
  os_Mkdir := fun path _ => act (OpMkdir path);
  os_Remove := fun path => act (OpRemove path);
  os_RemoveAll := fun path => act (OpRemoveAll path);
  tree_OpenRoot := fun path => act (OpOpen path);
  tree_MkdirAll := fun name _ => act (OpDirectory name);
  tree_Create := fun name mode => make name (OpCreate name mode);
  tree_Close := fun name => act (OpClose name);
  tree_Remove := fun name => act (OpUnlink name);
  tree_Symlink := fun target name => make name (OpSymlink target name);
  exec_to_file := fun _ command name w =>
    (MkRan [] None, w ++ [OpBlob (nth 10 (cm_Args command) "") name])
|}.

Lemma ops_system : SystemLaws (W := World).
Proof.
  split; [by intros w a w' [= <- _]|by intros p Hp w a w' [= <- _]|].
  intros n w a w' [= <- _]. by apply Forall_replicate.
Qed.

(** *** Confinement *)

(** What is permitted *)
Inductive proper : Op -> Prop :=
  | ProperGit arguments : gitRequest arguments -> proper (OpGit arguments)
  | ProperRoot path : rooted path = true -> proper (OpRoot path)
  | ProperMkdir root path : worktreePath root path -> proper (OpMkdir path)
  | ProperRemove root path : worktreePath root path -> proper (OpRemove path)
  | ProperRemoveAll root path : worktreePath root path -> proper (OpRemoveAll path)
  | ProperOpen root path : worktreePath root path -> proper (OpOpen path)
  | ProperDirectory name : treeName name -> proper (OpDirectory name)
  | ProperParent name : treeName name -> proper (OpDirectory (path_Dir name))
  | ProperCreate name mode : treeName name -> proper (OpCreate name mode)
  | ProperClose name : treeName name -> proper (OpClose name)
  | ProperUnlink name : treeName name -> proper (OpUnlink name)
  | ProperSymlink target name : treeName name -> proper (OpSymlink target name)
  | ProperBlob id name : treeName name -> isObjectID id = true -> proper (OpBlob id name).

Definition properly (w w' : World) : Prop := exists ops, w' = w ++ ops /\ Forall proper ops.

#[export] Instance properly_preorder : PreOrder properly.
Proof.
  split; [intros w; exists []; by rewrite app_nil_r|]. intros w1 w2 w3 (ops1 & -> & H1) (ops2 & -> & H2).
  exists (ops1 ++ ops2). rewrite app_assoc. split; [done|]. by apply Forall_app.
Qed.

Lemma act_properly op : proper op -> respects properly (act op).
Proof. intros Hp w. exists [op]. split; [done|]. by apply Forall_singleton. Qed.

Lemma make_properly name op : proper op -> respects properly (make name op).
Proof. intros Hp w. unfold make. destruct (nodesOf w !! name); [reflexivity|by apply act_properly]. Qed.

Lemma ops_confined : Confined properly.
Proof.
  split; intros; try (intros w; reflexivity); try (by apply act_properly; econstructor); try (by apply make_properly; constructor).
Qed.

(** *** The log of directories *)

Definition directoryEvents (op : Op) : list (bool * string) :=
  match op with OpMkdir path => [(true, path)] | OpRemoveAll path => [(false, path)] | _ => [] end.

Definition opsLog (w : World) : list (bool * string) := concat (map directoryEvents w).

Lemma opsLog_act op w : opsLog (w ++ [op]) = opsLog w ++ directoryEvents op.
Proof. unfold opsLog. rewrite map_app, concat_app. cbn. by rewrite app_nil_r. Qed.

Lemma act_unlogged op : directoryEvents op = [] -> respects (unlogged opsLog) (act op).
Proof. intros He w. unfold unlogged, act. cbn [snd]. by rewrite opsLog_act, He, app_nil_r. Qed.

Lemma make_unlogged name op : directoryEvents op = [] -> respects (unlogged opsLog) (make name op).
Proof. intros He w. unfold make. destruct (nodesOf w !! name); [reflexivity|by apply act_unlogged]. Qed.

Lemma ops_logged : Logged opsLog.
Proof.
  split; intros; try (intros w; reflexivity); try (by apply act_unlogged); try (by apply make_unlogged).
  all: match goal with E : _ = (_, _) |- _ => injection E as <- <-; apply opsLog_act end.
Qed.

(** *** The objects of the repository *)

Lemma nodesOf_act op w : nodesOf (w ++ [op]) = nodeOp (nodesOf w) op.
Proof. unfold nodesOf. by rewrite foldl_app. Qed.

Lemma make_inv name op w w' : make name op w = (Ok tt, w') -> nodesOf w !! name = None /\ nodesOf w' = nodeOp (nodesOf w) op.
Proof. unfold make. destruct (nodesOf w !! name) eqn:E; [done|]. intros [= <-]. by rewrite nodesOf_act. Qed.

Lemma ops_git : GitLaws sampleContent nodesOf "/repo" (forty "f") sampleItems.
Proof.
  split.
  - intros ctx w ran w' [= <- <-] _. rewrite nodesOf_act. split; [done|apply str_app_nil].
  - intros ctx id w ran w' [= <- <-] _. rewrite nodesOf_act. split; [done|apply str_app_nil].
  - intros ctx id name w ran w' [= <- <-] _. by rewrite nodesOf_act.
  - intros path w w' [= <-]. by rewrite nodesOf_act.
  - intros name mode w w' [= <-]. by rewrite nodesOf_act.
  - intros name mode w w' E _. exact (make_inv _ _ _ _ E).
  - intros name w w' [= <-]. by rewrite nodesOf_act.
  - intros target name w w' E _. exact (make_inv _ _ _ _ E).
Qed.

(** *** The theorems *)

Definition sampleSpec : Spec := MkSpec "run-1" "attempt-1" "/repo" "main".

Definition emptyProvider : GitWorktreeProvider World := NewGitWorktreeProvider "/trees" [].

Lemma empty_owns : Owns emptyProvider.
Proof. intros path worktree. cbn. by rewrite lookup_empty. Qed.

Lemma worktree_effects_are_confined_witness :
  properly [] (gp_host (snd (createGitWorktree Background sampleSpec emptyProvider))).
Proof.
  destruct (@worktree_effects_are_confined World opsHost opsWorktreeHost ops_system properly properly_preorder emptyProvider
    ops_confined empty_owns) as [Hc _].
  destruct (Hc Background sampleSpec) as [_ Hr]. exact Hr.
Defined.

Definition filledProvider : GitWorktreeProvider World := snd (createGitWorktree Background sampleSpec emptyProvider).

Lemma filled_reached : rtc step emptyProvider filledProvider.
Proof. apply rtc_once. constructor. Qed.

Example filled_stands : standing (opsLog (gp_host filledProvider)) = {[ "/trees/run-1-attempt-1-" +:+ hex (replicate 16 7%Z) ]}.
Proof. vm_compute. reflexivity. Qed.

Lemma worktrees_are_never_lost_witness :
  is_Some (gp_pending filledProvider !! ("/trees/run-1-attempt-1-" +:+ hex (replicate 16 7%Z))).
Proof.
  destruct (worktrees_are_never_lost opsLog "/trees" [] filledProvider ops_logged eq_refl filled_reached) as [Hs _].
  apply Hs. rewrite filled_stands. apply elem_of_singleton. reflexivity.
Defined.

Lemma sample_items_valid : Forall (validItem sampleContent) sampleItems.
Proof.
  repeat constructor; try (vm_compute; reflexivity); unfold free_of; apply (bool_decide_eq_true_1 _); vm_compute; reflexivity.
Qed.

Lemma sample_items_apart i j : i ∈ sampleItems -> j ∈ sampleItems -> ~ ancestor (itemName i) (itemName j).
Proof.
  assert (forall dir name, ancestor dir name -> HasPrefix name (dir +:+ "/") = true) as Hp.
  { intros dir name (rest & ->). rewrite <- str_app_assoc. apply prefix_spec. by exists rest. }
  intros Hi Hj Ha%Hp. unfold sampleItems in Hi, Hj. repeat setoid_rewrite elem_of_cons in Hi. repeat setoid_rewrite elem_of_cons in Hj.
  destruct_or?; subst; try (by apply elem_of_nil in Hi); try (by apply elem_of_nil in Hj); by vm_compute in Ha.
Qed.

Definition filledTree : result unit * World := materializeGitTree Background "/repo" "/trees/a" (forty "f") [].

Lemma sample_filled : materializeGitTree Background "/repo" "/trees/a" (forty "f") [] = (Ok tt, snd filledTree).
Proof. vm_compute. reflexivity. Qed.

Lemma worktree_holds_the_commit_witness :
  nodesOf (snd filledTree) !! "scripts/run.sh" = Some (NodeFile 448 "#!/bin/sh").
Proof.
  destruct (worktree_holds_the_commit sampleContent nodesOf Background "/repo" "/trees/a" (forty "f") sampleItems [] (snd filledTree)
    ops_git sample_items_valid sample_items_apart (fun path target E => ltac:(discriminate E)) sample_filled) as [Hf _].
  apply (Hf (ItemFile true (forty "2") "scripts/run.sh")); [right; left|reflexivity].
Defined.
