(* ===== verification/Cli.v ===== *)
(** * The command line: internal/cli (cli.go, demo.go, session.go) and cmd/agentdock

    The tree of commands is data, and the body of each command a function of the console
    it prints to.  The library cobra, which finds the command that arguments name and
    parses its flags, is a parameter.  What is printed is kept as values: lines, and the
    documents that [writeJSON] encodes. *)
From S2P Require Import Prelude Sha256 GoLib Json Types Decide Reducer Effect Store MemoryStore.
From S2P Require Import Reasoner Controller Credentials Host.

(** ** The console *)

Inductive Printed : Type :=
  | PrintedLine (line : string)
  | PrintedState (state : State)
  | PrintedEvents (events : list Event)
  | PrintedStep (command : CommandType) (state : State) (events : list Event).

(** A world with what was printed in it so far. *)
Record Console (W : Type) : Type := MkConsole {
  cn_world : W;
  cn_output : list Printed
}.
Arguments MkConsole {W} cn_world cn_output.
Arguments cn_world {W} c.
Arguments cn_output {W} c.

(** The console with the standard input: what each of the coming reads gives, and the
    error that follows when it is not the end of the file. *)
Record Process (W : Type) : Type := MkProcess {
  pr_console : Console W;
  pr_stdin : list string;
  pr_stdinErr : option error
}.
Arguments MkProcess {W} pr_console pr_stdin pr_stdinErr.
Arguments pr_console {W} p.
Arguments pr_stdin {W} p.
Arguments pr_stdinErr {W} p.

Definition call {W A} (m : M W A) : M (Console W) A := fun c =>
  let '(r, w) := m (cn_world c) in (r, MkConsole w (cn_output c)).

(** [fmt.Fprintln] and [writeJSON] *)
Definition print {W} (what : Printed) : M (Console W) unit := modify (fun c =>
  MkConsole (cn_world c) (cn_output c ++ [what])).

Definition println {W} (line : string) : M (Console W) unit := print (PrintedLine line).

Definition onConsole {W A} (m : M (Console W) A) : M (Process W) A := fun p =>
  let '(r, c) := m (pr_console p) in (r, MkProcess c (pr_stdin p) (pr_stdinErr p)).

(** [args[i]] *)
Definition argument {W} (args : list string) (i : nat) : M W string :=
  match args !! i with Some arg => mret arg | None => throw (Plain "index out of range") end.

(** ** The tree of commands *)

(** The closures that the commands hold. *)
Inductive RunE : Type :=
  | RunCreate | RunGet | RunEvents | RunStep | RunDesired (desired : DesiredState) | RunCancel
  | RunSession | RunDemoFake.

#[export] Instance RunE_eq_dec : EqDecision RunE.
Proof. solve_decision. Defined.

Inductive PositionalArgs : Type := NoArgs | ExactArgs (n : nat).

(** [cobra.Command]: usage, arguments, required flags, body and subcommands. *)
Inductive CobraCommand : Type :=
  MkCommand (Use : string) (Args : option PositionalArgs) (Required : list string) (Run : option RunE)
    (Commands : list CobraCommand).

Definition newCreateCommand : CobraCommand :=
  MkCommand "create RUN_ID" (Some (ExactArgs 1)) ["scenario"; "spec-hash"] (Some RunCreate) [].
Definition newGetCommand : CobraCommand := MkCommand "get RUN_ID" (Some (ExactArgs 1)) [] (Some RunGet) [].
Definition newEventsCommand : CobraCommand := MkCommand "events RUN_ID" (Some (ExactArgs 1)) [] (Some RunEvents) [].
Definition newStepCommand : CobraCommand := MkCommand "step RUN_ID" (Some (ExactArgs 1)) [] (Some RunStep) [].
Definition newDesiredCommand (name : string) (desired : DesiredState) : CobraCommand :=
  MkCommand (name +:+ " RUN_ID") (Some (ExactArgs 1)) [] (Some (RunDesired desired)) [].
Definition newCancelCommand : CobraCommand := MkCommand "cancel RUN_ID" (Some (ExactArgs 1)) [] (Some RunCancel) [].

Definition newRunCommand : CobraCommand :=
  MkCommand "run" None [] None
    [ newCreateCommand; newGetCommand; newEventsCommand; newStepCommand;
      newDesiredCommand "pause" DesiredPaused; newDesiredCommand "resume" DesiredRunning; newCancelCommand ].

Definition newSessionCommand : CobraCommand := MkCommand "session" (Some NoArgs) [] (Some RunSession) [].
Definition newDemoFakeCommand : CobraCommand := MkCommand "demo-fake" (Some NoArgs) [] (Some RunDemoFake) [].

Definition NewRootCommand : CobraCommand :=
  MkCommand "agentdock" None [] None [newRunCommand; newSessionCommand; newDemoFakeCommand].

(** What cobra makes of arguments: a command to run with its positional arguments and the
    values of its flags, a help text, or an error. *)
Inductive Parsed : Type :=
  | Runs (run : RunE) (args : list string) (flags : string -> string)
  | Shows (text : string)
  | Refuses (e : error).

Class Cobra : Type := ParseCommand : CobraCommand -> list string -> Parsed.

(** ** The bodies of the commands *)

Section commands.
Context {W C : Type} `{EventStore W} `{ManagedRunInspector W} `{ToolContract C} `{ReasonerPort C W} `{ErrorText}.
Variables (leased : bool) (ctx : Context).

Definition runCreate (runID scenarioID specHash : string) : M (Console W) unit :=
  state ← call (CreateRun ctx (MkCreateRunRequest runID scenarioID specHash ""));
  print (PrintedState state).

Definition runGet (runID : string) : M (Console W) unit :=
  state ← call (GetRun ctx runID);
  print (PrintedState state).

Definition runEvents (runID : string) : M (Console W) unit :=
  events ← call (Events ctx runID);
  print (PrintedEvents events).

Definition runStep (runID : string) : M (Console W) unit :=
  res ← call (Reconcile leased ctx runID);
  print (PrintedStep (cmd_Type (rec_Command res)) (rec_State res) (rec_Events res)).

Definition runDesired (desired : DesiredState) (runID : string) : M (Console W) unit :=
  state ← call (SetDesiredState ctx runID desired);
  print (PrintedState state).

(** The intent is durable before the Run is reconciled; a managed Run is left to its
    worker. *)
Definition runCancel (runID : string) : M (Console W) unit :=
  state ← call (SetDesiredState ctx runID DesiredCancelled);
  res ← try (call (Reconcile leased ctx runID));
  if isErr res ErrManagedRunRequiresLease then print (PrintedState state)
  else
    res ← lift res;
    print (PrintedState (rec_State res)).

(** ** The demonstration *)

Definition printEvents (runID : string) (from : nat) : M (Console W) unit :=
  events ← call (Events ctx runID);
  modify (fun c => MkConsole (cn_world c) (cn_output c ++ map (fun e => PrintedLine (ev_Type e)) (drop from events))).

(** The loop that reconciles a Run to its end and counts what it prints; [fuel] bounds
    its rounds. *)
Fixpoint driveDemo (fuel : nat) (runID : string) (printed : Z) : M (Console W) unit :=
  match fuel with
  | O => throw (Plain "the demonstration has not ended")
  | S fuel =>
      res ← call (Reconcile leased ctx runID);
      _ ← modify (fun c => MkConsole (cn_world c) (cn_output c ++ map (fun e => PrintedLine (ev_Type e)) (rec_Events res)));
      let printed := i64 (printed + Z.of_nat (length (rec_Events res))) in
      let observed := st_ObservedState (rec_State res) in
      if Terminal observed then println ("FinalState=" +:+ observed +:+ " Events=" +:+ pretty printed)
      else driveDemo fuel runID printed
  end.

(** The reconciliations of a paused Run, which must do nothing. *)
Fixpoint pausedRounds (rounds : nat) (runID : string) : M (Console W) unit :=
  match rounds with
  | O => mret tt
  | S rounds =>
      res ← call (Reconcile leased ctx runID);
      if negb (bool_decide (cmd_Type (rec_Command res) = CommandNoop)) || negb (bool_decide (rec_Events res = []))
      then throw (Plain "paused reconcile produced a command or events")
      else pausedRounds rounds runID
  end.

(** The loop that drives the resumed Run to its end. *)
Fixpoint driveResumed (fuel : nat) (runID : string) (resumed : State) : M (Console W) State :=
  if Terminal (st_ObservedState resumed) then mret resumed
  else match fuel with
  | O => throw (Plain "the demonstration has not ended")
  | S fuel =>
      res ← call (Reconcile leased ctx runID);
      driveResumed fuel runID (rec_State res)
  end.

Definition demoSuccess (fuel : nat) : M (Console W) unit :=
  _ ← println "=== successful fake Run ===";
  _ ← call (CreateRun ctx (MkCreateRunRequest "demo-success" "phase-1-success" "phase-1-spec" ""));
  _ ← printEvents "demo-success" 0;
  driveDemo fuel "demo-success" 1.

Definition demoPauseResume (fuel : nat) : M (Console W) unit :=
  _ ← println "=== pause / resume ===";
  _ ← call (CreateRun ctx (MkCreateRunRequest "demo-pause-resume" "phase-1-pause-resume" "phase-1-spec" ""));
  first ← call (Reconcile leased ctx "demo-pause-resume");
  _ ← println ("BeforePause=" +:+ st_ObservedState (rec_State first));
  paused ← call (SetDesiredState ctx "demo-pause-resume" DesiredPaused);
  _ ← println ("Paused=" +:+ st_ObservedState paused +:+ " ResumeTarget=" +:+ st_ResumeState paused);
  _ ← pausedRounds 10 "demo-pause-resume";
  resumed ← call (SetDesiredState ctx "demo-pause-resume" DesiredRunning);
  _ ← println ("Resumed=" +:+ st_ObservedState resumed);
  resumed ← driveResumed fuel "demo-pause-resume" resumed;
  println ("PauseResumeFinal=" +:+ st_ObservedState resumed).

Definition newDemoFake (fuel : nat) : M (Console W) unit := _ ← demoSuccess fuel; demoPauseResume fuel.

(** More rounds than a Run of the demonstration takes: the loops of the code have no bound,
    and the error that [drive] makes up when its fuel is used up is never reached with the
    scripted reasoner on a store in memory. *)
Definition demoFuel : nat := 16.

(** ** One command *)

Definition runE (run : RunE) (args : list string) (flags : string -> string) : M (Console W) unit :=
  match run with
  | RunCreate => runID ← argument args 0; runCreate runID (flags "scenario") (flags "spec-hash")
  | RunGet => runID ← argument args 0; runGet runID
  | RunEvents => runID ← argument args 0; runEvents runID
  | RunStep => runID ← argument args 0; runStep runID
  | RunDesired desired => runID ← argument args 0; runDesired desired runID
  | RunCancel => runID ← argument args 0; runCancel runID
  | RunSession => mret tt
  | RunDemoFake => newDemoFake demoFuel
  end.

Context `{Cobra}.

(** [ExecuteContext] of a root command; [session] is the body of the session command. *)
Definition ExecuteContext (session : M (Process W) unit) (args : list string) : M (Process W) unit :=
  match ParseCommand NewRootCommand args with
  | Runs RunSession _ _ => session
  | Runs run args flags => onConsole (runE run args flags)
  | Shows text => onConsole (println text)
  | Refuses e => throw e
  end.
End commands.

(** ** Sessions *)

(** [bufio.ScanLines] strips a carriage return. *)
Fixpoint dropCR (line : string) : string :=
  match line with
  | EmptyString => EmptyString
  | String c EmptyString => if decide (c = ascii_of_Z 13) then EmptyString else line
  | String c rest => String c (dropCR rest)
  end.

(** [bufio.MaxScanTokenSize] *)
Definition MaxScanTokenSize : Z := 64 * 1024.

Inductive Scanned : Type :=
  | Token (line buffer : string) (reads : list string)
  | TooLong (reads : list string)
  | Finished.

(** [Scanner.Scan]: reads until the buffer holds a line.  A read gives some bytes, or none;
    that the scanner gives up after a hundred reads in a row without a byte or an error is
    left out, and so is the size of its buffer, which bounds a read but not what is read. *)
Fixpoint Scan (buffer : string) (reads : list string) : Scanned :=
  match cut_at newline buffer with
  | Some (line, rest) => Token (dropCR line) rest reads
  | None =>
      if (MaxScanTokenSize <=? len buffer)%Z then TooLong reads
      else match reads with
      | chunk :: reads => Scan (buffer +:+ chunk) reads
      | [] => if decide (buffer = "") then Finished else Token (dropCR buffer) "" []
      end
  end.

Section session.
Context {W C : Type} `{EventStore W} `{ManagedRunInspector W} `{ToolContract C} `{ReasonerPort C W} `{ErrorText} `{Cobra}.
Variables (leased : bool) (ctx : Context).

(** A line of a session that is not empty and no comment; [session] runs a session that
    cobra finds in it nevertheless. *)
Definition sessionCommand (session : M (Process W) unit) (lineNumber : Z) (line : string) : M (Process W) unit :=
  let args := strings_Fields line in
  if decide (head args = Some "session")
  then throw (Plain ("session line " +:+ pretty lineNumber +:+ ": nested session is not allowed"))
  else
    _ ← onConsole (println (">>> " +:+ line));
    wrapM (ExecuteContext leased ctx session args).

Definition sessionLine (session : M (Process W) unit) (lineNumber : Z) (text : string) : M (Process W) unit :=
  let line := TrimSpace text in
  if bool_decide (line = "") || HasPrefix line "#" then mret tt else sessionCommand session lineNumber line.

(** The loop over the lines; every round and every session inside one consumes input,
    which [fuel] bounds. *)
Fixpoint runSession (fuel : nat) (lineNumber : Z) (buffer : string) : M (Process W) unit := fun p =>
  match fuel with
  | O => (Err (Plain "the input has not ended"), p)
  | S fuel =>
      match Scan buffer (pr_stdin p) with
      | TooLong reads =>
          (Err (Wrap (Plain "bufio.Scanner: token too long")), MkProcess (pr_console p) reads (pr_stdinErr p))
      | Finished =>
          (match pr_stdinErr p with Some e => Err (Wrap e) | None => Ok tt end, MkProcess (pr_console p) [] (pr_stdinErr p))
      | Token line buffer reads =>
          (_ ← sessionLine (runSession fuel 0 "") (i64 (lineNumber + 1)) line;
           runSession fuel (i64 (lineNumber + 1)) buffer) (MkProcess (pr_console p) reads (pr_stdinErr p))
      end
  end.

(** As many rounds as there are bytes and reads. *)
Definition inputSize (reads : list string) : nat :=
  foldr (fun chunk n => S (String.length chunk + n)) 0 reads.

Definition newSession : M (Process W) unit := fun p => runSession (S (inputSize (pr_stdin p))) 0 "" p.

(** A root command with its arguments, on a process *)
Definition Execute (args : list string) : M (Process W) unit := ExecuteContext leased ctx newSession args.
End session.

(** ** The program agentdock *)

(** The deterministic reasoner of the controllers; the count of its calls, which only
    tests read, is left out. *)
Definition contextSource (ctx : Context) : option sourceError :=
  e ← ctx_Err ctx;
  Some (if errors_Is e ContextCanceled then SourceCanceled else SourceBroken).

Definition fakePort {C W : Type} : ReasonerPort C W := fun ctx request w =>
  (Ok (fst (fakeReason NewFakeReasoner (contextSource ctx) request)), w).

Section main.
Context {D C : Type} `{EventStore D} `{ManagedRunInspector D} `{ToolContract C} `{CredentialScanner} `{ErrorText} `{Cobra}.

(** How the process ends: at once, or with what a command did on the store that it ran
    on; the exit code and what is written to the standard error. *)
Inductive Ended : Type :=
  | Rejected (message : string)
  | OnMemory (code : Z) (errors : list string) (process : Process MemoryEventStore)
  | OnDatabase (code : Z) (errors : list string) (process : Process D).

Definition exitWith {W} (ended : Z -> list string -> Process W -> Ended) (run : result unit * Process W) : Ended :=
  match run with
  | (Ok _, p) => ended 0%Z [] p
  | (Err e, p) => ended 1%Z [Error e] p
  end.

Definition execute {W} `{EventStore W} `{ManagedRunInspector W} (store : W) (args stdin : list string) (stdinErr : option error)
    : result unit * Process W :=
  Execute (H2 := fakePort (C := C)) false background args (MkProcess (MkConsole store []) stdin stdinErr).

(** [run]; [connect] opens the database. *)
Definition run (databaseURL : string) (connect : string -> result D) (args stdin : list string) (stdinErr : option error) : Ended :=
  if bool_decide (databaseURL = "") && bool_decide (head args = Some "run")
  then Rejected "AGENTDOCK_DATABASE_URL is required for durable run commands"
  else if negb (bool_decide (databaseURL = "")) && negb (bool_decide (head args = Some "demo-fake"))
  then match connect databaseURL with
       | Err e => Rejected (Error e)
       | Ok database => exitWith OnDatabase (execute database args stdin stdinErr)
       end
  else exitWith OnMemory (execute NewMemoryEventStore args stdin stdinErr).
End main.
Arguments Ended D : clear implicits.
