(* ===== verification/CliTheorems.v ===== *)
(** * What the command line guarantees

    A session runs its lines one after the other, however they are read; whatever is typed
    is a history of calls of the controller; and the demonstration comes to its end. *)
From stdpp Require Import relations.
From S2P Require Import Prelude Sha256 GoLib Json Types Decide Reducer Effect Store MemoryStore.
From S2P Require Import Database PostgresStore PostgresFacts Lease System SystemTheorems Reasoner.
From S2P Require Import Contract AuditLog Controller Operations Url Credentials Host HostFacts Cli.

(** ** Lines *)

Fixpoint lines_of_pieces (pieces : list string) : list string :=
  match pieces with
  | [] => []
  | [last] => if decide (last = "") then [] else [dropCR last]
  | piece :: rest => dropCR piece :: lines_of_pieces rest
  end.

(** The lines of a text: what the newlines separate, but for the emptiness behind the last
    one, without carriage returns. *)
Definition input_lines (text : string) : list string := lines_of_pieces (strings_Split text newline).

Lemma strings_Split_cut sep s :
  strings_Split s sep = match cut_at sep s with Some (w, rest) => w :: strings_Split rest sep | None => [s] end.
Proof.
  unfold strings_Split. induction s as [|c s IH]; [done|]. cbn [split_on cut_at].
  destruct (split_on sep s) as [w ws] eqn:Es. case_decide as Hc; [by rewrite Es|].
  destruct (cut_at sep s) as [[w' rest]|]; cbn; [|by injection IH as -> ->].
  destruct (split_on sep rest) as [v vs]. by injection IH as -> ->.
Qed.

Lemma strings_Split_nonempty sep s : strings_Split s sep <> [].
Proof. unfold strings_Split. by destruct (split_on sep s). Qed.

Lemma input_lines_cut text line rest :
  cut_at newline text = Some (line, rest) -> input_lines text = dropCR line :: input_lines rest.
Proof.
  intros Hc. unfold input_lines. rewrite (strings_Split_cut newline text), Hc. cbn [lines_of_pieces].
  pose proof (strings_Split_nonempty newline rest) as Hn. by destruct (strings_Split rest newline).
Qed.

Lemma input_lines_last text : cut_at newline text = None -> input_lines text = if decide (text = "") then [] else [dropCR text].
Proof. intros Hc. unfold input_lines. by rewrite (strings_Split_cut newline text), Hc. Qed.

Lemma cut_line_app sep a b line rest : cut_at sep a = Some (line, rest) -> cut_at sep (a +:+ b) = Some (line, rest +:+ b).
Proof.
  revert line rest. induction a as [|c a IH]; intros line rest; [done|]. change (String c a +:+ b) with (String c (a +:+ b)).
  cbn [cut_at]. case_decide; [by intros [= <- <-]|]. destruct (cut_at sep a) as [[l r]|]; [|done].
  cbn. intros [= <- <-]. by rewrite (IH l r).
Qed.

Lemma str_length_app (a b : string) : String.length (a +:+ b) = String.length a + String.length b.
Proof. induction a as [|c a IH]; [done|]. change (String c a +:+ b) with (String c (a +:+ b)). cbn. by rewrite IH. Qed.

Lemma cut_at_length sep s line rest : cut_at sep s = Some (line, rest) -> String.length s = S (String.length line + String.length rest).
Proof.
  revert line rest. induction s as [|c s IH]; intros line rest; [done|]. cbn. case_decide; [by intros [= <- <-]|].
  destruct (cut_at sep s) as [[l r]|]; [|done]. cbn. intros [= <- <-]. cbn. by rewrite (IH l r).
Qed.

(** The first piece of a text. *)
Definition first_piece (text : string) : string := match cut_at newline text with Some (line, _) => line | None => text end.

(** No piece is too long to be scanned. *)
Definition scannable (text : string) : Prop := Forall (fun piece => len piece < MaxScanTokenSize)%Z (strings_Split text newline).

Lemma scannable_first text : scannable text -> (len (first_piece text) < MaxScanTokenSize)%Z.
Proof. unfold scannable, first_piece. rewrite strings_Split_cut. destruct (cut_at newline text) as [[line rest]|]; by intros []%Forall_cons. Qed.

Lemma scannable_rest text line rest : scannable text -> cut_at newline text = Some (line, rest) -> scannable rest.
Proof. unfold scannable. rewrite (strings_Split_cut newline text). intros Hs Hc. rewrite Hc in Hs. by apply Forall_cons in Hs as [_ Hs]. Qed.

(** A buffer without a newline starts the first piece. *)
Lemma first_piece_prefix buffer more : cut_at newline buffer = None -> (len buffer <= len (first_piece (buffer +:+ more)))%Z.
Proof.
  unfold first_piece, len. intros Hn. apply inj_le. revert Hn. induction buffer as [|c b IH]; [cbn; lia|].
  change (String c b +:+ more) with (String c (b +:+ more)). cbn [cut_at]. case_decide; [done|].
  destruct (cut_at newline b) as [[? ?]|] eqn:Hb; [done|]. intros _. specialize (IH eq_refl).
  destruct (cut_at newline (b +:+ more)) as [[l r]|]; cbn in *; lia.
Qed.

Lemma concat_strings_cons chunk reads : concat_strings (chunk :: reads) = chunk +:+ concat_strings reads.
Proof. done. Qed.

(** The scanner gives the first line of what is there to be read, and leaves the rest. *)
Lemma Scan_spec buffer reads :
  let text := buffer +:+ concat_strings reads in
  (len (first_piece text) < MaxScanTokenSize)%Z ->
  match cut_at newline text with
  | Some (line, rest) => exists buffer' reads', Scan buffer reads = Token (dropCR line) buffer' reads' /\ rest = buffer' +:+ concat_strings reads'
  | None => Scan buffer reads = if decide (text = "") then Finished else Token (dropCR text) "" []
  end.
Proof.
  cbn zeta. revert buffer. induction reads as [|chunk reads IH]; intros buffer Hs.
  - revert Hs. cbn [concat_strings foldr]. rewrite str_app_nil. unfold first_piece. cbn [Scan]. destruct (cut_at newline buffer) as [[line rest]|].
    + intros _. exists rest, []. cbn. by rewrite str_app_nil.
    + intros Hs. destruct (Z.leb_spec MaxScanTokenSize (len buffer)); [lia|done].
  - cbn [Scan]. destruct (cut_at newline buffer) as [[line rest]|] eqn:Hc.
    + rewrite (cut_line_app _ _ _ _ _ Hc). exists rest, (chunk :: reads). done.
    + destruct (Z.leb_spec MaxScanTokenSize (len buffer)) as [Hl|_]; [pose proof (first_piece_prefix buffer (concat_strings (chunk :: reads)) Hc); lia|].
      rewrite concat_strings_cons, <- str_app_assoc in *. by apply IH.
Qed.

(** ** Sessions *)

Section sessions.
Context {W C : Type} `{EventStore W} `{ManagedRunInspector W} `{ToolContract C} `{ReasonerPort C W} `{ErrorText} `{Cobra}.
Variables (leased : bool) (ctx : Context).

Abbreviation Process := (Process W).
Abbreviation sessionLine := (sessionLine (C := C) leased ctx).
Abbreviation runSession := (runSession (C := C) leased ctx).

(** A process with another input. *)
Definition with_input (p : Process) (reads : list string) : Process := MkProcess (pr_console p) reads (pr_stdinErr p).

(** cobra finds a session in a line that does not start with its name. *)
Definition nests (line : string) : bool :=
  match ParseCommand NewRootCommand (strings_Fields (TrimSpace line)) with
  | Runs RunSession _ _ => negb (bool_decide (head (strings_Fields (TrimSpace line)) = Some "session"))
  | _ => false
  end.

(** A command leaves the input as it is, but for a session, which a command may be. *)
Lemma line_split n line :
  (exists m : M (Console W) unit, forall session p, sessionLine session n line p = wrapM (onConsole m) p) \/
  (exists m : M (Console W) unit, forall session p, sessionLine session n line p = onConsole m p) \/
  nests line = true /\
    exists m : M (Console W) unit, forall session p, sessionLine session n line p = (_ ← onConsole m; wrapM session) p.
Proof.
  unfold Cli.sessionLine, nests. destruct (_ || _); [right; left; by exists (mret tt); intros ? []|].
  unfold sessionCommand. case_decide as Hd; [right; left; by eexists (throw _); intros ? []|]. rewrite (bool_decide_false _ Hd).
  unfold ExecuteContext. destruct (ParseCommand NewRootCommand _) as [run args flags|text|e].
  - destruct (decide (run = RunSession)) as [->|Hr]; [by right; right; split; [|eexists]|left].
    exists (_ ← println (">>> " +:+ TrimSpace line); runE leased ctx run args flags).
    intros session p. unfold mbind, M_bind, wrapM, onConsole, println, print, modify. cbn.
    destruct run; try done; cbn; by destruct (runE _ _ _ _ _ _) as [[]].
  - left. exists (_ ← println (">>> " +:+ TrimSpace line); println text). by intros.
  - left. exists (_ ← println (">>> " +:+ TrimSpace line); throw e). by intros.
Qed.

Lemma inputSize_cons chunk reads : inputSize (chunk :: reads) = S (String.length chunk + inputSize reads).
Proof. done. Qed.

#[local] Arguments inputSize : simpl never.

Definition shrinks (p p' : Process) : Prop := inputSize (pr_stdin p') <= inputSize (pr_stdin p).

#[local] Instance shrinks_preorder : PreOrder shrinks.
Proof. split; [intros p; unfold shrinks; lia|intros p1 p2 p3; unfold shrinks; lia]. Qed.

Lemma onConsole_shrinks {A} (m : M (Console W) A) : respects shrinks (onConsole m).
Proof. intros p. unfold onConsole, shrinks. destruct (m _). cbn. lia. Qed.

Lemma line_shrinks session n line : respects shrinks session -> respects shrinks (sessionLine session n line).
Proof.
  intros Hs p. destruct (line_split n line) as [[m E]|[[m E]|[_ [m E]]]]; rewrite E.
  - by apply (respects_wrapM shrinks), onConsole_shrinks.
  - apply onConsole_shrinks.
  - apply (respects_bind shrinks); [apply onConsole_shrinks|]. intros _. by apply respects_wrapM.
Qed.

(** Only the input as it is matters of a session inside a session. *)
Lemma line_same (session session' : M Process unit) n line p :
  (forall q, pr_stdin q = pr_stdin p -> session q = session' q) -> sessionLine session n line p = sessionLine session' n line p.
Proof.
  intros Hs. destruct (line_split n line) as [[m E]|[[m E]|[_ [m E]]]]; rewrite !E; [done..|].
  unfold mbind, M_bind, wrapM, onConsole. destruct (m _) as [[[]|e] c]; [|done]. by rewrite Hs.
Qed.

(** A token consumes input. *)
Lemma Scan_consumes buffer reads :
  match Scan buffer reads with
  | Token _ buffer' reads' =>
      inputSize reads' <= inputSize reads /\ String.length buffer' + inputSize reads' < String.length buffer + inputSize reads
  | TooLong reads' => inputSize reads' <= inputSize reads
  | Finished => True
  end.
Proof.
  revert buffer. induction reads as [|chunk reads IH]; intros buffer; cbn [Scan];
    (destruct (cut_at newline buffer) as [[line rest]|] eqn:Hc; [apply cut_at_length in Hc; cbn; lia|]);
    (destruct (_ <=? _)%Z; [done|]).
  - case_decide; [done|]. destruct buffer; [done|]. split; [done|exact (Nat.lt_0_succ _)].
  - specialize (IH (buffer +:+ chunk)). revert IH. rewrite str_length_app, inputSize_cons.
    destruct (Scan _ _); [|lia|done]. intros [? ?]. split; lia.
Qed.

Lemma session_shrinks fuel n buffer : respects shrinks (runSession fuel n buffer).
Proof.
  revert n buffer. induction fuel as [|fuel IH]; intros n buffer p; cbn [Cli.runSession]; [done|].
  pose proof (Scan_consumes buffer (pr_stdin p)) as Hc. destruct (Scan _ _) as [line buffer' reads|reads|]; [|done|exact (Nat.le_0_l _)].
  destruct Hc as [Hc _]. trans (with_input p reads); [done|].
  apply (respects_bind shrinks); [by apply line_shrinks|]. intros _. apply IH.
Qed.

(** Whatever reads and commands do, as many rounds as there are bytes and reads are
    enough: more do not change anything. *)
Lemma session_fuel fuel fuel' n buffer p :
  String.length buffer + inputSize (pr_stdin p) < fuel -> String.length buffer + inputSize (pr_stdin p) < fuel' ->
  runSession fuel n buffer p = runSession fuel' n buffer p.
Proof.
  revert fuel' n buffer p. induction fuel as [|fuel IH]; intros [|fuel'] n buffer p Hf Hf'; [lia..|]. cbn [Cli.runSession].
  pose proof (Scan_consumes buffer (pr_stdin p)) as Hc. destruct (Scan _ _) as [line buffer' reads|reads|]; [|done..].
  destruct Hc as [Hr Hc]. unfold mbind, M_bind.
  rewrite (line_same (runSession fuel 0 "") (runSession fuel' 0 "")) by (intros q; cbn; intros Hq; apply IH; rewrite Hq; cbn; lia).
  pose proof (line_shrinks (runSession fuel' 0 "") (i64 (n + 1)) line (session_shrinks fuel' 0 "") (MkProcess (pr_console p) reads (pr_stdinErr p))) as Hs.
  destruct (Cli.sessionLine _ _ _ _ _ _) as [[[]|e] q]; [|done]. unfold shrinks in Hs. cbn in Hs. apply IH; lia.
Qed.

(** ** A session runs its lines *)

(** What a run leaves of the process beside its input. *)
Definition observed (x : result unit * Process) : result unit * Console W := (fst x, pr_console (snd x)).

Lemma line_plain n line c : nests line = false ->
  exists r c', forall session reads e, sessionLine session n line (MkProcess c reads e) = (r, MkProcess c' reads e).
Proof.
  intros Hn. destruct (line_split n line) as [[m E]|[[m E]|[Hn' _]]]; [| |congruence];
    setoid_rewrite E; unfold wrapM, onConsole; cbn; destruct (m c) as [r c']; eauto.
Qed.

(** The lines one after the other. *)
Fixpoint runLines (n : Z) (lines : list string) : M Process unit :=
  match lines with
  | [] => mret tt
  | line :: rest => _ ← sessionLine (mret tt) (i64 (n + 1)) line; runLines (i64 (n + 1)) rest
  end.

Lemma runLines_input n lines c reads reads' e e' : Forall (fun line => nests line = false) lines ->
  observed (runLines n lines (MkProcess c reads e)) = observed (runLines n lines (MkProcess c reads' e')).
Proof.
  intros Hl. revert n c. induction Hl as [|line lines Hn _ IH]; intros n c; [done|]. cbn [runLines].
  destruct (line_plain (i64 (n + 1)) line c Hn) as (r & c' & E). unfold mbind, M_bind. rewrite !E.
  destruct r as [[]|err]; [apply IH|done].
Qed.

(** How a session ends whose lines have ended so. *)
Definition atEnd (e : option error) (r : result unit) : result unit :=
  match r, e with Ok _, Some e => Err (Wrap e) | r, _ => r end.

Lemma session_lines fuel n buffer c reads e :
  let text := buffer +:+ concat_strings reads in
  String.length buffer + inputSize reads < fuel -> scannable text -> Forall (fun line => nests line = false) (input_lines text) ->
  let '(r, c') := observed (runLines n (input_lines text) (MkProcess c [] None)) in
  observed (runSession fuel n buffer (MkProcess c reads e)) = (atEnd e r, c').
Proof.
  cbn zeta. revert n buffer c reads. induction fuel as [|fuel IH]; intros n buffer c reads Hf Hs Hl; [lia|]. cbn [Cli.runSession pr_stdin].
  pose proof (Scan_spec buffer reads (scannable_first _ Hs)) as Hscan. pose proof (Scan_consumes buffer reads) as Hc.
  assert (forall line rest reads', Scan buffer reads = Token line rest reads' -> input_lines (buffer +:+ concat_strings reads) = line :: input_lines (rest +:+ concat_strings reads') ->
    scannable (rest +:+ concat_strings reads') ->
    let '(r, c') := observed (runLines n (input_lines (buffer +:+ concat_strings reads)) (MkProcess c [] None)) in
    observed ((_ ← sessionLine (runSession fuel 0 "") (i64 (n + 1)) line; runSession fuel (i64 (n + 1)) rest) (MkProcess c reads' e)) = (atEnd e r, c')) as Hstep.
  { intros line rest reads' Et Ei Hs'. rewrite Et in Hc. rewrite Ei in Hl |- *. apply Forall_cons in Hl as [Hn Hl]. cbn [runLines].
    destruct (line_plain (i64 (n + 1)) line c Hn) as (r & c' & E). unfold mbind, M_bind. rewrite !E.
    destruct r as [[]|err]; [|by destruct e]. apply IH; [lia|done..]. }
  destruct (cut_at newline _) as [[line rest]|] eqn:Hcut.
  - destruct Hscan as (buffer' & reads' & E & ->). rewrite E in Hstep |- *. apply Hstep; [done|by apply input_lines_cut|by eapply scannable_rest].
  - rewrite Hscan in Hstep |- *. rewrite (input_lines_last _ Hcut) in *. case_decide; [by destruct e|].
    apply Hstep; [done..|]. apply Forall_singleton. done.
Qed.

(** C36: a session ends, and is its lines.  Whatever the reads give and whatever the
    commands are, sessions inside the session included, no more rounds are needed than
    there are bytes and reads.  And when no line is longer than the scanner's buffer and
    cobra finds no session in a line that does not start with one, the session prints, does
    and ends with exactly what its lines do one after the other, up to the first that
    fails - however the input was cut into reads - and with the error of the input when
    there is one. *)
Theorem session_runs_its_lines (p : Process) :
  (forall fuel, inputSize (pr_stdin p) < fuel -> runSession fuel 0 "" p = newSession (C := C) leased ctx p) /\
  let text := concat_strings (pr_stdin p) in
  scannable text -> Forall (fun line => nests line = false) (input_lines text) ->
  let '(r, c) := observed (runLines 0 (input_lines text) p) in
  observed (newSession (C := C) leased ctx p) = (atEnd (pr_stdinErr p) r, c).
Proof.
  split; [intros fuel Hf; by apply session_fuel; cbn; [|lia]|]. intros text Hs Hl. destruct p as [c reads e].
  subst text. cbn [pr_stdin pr_stdinErr] in *. rewrite (runLines_input 0 _ c reads [] e None Hl).
  apply (session_lines (S (inputSize reads)) 0 "" c reads e); [exact (Nat.lt_succ_diag_r _)|done..].
Qed.
End sessions.

(** ** What is typed is a history of the system *)

Section histories.
Context `{Postgres} `{CredentialScanner} `{ErrorText} `{Cobra}.
Context {C : Type} `{ToolContract C} `{ReasonerPort C World}.
Hypothesis Reason_history : forall ctx request, keeps history (Reason ctx request).
Variables (leased : bool) (ctx : Context).

(** Output only grows, and the database changes by steps of the system. *)
Definition advances (c c' : Console World) : Prop :=
  history (cn_world c) (cn_world c') /\ cn_output c `prefix_of` cn_output c'.

#[export] Instance advances_preorder : PreOrder advances.
Proof. split; [by intros c|]. intros c1 c2 c3 [Hh1 Hp1] [Hh2 Hp2]. split; [by trans (cn_world c2)|by trans (cn_output c2)]. Qed.

Lemma call_advances {A} (m : M World A) : keeps history m -> respects advances (call m).
Proof. intros Hm c. specialize (Hm (cn_world c)). unfold call. destruct (m _). by split. Qed.

Lemma print_advances what : respects advances (print what).
Proof. intros c. split; [done|]. by apply prefix_app_r. Qed.

Lemma output_advances more : respects advances (modify (fun c : Console World => MkConsole (cn_world c) (cn_output c ++ more))).
Proof. intros c. split; [done|]. by apply prefix_app_r. Qed.

Lemma argument_advances args i : respects advances (argument (W := Console World) args i).
Proof. unfold argument. case_match; [apply respects_ret|apply respects_throw]; apply _. Qed.

Lemma reconcile_advances runID : respects advances (call (Reconcile (C := C) leased ctx runID)).
Proof. apply call_advances. by apply Reconcile_history. Qed.

#[local] Hint Resolve call_advances print_advances output_advances argument_advances reconcile_advances
  CreateRun_history SetDesiredState_history pure_history GetRun_pure load_pure : respects.

Lemma printEvents_advances runID from : respects advances (printEvents ctx runID from).
Proof. unfold printEvents. respect_steps. Qed.

Lemma driveDemo_advances fuel runID n : respects advances (driveDemo (C := C) leased ctx fuel runID n).
Proof. revert n. induction fuel as [|fuel IH]; intros n; cbn [driveDemo]; unfold println; respect_steps; apply IH. Qed.

Lemma pausedRounds_advances rounds runID : respects advances (pausedRounds (C := C) leased ctx rounds runID).
Proof. induction rounds as [|rounds IH]; cbn [pausedRounds]; respect_steps. Qed.

Lemma driveResumed_advances fuel runID s : respects advances (driveResumed (C := C) leased ctx fuel runID s).
Proof. revert s. induction fuel as [|fuel IH]; intros s; cbn [driveResumed]; respect_steps; apply IH. Qed.

#[local] Hint Resolve printEvents_advances driveDemo_advances pausedRounds_advances driveResumed_advances : respects.

Lemma runE_advances run args flags : respects advances (runE (C := C) leased ctx run args flags).
Proof.
  destruct run; unfold runE, runCreate, runGet, runEvents, runStep, runDesired, runCancel, newDemoFake, demoSuccess, demoPauseResume, println;
    respect_steps.
Qed.

Lemma history_durable w w' : history w w' -> Durable w w'.
Proof. induction 1 as [|w w1 w2 Hs _ IH]; [done|]. trans w1; [by eapply step_durable|done]. Qed.

Definition proceeds (p p' : Process World) : Prop := advances (pr_console p) (pr_console p').

#[export] Instance proceeds_preorder : PreOrder proceeds.
Proof. split; [by intros p|]. intros p1 p2 p3 H12 H23. unfold proceeds. by trans (pr_console p2). Qed.

Lemma onConsole_proceeds {A} (m : M (Console World) A) : respects advances m -> respects proceeds (onConsole m).
Proof. intros Hm p. specialize (Hm (pr_console p)). unfold onConsole. by destruct (m _). Qed.

Lemma ExecuteContext_proceeds session args :
  respects proceeds session -> respects proceeds (ExecuteContext (C := C) leased ctx session args).
Proof.
  intros Hs. unfold ExecuteContext. destruct (ParseCommand NewRootCommand args) as [run args' flags|text|e].
  - destruct run; try exact Hs; apply onConsole_proceeds, runE_advances.
  - apply onConsole_proceeds, print_advances.
  - by apply respects_throw; apply _.
Qed.

Lemma sessionLine_proceeds session n line :
  respects proceeds session -> respects proceeds (sessionLine (C := C) leased ctx session n line).
Proof.
  intros Hs. unfold sessionLine, sessionCommand. respect_steps;
    first [apply onConsole_proceeds, print_advances|by apply ExecuteContext_proceeds].
Qed.

Lemma runSession_proceeds fuel n buffer : respects proceeds (runSession (C := C) leased ctx fuel n buffer).
Proof.
  revert n buffer. induction fuel as [|fuel IH]; intros n buffer p; cbn [runSession]; [done|].
  destruct (Scan _ _) as [line buffer' reads|reads|]; [|done..].
  assert (respects proceeds (_ ← sessionLine (C := C) leased ctx (runSession (C := C) leased ctx fuel 0 "") (i64 (n + 1)) line;
    runSession (C := C) leased ctx fuel (i64 (n + 1)) buffer')) as Hr
    by (apply respects_bind; [apply _|by apply sessionLine_proceeds|]; intros _; apply IH).
  apply (Hr (MkProcess (pr_console p) reads (pr_stdinErr p))).
Qed.

(** the command line is one more user of the system: whatever is typed, as arguments
    or in a session, the database changes by a history of its operations, so everything
    recorded stays recorded and the fencing protocol of every Run is obeyed; and output is
    only ever added. *)
Theorem command_line_is_history args (p : Process World) :
  let p' := snd (Execute (C := C) leased ctx args p) in
  rtc (step anyEvent) (cn_world (pr_console p)) (cn_world (pr_console p')) /\
  Durable (cn_world (pr_console p)) (cn_world (pr_console p')) /\
  (forall runID, FenceInv (fenceOf (w_db (cn_world (pr_console p))) runID) ->
     FenceInv (fenceOf (w_db (cn_world (pr_console p'))) runID) /\
     holderLe (fenceOf (w_db (cn_world (pr_console p))) runID) (fenceOf (w_db (cn_world (pr_console p'))) runID)) /\
  cn_output (pr_console p) `prefix_of` cn_output (pr_console p').
Proof.
  assert (respects proceeds (newSession (C := C) leased ctx)) as Hn by (intros q; apply runSession_proceeds).
  destruct (ExecuteContext_proceeds _ args Hn p) as [Hh Hp]. cbn zeta. split; [exact Hh|]. split; [|split; [|exact Hp]].
  - by apply history_durable.
  - intros runID HI. by destruct (history_fence anyEvent _ _ runID Hh HI) as (? & ? & _).
Qed.
End histories.

(** ** The program *)

Section program.
Context {D C : Type} `{EventStore D} `{ManagedRunInspector D} `{ToolContract C} `{AddressParser} `{ErrorText} `{Cobra}.

(** What the demonstration prints. *)
Definition demoOutput : list string :=
  [ "=== successful fake Run ==="; "RunCreated"; "AttemptStarted"; "WorkspaceProvisioned"; "ReasoningPlanned";
    "ReasoningCompleted"; "PatchProduced"; "VerificationPlanned"; "VerificationPassed"; "RunSucceeded";
    "FinalState=Succeeded Events=9"; "=== pause / resume ==="; "BeforePause=Provisioning";
    "Paused=Paused ResumeTarget=Provisioning"; "Resumed=Provisioning"; "PauseResumeFinal=Succeeded" ].

Definition demonstrated : result unit * Console MemoryEventStore :=
  newDemoFake (H2 := fakePort (C := C)) false background demoFuel (MkConsole NewMemoryEventStore []).

Lemma demonstrated_ends : fst demonstrated = Ok tt /\ cn_output (snd demonstrated) = map PrintedLine demoOutput.
Proof. vm_compute. by split. Qed.

Lemma demonstrated_runs runID : runID ∈ ["demo-success"; "demo-pause-resume"] ->
  exists s, fst (GetRun background runID (cn_world (snd demonstrated))) = Ok s /\ st_ObservedState s = StatusSucceeded.
Proof.
  intros Hr. repeat (apply elem_of_cons in Hr as [->|Hr]); [| |by apply elem_of_nil in Hr];
    (eexists; split; [vm_compute; reflexivity|reflexivity]).
Qed.

(** A durable command runs on the database or not at all, and the demonstration never
    touches the database. *)
Lemma stores_are_separate databaseURL (connect : string -> result D) args stdin e :
  (head args = Some "run" -> forall code errors p, run (C := C) databaseURL connect args stdin e <> OnMemory code errors p) /\
  (head args = Some "demo-fake" -> forall code errors p, run (C := C) databaseURL connect args stdin e <> OnDatabase code errors p).
Proof.
  unfold run, exitWith. split; intros E code errors p; rewrite E.
  - case_bool_decide; cbn; [done|]. destruct (connect databaseURL); [|done]. by destruct (execute _ _ _ _) as [[?|?] ?].
  - rewrite andb_false_r. cbn. rewrite andb_false_r. by destruct (execute _ _ _ _) as [[?|?] ?].
Qed.

(** the demonstration succeeds: whatever database is configured, agentdock demo-fake
    comes to its end with exit code 0 and no message, prints the whole life of one Run and
    the pause and resumption of another, leaves both Runs succeeded in the memory it ran
    on, and reads no input. *)
Theorem demonstration_succeeds databaseURL (connect : string -> result D) stdin e flags :
  ParseCommand NewRootCommand ["demo-fake"] = Runs RunDemoFake [] flags ->
  exists store, run (C := C) databaseURL connect ["demo-fake"] stdin e =
      OnMemory 0 [] (MkProcess (MkConsole store (map PrintedLine demoOutput)) stdin e) /\
    forall runID, runID ∈ ["demo-success"; "demo-pause-resume"] ->
      exists s, fst (GetRun background runID store) = Ok s /\ st_ObservedState s = StatusSucceeded.
Proof.
  intros Hp. exists (cn_world (snd demonstrated)). split; [|apply demonstrated_runs].
  unfold run. cbn [head]. rewrite (bool_decide_false (Some _ = _)), (bool_decide_true (Some _ = _)), !andb_false_r by done.
  unfold execute, Execute, ExecuteContext. rewrite Hp. unfold onConsole, runE. cbn [pr_console pr_stdin pr_stdinErr].
  fold demonstrated. destruct demonstrated_ends as [E1 E2]. destruct demonstrated as [r c]. cbn in *. subst r. by destruct c; cbn in *; subst.
Qed.
End program.

(** ** The command line at work *)

From S2P Require Import Samples ManagedWitnesses ControllerWitnesses.

(** The arguments as cobra finds commands in them, for the commands used below. *)
Definition flagValue (name value : string) (more : string -> string) : string -> string :=
  fun n => if decide (n = name) then value else more n.

#[local] Instance sampleCobra : Cobra := fun _ args =>
  let noFlags (_ : string) := "" in
  match args with
  | ["demo-fake"] => Runs RunDemoFake [] noFlags
  | ["session"] => Runs RunSession [] noFlags
  | ["run"; "create"; runID; "--scenario"; scenario; "--spec-hash"; hash] =>
      Runs RunCreate [runID] (flagValue "scenario" scenario (flagValue "spec-hash" hash noFlags))
  | ["run"; "step"; runID] => Runs RunStep [runID] noFlags
  | ["run"; "cancel"; runID] => Runs RunCancel [runID] noFlags
  | _ => Refuses (Plain "unknown command")
  end.

#[local] Instance sampleReasoner {W} : ReasonerPort Contract W := fakePort.

(** A session whose first command is cut in two by the reads. *)
Definition typed : list string :=
  [ "# a Run" +:+ newlineByte +:+ "run create run-7 --scenario s --sp";
    "ec-hash h" +:+ newlineByte +:+ newlineByte;
    "run step run-7" +:+ newlineByte +:+ "run cancel run-7" ].

Definition sessionProcess : Process MemoryEventStore := MkProcess (MkConsole NewMemoryEventStore []) typed None.

Definition afterLines : result unit * Console MemoryEventStore :=
  observed (runLines (C := Contract) false background 0 (input_lines (concat_strings typed)) sessionProcess).

(** Of what is printed: the kinds of documents and the lines. *)
Definition shown (printed : Printed) : string :=
  match printed with
  | PrintedLine line => line
  | PrintedState s => "state " +:+ st_ObservedState s
  | PrintedEvents _ => "events"
  | PrintedStep command s _ => "step " +:+ command +:+ " " +:+ st_ObservedState s
  end.

Example session_prints : map shown (cn_output (snd afterLines)) =
  [ ">>> run create run-7 --scenario s --spec-hash h"; "state Queued"; ">>> run step run-7";
    "step StartAttempt Provisioning"; ">>> run cancel run-7"; "state Cancelled" ].
Proof. vm_compute. reflexivity. Qed.

Lemma session_runs_its_lines_witness :
  observed (newSession (C := Contract) false background sessionProcess) = (Ok tt, snd afterLines).
Proof.
  assert (scannable (concat_strings typed)) as Hs by (apply (bool_decide_unpack _); vm_compute; exact I).
  assert (Forall (fun line => nests line = false) (input_lines (concat_strings typed))) as Hl
    by (apply (bool_decide_unpack _); vm_compute; exact I).
  pose proof (proj2 (session_runs_its_lines (C := Contract) false background sessionProcess) Hs Hl) as E.
  change (observed (runLines false background 0 _ sessionProcess)) with afterLines in E.
  destruct afterLines as [r c] eqn:Ea. rewrite E. assert (r = Ok tt) as -> by (change r with (fst (r, c)); rewrite <- Ea; vm_compute; reflexivity).
  reflexivity.
Defined.

Definition typedProcess : Process World := MkProcess (MkConsole emptyWorld []) typed None.

Lemma command_line_is_history_witness :
  let p' := snd (Execute (C := Contract) false background ["session"] typedProcess) in
  length (cn_output (pr_console p')) = 6 /\ Durable emptyWorld (cn_world (pr_console p')).
Proof.
  split; [vm_compute; reflexivity|].
  apply (proj2 (command_line_is_history (C := Contract) (fun ctx request w => reflexivity w) false background ["session"] typedProcess)).
Defined.

Lemma demonstration_succeeds_witness :
  exists store, run (D := World) (C := Contract) (H2 := credential_scanner (H := noAddress)) "postgres://db" (fun _ => Ok emptyWorld)
      ["demo-fake"] [] None =
    OnMemory 0 [] (MkProcess (MkConsole store (map PrintedLine demoOutput)) [] None).
Proof.
  destruct (demonstration_succeeds (D := World) (C := Contract) (H2 := noAddress) "postgres://db" (fun _ => Ok emptyWorld) [] None
    (fun _ => "") eq_refl) as (store & E & _).
  exists store. exact E.
Defined.
