(* ===== verification/WorkerMain.v ===== *)
(** * The worker program: cmd/worker/main.go

    What the process does before and after worker.Run: the probe with a stale token, the
    executor with its test delays, and the exit code - with what makes them safe: the probe
    never changes the database, and the delayed executor is as lawful as the one it
    delays.  The flags are taken as parsed; connecting, the directory of artifacts and the
    timers are arguments. *)
From S2P Require Import Prelude Sha256 GoLib Json Types Decide Reducer Receipt Effect Store.
From S2P Require Import Database Artifact PostgresStore PostgresFacts Lease System Reasoner Contract.
From S2P Require Import Controller Managed Operations ManagedTheorems Worker Cli.

(** ** Flags *)

Record WorkerFlags : Type := MkWorkerFlags {
  wf_databaseURL : string;
  wf_workerID : string;
  wf_runID : string;
  wf_leaseTTL : Z;
  wf_heartbeat : Z;
  wf_poll : Z;
  wf_actionDelay : Z;
  wf_postActionDelay : Z;
  wf_artifactReceiptDelay : Z;
  wf_staleTokenProbe : Z;
  wf_artifactRoot : string
}.

Definition flagsMissing (flags : WorkerFlags) : bool :=
  bool_decide (wf_databaseURL flags = "" \/ wf_workerID flags = "" \/ wf_runID flags = "").

(** An exit code, what was printed and what was written to the standard error. *)
Record Exit : Type := MkExit {
  ex_code : Z;
  ex_output : list string;
  ex_errors : list string
}.

Definition failing (message : string) : Exit := MkExit 1 [] [message].

(** ** The probe with a stale token *)

Section program.
Context `{Postgres} `{CredentialScanner} `{ErrorText}.

Definition probeLease (flags : WorkerFlags) : Lease :=
  MkLease (wf_runID flags) (wf_workerID flags) (wf_staleTokenProbe flags) 0 0.

Definition probeEvent (flags : WorkerFlags) : Event :=
  (newEvent EventLeaseRenewed emptyEventData
     ("stale-token-probe:" +:+ wf_workerID flags +:+ ":" +:+ pretty (wf_staleTokenProbe flags)))
    <| ev_RunID := wf_runID flags |> <| ev_WorkerID := wf_workerID flags |>
    <| ev_FencingToken := wf_staleTokenProbe flags |>.

Definition probeRejected (flags : WorkerFlags) (err : error) : Exit :=
  MkExit 0 ["stale_probe_rejected worker=" +:+ wf_workerID flags +:+ " run=" +:+ wf_runID flags +:+
            " token=" +:+ pretty (wf_staleTokenProbe flags) +:+ " error=" +:+ Error err] [].

Definition probeAppended (flags : WorkerFlags) (appended : result AppendResult) : Exit :=
  match appended with
  | Err e => if errors_Is e ErrStaleFencingToken then probeRejected flags e
             else failing ("stale token probe error = " +:+ Error e +:+ ", want " +:+ Error (Sentinel ErrStaleFencingToken))
  | Ok _ => failing ("stale token probe error = <nil>, want " +:+ Error (Sentinel ErrStaleFencingToken))
  end.

Definition staleTokenProbe (ctx : Context) (flags : WorkerFlags) : M World Exit :=
  validated ← try (Validate ctx (probeLease flags));
  match validated with
  | Ok _ => mret (failing "refusing stale-token probe because the presented authority is currently valid")
  | Err validationErr =>
      if negb (errors_Is validationErr ErrStaleLease) && negb (errors_Is validationErr ErrLeaseExpired)
      then mret (failing ("stale-token precheck error = " +:+ Error validationErr))
      else
        rebuilt ← try (Rebuild ctx (wf_runID flags));
        match rebuilt with
        | Err e => mret (failing (Error e))
        | Ok state =>
            appended ← try (Append ctx (st_Version state) (probeEvent flags));
            mret (probeAppended flags appended)
        end
  end.

(** ** The executor *)

(** [waitDelay]; [timer] waits for a timer or for the end of the context. *)
Variable timer : Context -> Z -> M World unit.

Definition waitDelay (ctx : Context) (delay : Z) : M World unit :=
  if (delay <=? 0)%Z then mret tt else timer ctx delay.

Record delayedExecutor : Type := MkDelayedExecutor {
  de_before : Z;
  de_after : Z;
  de_artifactAfter : Z;
  de_next : Context -> ActionRequest -> M World ActionReceipt
}.

Definition delayedExecute (executor : delayedExecutor) (ctx : Context) (request : ActionRequest) : M World ActionReceipt :=
  _ ← waitDelay ctx (de_before executor);
  receipt ← de_next executor ctx request;
  _ ← waitDelay ctx (de_after executor);
  _ ← (if decide (cmd_Type (aq_Command request) = CommandApplyPatch)
       then waitDelay ctx (de_artifactAfter executor) else mret tt);
  mret receipt.

(** [NewPostgresArtifactStore] of internal/store/artifact.go; [makeRoot] makes the path
    absolute and the directory. *)
Definition NewPostgresArtifactStore (makeRoot : string -> result string) (root : string) : result PostgresArtifactStore :=
  if decide (root = "") then Err (Plain "artifact root is required")
  else
    absoluteRoot ← wrap (makeRoot root);
    Ok (MkPostgresArtifactStore absoluteRoot).

(** [NewArtifactActionExecutor] with the deterministic reasoner *)
Definition baseExecutor (artifacts : PostgresArtifactStore) : Context -> ActionRequest -> M World ActionReceipt :=
  artifactExecute (reasonerExecute (C := Contract) (H0 := fakePort)) (Some artifacts).

Definition chooseExecutor (flags : WorkerFlags) (next : Context -> ActionRequest -> M World ActionReceipt)
    : Context -> ActionRequest -> M World ActionReceipt :=
  if (0 <? wf_actionDelay flags)%Z then
    delayedExecute (MkDelayedExecutor (wf_actionDelay flags) (wf_postActionDelay flags) (wf_artifactReceiptDelay flags) next)
  else if (0 <? wf_postActionDelay flags)%Z || (0 <? wf_artifactReceiptDelay flags)%Z then
    delayedExecute (MkDelayedExecutor 0 (wf_postActionDelay flags) (wf_artifactReceiptDelay flags) next)
  else next.

Definition workerOptions (flags : WorkerFlags) (artifacts : PostgresArtifactStore) : ManagedOptions World :=
  MkManagedOptions (chooseExecutor flags (baseExecutor artifacts)) (Some (Verify artifacts)) None defaultSafety.

Definition workerConfig (flags : WorkerFlags) : WorkerConfig :=
  MkWorkerConfig (wf_workerID flags) (wf_runID flags) (wf_leaseTTL flags) (wf_heartbeat flags) (wf_poll flags).

(** ** The process *)

(** What [run] comes to: an exit, or worker.Run with a configuration and options. *)
Inductive Started : Type :=
  | Exited (e : Exit)
  | Works (config : WorkerConfig) (options : ManagedOptions World).

Definition readyLine (what : string) (flags : WorkerFlags) : string :=
  what +:+ " worker=" +:+ wf_workerID flags +:+ " run=" +:+ wf_runID flags.

Definition printing (lines : list string) (e : Exit) : Exit := MkExit (ex_code e) (lines ++ ex_output e) (ex_errors e).

(** [run] up to worker.Run; [openStore] and [openManager] connect to the database. *)
Definition start (ctx : Context) (openStore openManager : string -> result unit) (makeRoot : string -> result string)
    (flags : WorkerFlags) : M World Started :=
  if flagsMissing flags
  then mret (Exited (MkExit 2 [] ["--database-url, --worker-id, and --run-id are required"]))
  else match openStore (wf_databaseURL flags) with
  | Err e => mret (Exited (failing (Error e)))
  | Ok _ =>
      match openManager (wf_databaseURL flags) with
      | Err e => mret (Exited (printing [readyLine "event_store_ready" flags] (failing (Error e))))
      | Ok _ =>
          let ready := [readyLine "event_store_ready" flags; readyLine "lease_manager_ready" flags] in
          if (0 <? wf_staleTokenProbe flags)%Z
          then ended ← staleTokenProbe ctx flags; mret (Exited (printing ready ended))
          else match NewPostgresArtifactStore makeRoot (wf_artifactRoot flags) with
               | Err e => mret (Exited (printing ready (failing (Error e))))
               | Ok artifacts => mret (Works (workerConfig flags) (workerOptions flags artifacts))
               end
      end
  end.

(** [run] behind worker.Run: a cancelled worker has not failed. *)
Definition workerExit (returned : option error) : Exit :=
  match returned with
  | Some e => if errors_Is e ContextCanceled then MkExit 0 [] [] else failing (Error e)
  | None => MkExit 0 [] []
  end.

(** ** The probe is harmless *)

(** [Lapsed w p]: the stored lease of the Run is another than [p], or had expired at a
    reading of the clock before [w]. *)
Definition Lapsed (w : World) (p : Lease) : Prop :=
  exists row, db_leases (w_db w) !! ls_RunID p = Some row /\
    (lr_worker_id row <> ls_WorkerID p \/ u64 (lr_fencing_token row) <> ls_FencingToken p \/
     exists n, n < w_tick w /\ (lr_expires_at row <= clock n)%Z).

Lemma validateLease_refused ctx p w e w' :
  validateLease ctx p w = (Err e, w') -> errors_Is e ErrStaleLease || errors_Is e ErrLeaseExpired = true ->
  w' = ticked w /\ Lapsed (ticked w) p.
Proof.
  intros Hv He. revert Hv. unfold validateLease, lift, mbind, M_bind, validatePresentedLease. case_decide; [by intros [= <- _]|].
  unfold transaction, validateLeaseInTx, loadLease, query, gets, mbind, M_bind.
  destruct (db_leases (w_db w) !! ls_RunID p) as [row|] eqn:Hrow; cbn; [|by intros [= <- _]].
  set (expired := expiredAt _ _). destruct (notAuthority _ _ expired) eqn:Hn; [|done]. intros [= _ <-]. split; [by destruct w|].
  exists row. split; [done|]. apply orb_true_iff in Hn as [[Hw|Ht]%bool_decide_eq_true|Hx]; cbn in *; [by left|by right; left|].
  right. right. exists (w_tick w). split; [lia|]. unfold expired, expiredAt in Hx. apply negb_true_iff in Hx. cbn in Hx. lia.
Qed.

Context {storable : string -> Prop} `{!PostgresLaws storable}.

Lemma lapsed_append ctx v flags w r w' :
  Lapsed w (probeLease flags) -> appendPostgres ctx v (probeEvent flags) w = (Ok r, w') -> False.
Proof.
  intros (row & Hrow & Hl) Ha. apply appendPostgres_Ok in Ha as (_ & HA & _ & _).
  destruct HA as (row' & n & Hrow' & Hw & Ht & _ & _ & _ & Hn & Hx); [left; by vm_compute|].
  change (ev_RunID (defaultPayloadVersion (probeEvent flags))) with (ls_RunID (probeLease flags)) in Hrow'.
  assert (row' = row) as -> by congruence. destruct Hl as [Hl|[Hl|(k & Hk & Hl)]]; [by destruct Hl|by destruct Hl|].
  pose proof (clock_mono k n ltac:(lia)). lia.
Qed.

Lemma probe_admissible flags :
  containsCredentialMaterial emptyEventData = false -> wf_runID flags <> "" -> validateAppendInput (probeEvent flags) = Ok tt.
Proof.
  intros Hs Hr. unfold validateAppendInput, ValidateEventData. cbn [probeEvent].
  rewrite decide_False by (cbn; intros [?|[?|?]]; done). change (ev_Data (probeEvent flags)) with emptyEventData. by rewrite Hs.
Qed.

(** The check of the token refuses a lapsed lease. *)
Lemma fencing_refuses flags w :
  is_ok (validatePresentedLease (probeLease flags)) = true -> Lapsed w (probeLease flags) ->
  exists err w', validateFencingToken (defaultPayloadVersion (probeEvent flags)) w = (Err err, w') /\ errors_Is err ErrStaleFencingToken = true.
Proof.
  intros Hp (row & Hrow & Hl). change (validateFencingToken (defaultPayloadVersion (probeEvent flags))) with (validateFencingToken (probeEvent flags)).
  unfold validatePresentedLease in Hp. destruct (decide _) as [|Hp'] in Hp; [done|].
  unfold validateFencingToken. unfold maxFencingToken in Hp'. rewrite decide_False by (intros Hd; apply Hp'; right; exact Hd).
  unfold query, gets, mbind, M_bind. change (ev_RunID (probeEvent flags)) with (ls_RunID (probeLease flags)). rewrite Hrow. cbn.
  assert (negb (clock (w_tick w) <? lr_expires_at row)%Z || bool_decide (lr_worker_id row <> wf_workerID flags \/
    u64 (lr_fencing_token row) <> wf_staleTokenProbe flags) = true) as ->; [|by eexists _, _].
  apply orb_true_iff. destruct Hl as [Hl|[Hl|(n & Hn & Hl)]]; [right; apply bool_decide_eq_true; by left|right; apply bool_decide_eq_true; by right|left].
  pose proof (clock_mono n (w_tick w) ltac:(lia)). apply negb_true_iff, Z.ltb_ge. lia.
Qed.

Lemma Lapsed_ticked w p : Lapsed w p -> Lapsed (ticked w) p.
Proof. intros (row & Hr & Hl). exists row. split; [done|]. destruct Hl as [?|[?|(n & ? & ?)]]; [by left|by right; left|right; right; exists n; cbn; lia]. Qed.

Lemma probe_rejects ctx v flags w :
  ctx_Err ctx = None -> (v <= maxDatabaseVersion)%Z -> containsCredentialMaterial emptyEventData = false ->
  is_ok (validatePresentedLease (probeLease flags)) = true -> Lapsed w (probeLease flags) ->
  exists err, fst (appendPostgres ctx v (probeEvent flags) w) = Err err /\ errors_Is err ErrStaleFencingToken = true.
Proof.
  intros Hc Hv Hs Hp HL. destruct (fencing_refuses flags (ticked w) Hp (Lapsed_ticked _ _ HL)) as (err & w' & E & He).
  assert (wf_runID flags <> "") as Hr by (intros Er; unfold validatePresentedLease in Hp; rewrite decide_True in Hp; [done|by left]).
  destruct HL as (row & Hrow & _). unfold appendPostgres, checkContext. rewrite Hc. unfold mbind, M_bind at 1. cbn [mret M_ret].
  rewrite decide_False by lia. unfold mbind, M_bind at 1, lift. rewrite probe_admissible by done.
  assert (inspectManaged (defaultPayloadVersion (probeEvent flags)) (ticked w) = (Ok true, ticked w)) as Hm.
  { unfold inspectManaged, query, gets. change (ev_RunID (defaultPayloadVersion (probeEvent flags))) with (ls_RunID (probeLease flags)).
    rewrite decide_True by by_computation. cbn [ticked w_db]. by rewrite Hrow, bool_decide_true. }
  unfold transaction, appendTransaction. unfold mbind, M_bind.
  change (clock_timestamp w) with (@Ok Z (clock (w_tick w)), ticked w). cbn iota.
  rewrite (decide_False (P := ev_Type _ = EventRunCreated)) by (change (EventLeaseRenewed <> EventRunCreated); discriminate).
  unfold mret, M_ret. rewrite Hm, orb_true_r, E. by exists err.
Qed.

Lemma rebuild_tables ctx runID w w' : w_db w' = w_db w -> fst (Rebuild ctx runID w') = fst (Rebuild ctx runID w).
Proof.
  intros Hdb. cbn. unfold rebuildPostgres, loadPostgresEvents, query, gets, mbind, M_bind. rewrite Hdb.
  destruct (db_runs (w_db w) !! runID); [cbn; by rewrite Hdb|done].
Qed.

Lemma refused_is_valid ctx p w err :
  fst (validateLease ctx p w) = Err err -> errors_Is err ErrStaleLease || errors_Is err ErrLeaseExpired = true ->
  is_ok (validatePresentedLease p) = true.
Proof.
  unfold validateLease, lift, mbind, M_bind, validatePresentedLease. case_decide; [|done]. by intros [= <-].
Qed.

(** C35: the probe is harmless and tells the truth.  It always ends with an exit code; the
    tables of the database are what they were; and it reports a rejection only when the
    presented lease was not the current one or had expired.  And when the context is alive,
    the Run can be read and the lease of the Run is another or has expired, the store
    refuses the probe's event under the stale token and the exit code is 0. *)
Theorem stale_probe_is_refused ctx flags w :
  exists e w', staleTokenProbe ctx flags w = (Ok e, w') /\ w_db w' = w_db w /\
    (ex_code e = 0%Z -> Lapsed (ticked w) (probeLease flags)) /\
    (ctx_Err ctx = None -> containsCredentialMaterial emptyEventData = false ->
     forall err s, fst (Validate ctx (probeLease flags) w) = Err err ->
       errors_Is err ErrStaleLease || errors_Is err ErrLeaseExpired = true ->
       fst (Rebuild ctx (wf_runID flags) w) = Ok s -> (st_Version s <= maxDatabaseVersion)%Z ->
       ex_code e = 0%Z).
Proof.
  unfold staleTokenProbe, try, mbind at 1, M_bind at 1. destruct (Validate ctx (probeLease flags) w) as [[u|err] w1] eqn:Hv.
  { apply (validateLease_Ok ctx) in Hv as [_ [Hdb _ _]]. eexists _, w1. split; [reflexivity|]. split; [done|]. by split. }
  destruct (errors_Is err ErrStaleLease || errors_Is err ErrLeaseExpired) eqn:He; rewrite <- negb_orb, He; cbn [negb].
  2: { eexists _, w1. split; [done|]. split; [|split; [done|intros _ _ ? ? [= <-] Hc; congruence]].
       revert Hv. cbn. unfold validateLease, lift, mbind, M_bind. destruct (validatePresentedLease _); [apply transaction_Err|by intros [= _ <-]]. }
  destruct (validateLease_refused ctx _ _ _ _ Hv He) as [-> HL].
  pose proof (refused_is_valid ctx (probeLease flags) w err (f_equal fst Hv) He) as Hp.
  pose proof (rebuild_tables ctx (wf_runID flags) w (ticked w) eq_refl) as Hr. pose proof (rebuild_pure ctx (wf_runID flags) (ticked w)) as Hpure.
  unfold mbind, M_bind. destruct (Rebuild ctx (wf_runID flags) (ticked w)) as [[s|e] w2]; cbn in Hpure, Hr; subst w2.
  2: { eexists _, (ticked w). split; [done|]. split; [done|]. split; [done|]. intros _ _ ? s' _ _ Hs'. cbn in Hs'. congruence. }
  destruct (Append ctx (st_Version s) (probeEvent flags) (ticked w)) as [[r|e] w3] eqn:Ha; [by destruct (lapsed_append _ _ _ _ _ _ HL Ha)|].
  pose proof (appendPostgres_Err ctx _ _ _ _ _ Ha) as Hdb3. eexists _, w3. split; [done|]. split; [done|]. split; [done|].
  intros Hc Hs _ s' _ _ Hs' Hv'. cbn in Hs'. assert (s' = s) as -> by congruence.
  destruct (probe_rejects ctx (st_Version s) flags (ticked w) Hc Hv' Hs Hp HL) as (err' & E & Hstale). change (appendPostgres ctx (st_Version s) (probeEvent flags) (ticked w) = (Err e, w3)) in Ha. rewrite Ha in E.
  injection E as ->. unfold probeAppended. by rewrite Hstale.
Qed.

(** ** The executor is lawful *)

Hypothesis timer_history : forall ctx delay, keeps history (timer ctx delay).

Lemma waitDelay_history ctx delay : keeps history (waitDelay ctx delay).
Proof. unfold waitDelay. destruct (_ <=? _)%Z; [by apply keeps_ret; apply _|apply timer_history]. Qed.

Lemma delayed_history executor ctx request :
  (forall c r, keeps history (de_next executor c r)) -> keeps history (delayedExecute executor ctx request).
Proof.
  intros Hn. unfold delayedExecute. apply keeps_bind; [apply _|apply waitDelay_history|]. intros _.
  apply keeps_bind; [apply _|apply Hn|]. intros receipt. apply keeps_bind; [apply _|apply waitDelay_history|]. intros _.
  apply keeps_bind; [apply _|case_decide; [apply waitDelay_history|by apply keeps_ret; apply _]|]. intros _. by apply keeps_ret; apply _.
Qed.

Lemma base_history artifacts ctx request : keeps history (baseExecutor artifacts ctx request).
Proof.
  apply artifactExecute_history. intros c r. unfold reasonerExecute. case_decide; [by intros w|].
  apply keeps_bind; [apply _|by intros w|]. intros stream. apply keeps_bind; [apply _|by intros w|]. intros result. by apply keeps_ret; apply _.
Qed.

Lemma chosen_history flags next : (forall c r, keeps history (next c r)) -> forall c r, keeps history (chooseExecutor flags next c r).
Proof. intros Hn c r. unfold chooseExecutor. repeat case_match; try apply Hn; by apply delayed_history. Qed.

(** A delayed executor gives no receipt but one that the executor it delays gave. *)
Definition Delays (executor next : Context -> ActionRequest -> M World ActionReceipt) : Prop :=
  forall ctx request w receipt w', executor ctx request w = (Ok receipt, w') ->
    exists w1 w2, next ctx request w1 = (Ok receipt, w2) /\ history w w1 /\ history w2 w'.

Lemma waitDelay_Ok ctx delay w u w' : waitDelay ctx delay w = (Ok u, w') -> history w w'.
Proof. intros E. pose proof (waitDelay_history ctx delay w) as Hh. by rewrite E in Hh. Qed.

Lemma delayed_receipts executor : Delays (delayedExecute executor) (de_next executor).
Proof.
  intros ctx request w receipt w' E. unfold delayedExecute in E.
  apply M_bind_Ok in E as ([] & w1 & E1%waitDelay_Ok & E). apply M_bind_Ok in E as (r & w2 & E2 & E).
  apply M_bind_Ok in E as ([] & w3 & E3%waitDelay_Ok & E). apply M_bind_Ok in E as ([] & w4 & E4 & E).
  apply mret_Ok in E as [-> ->]. exists w1, w2. split; [done|]. split; [done|]. trans w3; [done|].
  revert E4. case_decide; [apply waitDelay_Ok|by intros [= ->]].
Qed.

Lemma chosen_receipts flags next : Delays (chooseExecutor flags next) next.
Proof.
  unfold chooseExecutor. repeat case_match; try apply (delayed_receipts (MkDelayedExecutor _ _ _ next)).
  intros ctx request w receipt w' E. by exists w, w'.
Qed.

Lemma verify_history store ctx id : keeps history (Verify store ctx id).
Proof.
  apply pure_history. unfold Verify, Get, verifyArtifactRecordBytes. apply pure_bind; [apply checkContext_pure|]. intros _.
  repeat first [apply pure_ret|apply pure_throw|apply pure_query|apply pure_bind; [|intros ?]|case_match|done].
Qed.

Lemma probe_history ctx flags : keeps history (staleTokenProbe ctx flags).
Proof.
  unfold staleTokenProbe. apply keeps_bind; [apply _|apply keeps_try, validate_history|]. intros validated.
  destruct validated as [|e]; [by apply keeps_ret; apply _|]. case_match; [by apply keeps_ret; apply _|].
  apply keeps_bind; [apply _|apply keeps_try, pure_history, rebuild_pure|]. intros rebuilt.
  destruct rebuilt as [s|]; [|by apply keeps_ret; apply _].
  apply keeps_bind; [apply _|apply keeps_try, append_history|]. intros appended. by apply keeps_ret; apply _.
Qed.

(** the worker program is one of the system's workers: what it does before it works is
    a history of the system; and when it comes to work, its three names are not empty, its
    executor and its verification of artifacts act on the stores by their operations only,
    and whatever delays are asked for, every receipt is one of the executor that is
    delayed.  So all that holds of lawful workers holds of it. *)
Theorem worker_program_is_lawful ctx openStore openManager makeRoot flags w :
  let '(r, w') := start ctx openStore openManager makeRoot flags w in
  history w w' /\ exists started, r = Ok started /\
    forall config options, started = Works config options ->
      wc_RunID config <> "" /\ wc_WorkerID config <> "" /\ wf_databaseURL flags <> "" /\ Lawful options /\
      exists artifacts, Delays (mo_Executor options) (baseExecutor artifacts).
Proof.
  unfold start. destruct (flagsMissing flags) eqn:Hm; [split; [done|by eexists]|].
  apply bool_decide_eq_false in Hm. destruct (openStore _); [|split; [done|by eexists]]. destruct (openManager _); [|split; [done|by eexists]].
  cbv zeta. destruct (0 <? _)%Z.
  - destruct (stale_probe_is_refused ctx flags w) as (e & w' & E & _). unfold mbind, M_bind.
    pose proof (probe_history ctx flags w) as Hh. rewrite E in Hh |- *. split; [done|by eexists].
  - destruct (NewPostgresArtifactStore _ _) as [artifacts|e]; (split; [done|]); [|by eexists]. eexists. split; [done|].
    intros config options [= <- <-]. split; [naive_solver|]. split; [naive_solver|]. split; [naive_solver|]. split.
    + split; [apply chosen_history, base_history|]. intros verify c id [= <-]. apply verify_history.
    + exists artifacts. apply chosen_receipts.
Qed.
End program.

(** ** The worker program at work *)

From S2P Require Import Samples ManagedWitnesses ControllerWitnesses.

(** The first worker probes with its token after the second has taken the Run over. *)
Definition staleFlags : WorkerFlags := MkWorkerFlags "postgres://db" "worker-1" "run-1" halfMinute 500000000 20000000 0 0 0 1 "/artifacts".

Definition lapsedError : error := match fst (Validate background (probeLease staleFlags) afterSlow) with Err e => e | Ok _ => Plain "" end.

Definition lapsedState : State := match fst (Rebuild background "run-1" afterSlow) with Ok s => s | Err _ => InitialState end.

Lemma probe_lapsed : fst (Validate background (probeLease staleFlags) afterSlow) = Err lapsedError.
Proof. vm_compute. reflexivity. Qed.
Lemma probe_stale : errors_Is lapsedError ErrStaleLease || errors_Is lapsedError ErrLeaseExpired = true.
Proof. vm_compute. reflexivity. Qed.
Lemma probe_state : fst (Rebuild background (wf_runID staleFlags) afterSlow) = Ok lapsedState.
Proof. vm_compute. reflexivity. Qed.
Lemma probe_version : (st_Version lapsedState <= maxDatabaseVersion)%Z.
Proof. vm_compute. discriminate. Qed.

Lemma stale_probe_is_refused_witness :
  exists e w', staleTokenProbe background staleFlags afterSlow = (Ok e, w') /\ w_db w' = w_db afterSlow /\ ex_code e = 0%Z.
Proof.
  destruct (stale_probe_is_refused (storable := anyText) background staleFlags afterSlow) as (e & w' & E & Hdb & _ & Hz).
  exists e, w'. split; [exact E|]. split; [exact Hdb|].
  exact (Hz eq_refl eq_refl lapsedError lapsedState probe_lapsed probe_stale probe_state probe_version).
Defined.

(** No delays and no probe: the worker goes to work. *)
Definition plainFlags : WorkerFlags := MkWorkerFlags "postgres://db" "worker-1" "run-1" halfMinute 500000000 20000000 5 0 0 0 "/artifacts".

Definition noTimer (_ : Context) (_ : Z) : M World unit := mret tt.

Lemma worker_program_is_lawful_witness :
  exists config options,
    start noTimer background (fun _ => Ok tt) (fun _ => Ok tt) Ok plainFlags emptyWorld = (Ok (Works config options), emptyWorld) /\
    wc_RunID config = "run-1" /\ Lawful options.
Proof.
  destruct (worker_program_is_lawful noTimer (storable := anyText) (fun _ _ w => reflexivity w) background (fun _ => Ok tt)
    (fun _ => Ok tt) Ok plainFlags emptyWorld) as (_ & started & E & Hw).
  injection E as E. destruct (Hw _ _ (eq_sym E)) as (_ & _ & _ & Hl & _).
  eexists _, _. split; [reflexivity|]. split; [reflexivity|exact Hl].
Defined.
