(* ===== verification/Integration.v ===== *)
(** * What the parts guarantee together

    A coding agent whose tools run in a docker sandbox on a Git worktree: the agent, the
    tool service, the policy, the sandbox and the provider of worktrees, each with the
    theorems of its own file, composed. *)
From stdpp Require Import sorting.
From S2P Require Import Prelude Sha256 GoLib Json Types Effect Float64 Contract Reasoner AuditLog Policy.
From S2P Require Import PolicyTheorems Controller ToolService ServiceTheorems Agent AgentTheorems.
From S2P Require Import Host Helper Docker DockerProvider Worktree HostFacts DockerFacts DockerTracking DockerTheorems.

(** ** The command of a tool *)

Definition subcommands : list string := ["list"; "read"; "search"; "apply-patch"; "test"].

(** A tool is one of the helper's subcommands. *)
Lemma buildRequest_helper `{FileSystem} workspace contract input command stdin paths :
  buildRequest workspace contract input = Ok (command, stdin, paths) ->
  exists subcommand rest, command = helper :: subcommand :: rest /\ subcommand ∈ subcommands.
Proof.
  unfold buildRequest. destruct (unmarshal_map input) as [o|]; [|done].
  assert (forall sub rest, sub ∈ subcommands -> exists subcommand rest', helper :: sub :: rest = helper :: subcommand :: rest' /\ subcommand ∈ subcommands)
    as Hsub by eauto. unfold readCommand, searchCommand, patchCommand, testCommand.
  repeat (case_decide; [intros Hb; ok_inv; repeat case_match; ok_inv; simplify_eq; apply Hsub; by_computation|]). done.
Qed.

(** ** Relations that an agent respects

    What a sandbox, the recorders and the model respect, the agent does. *)
Section respects.
Context {W : Type} `{FileSystem} `{ErrorText} (R : W -> W -> Prop) `{!PreOrder R}.

Lemma Invoke_respects registry engine sandbox audit ctx invocation :
  (forall contract command stdin paths w, Cleared registry engine sandbox invocation contract command stdin paths ->
     R w (snd (sb_Execute sandbox ctx (sandboxRequest contract command stdin (in_Environment invocation)) w))) ->
  (forall event, respects R (audit background event)) ->
  (forall event, respects R (en_audit engine background event)) ->
  respects R (Invoke (MkService (Some registry) (Some engine) (Some sandbox) (Some audit)) ctx invocation).
Proof.
  intros Hexec Haudit Hpolicy w. destruct (Invoke_Authorised registry engine sandbox audit ctx invocation w) as (reply & w' & E & Ha).
  unfold AuditRecorder in *. rewrite E. cbn [snd]. destruct Ha as [(contract & command & stdin & paths & Hc & _ & HE)|(_ & _ & _ & HR)].
  - destruct HE as (outcome & failure & w1 & event & Hx & _ & _ & _ & -> & _).
    trans (snd (granted engine sandbox invocation contract paths w)); [apply Hpolicy|].
    trans w1; [|apply Haudit].
    pose proof (Hexec contract command stdin paths (snd (granted engine sandbox invocation contract paths w)) Hc) as Hw.
    by rewrite Hx in Hw.
  - destruct HR as [[_ ->]|(recorder & event & [-> | ->] & _ & _ & _ & ->)]; [done|apply Haudit|apply Hpolicy].
Qed.

Variable agent : CodingAgent W.
Hypothesis invoke_respects : forall ctx invocation, respects R (Invoke (ca_tools agent) ctx invocation).
Hypothesis reason_respects : forall ctx request, respects R (ca_reasoner agent ctx request).

Lemma invokeCalls_respects ctx runID attemptID calls acc : respects R (invokeCalls agent ctx runID attemptID calls acc).
Proof.
  revert acc. induction calls as [|call calls IH]; intros acc; cbn [invokeCalls]; [respect_steps|].
  apply respects_bind; [apply _|apply invoke_respects|]. intros reply. destruct (rp_Err reply); [respect_steps|apply IH].
Qed.

Lemma runTurns_respects ctx runID attemptID budget turn request remaining acc :
  respects R (runTurns agent ctx runID attemptID budget turn request remaining acc).
Proof.
  revert turn remaining acc. induction budget as [|budget IH]; intros turn remaining acc; cbn [runTurns]; [respect_steps|].
  respect_steps; first [apply respects_same; [apply _|]; intros w; unfold checkContext; by destruct (ctx_Err ctx)|apply reason_respects|
    apply invokeCalls_respects|apply IH].
Qed.

Lemma RunAgent_respects ctx runID attemptID request : respects R (RunAgent agent ctx runID attemptID request).
Proof. unfold RunAgent. respect_steps. apply runTurns_respects. Qed.
End respects.

(** ** One tool *)

Section tools.
Context {W H : Type} `{Host W} `{Worktrees W H} `{FileSystem} `{ErrorText}.

Abbreviation Provider := (@DockerProvider W H).
Abbreviation dockerSandbox := (@dockerSandbox W H).

Variable commands : W -> list (Cmd * Ran).
Hypothesis traced : Traced commands.

(** The sandbox, the policy and the tools that are bound to it. *)
Variables (i : nat) (s : dockerSandbox).
Variables (registry : Registry) (engine : Engine Provider) (audit : AuditRecorder Provider).

Definition sandbox : Sandbox Provider := asSandbox i s.
Definition service : Service Provider := MkService (Some registry) (Some engine) (Some sandbox) (Some audit).

(** A request that an invocation became which passed every check. *)
Definition AuthorisedRequest (request : SandboxRequest) : Prop :=
  exists invocation contract command stdin paths,
    Cleared registry engine sandbox invocation contract command stdin paths /\
    request = sandboxRequest contract command stdin (in_Environment invocation).

(** The provider has the sandbox. *)
Definition holds (p : Provider) : Prop := exists s0, dp_objects p !! i = Some s0 /\ same s s0.

(** The sandbox stays, and docker is asked only for what is its own and authorised. *)
Definition works (p p' : Provider) : Prop := holds p -> holds p' /\
  exists calls, commands (dp_host p') = commands (dp_host p) ++ calls /\ Permitted AuthorisedRequest s calls.

#[export] Instance works_preorder : PreOrder works.
Proof.
  split.
  - intros p Hp. split; [done|]. exists []. split; [by rewrite app_nil_r|constructor].
  - intros p1 p2 p3 H12 H23 [Hp2 (l1 & E1 & P1)]%H12. apply H23 in Hp2 as [Hp3 (l2 & E2 & P2)]. split; [done|].
    exists (l1 ++ l2). split; [by rewrite E2, E1, (assoc_L (++))|by apply permitted_app].
Qed.

Lemma Execute_works ctx request p :
  quietRecorder commands (ds_config s) -> AuthorisedRequest request -> works p (snd (sb_Execute sandbox ctx request p)).
Proof.
  intros Hq Ha (s0 & Hi & Hs). cbn. unfold onObject. rewrite Hi. set (m := MkMachine s0 _ _ _ _).
  assert (quietRecorder commands (ds_config (mc_self m))) as Hq' by (cbn; by rewrite (sm_config _ _ Hs)).
  destruct (Execute_issues AuthorisedRequest commands traced (ContextOf ctx) request m Ha Hq') as [Hsame (calls & E & Hp)].
  destruct (Execute (ContextOf ctx) request m) as [r m'] eqn:Ex. cbn [snd mc_self mc_host] in *.
  set (p' := MkDockerProvider _ _ _ _ _ _).
  assert (holds p' /\ exists calls, commands (dp_host p') = commands (dp_host p) ++ calls /\ Permitted AuthorisedRequest s calls) as Hp'.
  { split; [exists (mc_self m')|exists calls].
    - cbn. rewrite list_lookup_insert_eq by (by eapply lookup_lt_Some). split; [done|]. by trans s0.
    - split; [exact E|]. eapply permitted_same; [apply same_sym, Hs|exact Hp]. }
  destruct r as [[result err]|e]; exact Hp'.
Qed.

(** Recorders leave docker and the sandboxes alone. *)
Definition unobtrusive (p p' : Provider) : Prop := dp_objects p' = dp_objects p /\ commands (dp_host p') = commands (dp_host p).

Lemma unobtrusive_works p p' : unobtrusive p p' -> works p p'.
Proof.
  intros [Eo Ec] (s0 & Hi & Hs). split; [exists s0; by rewrite Eo|]. exists []. rewrite app_nil_r. split; [done|constructor].
Qed.

Hypothesis sandbox_quiet : quietRecorder commands (ds_config s).
Hypothesis audit_unobtrusive : forall event, respects unobtrusive (audit background event).
Hypothesis policy_unobtrusive : forall event, respects unobtrusive (en_audit engine background event).

Lemma Invoke_works ctx invocation : respects works (Invoke service ctx invocation).
Proof.
  apply Invoke_respects; [apply _|intros contract command stdin paths p Hc|intros event p; apply unobtrusive_works..].
  - apply Execute_works; [done|]. by exists invocation, contract, command, stdin, paths.
  - apply audit_unobtrusive.
  - apply policy_unobtrusive.
Qed.

(** ** The agent *)

Variable reason : AgentReasoner Provider.
Hypothesis reason_works : forall ctx request, respects works (reason ctx request).
Variables (contracts : list Contract) (maxTurns : Z).

Definition agent : CodingAgent Provider := MkCodingAgent reason service contracts maxTurns.

Lemma RunAgent_works ctx runID attemptID request : respects works (RunAgent agent ctx runID attemptID request).
Proof. apply RunAgent_respects; [apply _|apply Invoke_works|apply reason_works]. Qed.

(** A container that was asked for. *)
Definition creates (call : Cmd * Ran) : Prop := exists rest, fst call = docker ("create" :: rest) "".

Lemma permitted_creation calls call : Permitted AuthorisedRequest s calls -> call ∈ calls -> creates call ->
  exists name request, fst call = docker (createArguments s name request) "" /\ AuthorisedRequest request /\ allowedRequest s request.
Proof.
  intros Hp. induction Hp as [|reference ran rest _ IH|name request ran rest Ha Hk _ IH|ran rest _ IH|reference ran id command ran' rest _ Ht _ IH|call' rest Hn _ IH];
    intros Hi [args E]; [by apply elem_of_nil in Hi|..]; apply elem_of_cons in Hi as [->|Hi]; try (apply IH; [done|by eexists]).
  - by exists name, request.
  - apply elem_of_cons in Hi as [->|Hi]; [|apply IH; [done|by eexists]]. cbn in E. destruct Ht; discriminate E.
  - by rewrite E in Hn.
Qed.

(** C4: the agent works in isolation.  Whatever the model says, in however many turns, and
    whatever docker answers: docker is asked, in the sandbox that the tools are bound to,
    only to inspect, to start, kill or remove containers just found to be the sandbox's
    own, and to create containers; and each container it is asked to create is isolated and
    runs a subcommand of the helper that a tool call became which is in the sandbox's
    scope, names a registered tool, has arguments of the contract's type and paths that
    resolve inside the worktree, and is permitted by a rule of the policy. *)
Theorem agent_works_in_isolation ctx runID attemptID request p :
  dp_objects p !! i = Some s ->
  exists calls, commands (dp_host (snd (RunAgent agent ctx runID attemptID request p))) = commands (dp_host p) ++ calls /\
    Permitted AuthorisedRequest s calls /\
    forall call, call ∈ calls -> creates call ->
      exists name invocation contract stdin paths subcommand rest, subcommand ∈ subcommands /\
        Cleared registry engine sandbox invocation contract (helper :: subcommand :: rest) stdin paths /\
        fst call = docker (isolation s name ++ environmentArguments (in_Environment invocation) ++
                           dc_Image (ds_config s) :: helper :: subcommand :: rest) "".
Proof.
  intros Hi. destruct (RunAgent_works ctx runID attemptID request p) as (_ & calls & E & Hp); [by exists s|].
  exists calls. split; [done|]. split; [done|]. intros call Hc Hcr.
  destruct (permitted_creation calls call Hp Hc Hcr) as (name & r & Ec & (invocation & contract & command & stdin & paths & HC & ->) & _).
  destruct (buildRequest_helper _ _ _ _ _ _ (cl_command _ _ _ _ _ _ _ _ HC)) as (subcommand & rest & -> & Hs).
  by exists name, invocation, contract, stdin, paths, subcommand, rest.
Qed.
End tools.

(** ** Sandboxes on Git worktrees

    The provider of Git worktrees keeps what the docker provider is promised. *)
Section git.
Context {W : Type} `{Host W} `{WorktreeHost W}.

Abbreviation Provider := (GitWorktreeProvider W).

Variable commands : W -> list (Cmd * Ran).
Hypothesis traced : Traced commands.
Hypothesis identity_quiet : forall path, respects (quiet commands) (file_Identity path).
Hypothesis RemoveAll_quiet : forall path, respects (quiet commands) (os_RemoveAll path).

(** The commands of the system behind a provider *)
Definition providerCommands (p : Provider) : list (Cmd * Ran) := commands (gp_host p).

Lemma system_quiet {A} (c : M W A) : respects (quiet commands) c -> respects (quiet providerCommands) (system c).
Proof. intros Hc p. specialize (Hc (gp_host p)). unfold system, quiet, providerCommands in *. by destruct (c (gp_host p)). Qed.

Lemma git_traced : Traced providerCommands.
Proof.
  destruct traced as [T1 T2 T3 T4 T5 T6 T7 T8 T9 T10 T11].
  split; try (intros; by apply system_quiet); unfold quiet, providerCommands.
  - intros d c p. specialize (T1 d c (gp_host p)). cbn. by destruct (exec d c (gp_host p)).
  - intros d p. specialize (T2 d (gp_host p)). cbn. by destruct (ctx_Error d (gp_host p)).
  - intros d p. apply T3.
  - intros p. specialize (T4 (gp_host p)). cbn. by destruct (time_Now (gp_host p)).
Qed.

#[local] Instance foreign_preorder : PreOrder (foreign commands).
Proof.
  split; [by intros w; apply quiet_foreign|]. intros w1 w2 w3 (l1 & E1 & F1) (l2 & E2 & F2). exists (l1 ++ l2).
  split; [by rewrite E2, E1, (assoc_L (++))|by apply Forall_app].
Qed.

Lemma quiet_calls {A} (c : M W A) : respects (quiet commands) c -> respects (foreign commands) c.
Proof. intros Hc w. by apply quiet_foreign. Qed.

Lemma git_foreign {A} ctx repository arguments (f : Ran -> A) :
  respects (foreign commands) (ran ← always (exec ctx (safeGitCommand repository arguments)); mret (f ran)).
Proof.
  intros w. unfold always, mbind, M_bind. pose proof (tr_exec _ traced ctx (safeGitCommand repository arguments) w) as Ht.
  destruct (exec ctx (safeGitCommand repository arguments) w) as [ran w']. exists [(safeGitCommand repository arguments, ran)].
  split; [exact Ht|]. by apply Forall_singleton.
Qed.

Lemma exec_foreign ctx repository arguments : respects (foreign commands) (always (exec ctx (safeGitCommand repository arguments))).
Proof.
  intros w. pose proof (git_foreign ctx repository arguments id w) as Hg. revert Hg. unfold always, mbind, M_bind.
  by destruct (exec ctx (safeGitCommand repository arguments) w).
Qed.

Lemma within_foreign root candidate : respects (foreign commands) (pathWithin root candidate).
Proof.
  unfold pathWithin. respect_steps; [by apply quiet_calls|]. generalize (S (String.length (filepath_Clean candidate))) as fuel.
  intros fuel. generalize (filepath_Clean candidate) as path. induction fuel as [|fuel IH]; intros path; cbn [ancestorIs]; respect_steps;
    first [by apply quiet_calls|apply IH].
Qed.

Lemma cleanup_foreign ctx repository root workspace : respects (foreign commands) (cleanupKnownWorktree ctx repository root workspace).
Proof.
  unfold cleanupKnownWorktree, boundedCommandOutput, worktreeRegistered, gitOutput.
  respect_steps; first [apply within_foreign|apply exec_foreign|by apply quiet_calls].
Qed.

#[local] Instance provider_foreign_preorder : PreOrder (foreign providerCommands).
Proof. split; [by intros p; apply quiet_foreign|]. intros p1 p2 p3. apply foreign_preorder. Qed.

Lemma destroy_foreign ctx (worktree : gitWorktree) : respects (foreign providerCommands) (worktree_Destroy ctx worktree).
Proof.
  cbn. unfold destroyGitWorktree, setPending. respect_steps; [|by intros p; apply quiet_foreign..].
  intros p. pose proof (cleanup_foreign (Within Background (15 * second)) (gw_repository worktree) (gw_root worktree) (gw_workspace worktree)
    (gp_host p)) as Hc. unfold system, foreign, providerCommands in *. by destruct (cleanupKnownWorktree _ _ _ _ _).
Qed.

(** the promise that the docker provider asks of a provider of worktrees is kept by
    the one of Git worktrees, so that no container is lost of sandboxes on Git worktrees,
    whatever git, docker and the system answer. *)
Theorem git_sandboxes_keep_containers (range : forall {A : Type}, gmap string A -> list string) methods (m : @Machine Provider gitWorktree) :
  quietRecorder providerCommands (ds_config (mc_self m)) ->
  ds_containers (mc_self m) = ∅ -> (forall name, ~ Requested (mc_self m) (providerCommands (mc_host m)) name) ->
  let m' := foldl (perform (@range)) m methods in
  forall name, Requested (mc_self m') (providerCommands (mc_host m')) name ->
    is_Some (ds_containers (mc_self m') !! name) \/ Released (mc_self m') (providerCommands (mc_host m')) name.
Proof.
  intros Hq Hempty Hfresh m'. apply (tk_created providerCommands None). apply performed; [apply git_traced|apply destroy_foreign|].
  by apply fresh_tracking.
Qed.
End git.

(** ** The environment of a container *)

(** What docker does with the arguments of [create] that set a variable. *)
Definition received {V} `{ProbeHost V} (arguments : list string) (w : V) : Prop := forall key value before after,
  key ∈ fixedKeys -> arguments = before ++ ["--env"; key +:+ "=" +:+ value] ++ after -> Getenv key w = value.

Lemma environment_argument environment key : key ∈ fixedKeys -> exists before after,
  environmentArguments environment = before ++ ["--env"; key +:+ "=" +:+ default (fixedValue key) (environment !! key)] ++ after.
Proof.
  intros Hk. unfold environmentArguments. set (keys := first_occurrences [] _).
  assert (key ∈ keys) as (l & k & ->)%list_elem_of_split.
  { apply first_occurrences_elem. split; [|by apply not_elem_of_nil]. unfold sort_Strings. rewrite merge_sort_Permutation.
    apply elem_of_app. by left. }
  rewrite map_app, concat_app. cbn. eauto.
Qed.

(** The environment that a sandbox gives a container is the one that the helper in it
    looks for, whatever else a tool call adds to it. *)
Theorem fixed_environment_reaches_the_helper {V} `{Root V} `{ProbeHost V} allowlist environment (w : V) :
  validateEnvironment allowlist environment = Ok tt -> received (environmentArguments environment) w ->
  runProbe "fixed-environment" w = (Ok tt, println "fixed-environment-ok" w).
Proof.
  unfold validateEnvironment. destruct (forallb _ _) eqn:Hv; [|done]. intros _ Hr.
  assert (forall key value, (key, value) ∈ fixedEnvironment -> Getenv key w = value) as Hget.
  { intros key value Hi. assert (key ∈ fixedKeys) as Hk by (apply list_elem_of_fmap; by exists (key, value)).
    destruct (environment_argument environment key Hk) as (before & after & E). rewrite (Hr _ _ _ _ Hk E).
    destruct (environment !! key) as [other|] eqn:He.
    - exfalso. rewrite forallb_forall in Hv. specialize (Hv key). rewrite andb_true_iff, negb_true_iff, bool_decide_eq_false in Hv.
      apply Hv; [|done]. apply list_elem_of_In, list_elem_of_fmap. exists (key, other). split; [done|]. by apply elem_of_map_to_list.
    - cbn. revert Hi. clear. unfold fixedEnvironment. rewrite !elem_of_cons. intros Hi.
      by repeat destruct Hi as [[= -> ->]|Hi]; try apply elem_of_nil in Hi. }
  change (runProbe "fixed-environment") with (probeEnvironment (W := V)). unfold probeEnvironment, mbind, M_bind, gets.
  assert (forallb (fun kv => bool_decide (Getenv (fst kv) w = snd kv)) expectedEnvironment = true) as ->; [|done].
  change expectedEnvironment with fixedEnvironment. apply forallb_forall. intros [key value] Hi%list_elem_of_In.
  apply bool_decide_eq_true. by apply Hget.
Qed.

(** ** An agent at work *)

From S2P Require Import ReasonerTheorems WireTheorems DockerWitnesses.

#[local] Existing Instance plainFiles.
#[local] Instance integrationErrors : ErrorText := fun _ => "error".

Abbreviation ScriptProvider := (@DockerProvider Script string).

(** The audit of the provider's host *)
Definition providerRecorder : AuditRecorder ScriptProvider := fun ctx event => onHost (scriptRecorder ctx event).

(** A sandbox whose docker runs one command, and a model that lists the repository. *)
Definition agentProvider : ScriptProvider :=
  MkDockerProvider sampleConfig 0 {[ sampleToken := MkScope "run-1" "attempt-1" ]} {[ sampleToken := 0 ]} [sampleSandbox]
    (MkScript (oneCommand firstID (says "a.go")) [] []).

Definition providerModel : AgentReasoner ScriptProvider := fun _ r =>
  mret (NewNormalizedStream (streamRequest r) (MkSliceStream (scriptOf r) None 0 false)).

Definition isolatedAgent : CodingAgent ScriptProvider :=
  agent 0 sampleSandbox agentRegistry (NewEngine agentConfig (Some providerRecorder)) providerRecorder providerModel builtinContracts 3.

Definition isolatedRun : result CodingAgentResult * ScriptProvider :=
  RunAgent isolatedAgent background "run-1" "attempt-1" agentRequest agentProvider.

(** The agent's tool call is one container: created, inspected, started, removed. *)
Example isolated_commands :
  is_ok (fst isolatedRun) = true /\
  map (fun call => take 1 (cm_Args (fst call))) (sc_commands (dp_host (snd isolatedRun))) =
    [["create"]; ["inspect"]; ["inspect"]; ["start"]; ["inspect"]; ["rm"]] /\
  match sc_commands (dp_host (snd isolatedRun)) with
  | (command, _) :: _ => drop (length (cm_Args command) - 3) (cm_Args command) = [helper; "list"; "."]
  | [] => False
  end.
Proof. split_and!; vm_compute; reflexivity. Qed.

Lemma provider_unobtrusive event : respects (unobtrusive sc_commands) (providerRecorder background event).
Proof. by intros p. Qed.

Lemma agent_works_in_isolation_witness :
  exists calls, sc_commands (dp_host (snd isolatedRun)) = calls /\ length calls = 6 /\
    Permitted (AuthorisedRequest 0 sampleSandbox agentRegistry (NewEngine agentConfig (Some providerRecorder))) sampleSandbox calls.
Proof.
  destruct (agent_works_in_isolation sc_commands script_traced 0 sampleSandbox agentRegistry (NewEngine agentConfig (Some providerRecorder))
    providerRecorder sample_quiet provider_unobtrusive provider_unobtrusive providerModel
    (fun ctx request p => reflexivity p) builtinContracts 3 background "run-1" "attempt-1" agentRequest agentProvider eq_refl)
    as (calls & E & Hp & _).
  exists calls. split; [exact E|]. split; [|exact Hp].
  change calls with ([] ++ calls). change (@nil (Cmd * Ran)) with (sc_commands (dp_host agentProvider)). rewrite <- E. vm_compute. reflexivity.
Defined.
