(* ===== verification/Demos.v ===== *)
(** * The demonstration programs: cmd/sandbox-demo, cmd/eino-recorded-demo; cmd/migrate
    with internal/migration; and scripts/configcheck

    Programs that compose the sandbox, the policy, the tools and the agent.  What they
    print is kept as values.  The machine they run on, and the migration library, are
    parameters; so is the order of a range over a map. *)
From S2P Require Import Prelude Sha256 GoLib Json Types Effect Float64 Contract Reasoner AuditLog Policy Url.
From S2P Require Import Controller ToolService Helper Agent Cassette Host Docker DockerProvider Worktree.

(** ** The machine *)

(** What the programs print *)
Inductive DemoOutput : Type :=
  | OriginBefore (digest status : string)
  | SandboxCreated (workspace : string)
  | ToolOutput (name : string) (exit : Z) (output : string)
  | WorktreeModified (exit : Z) (output : string)
  | HostPathRejected (err : error)
  | NetworkAndTests (exit : Z) (output : string)
  | OriginAfter (digest status : string)
  | DestroyVerified
  | AuditArtifactLine (artifact : AuditArtifact)
  | ScenarioLine (id allowedPath : string) (turns toolCalls totalTokens : Z) (auditEvents : nat)
  | ScenariosComplete (scenarios : nat)
  | MigrationsApplied
  | ConfigPassed (path : string).

(** What the programs use beyond [Host] and [WorktreeHost].  [os_OpenRead] opens a file
    to be read to its end, with the error of closing it; [os_OpenAppend] one to be appended
    to, with its present content. *)
Class ProgramHost (W : Type) : Type := {
  os_MkdirTemp : string -> string -> M W string;
  os_CopyFS : string -> string -> M W unit;
  os_OpenRead : string -> M W (FileStream * option error);
  os_OpenAppend : string -> M W string;
  os_Environ : W -> list string;
  TimeStamp : W -> string;
  print : DemoOutput -> W -> W
}.

(** The replay reasoner of a program *)
Class ReplayPlace (W : Type) : Type := {
  held_replay : W -> ReplayReasoner;
  hold_replay : ReplayReasoner -> W -> W
}.

(** ** Deferred calls *)

(** [defer func() { _ = cleanup() }()] *)
Definition deferring {W A} (cleanup : M W unit) (body : M W A) : M W A :=
  r ← try body; _ ← attempt cleanup; lift r.

Definition failure {A} (r : result A) : option error := match r with Ok _ => None | Err e => Some e end.

(** [defer func() { resultErr = errors.Join(resultErr, cleanup()...) }()] *)
Definition finally {W A} (cleanup : M W (list (option error))) (body : M W A) : M W A :=
  r ← try body;
  errs ← cleanup;
  match errors_Join (failure r :: errs) with Some e => throw e | None => lift r end.

(** The same, run only when the body ends in an error. *)
Definition onFailure {W A} (cleanup : M W (list (option error))) (body : M W A) : M W A :=
  r ← try body;
  match r with
  | Ok a => mret a
  | Err e => errs ← cleanup; throw (default e (errors_Join (Some e :: errs)))
  end.

Section programs.
Context {W H : Type} `{Host W} `{WorktreeHost W} `{Worktrees W H} `{ProgramHost W}.
Context `{FileSystem} `{ErrorText} `{YAML}.

Variable range : forall {A : Type}, gmap string A -> list string.

Abbreviation Provider := (@DockerProvider W H).

Definition announce (what : DemoOutput) : M W unit := modify (print what).

(** A provider made for a part of a program. *)
Definition withProvider {A} (config : DockerConfig W) (body : M Provider A) : M W A := fun w =>
  let '(r, p) := body (NewDockerProvider config w) in (r, dp_host p).

(** A recorder of the program, for what is bound to a sandbox. *)
Definition behindProvider (recorder : AuditRecorder W) : AuditRecorder Provider := fun ctx event => onHost (recorder ctx event).

(** [instance.Destroy] and [provider.Cleanup] *)
Definition destroyAndCleanup (i : nat) : M Provider (list (option error)) :=
  destroyErr ← onObject i (Destroy (@range));
  cleanupErr ← Cleanup (@range);
  mret [destroyErr; cleanupErr].

(** The sandbox [provider.Create] returned. *)
Definition instanceOf (i : nat) : M Provider (Sandbox Provider) := fun p =>
  match dp_objects p !! i with
  | Some s => (Ok (asSandbox i s), p)
  | None => (Err (Plain "nil pointer"), p)
  end.

(** ** cmd/eino-recorded-demo *)
Section recorded.
Context `{MemoryAudit W} `{WallClock W} `{ReplayPlace W}.

(** The context of a scenario, which ends after two minutes. *)
Variable timed : Context.

Record recordedScenario : Type := MkScenario {
  rs_id : string;
  rs_cassette : string;
  rs_prompt : string;
  rs_failureEvidence : string;
  rs_allowedPath : string
}.

Definition scenarios : list recordedScenario :=
  [ MkScenario "normalize-name" "phase5-normalize-name.json"
      "Fix NormalizeName so surrounding whitespace is removed before lowercasing."
      "TestNormalizeNameTrimsWhitespace: got surrounding spaces" "internal/user/";
    MkScenario "divide-zero" "phase5-divide-zero.json"
      "Fix Divide so a non-positive count returns zero."
      "TestDivideNonPositiveCountReturnsZero: integer divide by zero" "internal/mathutil/" ].

(** The contracts and the policy, for one directory only. *)
Definition scopeContract (allowedPath : string) (c : Contract) : Contract :=
  MkContract (ct_Name c) (ct_Version c) (ct_InputSchema c) (ct_OutputSchema c) (ct_Capability c) (ct_ReadOnly c)
    (ct_Timeout c) (ct_OutputLimit c) [allowedPath] (ct_Network c) (ct_Idempotency c).

Definition scopeRule (allowedPath : string) (r : Rule) : Rule :=
  MkRule (rl_Tool r) (rl_Capability r) (rl_ReadOnly r) [allowedPath] (rl_Network r) (rl_MaxTimeout r) (rl_MaxOutputBytes r).

Definition scopePolicy (config : Config) (allowedPath : string) : Config :=
  MkConfig (cf_Version config) (cf_Default config) (cf_Environment config) (map (scopeRule allowedPath) (cf_Rules config)).

(** *** Git *)

Definition recordedEnvironment : list string :=
  [ "GIT_CONFIG_NOSYSTEM=1"; "GIT_CONFIG_GLOBAL=/dev/null"; "GIT_NO_LAZY_FETCH=1"; "GIT_NO_REPLACE_OBJECTS=1";
    "GIT_OPTIONAL_LOCKS=0"; "GIT_PROTOCOL_FROM_USER=0"; "GIT_TERMINAL_PROMPT=0"; "GIT_AUTHOR_NAME=AgentDock";
    "GIT_AUTHOR_EMAIL=agentdock@example.invalid"; "GIT_COMMITTER_NAME=AgentDock";
    "GIT_COMMITTER_EMAIL=agentdock@example.invalid"; "HOME=/nonexistent"; "LANG=C"; "LC_ALL=C"; "TMPDIR=/tmp" ].

Definition recordedGit (repository : string) (arguments : list string) : M W string :=
  ran ← always (exec Background (MkCmd "git"
    (["-c"; "core.hooksPath=/dev/null"; "-c"; "core.fsmonitor=false"; "-c"; "protocol.allow=never"] ++ arguments)
    repository (Some recordedEnvironment) ""));
  match rn_err ran with Some e => throw (Wrap e) | None => mret (combined ran) end.

Definition initializeGitRepository (repository : string) : M W unit :=
  for_each (fun arguments => _ ← recordedGit repository arguments; mret tt)
    [ ["init"; "--quiet"]; ["add"; "--all"]; ["commit"; "--quiet"; "-m"; "phase5 recorded fixture"] ].

(** The commit and the status of a repository *)
Definition originOf (repository : string) : M W (string * string) :=
  commit ← recordedGit repository ["rev-parse"; "HEAD"];
  status ← recordedGit repository ["status"; "--porcelain=v1"];
  mret (commit, status).

Definition originChanged (before after : string * string) : bool :=
  negb (bool_decide (TrimSpace (fst before) = TrimSpace (fst after)) && bool_decide (snd before = snd after) &&
        bool_decide (TrimSpace (snd after) = "")).

(** *** The agent of a scenario *)

Definition contextFailure (ctx : Context) : option ProviderError :=
  e ← ctx_Err ctx;
  Some (MkProviderError (errors_Is e ContextCanceled) (errors_Is e DeadlineExceeded) None None (Error e)).

Definition replayReasoner : AgentReasoner Provider := fun ctx request =>
  replay ← gets (fun p => held_replay (dp_host p));
  let '(stream, next) := replayReason (contextFailure ctx) (streamRequest request) replay in
  _ ← onHost (modify (hold_replay next));
  mret stream.

(** Opening, loading and closing the cassette *)
Definition loadCassetteFile (path : string) : M W Cassette :=
  '((content, readErr), closeErr) ← os_OpenRead path;
  let loaded :=
    match readErr with
    | Some e => if (Z.of_nat (String.length content) <=? cassetteLimit)%Z then Err e else LoadCassette content
    | None => LoadCassette content
    end in
  match errors_Join [failure loaded; closeErr] with Some e => throw e | None => lift loaded end.

Definition scenarioRun (scenario : recordedScenario) : string := "phase5-recorded-" +:+ rs_id scenario.

Definition scenarioRequest (scenario : recordedScenario) (contracts : list Contract) : AgentRequest :=
  MkAgentRequest [MkMessage RoleUser (rs_prompt scenario) [] "" ""] contracts (rs_prompt scenario)
    (rs_failureEvidence scenario) 200.

Definition scenarioService (registry : Registry) (config : Config) (instance : Sandbox Provider) : Service Provider :=
  let audit := behindProvider recordMemory in
  MkService (Some registry) (Some (NewEngine config (Some audit))) (Some instance) (Some audit).

(** From the agent to the destruction of its sandbox, and what must hold then *)
Definition driveScenario (scenario : recordedScenario) (contracts : list Contract) (registry : Registry) (config : Config)
    (fixture : string) (origin : string * string) (i : nat) : M Provider unit :=
  instance ← instanceOf i;
  agent ← lift (NewCodingAgent (Some replayReasoner) (Some (scenarioService registry config instance)) 8);
  res ← RunAgent agent timed (scenarioRun scenario) "attempt-1" (scenarioRequest scenario contracts);
  if decide (ar_ToolCallCount res <> 3%Z \/ ar_Turns res <> 4%Z \/ ar_Text res = "")
  then throw (Plain "unexpected Coding Agent result")
  else
    destroyErr ← onObject i (Destroy (@range));
    _ ← return_err destroyErr;
    left ← try (onHost (Stat (sb_Workspace instance)));
    if negb (match left with Err e => errors_Is e FileNotExist | Ok _ => false end)
    then throw (Plain "disposable workspace still exists")
    else
      active ← ActiveContainers Background;
      if decide (active <> []) then throw (Plain "owned containers remain")
      else
        after ← onHost (originOf fixture);
        if originChanged origin after then throw (Plain "origin repository changed")
        else
          events ← gets (fun p => length (audit_events (dp_host p)));
          onHost (announce (ScenarioLine (rs_id scenario) (rs_allowedPath scenario) (ar_Turns res) (ar_ToolCallCount res)
            (us_TotalTokens (ar_Usage res)) events)).

(** The sandbox of a scenario *)
Definition sandboxScenario (scenario : recordedScenario) (contracts : list Contract) (registry : Registry) (config : Config)
    (fixture : string) (origin : string * string) : M Provider unit :=
  created ← Create (@range) (ContextOf timed) (MkSpec (scenarioRun scenario) "attempt-1" fixture "HEAD");
  match created with
  | (instance, Some err) =>
      match instance with
      | Some i => destroyErr ← onObject i (Destroy (@range)); throw (default err (errors_Join [Some err; destroyErr]))
      | None => throw err
      end
  | (None, None) => throw (Plain "nil pointer")
  | (Some i, None) => finally (destroyAndCleanup i) (driveScenario scenario contracts registry config fixture origin i)
  end.

Definition scenarioConfig (temporary : string) : DockerConfig W :=
  MkDockerConfig TestImage (filepath_Join [temporary; "worktrees"]) "" "" 0 0 0 [] (Some recordMemory).

Definition runScenario (repositoryRoot : string) (policyConfig : Config) (baseContracts : list Contract)
    (scenario : recordedScenario) : M W unit :=
  let contracts := map (scopeContract (rs_allowedPath scenario)) baseContracts in
  registry ← lift (NewRegistry contracts);
  let config := scopePolicy policyConfig (rs_allowedPath scenario) in
  temporary ← os_MkdirTemp "" "agentdock-phase5-recorded-";
  deferring (os_RemoveAll temporary) (
    let fixture := filepath_Join [temporary; "buggy-go-service"] in
    _ ← os_MkdirAll fixture 448;
    _ ← wrapM (os_CopyFS fixture (filepath_Join [repositoryRoot; "examples"; "buggy-go-service"]));
    _ ← initializeGitRepository fixture;
    origin ← originOf fixture;
    cassette ← loadCassetteFile (filepath_Join [repositoryRoot; "testdata"; "cassettes"; rs_cassette scenario]);
    replay ← lift (NewReplayReasoner cassette);
    _ ← modify (hold_replay replay);
    _ ← modify (set_audit_events []);
    withProvider (scenarioConfig temporary) (sandboxScenario scenario contracts registry config fixture origin)).

(** [run] *)
Definition runRecorded : M W unit :=
  repositoryRoot ← os_getwd;
  policyBytes ← ReadFile (filepath_Join [repositoryRoot; "configs"; "policy.yaml"]);
  policyConfig ← lift (Parse policyBytes);
  registry ← lift NewBuiltinRegistry;
  let baseContracts := Contracts registry in
  _ ← for_each (fun scenario => wrapM (runScenario repositoryRoot policyConfig baseContracts scenario)) scenarios;
  announce (ScenariosComplete (length scenarios)).
End recorded.

(** ** cmd/sandbox-demo *)
Section sandboxDemo.
Context `{FileAudit W} `{WallClock W}.

(** The context of the program *)
Variable ctx : Context.

Definition programGit (repository : string) (arguments : list string) : M W string :=
  environ ← gets os_Environ;
  ran ← always (exec (ContextOf ctx) (MkCmd "git" arguments repository (Some (environ ++ ["GIT_TRACE2_EVENT=0"])) ""));
  match rn_err ran with Some e => throw (Wrap e) | None => mret (combined ran) end.

(** [git] *)
Definition trimmedGit (repository : string) (arguments : list string) : M W string :=
  output ← programGit repository arguments; mret (TrimSpace output).

Definition fixtureTest : string := double_quoted "package demo

import (
	'fmt'
	'net'
	'testing'
	'time'
)

func TestPatchedValue(t *testing.T) {
	if Value() != 'after' {
		t.Fatalf('Value() = %q', Value())
	}
}

func TestNetworkIsDenied(t *testing.T) {
	connection, err := net.DialTimeout('tcp', '1.1.1.1:80', 250*time.Millisecond)
	if err == nil {
		connection.Close()
		t.Fatal('network unexpectedly available')
	}
	fmt.Println('network-request-denied')
}
".

Definition fixtureFiles : gmap string string :=
  {[ "go.mod" := "module example.test/phase4demo

go 1.25.0
";
     "main.go" := double_quoted "package demo

func Value() string { return 'before' }
";
     "main_test.go" := fixtureTest ]}.

Definition fixtureCommands : list (list string) :=
  [ ["init"]; ["add"; "."];
    ["-c"; "user.name=AgentDock"; "-c"; "user.email=agentdock@example.test"; "commit"; "-m"; "fixture"] ].

(** [createFixtureRepository]: the directory is removed again when it cannot be filled. *)
Definition createFixtureRepository : M W string :=
  repository ← os_MkdirTemp "" "agentdock-phase4-demo-origin-";
  onFailure (_ ← attempt (os_RemoveAll repository); mret [])
    (_ ← for_each (fun name => WriteFile (filepath_Join [repository; name]) (default "" (fixtureFiles !! name)) 384)
           (range fixtureFiles);
     _ ← for_each (fun arguments => _ ← trimmedGit repository arguments; mret tt) fixtureCommands;
     mret repository).

(** [repositoryDigest]: what is hashed of the files, in the order of their names *)
Definition nulText : string := string_of_bytes [0%Z].

Fixpoint hashedFiles (repository : string) (names : list string) : M W (list Z) :=
  match names with
  | [] => mret []
  | name :: rest =>
      if decide (name = "") then hashedFiles repository rest
      else
        content ← ReadFile (filepath_Join [repository; name]);
        more ← hashedFiles repository rest;
        mret (bytes_of name ++ [0%Z] ++ bytes_of content ++ [0%Z] ++ more)
  end.

Definition repositoryDigest (repository : string) : M W string :=
  output ← programGit repository ["ls-files"; "-z"];
  hashed ← hashedFiles repository (sort_Strings (strings_Split (TrimSuffix output nulText) nul));
  mret ("sha256:" +:+ hex (sum256 hashed)).

(** [NewFileAuditRecorder] *)
Definition NewFileAuditRecorder (path : string) : M W FileAuditRecorder :=
  if decide (path = "") then throw (Plain "audit artifact path is required")
  else
    absolute ← filepath_abs path;
    _ ← os_MkdirAll (filepath_Dir absolute) 448;
    content ← os_OpenAppend absolute;
    mret (MkFileAuditRecorder content absolute true).

Definition toolInvocation (name input : string) : Invocation := MkInvocation "phase4-demo" "attempt-1" name input ∅.

(** The digest and the status of the origin *)
Definition demoOrigin (repository : string) : M W (string * string) :=
  digest ← repositoryDigest repository;
  status ← trimmedGit repository ["status"; "--porcelain=v1"];
  mret (digest, status).

Definition demoConfig (image : string) : DockerConfig W :=
  MkDockerConfig image "" "0.5" "256m" 64 (60 * second) (Z.shiftl 1 20) [] (Some recordFile).

Definition demoService (registry : Registry) (config : Config) (instance : Sandbox Provider) : Service Provider :=
  let recorder := behindProvider recordFile in
  MkService (Some registry) (Some (NewEngine config (Some recorder))) (Some instance) (Some recorder).

(** A call of a tool that must succeed. *)
Definition mustInvoke (service : Service Provider) (invocation : Invocation) : M Provider Response :=
  reply ← Invoke service ctx invocation;
  match rp_Err reply with Some e => throw e | None => mret (rp_Response reply) end.

Definition readOnlyInvocations : list Invocation :=
  [ toolInvocation "repo.list" (double_quoted "{'path':'.'}");
    toolInvocation "repo.read" (double_quoted "{'path':'main.go','startLine':1,'endLine':20}");
    toolInvocation "repo.search" (double_quoted "{'path':'.','pattern':'before'}") ].

(** The calls of the tools, the one that must be refused among them *)
Definition driveTools (service : Service Provider) : M Provider unit :=
  _ ← for_each (fun invocation =>
        response ← wrapM (mustInvoke service invocation);
        onHost (announce (ToolOutput (in_ToolName invocation) (rs_ExitCode response) (TrimSpace (rs_Stdout response)))))
      readOnlyInvocations;
  patched ← mustInvoke service (toolInvocation "repo.apply_patch"
    (double_quoted "{'path':'main.go','old':'return \'before\'','new':'return \'after\''}"));
  _ ← onHost (announce (WorktreeModified (rs_ExitCode patched) (TrimSpace (rs_Stdout patched))));
  sensitive ← Invoke service ctx (toolInvocation "repo.read" (double_quoted "{'path':'/etc/passwd'}"));
  match rp_Err sensitive with
  | Some e =>
      if errors_Is e ErrUnsafePath then
        _ ← onHost (announce (HostPathRejected e));
        tested ← wrapM (mustInvoke service (toolInvocation "repo.test" (double_quoted "{'packages':['./...'],'verbose':true}")));
        onHost (announce (NetworkAndTests (rs_ExitCode tested) (TrimSpace (rs_Stdout tested))))
      else throw (Plain "absolute host path was not rejected")
  | None => throw (Plain "absolute host path was not rejected")
  end.

(** From the sandbox to its confirmed end: [destroyed] is set behind it. *)
Definition driveDemoSandbox (registry : Registry) (config : Config) (i : nat) : M Provider unit :=
  instance ← instanceOf i;
  _ ← onHost (announce (SandboxCreated (sb_Workspace instance)));
  _ ← driveTools (demoService registry config instance);
  destroyErr ← onObject i (Destroy (@range));
  _ ← return_err destroyErr;
  cleanupErr ← Cleanup (@range);
  return_err cleanupErr.

Definition sandboxDemo (registry : Registry) (config : Config) (repository : string) (before : string * string) : M Provider unit :=
  created ← Create (@range) (ContextOf ctx) (MkSpec "phase4-demo" "attempt-1" repository "HEAD");
  match created with
  | (instance, Some err) =>
      destroyErr ← (match instance with Some i => onObject i (Destroy (@range)) | None => mret None end);
      cleanupErr ← Cleanup (@range);
      throw (default err (errors_Join [Some err; destroyErr; cleanupErr]))
  | (None, None) => throw (Plain "nil pointer")
  | (Some i, None) =>
      _ ← onFailure (destroyAndCleanup i) (driveDemoSandbox registry config i);
      containers ← ActiveContainers (ContextOf ctx);
      if decide (containers <> []) then throw (Plain "phase-4 containers remain")
      else
        after ← onHost (demoOrigin repository);
        _ ← onHost (announce (OriginAfter (fst after) (snd after)));
        if decide (before <> after) then throw (Plain "origin repository changed")
        else
          _ ← onHost (announce DestroyVerified);
          artifact ← onHost auditArtifact;
          onHost (announce (AuditArtifactLine artifact))
  end.

(** [run] *)
Definition runSandboxDemo (policyPath image auditPath : string) : M W unit :=
  repository ← createFixtureRepository;
  deferring (os_RemoveAll repository) (
    stamp ← gets TimeStamp;
    temporary ← gets os_TempDir;
    let auditPath :=
      if decide (auditPath = "") then filepath_Join [temporary; "agentdock-phase4-audit-" +:+ stamp +:+ ".jsonl"] else auditPath in
    recorder ← NewFileAuditRecorder auditPath;
    _ ← modify (set_audit_file recorder);
    finally (closeErr ← attempt closeFile; mret [closeErr]) (
      content ← ReadFile policyPath;
      config ← lift (Parse content);
      registry ← lift NewBuiltinRegistry;
      before ← demoOrigin repository;
      _ ← announce (OriginBefore (fst before) (snd before));
      withProvider (demoConfig image) (sandboxDemo registry config repository before))).
End sandboxDemo.
End programs.

(** ** internal/migration and cmd/migrate *)

(** The migration library: a runner for a source and a database. *)
Class Migrate (W : Type) : Type := {
  Runner : Type;
  migrate_New : string -> string -> M W Runner;
  runner_Up : Runner -> M W unit;
  runner_Migrate : Runner -> Z -> M W unit;
  runner_Close : Runner -> W -> W;
  IsNoChange : error -> bool
}.

(** [url.URL.String] of a file's absolute path: the bytes that are not escaped *)
Definition path_byte (b : Z) : bool :=
  in_range 97 122 b || in_range 65 90 b || in_range 48 57 b ||
  existsb (Z.eqb b) (bytes_of "-_.~$&+,/:;=@").

Definition upper_hex (d : Z) : Z := if (d <? 10)%Z then (48 + d)%Z else (55 + d)%Z.

Definition escape_path (path : string) : string :=
  string_of_bytes (concat (map (fun b =>
    if path_byte b then [b] else [37; upper_hex (Z.shiftr b 4); upper_hex (Z.land b 15)]%Z) (bytes_of path))).

Definition fileURL (absolutePath : string) : string := "file://" +:+ escape_path absolutePath.

Example escaped_url : fileURL "/a b/c?%" = "file:///a%20b/c%3F%25".
Proof. reflexivity. Qed.

Section migrations.
Context {W : Type} `{WorktreeHost W} `{ProgramHost W} `{Migrate W}.

Definition newRunner (databaseURL path : string) : M W Runner :=
  if decide (databaseURL = "" \/ path = "") then throw (Plain "database URL and migration path are required")
  else
    absolutePath ← wrapM (filepath_abs path);
    wrapM (migrate_New (fileURL absolutePath) databaseURL).

(** A migration with a runner that is closed afterwards; no change is a success. *)
Definition migrating (databaseURL path : string) (migration : Runner -> M W unit) : M W unit :=
  runner ← newRunner databaseURL path;
  deferring (modify (runner_Close runner)) (
    migrated ← try (migration runner);
    match migrated with
    | Ok _ => mret tt
    | Err e => if IsNoChange e then mret tt else throw (Wrap e)
    end).

Definition Up (databaseURL path : string) : M W unit := migrating databaseURL path runner_Up.
Definition To (databaseURL path : string) (version : Z) : M W unit :=
  migrating databaseURL path (fun runner => runner_Migrate runner version).

(** [main] of cmd/migrate: the exit code *)
Definition migrateMain (databaseURL path : string) : M W Z :=
  applied ← try (Up databaseURL path);
  match applied with
  | Ok _ => _ ← modify (print MigrationsApplied); mret 0%Z
  | Err _ => mret 1%Z
  end.
End migrations.

(** ** scripts/configcheck *)

(** What [yaml.Decoder.Decode] answers of a file, until its end: a document - nothing, a
    mapping or another node - or an error. *)
Inductive YAMLNode : Type := NoContent | MappingNode | OtherNode | DecodeError (e : error).

Class YAMLNodes (W : Type) : Type := decodeNodes : string -> M W (list YAMLNode).

(** The loop of [check]: the number of documents with content. *)
Fixpoint checkNodes (nodes : list YAMLNode) (documents : nat) : result nat :=
  match nodes with
  | [] => Ok documents
  | DecodeError e :: _ => Err (Wrap e)
  | NoContent :: rest => checkNodes rest documents
  | MappingNode :: rest => checkNodes rest (S documents)
  | OtherNode :: _ => Err (Plain "root must be a mapping")
  end.

Section configcheck.
Context {W : Type} `{YAMLNodes W} `{ProgramHost W}.

Definition check (path : string) : M W unit :=
  nodes ← wrapM (decodeNodes path);
  documents ← lift (checkNodes nodes 0);
  if decide (documents = 0) then throw (Plain "contains no YAML document") else mret tt.

(** The files in order, up to the first that fails *)
Fixpoint checkAll (paths : list string) : M W Z :=
  match paths with
  | [] => mret 0%Z
  | path :: rest =>
      checked ← try (check path);
      match checked with
      | Err _ => mret 1%Z
      | Ok _ => _ ← modify (print (ConfigPassed path)); checkAll rest
      end
  end.

(** [main] of scripts/configcheck: the exit code *)
Definition configcheckMain (paths : list string) : M W Z :=
  if decide (paths = []) then mret 2%Z else checkAll paths.

(** A file passes exactly when it can be read, some document in it has content, and every
    such document is a mapping. *)
Theorem check_passes path w nodes w' : decodeNodes path w = (Ok nodes, w') ->
  check path w = (Ok tt, w') <-> MappingNode ∈ nodes /\ Forall (fun node => node = MappingNode \/ node = NoContent) nodes.
Proof.
  intros Hd. unfold check, wrapM, mbind, M_bind. rewrite Hd. cbn [wrap].
  assert (forall n, match checkNodes nodes n with
            | Ok m => Forall (fun node => node = MappingNode \/ node = NoContent) nodes /\ (n < m <-> MappingNode ∈ nodes) /\ n <= m
            | Err _ => ~ Forall (fun node => node = MappingNode \/ node = NoContent) nodes
            end) as Hc.
  { clear Hd. induction nodes as [|[| | |e] nodes IH]; intros n; cbn [checkNodes]; [|specialize (IH n)|specialize (IH (S n))|..];
      [split; [constructor|]; split; [split; [lia|by intros ?%elem_of_nil]|done]|..|by intros [[|] _]%Forall_cons|by intros [[|] _]%Forall_cons].
    - destruct (checkNodes nodes n) as [m|]; [|by intros [_ ?]%Forall_cons]. destruct IH as (Hf & Hm & Hl).
      split; [constructor; [by right|done]|]. split; [|done]. rewrite Hm, elem_of_cons. split; [by right|]. by intros [|].
    - destruct (checkNodes nodes (S n)) as [m|]; [|by intros [_ ?]%Forall_cons]. destruct IH as (Hf & _ & Hl).
      split; [constructor; [by left|done]|]. split; [|lia]. split; [by left|lia]. }
  specialize (Hc 0). unfold lift. destruct (checkNodes nodes 0) as [m|e]; [|split; [done|by intros [_ ?]]].
  destruct Hc as (Hf & Hm & _). rewrite <- Hm. case_decide.
  - split; [done|]. intros [? _]. lia.
  - split; [|done]. intros _. split; [lia|done].
Qed.
End configcheck.

(** * What the demonstrations guarantee *)

From S2P Require Import PolicyTheorems ServiceTheorems HostFacts DockerFacts DockerTheorems ProviderTheorems Integration.

(** ** Scoped to one directory *)

Lemma registerAll_from contracts m m' name c :
  registerAll contracts m = Ok m' -> m' !! name = Some c -> m !! name = Some c \/ c ∈ contracts.
Proof.
  revert m. induction contracts as [|d contracts IH]; intros m; cbn [registerAll]; [intros [= ->]; by left|].
  intros (u & _ & Hr)%bind_Ok Hc. destruct (decide _) as [|_]; [done|].
  destruct (IH _ Hr Hc) as [Hl|Hl]; [|right; by right].
  apply lookup_insert_Some in Hl as [[_ <-]|[_ Hl]]; [right; by left|by left].
Qed.

Lemma scoped_contract path base registry name c :
  NewRegistry (map (scopeContract path) base) = Ok registry -> GetContract registry name = Some c -> ct_AllowedPaths c = [path].
Proof.
  unfold NewRegistry. intros (m & Hr & [= <-])%bind_Ok Hc. destruct (registerAll_from _ _ _ _ _ Hr Hc) as [Hl|Hl].
  - by rewrite lookup_empty in Hl.
  - apply list_elem_of_In, in_map_iff in Hl as (d & <- & _). done.
Qed.

Lemma scoped_paths {W} `{FileSystem} registry config path audit (sandbox : Sandbox W) invocation contract command stdin paths p :
  Cleared registry (NewEngine (scopePolicy config path) audit) sandbox invocation contract command stdin paths ->
  p ∈ paths -> directories path `prefix_of` directories p.
Proof.
  intros HC Hp. destruct (cl_policy _ _ _ _ _ _ _ _ HC) as [rule HP].
  pose proof (pm_paths _ _ _ HP p Hp) as Ha. pose proof (pm_rule _ _ _ HP) as Hr.
  apply list_elem_of_In, in_map_iff in Hr as (r & <- & _). apply path_containment in Ha as (_ & q & Hq & _ & Hd).
  cbn in Hq. by apply list_elem_of_singleton in Hq as ->.
Qed.

Section guarantees.
Context {W H : Type} `{Host W} `{WorktreeHost W} `{Worktrees W H} `{ProgramHost W}.
Context `{FileSystem} `{ErrorText}.
Variable range : forall {A : Type}, gmap string A -> list string.

Abbreviation Provider := (@DockerProvider W H).

Section scoped.
Context `{MemoryAudit W} `{WallClock W} `{ReplayPlace W}.
Variable commands : W -> list (Cmd * Ran).
Hypothesis traced : Traced commands.
Hypothesis recording : forall events w, commands (set_audit_events events w) = commands w.
Hypothesis replaying : forall replay w, commands (hold_replay replay w) = commands w.

Lemma memory_quiet event : respects (quiet commands) (recordMemory background event).
Proof. intros w. cbn. apply recording. Qed.

Lemma behind_unobtrusive recorder event :
  respects (quiet commands) (recorder background event) -> respects (unobtrusive commands) (behindProvider (H := H) recorder background event).
Proof.
  intros Hq p. specialize (Hq (dp_host p)). unfold behindProvider, onHost, unobtrusive, quiet in *.
  by destruct (recorder background event (dp_host p)).
Qed.

Lemma replay_unobtrusive ctx request : respects (unobtrusive commands) (replayReasoner (H := H) ctx request).
Proof.
  intros p. unfold replayReasoner. rewrite (M_bind_ret _ _ p (held_replay (dp_host p)) p) by done.
  destruct (replayReason _ _ _) as [stream next]. split; [done|]. apply replaying.
Qed.

(** A scenario stays in its directory: in the sandbox of a scenario, docker is asked to
    create only containers that run a subcommand of the helper a tool call became, whose
    every path lies below the directory the scenario is scoped to - whatever the policy
    file grants, whatever contracts are built in, and whatever the cassette says. *)
Theorem scenario_is_scoped timed scenario base config registry agent i s request p :
  let path := rs_allowedPath scenario in
  NewRegistry (map (scopeContract path) base) = Ok registry ->
  dp_objects p !! i = Some s -> dc_Audit (ds_config s) = Some recordMemory ->
  NewCodingAgent (Some replayReasoner) (Some (scenarioService registry (scopePolicy config path) (asSandbox i s))) 8 = Ok agent ->
  exists calls, commands (dp_host (snd (RunAgent agent timed (scenarioRun scenario) "attempt-1" request p))) =
                commands (dp_host p) ++ calls /\
    forall call, call ∈ calls -> creates call ->
      exists name invocation contract stdin paths subcommand rest, subcommand ∈ subcommands /\
        ct_AllowedPaths contract = [path] /\ (forall q, q ∈ paths -> directories path `prefix_of` directories q) /\
        buildRequest (worktree_Workspace (W := W) (ds_worktree s)) contract (in_Input invocation) =
          Ok (helper :: subcommand :: rest, stdin, paths) /\
        fst call = docker (isolation s name ++ environmentArguments (in_Environment invocation) ++
                           dc_Image (ds_config s) :: helper :: subcommand :: rest) "".
Proof.
  intros path Hreg Hi Haudit Hagent. cbn [NewCodingAgent] in Hagent.
  apply bind_Ok in Hagent as (contracts & _ & [= <-]).
  assert (quietRecorder commands (ds_config s)) as Hq.
  { intros event. unfold record. rewrite Haudit. apply memory_quiet. }
  assert (forall event, respects (unobtrusive commands) (behindProvider (H := H) recordMemory background event)) as Hu.
  { intros event. apply behind_unobtrusive, memory_quiet. }
  set (engine := NewEngine (scopePolicy config path) (Some (behindProvider (H := H) recordMemory))).
  assert (forall ctx request, respects (works commands i s registry engine) (replayReasoner (H := H) ctx request)) as Hreason.
  { intros ctx request' q. apply unobtrusive_works, replay_unobtrusive. }
  set (audit := behindProvider (H := H) recordMemory) in *.
  pose proof (RunAgent_works commands traced i s registry engine audit Hq Hu Hu
    replayReasoner Hreason
    contracts 8 timed (scenarioRun scenario) "attempt-1" request p) as Hw.
  destruct Hw as (_ & calls & E & Hp); [by exists s|]. exists calls. split; [exact E|]. intros call Hc Hcr.
  edestruct permitted_creation as (name & r & Ec & (invocation & contract & command & stdin & paths & HC & ->) & _); [exact Hp|exact Hc|exact Hcr|].
  pose proof (cl_command _ _ _ _ _ _ _ _ HC) as Hcmd.
  destruct (buildRequest_helper _ _ _ _ _ _ Hcmd) as (subcommand & rest & -> & Hs).
  exists name, invocation, contract, stdin, paths, subcommand, rest. split; [done|].
  split; [by eapply scoped_contract, HC|]. split; [intros q Hq'; by eapply scoped_paths|]. split; [exact Hcmd|done].
Qed.
End scoped.

(** ** No sandbox is left behind *)

Lemma steps_fresh config (w : W) : Books (NewDockerProvider (H := H) config w).
Proof. split; [by intros i s|]. intros token i. cbn. by rewrite lookup_empty. Qed.

Lemma behind_grows recorder ctx event : respects grows (behindProvider (W := W) (H := H) recorder ctx event).
Proof. apply onHost_grows. Qed.

Lemma Execute_grows i s ctx request (p : Provider) : grows p (snd (sb_Execute (asSandbox i s) ctx request p)).
Proof.
  pose proof (onObject_grows i (Execute (ContextOf ctx) request) (Execute_bookish _ _) p) as Hg. cbn.
  by destruct (onObject i (Execute (ContextOf ctx) request) p) as [[executed|e] p'].
Qed.

Lemma service_grows registry config (recorder : AuditRecorder W) i s ctx invocation :
  let audit := behindProvider recorder in
  respects grows (Invoke (MkService (Some registry) (Some (NewEngine config (Some audit))) (Some (asSandbox i s)) (Some audit)) ctx invocation).
Proof.
  intros audit. apply Invoke_respects; [apply _|intros; apply Execute_grows|intros; apply behind_grows..].
Qed.

Lemma Destroy_grows i : respects grows (onObject (W := W) (H := H) i (Destroy (@range))).
Proof. apply onObject_grows, Destroy_bookish. Qed.

Lemma instance_grows {A} i (body : Sandbox Provider -> M Provider A) :
  (forall s, respects grows (body (asSandbox i s))) -> respects grows (instance ← instanceOf i; body instance).
Proof.
  intros Hb p. unfold instanceOf, mbind, M_bind. destruct (dp_objects p !! i) as [s|]; [apply Hb|done].
Qed.

Lemma active_grows ctx : respects grows (ActiveContainers (W := W) (H := H) ctx).
Proof. unfold ActiveContainers. respect_steps; apply onHost_grows. Qed.

(** What a provider promises at the end of a program: what is not pending was destroyed. *)
Lemma nothing_pending (p : Provider) :
  Books p -> dp_pending p = ∅ -> forall i s, dp_objects p !! i = Some s -> released s.
Proof. intros [Hk _] Ep i s Hi. destruct (Hk i s Hi) as [Hl|Hr]; [by rewrite Ep, lookup_empty in Hl|done]. Qed.

Lemma Cleanup_empties (p p' : Provider) :
  (forall (pending : gmap string nat) token, is_Some (pending !! token) -> token ∈ range pending) ->
  NoDup (tokens p) -> Books p -> Cleanup (@range) p = (Ok None, p') -> dp_pending p' = ∅.
Proof.
  intros Hrange Hn Hb. unfold Cleanup. rewrite (M_bind_ret _ _ p (dp_pending p) p) by done. intros E.
  apply (cleanup_None _ _ _ _ _ Hn Hb) in E as [_ Hl]. apply map_eq. intros token. rewrite lookup_empty. apply Hl.
  destruct (dp_pending p !! token) eqn:Ht; [left; apply Hrange; by rewrite Ht|by right].
Qed.

Lemma join_nothing errs : errors_Join errs = None -> Forall (fun e => e = None) errs.
Proof.
  induction errs as [|[e|] errs IH]; intros He; [constructor|..].
  - exfalso. revert He. cbn. by case_match.
  - constructor; [done|]. apply IH. revert He. cbn. done.
Qed.

Lemma finally_Ok {V A} (cleanup : M V (list (option error))) (body : M V A) w a w' :
  finally cleanup body w = (Ok a, w') ->
  exists w1 errs, body w = (Ok a, w1) /\ cleanup w1 = (Ok errs, w') /\ Forall (fun e => e = None) errs.
Proof.
  unfold finally. intros (r & w1 & Hb & (errs & w2 & Hc & E)%M_bind_Ok)%M_bind_Ok.
  unfold try in Hb. destruct (body w) as [r' w1'] eqn:Eb. injection Hb as -> ->.
  destruct (errors_Join (failure r :: errs)) as [e|] eqn:Ej; [done|].
  apply lift_Ok in E as [-> ->]. apply join_nothing, Forall_cons in Ej as [_ He]. eauto.
Qed.

Lemma finally_respects {V A} (R : V -> V -> Prop) `{!PreOrder R} (cleanup : M V (list (option error))) (body : M V A) :
  respects R cleanup -> respects R body -> respects R (finally cleanup body).
Proof. intros Hc Hb. unfold finally. respect_steps; assumption. Qed.

Lemma onFailure_respects {V A} (R : V -> V -> Prop) `{!PreOrder R} (cleanup : M V (list (option error))) (body : M V A) :
  respects R cleanup -> respects R body -> respects R (onFailure cleanup body).
Proof. intros Hc Hb. unfold onFailure. respect_steps; assumption. Qed.

Lemma onFailure_Ok {V A} (cleanup : M V (list (option error))) (body : M V A) w a w' :
  onFailure cleanup body w = (Ok a, w') -> body w = (Ok a, w').
Proof.
  unfold onFailure. intros (r & w1 & Hb & E)%M_bind_Ok. unfold try in Hb. destruct (body w) as [r' w1'].
  injection Hb as -> ->. destruct r as [b|e]; [by apply mret_Ok in E as [-> ->]|].
  by apply M_bind_Ok in E as (? & ? & _ & E).
Qed.

Lemma destroyAndCleanup_grows i : respects grows (destroyAndCleanup (W := W) (H := H) (@range) i).
Proof. unfold destroyAndCleanup. respect_steps; [apply Destroy_grows|apply Cleanup_grows]. Qed.

Lemma respects_run {V A} (R : V -> V -> Prop) (m : M V A) w r w' : respects R m -> m w = (r, w') -> R w w'.
Proof. intros Hm E. specialize (Hm w). by rewrite E in Hm. Qed.

(** A range meets every key. *)
Hypothesis range_all : forall (pending : gmap string nat) token, is_Some (pending !! token) -> token ∈ range pending.

(** A clean-up without an error ends with nothing pending. *)
Lemma ends_empty config w (p p' : Provider) :
  grows (NewDockerProvider config w) p -> Cleanup (@range) p = (Ok None, p') -> NoDup (tokens p') -> dp_pending p' = ∅.
Proof.
  intros [_ Hb] Hc Hn. pose proof (respects_run _ _ _ _ _ (Cleanup_grows (@range)) Hc) as [Ht _].
  assert (NoDup (tokens p)) as Hn' by by eapply prefix_NoDup. eapply Cleanup_empties; [done|exact Hn'| |exact Hc].
  apply Hb; [done|apply steps_fresh].
Qed.

Section recorded.
Context `{MemoryAudit W} `{WallClock W} `{ReplayPlace W}.

Lemma replay_grows ctx request : respects grows (replayReasoner (W := W) (H := H) ctx request).
Proof. unfold replayReasoner. respect_steps. apply onHost_grows. Qed.

Lemma agent_grows registry config i s agent timed runID attemptID request :
  NewCodingAgent (Some replayReasoner) (Some (scenarioService (W := W) (H := H) registry config (asSandbox i s))) 8 = Ok agent ->
  respects grows (RunAgent agent timed runID attemptID request).
Proof.
  cbn [NewCodingAgent]. intros (contracts & _ & [= <-])%bind_Ok.
  apply RunAgent_respects; [apply _|intros; apply service_grows|apply replay_grows].
Qed.

Lemma driveScenario_grows timed scenario contracts registry config fixture origin i :
  respects grows (driveScenario (H := H) (@range) timed scenario contracts registry config fixture origin i).
Proof.
  apply instance_grows. intros s.
  eapply (respects_bind_ensured _ (fun agent => NewCodingAgent _ _ _ = Ok agent)); [apply respects_lift; apply _|by intros p a p' [? _]%lift_Ok|].
  intros agent Ha. apply respects_bind; [apply _|by eapply agent_grows|]. intros res.
  respect_steps; first [apply Destroy_grows|apply onHost_grows|apply active_grows].
Qed.

(** What a scenario has seen when it succeeds *)
Lemma driveScenario_Ok timed scenario contracts registry config fixture origin i (p p' : Provider) :
  driveScenario (H := H) (@range) timed scenario contracts registry config fixture origin i p = (Ok tt, p') ->
  exists after w w', originOf fixture w = (Ok after, w') /\ originChanged origin after = false.
Proof.
  intros (instance & p1 & _ & (agent & p2 & _ & (res & p3 & _ & E)%M_bind_Ok)%M_bind_Ok)%M_bind_Ok.
  case_decide; [done|]. apply M_bind_Ok in E as (destroyErr & p4 & _ & (u & p5 & _ & (left & p6 & _ & E)%M_bind_Ok)%M_bind_Ok).
  destruct (negb _); [done|]. apply M_bind_Ok in E as (active & p7 & _ & E). case_decide; [done|].
  apply M_bind_Ok in E as (after & p8 & Ho & E). destruct (originChanged origin after) eqn:Hc; [done|].
  unfold onHost in Ho. destruct (originOf fixture (dp_host p7)) as [r w] eqn:Eo. injection Ho as -> _. eauto.
Qed.

Lemma sandboxScenario_grows timed scenario contracts registry config fixture origin :
  respects grows (sandboxScenario (H := H) (@range) timed scenario contracts registry config fixture origin).
Proof.
  apply respects_bind; [apply _|apply Create_grows|]. intros [[i|] [err|]]; respect_steps; try apply Destroy_grows.
  apply finally_respects; [apply _|apply destroyAndCleanup_grows|apply driveScenario_grows].
Qed.

(** A scenario, whatever happens in it: every sandbox of its provider is destroyed and
    audited, or still pending.  When it succeeds, none is pending, and the origin has the
    commit and the clean status it had before. *)
Theorem scenario_leaves_no_sandbox timed scenario contracts registry config fixture origin dockerConfig w r p' :
  sandboxScenario (H := H) (@range) timed scenario contracts registry config fixture origin (NewDockerProvider dockerConfig w) = (r, p') ->
  NoDup (tokens p') ->
  (forall i s, dp_objects p' !! i = Some s -> dp_pending p' !! ds_ownerToken s = Some i \/ released s) /\
  (r = Ok tt -> dp_pending p' = ∅ /\ (forall i s, dp_objects p' !! i = Some s -> released s) /\
     exists after w1 w2, originOf fixture w1 = (Ok after, w2) /\ originChanged origin after = false).
Proof.
  intros E Hn. pose proof (respects_run _ _ _ _ _ (sandboxScenario_grows _ _ _ _ _ _ _) E) as [_ Hb].
  specialize (Hb Hn (steps_fresh dockerConfig w)). split; [apply Hb|]. intros ->. unfold sandboxScenario in E.
  apply M_bind_Ok in E as ([[i|] [err|]] & p1 & Hc & E); try done; [by apply M_bind_Ok in E as (? & ? & _ & E)|].
  apply finally_Ok in E as (p2 & errs & Hd & Hclean & He).
  apply M_bind_Ok in Hclean as (d & p3 & Hd1 & (c & p4 & Hd2 & [-> ->]%mret_Ok)%M_bind_Ok).
  apply Forall_cons in He as [-> [-> _]%Forall_cons].
  assert (dp_pending p4 = ∅) as Ep.
  { eapply ends_empty; [|exact Hd2|exact Hn]. trans p1; [by eapply respects_run, Hc; apply Create_grows|].
    trans p2; [by eapply respects_run, Hd; apply driveScenario_grows|by eapply respects_run, Hd1; apply Destroy_grows]. }
  split; [done|]. split; [by apply nothing_pending|by eapply driveScenario_Ok].
Qed.
End recorded.

Section sandboxDemo.
Context `{FileAudit W} `{WallClock W}.

Lemma mustInvoke_grows registry config i s ctx invocation :
  respects grows (mustInvoke (W := W) (H := H) ctx (demoService registry config (asSandbox i s)) invocation).
Proof. unfold mustInvoke. respect_steps. apply service_grows. Qed.

Lemma driveTools_grows registry config i s ctx :
  respects grows (driveTools (W := W) (H := H) ctx (demoService registry config (asSandbox i s))).
Proof. unfold driveTools. respect_steps; first [apply mustInvoke_grows|apply onHost_grows|apply service_grows]. Qed.

(** Up to the clean-up *)
Lemma driveDemoSandbox_Ok ctx registry config i (p p' : Provider) :
  driveDemoSandbox (@range) ctx registry config i p = (Ok tt, p') ->
  exists p1, grows p p1 /\ Cleanup (@range) p1 = (Ok None, p').
Proof.
  unfold driveDemoSandbox, instanceOf, mbind at 1, M_bind at 1. destruct (dp_objects p !! i) as [s|]; [|done].
  intros (u & p1 & HS1 & (v & p2 & HS2 & (d & p3 & HS3 & (x & p4 & HS4 & (c & p5 & HS5 & E)%M_bind_Ok)%M_bind_Ok)%M_bind_Ok)%M_bind_Ok)%M_bind_Ok.
  destruct d; [done|]. injection HS4 as <- <-. destruct c; [done|]. injection E as <-. exists p3. split; [|done].
  trans p1; [by eapply respects_run, HS1; apply onHost_grows|]. trans p2; [by eapply respects_run, HS2; apply driveTools_grows|].
  by eapply respects_run, HS3; apply Destroy_grows.
Qed.

Lemma driveDemoSandbox_grows ctx registry config i : respects grows (driveDemoSandbox (W := W) (H := H) (@range) ctx registry config i).
Proof.
  apply instance_grows. intros s.
  respect_steps; first [apply onHost_grows|apply driveTools_grows|apply Destroy_grows|apply Cleanup_grows].
Qed.

Lemma sandboxDemo_grows ctx registry config repository before :
  respects grows (sandboxDemo (W := W) (H := H) (@range) ctx registry config repository before).
Proof.
  apply respects_bind; [apply _|apply Create_grows|]. intros [[i|] [err|]];
    respect_steps; first [apply Destroy_grows|apply Cleanup_grows|apply onHost_grows|apply active_grows|idtac].
  apply onFailure_respects; [apply _|apply destroyAndCleanup_grows|apply driveDemoSandbox_grows].
Qed.

(** What is said after the clean-up leaves the books alone. *)
Definition unmoved (p p' : Provider) : Prop := dp_objects p' = dp_objects p /\ dp_pending p' = dp_pending p.

#[local] Instance unmoved_preorder : PreOrder unmoved.
Proof. split; [by intros p|]. intros p1 p2 p3 [E1 E2] [E3 E4]. split; congruence. Qed.

Lemma onHost_unmoved {A} (c : M W A) : respects unmoved (onHost (H := H) c).
Proof. intros p. unfold onHost. by destruct (c (dp_host p)). Qed.

(** The demonstration of the sandbox, whatever happens in it: every sandbox of its
    provider is destroyed and audited, or still pending.  When it succeeds, none is
    pending, and the origin has the digest and the status it had before. *)
Theorem sandbox_demo_leaves_no_sandbox ctx registry config repository before dockerConfig w r p' :
  sandboxDemo (W := W) (H := H) (@range) ctx registry config repository before (NewDockerProvider dockerConfig w) = (r, p') ->
  NoDup (tokens p') ->
  (forall i s, dp_objects p' !! i = Some s -> dp_pending p' !! ds_ownerToken s = Some i \/ released s) /\
  (r = Ok tt -> dp_pending p' = ∅ /\ (forall i s, dp_objects p' !! i = Some s -> released s) /\
     exists w1 w2, demoOrigin ctx repository w1 = (Ok before, w2)).
Proof.
  intros E Hn. pose proof (respects_run _ _ _ _ _ (sandboxDemo_grows _ _ _ _ _) E) as [_ Hb].
  specialize (Hb Hn (steps_fresh dockerConfig w)). split; [apply Hb|]. intros ->. unfold sandboxDemo in E.
  apply M_bind_Ok in E as ([[i|] [err|]] & p1 & Hc & E); try done.
  1,3: by apply M_bind_Ok in E as (? & ? & _ & (? & ? & _ & E)%M_bind_Ok).
  apply M_bind_Ok in E as ([] & p2 & Hd%onFailure_Ok%driveDemoSandbox_Ok & E). destruct Hd as (p3 & Hg & Hclean).
  assert (unmoved p2 p' /\ exists w1 w2, demoOrigin ctx repository w1 = (Ok before, w2)) as [[Eo Ed] Horigin].
  { apply M_bind_Ok in E as (containers & p4 & HS4 & E). case_decide; [done|].
    apply M_bind_Ok in E as (after & p5 & HS5 & (u & p6 & HS6 & E)%M_bind_Ok). case_decide as Hsame; [done|].
    subst after. apply M_bind_Ok in E as (v & p7 & HS7 & (a & p8 & HS8 & HS9)%M_bind_Ok).
    split.
    - trans p4; [eapply respects_run, HS4; unfold ActiveContainers; respect_steps; apply onHost_unmoved|].
      assert (forall A (c : M W A) q q' o, onHost (H := H) c q = (o, q') -> unmoved q q') as Hm.
      { intros A c q q' o E. by eapply respects_run, E; apply onHost_unmoved. }
      trans p5; [by eapply Hm|]. trans p6; [by eapply Hm|]. trans p7; [by eapply Hm|]. trans p8; by eapply Hm.
    - unfold onHost in HS5. destruct (demoOrigin ctx repository (dp_host p4)) as [o w2] eqn:Eo. injection HS5 as -> _. eauto. }
  assert (dp_pending p' = ∅) as Ep.
  { rewrite Ed. eapply ends_empty; [|exact Hclean|by unfold tokens in *; rewrite <- Eo].
    trans p1; [by eapply respects_run, Hc; apply Create_grows|done]. }
  split; [done|]. split; [by apply nothing_pending|done].
Qed.
End sandboxDemo.
End guarantees.

(** ** Migrations *)

Section migrated.
Context {W : Type} `{WorktreeHost W} `{ProgramHost W} `{Migrate W}.

(** A migration that got a runner closes it, once, as the last thing it does; and it
    succeeds exactly when the library does or has nothing to change. *)
Theorem migration_closes_its_runner databaseURL path migration w :
  migrating databaseURL path migration w =
  match newRunner databaseURL path w with
  | (Err e, w1) => (Err e, w1)
  | (Ok runner, w1) =>
      let '(r, w2) := migration runner w1 in
      ((match r with Ok _ => Ok tt | Err e => if IsNoChange e then Ok tt else Err (Wrap e) end), runner_Close runner w2)
  end.
Proof.
  unfold migrating, mbind at 1, M_bind at 1. destruct (newRunner databaseURL path w) as [[runner|e] w1]; [|done].
  unfold deferring, try, attempt, mbind, M_bind, modify, lift, throw, mret, M_ret.
  destruct (migration runner w1) as [[[]|e] w2]; [done|]. by destruct (IsNoChange e).
Qed.
End migrated.

(** * A demonstration at work *)

From S2P Require Import WireTheorems DockerWitnesses.

#[local] Existing Instance plainFiles.
#[local] Instance stageErrors : ErrorText := fun _ => "error".

(** The scripted machine with an audit file and an output. *)
Record Stage : Type := MkStage {
  sg_script : Script;
  sg_file : FileAuditRecorder;
  sg_output : list DemoOutput
}.

Definition onScript {A} (m : M Script A) : M Stage A := fun w =>
  let '(r, s) := m (sg_script w) in (r, MkStage s (sg_file w) (sg_output w)).
Definition byScript {A} (f : Script -> A * Script) (w : Stage) : A * Stage :=
  let '(a, s) := f (sg_script w) in (a, MkStage s (sg_file w) (sg_output w)).

#[local] Instance stageHost : Host Stage := {|
  ctx_Error := fun d => byScript (ctx_Error d);
  exec := fun d command => byScript (exec d command);
  sleep := fun _ w => w;
  time_Now := fun w => (0%Z, w);
  rand_Read := fun n => onScript (rand_Read n);
  Lstat := fun p => onScript (Lstat p);
  Stat := fun p => onScript (Stat p);
  ReadFile := fun p => onScript (ReadFile p);
  WriteFile := fun _ _ _ => mret tt;
  Chmod := fun _ _ => mret tt;
  ReadDir := fun _ => mret []
|}.

#[local] Instance stageWorktreeHost : WorktreeHost Stage := {|
  os_getwd := mret "/work";
  os_TempDir := fun _ => "/tmp";
  os_Geteuid := fun _ => 1000%Z;
  filepath_EvalSymlinks := mret;
  file_Identity := fun _ => mret (0, 0)%Z;
  file_Owner := fun _ => mret None;
  os_MkdirAll := fun _ _ => mret tt;
  os_Mkdir := fun _ _ => mret tt;
  os_Remove := fun _ => mret tt;
  os_RemoveAll := fun _ => mret tt;
  tree_OpenRoot := fun _ => mret tt;
  tree_MkdirAll := fun _ _ => mret tt;
  tree_Create := fun _ _ => mret tt;
  tree_Close := fun _ => mret tt;
  tree_Remove := fun _ => mret tt;
  tree_Symlink := fun _ _ => mret tt;
  exec_to_file := fun _ _ _ w => (silent, w)
|}.

#[local] Instance stageWorktrees : Worktrees Stage string := {|
  worktree_Create := fun _ _ w => (Created "/trees/a", w);
  worktree_Destroy := fun _ _ => mret tt;
  worktree_Workspace := id
|}.

#[local] Instance stageProgram : ProgramHost Stage := {|
  os_MkdirTemp := fun _ pattern => mret ("/tmp/" +:+ pattern +:+ "1");
  os_CopyFS := fun _ _ => mret tt;
  os_OpenRead := fun _ => mret (("", None), None);
  os_OpenAppend := fun _ => mret "";
  os_Environ := fun _ => ["PATH=/bin"];
  TimeStamp := fun _ => "20260101T000000.000000000Z";
  print := fun what w => MkStage (sg_script w) (sg_file w) (sg_output w ++ [what])
|}.

#[local] Instance stageFile : FileAudit Stage := {|
  audit_file := sg_file;
  set_audit_file := fun f w => MkStage (sg_script w) f (sg_output w)
|}.

#[local] Instance stageClock : WallClock Stage := fun _ => "2026-01-01T00:00:00Z".

(** A policy that allows every built-in tool in the whole repository *)
#[local] Instance stageYAML : YAML := {|
  decodeFirst := fun _ => Ok (MkRawConfig "v1" "deny" []
    (map (fun c => MkRawRule (ct_Name c) (ct_Capability c) (ct_ReadOnly c) ["."] false "1h" (ct_OutputLimit c)) builtinContracts));
  decodeNext := fun _ => EndOfInput
|}.

(** What git and docker reply: to the fixture, the origin, the image, five commands of
    tools, the destruction with its clean-up of the workspace, the listing, the origin. *)
Definition demoCommand (text : string) : list Ran :=
  [says firstID; described firstID "phase4-demo"; described firstID "phase4-demo"; says text; described firstID "phase4-demo"; silent].

Definition originReplies : list Ran :=
  [says ("go.mod" +:+ nulText +:+ "main.go" +:+ nulText +:+ "main_test.go" +:+ nulText); silent].

Definition demoReplies : list Ran :=
  [silent; silent; silent] ++ originReplies ++ [says sampleImage] ++
  concat (map demoCommand ["main.go"; "package demo"; "main.go:3:before"; "patched main.go"; "ok"]) ++
  [silent] ++ demoCommand "" ++ [silent] ++ originReplies.

Definition demoStage : Stage := MkStage (MkScript demoReplies [] []) (MkFileAuditRecorder "" "" false) [].

Definition demoRun : result unit * Stage :=
  runSandboxDemo (W := Stage) (H := string) (@mapRange) background "configs/policy.yaml" "" "" demoStage.

(** The whole program: what it prints, and that every process was used. *)
Example demonstration_runs :
  fst demoRun = Ok tt /\ sc_replies (sg_script (snd demoRun)) = [] /\
  match sg_output (snd demoRun) with
  | [OriginBefore before _; SandboxCreated workspace; ToolOutput "repo.list" 0 _; ToolOutput "repo.read" 0 _;
     ToolOutput "repo.search" 0 _; WorktreeModified 0 _; HostPathRejected _; NetworkAndTests 0 _; OriginAfter after _;
     DestroyVerified; AuditArtifactLine artifact] =>
      workspace = "/trees/a" /\ before = after /\
      aa_Path artifact = "/tmp/agentdock-phase4-audit-20260101T000000.000000000Z.jsonl"
  | _ => False
  end.
Proof. vm_compute. repeat split. Qed.

(** Its part with the sandbox *)
Definition demoRegistry : Registry := match NewBuiltinRegistry with Ok r => r | Err _ => MkRegistry ∅ end.
Definition demoPolicy : Config := match Parse "" with Ok c => c | Err _ => MkConfig "" "" [] [] end.

Definition sandboxStage : Stage :=
  MkStage (MkScript (drop 5 demoReplies) [] []) (MkFileAuditRecorder "" "/audit.jsonl" true) [].

Definition demoBefore : string * string :=
  match fst (demoOrigin background "/repo" (MkStage (MkScript originReplies [] []) (sg_file sandboxStage) [])) with
  | Ok o => o
  | Err _ => ("", "")
  end.

Definition demoEnd : result unit * @DockerProvider Stage string :=
  sandboxDemo (@mapRange) background demoRegistry demoPolicy "/repo" demoBefore (NewDockerProvider (demoConfig "") sandboxStage).

Lemma mapRange_all {A} (m : gmap string A) key : is_Some (m !! key) -> key ∈ mapRange m.
Proof. intros [a Ha]. apply list_elem_of_fmap. exists (key, a). split; [done|]. by apply elem_of_map_to_list. Qed.

Lemma pair_of {A B} (x y : A * B) : x = y -> x = (fst y, snd y).
Proof. intros ->. apply surjective_pairing. Qed.

Lemma demoEnd_run :
  sandboxDemo (@mapRange) background demoRegistry demoPolicy "/repo" demoBefore (NewDockerProvider (demoConfig "") sandboxStage) =
  (fst demoEnd, snd demoEnd).
Proof. apply pair_of. unfold demoEnd. reflexivity. Qed.
Lemma demoEnd_Ok : fst demoEnd = Ok tt.
Proof. vm_compute. reflexivity. Qed.
Lemma demoEnd_tokens : tokens (snd demoEnd) = [sampleToken].
Proof. vm_compute. reflexivity. Qed.
Lemma demoEnd_distinct : NoDup (tokens (snd demoEnd)).
Proof. rewrite demoEnd_tokens. apply NoDup_singleton. Qed.

Lemma sandbox_demo_leaves_no_sandbox_witness :
  tokens (snd demoEnd) = [sampleToken] /\ dp_pending (snd demoEnd) = ∅ /\
  (forall i s, dp_objects (snd demoEnd) !! i = Some s -> released s).
Proof.
  destruct (sandbox_demo_leaves_no_sandbox (@mapRange) (fun pending => mapRange_all pending) background demoRegistry demoPolicy "/repo"
    demoBefore (demoConfig "") sandboxStage (fst demoEnd) (snd demoEnd) demoEnd_run demoEnd_distinct) as [_ Hend].
  destruct (Hend demoEnd_Ok) as (Hp & Hs & _). exact (conj demoEnd_tokens (conj Hp Hs)).
Defined.
